(* ===== verification/_CoqProject ===== *)
-Q . S2P
Prelude.v
JsString.v
Ast.v
Scenarios.v
Sandbox.v
NodePath.v
Reference.v
Healing.v
Content.v
Edits.v
Tracking.v
Writes.v
Address.v
TypeExpand.v
Text.v
Imports.v
HttpModel.v
Protocol.v
Declarations.v
Sharing.v
Rescan.v
Names.v
Rules.v
OpenApiExample.v
Harness.v
