(* ===== verification/Prelude.v ===== *)
(** * ADL core: a verification development for the reference and protocol layer

    The repository describes an API as a tree of TypeScript declarations held
    by a ts-morph project, keeps long-lived handles into that tree, and reads
    the HTTP side of the API off the tree by scanning it.  This development
    models the code under [src/] (the files [core/support/typescript.ts],
    [core/model/http/protocol.ts], the rule
    [plugins/azure/rules/require-read-only-properties.ts],
    [core/serialization/openapiv3/example.ts] and the tests of
    [core/test/load-openapi3.ts]) as Rocq functions and proves what makes
    it correct, or shows where it is not.

    ** The program and the files that model it

    - [Prelude] (this file): the result monad [res] for code that throws,
      JavaScript's [a || b] on possibly-undefined values, [mapM_res] for a
      [map] whose callback may throw, the tactics and the lemmas the
      components share, among them the lemmas on [list_find] in a list a
      statement is deleted from or inserted into ([insert_at]).
    - [JsString]: [startsWith], [indexOf], [substring], and
      [JSON.stringify] on a string ([json_quote]) with the reading of a
      string literal ([json_unquote]) and their round trip.
    - [Ast]: ts-morph, which the sources call on every line and which is not
      among them.  A file is a rose tree of [Node]s with a generation; a
      [Project] maps paths to files; a node object [NodeObj] is a file, a
      generation and a position, and [wasForgotten] holds of it once its file
      is parsed again ([parseFile]) or removed ([removeSourceFile]).
      Two projects hold the [same_tree] for a file when the file's tree is
      the same in both, whatever the generations; [transport] carries a
      node object to the generation the other project has.
    - [Scenarios]: files of [test/scenarios/] written as trees, the inputs of
      the witnesses.
    - [Sandbox]: [evaluateExpression] of [support/sandbox] as an interface
      (class [Sandbox], laws [SandboxLaws]) and an evaluator [tsEvaluate] for
      the two expressions the sources write, shown to satisfy the laws.
      The laws say what the two expressions return, that a result is a live
      node of the file of [$], that an evaluation reads that file only, and
      that it reads the tree and not the generation ([eval_content]).
    - [NodePath]: [getNodeIdentifier], [getPath] and [getNode] of
      [typescript.ts].  [getNode] shifts segments off the array it is given;
      [getNode_st] returns the array's final state beside the result.
    - [Reference]: [referenceTo].  The proxy's variable [current] and its
      constant [path] are the record [Ref]; each of the four traps is a
      function from the state to a result and the new state; [Reflect] is an
      interface.  Parses, removals and uses of a reference are the events of
      the step relation [reachable].
    - [Healing]: the reference of the specification, [resolve_address] of
      the captured path in the current project, and the invariant
      [coherent] that ties the node a proxy holds to it.
    - [Content]: every function of [NodePath] commutes with [transport];
      [content_at], the tree node an address ends on.
    - [Edits]: an edit of a file as the specification describes it, a parse
      of the edited text: [edit_file] applies a function to the statements
      of the file and parses the result, [remove_statement] and
      [insert_statement] are its instances.
    - [Tracking]: histories of a project and a reference, the step relation
      [edit_step] (an edit of the file that keeps the statement the first
      of its name, a parse or a removal of another file, a use of the
      reference) under [rtc], and the invariant [tracks].
    - [Writes]: what [Reflect.get] returns after [Reflect.set], as the
      interface [ReflectLaws], which [own_properties] satisfies.
    - [Address]: [computeAddress], the address the specification gives a
      node, computed from the root of its file down, with the segments of
      [getNodeIdentifier].
    - [TypeExpand]: [expandUnion], [getDefinition], [expandLiterals].
    - [Text]: [getInnerText] and the properties [relativePath] and
      [fullPath]; [getAbsolutePath] of [support/file-system] is a parameter.
    - [Imports]: [createImportFor], [addImportsTo], [createImportsFor],
      [addNullable].  Structures are JavaScript objects ([json], keys in
      insertion order) compared by their JSON text, as the code compares
      them.
    - [HttpModel]: the enumerations and classes of [protocol.ts] up to
      [ConnectionVariable], a module per class (record [t], initializer
      [Partial.t], constructor [new]), and the meaning the specification
      gives them ([resolve], [authorized], [valid_reference], [admits]).
      The initializer of [AuthenticationReference] is the object the
      constructor is given at run time, with the keys of the reference and
      of the requirement; [Initializer.typed] holds of those the declared
      type admits.
    - [Protocol]: [isHeader], [isParameterTypeAlias] and the class
      [HttpProtocol]: its constructor, which registers the header test in
      the api model, its six scanning getters, and the two operations that
      throw.  The tests of [model/api-model] are the interface [ApiShapes].
      [getAPI] of [typescript.ts] is here, with the api model it returns.
    - [Declarations]: the [Declaration] the getters wrap their nodes in, as
      the specification describes it: a reference and the constructor of a
      view, the lazy [value], equality by address.
    - [Sharing]: histories of a project and two references to one
      statement, the step relation [shared_step]: a step of [Tracking]
      taken by either reference.
    - [Rescan]: the addresses of a scan as a function of the statements:
      [documents], the path and the statements of each file of a protocol,
      and [addresses_of], which reads the addresses of a view off them;
      [view_scans] lists the scans each getter is made of.
    - [Names]: the files in which every path finds its statement again:
      [well_named], statements with distinct names, no values and [plain]
      identifiers; the predicate is decidable and is kept by the removal of
      a statement.
    - [Rules]: the rule [require-read-only-properties] with its handler and
      its two fixes.
    - [OpenApiExample]: [processExamples], a stub.
    - [Harness]: the Mocha tests of [core/test/load-openapi3.ts]:
      [checkAttic], the two suites and the bodies of their tests, as
      computations on a world that holds the file system ([IO]; [await]
      is its bind).  What the tests call is the interface [Collaborators],
      with the law [AsyncIoLaws] and an implementation in memory
      ([memory]).

    ** What the theorems show

    - Addresses ([NodePath]): [getNode] after [getPath] returns a statement of
      a file whenever the identifier of the statement finds it
      ([getNode_getPath_statement]); the path of any node below a statement
      starts with the wrong segment and does not resolve
      ([getNode_getPath_nested_fails]), because ts-morph lists ancestors
      from the parent up; the path of a statement whose name an earlier
      statement has resolves to the earlier one
      ([getNode_getPath_shadowed]); a path written from the file down
      resolves an enum member ([getNode_enum_member]); whatever [getNode]
      returns is a node of the current tree ([getNode_live]) and the path
      array is consumed ([getNode_st_consumes]); the segments given to
      [getPath] after the node are followed from the node
      ([getNode_getPath_args]).  For a statement found by
      its name ([by_name]) the condition of the round trip is exact:
      [getNode] after [getPath] returns the statement if and only if it is
      [addressable] ([getNode_getPath_exact]); a statement [found_as]
      another in an edited list is reached by the same path
      ([getNode_found_as]).
    - References ([Reference]): a reference is transparent while its node
      lives, reacquires a statement after a re-parse and keeps it, leaves
      its state alone when the lookup throws, and is lost for good when the
      lookup finds nothing; along every sequence of events the path is
      constant and every node yielded is live ([reference_access_live], by
      induction on [reachable] with the invariant [ref_ok]).
    - Refinement ([Healing]): [getNode] on a path reads the file the path
      names and nothing else ([getNode_local]), so a node that is not
      forgotten stays the resolution of its path while other files change;
      hence, in every reachable state, a use of a reference that holds a
      node returns what resolving its path would
      ([reference_refines_resolution]).  A path that ends in an index heals
      to whatever statement is at the index ([reference_heals_by_position]);
      a reference to a node below a statement throws on every use once the
      node is forgotten ([reference_nested_never_heals]).
    - Determinism ([Content]): [getNode] reads the tree an address names
      and not its generation: in two projects with the same tree for that
      file it returns the nodes at the same place, or nothing, or the same
      error, and ends on the same tree node ([getNode_content]); a
      reference whose file is parsed again from unchanged text holds the
      node at the same place ([reference_heals_unchanged]).
    - Edits ([Edits]): a reference to a statement found by its name follows
      the statement when another statement is removed
      ([reference_survives_removal]) or inserted
      ([reference_survives_insertion]), to the index it has moved to; when
      a statement that answers to the same name is inserted before it, the
      reference goes to the inserted one
      ([reference_taken_by_insertion]); removing a statement and inserting
      it again where it was gives the reference back the node it had, one
      generation later ([reference_heals_reinserted]).
    - Histories ([Tracking]): along every history of [edit_step]s, of any
      length, a use of the reference returns a live node that is the
      statement, and the traps of the proxy act on it
      ([reference_tracks_statement], by induction on [rtc] with the
      invariant [tracks]; the traps by [traps_on_target] of [Reference]).
      Every history is a sequence of the events of [Reference]
      ([history_reachable]), so what holds in every reachable state holds
      along it.
    - Writes ([Writes]): a value written through a reference is read back
      through it while its node lives ([proxy_set_get]); once the node is
      forgotten the reference holds the node object of the new tree and a
      read returns what it would have had nothing been written
      ([proxy_write_forgotten]), so a healed reference is told from the
      node it was made for by a write and a read.
    - Sharing ([Sharing]): each proxy keeps a node of its own, and two
      references to one statement agree all the same: along every history
      of [shared_step]s uses of the two return the same node object, the
      statement, and what one writes the other reads
      ([references_agree], from the invariant [tracks] of each reference
      and [tracks_agree]).  Without the statement in the file they part:
      the reference that is used while the node is gone is lost for good,
      its copy that is not used heals ([references_diverge] of
      [Reference]).
    - Addresses of the specification ([Address]): the path of [getPath] is
      the address with its ancestors in the opposite order
      ([computeAddress_getPath], by induction on the position).  [getNode]
      resolves the address of an enum member
      ([resolve_computeAddress_enum_member]) and not that of a member of an
      interface, which it looks for among the children of the declaration
      and not in the syntax list below it
      ([resolve_computeAddress_member_fails]).
    - Scans ([Protocol]): each getter returns exactly the statements of its
      kind that pass its test, in the order of the files and of the
      statements, all live; scans of projects that hold the same trees
      return the same declarations up to [transport]
      ([declarations_of_content]); every declaration has the view of its getter
      and a node that [IsTypeDeclaration] accepts ([getters_well_typed]);
      [results] puts aliases before interfaces; [parameters] is always
      empty; a forgotten file object makes every scan throw.
    - Composition ([Declarations]): a declaration wrapped from a scan
      yields, after its file is parsed again, a declaration of the same
      file and identifier that the new scan returns exactly when that
      declaration is the first of its file to answer to the name
      ([value_after_edit], from the lemmas on scans, paths and
      references; of a merged interface it yields the first declaration,
      [value_merged]), with the view it was wrapped for even when the
      node has left that collection; declarations are
      equal exactly when file and identifier are ([same_declaration_spec]),
      and equal declarations, wrapped by scans of whatever trees for
      statements that their identifiers address, have their values at the
      same node ([same_declaration_same_node]);
      the addresses a scan wraps are the same in projects that hold the
      same trees ([rescan_same_declarations]); a declaration
      yields its statement along every history of [Tracking]
      ([declaration_tracks_statement]).
    - Scans and edits ([Rescan]): the chain of the code, from the getter
      through [new Declaration], [referenceTo] and [getPath], computes
      [addresses_of] on the documents and throws exactly when a file
      object is forgotten ([scanned_addresses_spec]); after an edit it
      computes [addresses_of] on the edited documents
      ([rescan_after_edit]); the removal of a statement takes addresses
      away and neither adds, changes nor moves any, and leaves the scan as
      it was when no getter selects the statement
      ([rescan_after_removal]), an insertion adds addresses
      ([rescan_after_insertion]).
    - Well-named files ([Names]): in a file that is [well_named] the round
      trip holds for every statement, named or not
      ([well_named_round_trip]), identifiers are injective
      ([statement_identifier_inj]), and so the declarations a getter
      returns over distinct files have distinct addresses
      ([scanned_addresses_NoDup]); an edit that keeps a file well named is
      a step of the histories of [Tracking] for every named statement it
      keeps ([well_named_edit_step]).
    - Types ([TypeExpand]): [expandUnion] against the inductive definition
      of the leaves of a union; the results of [expandLiterals] do not
      depend on the fuel, which is enough when aliases are not circular, and
      never enough when they are.
    - Imports ([Imports]): [addImportsTo] adds a duplicate-free sub-list of
      the imports in order, but never recognises an import the file has;
      [createImportsFor] imports from other files only.
    - Model ([HttpModel], [Rules]): an initializer of the declared type
      gives a reference neither scopes nor authentication
      ([AuthenticationReference_new_typed]); authorization is OR over
      requirements of AND over references; the rule on properties reports
      exactly the violations and each fix removes the violation.
    - Tests ([Harness]): [checkAttic] returns the accumulator of errors as
      it was given, every check of the attic being commented out
      ([checkAttic_errors]); on a file system that satisfies
      [AsyncIoLaws], which is assumed of [async-io] and proved of the
      implementation in memory only, the assertions of a test hold once
      its calls have returned ([verify_after_emit],
      [Processes_file_passes], [Processes_folder_passes]).  The tests of
      the single files are those of the regular files of the input folder
      that do not start with an underscore
      ([Load_Single_OAI3_files_titles]).

    ** Conventions, bounds, fuel

    - A JavaScript function that may throw returns [res A]; [undefined] is
      [None].  Exceptions carry the constructor that raised them and its
      message, so that error theorems name the exact failure.
    - Mutable state is passed explicitly; a function that mutates an argument
      returns the argument's final state as well.
    - [getNode] recurses on the path it consumes and [createImportsFor] on
      the tree of required references: both are structural and need no
      fuel.  [expandLiterals] follows type aliases through the symbol table
      and has no bound in the source; it takes fuel, one unit per call.
      [OutOfFuel] is an artefact of the model: [expandLiterals_enough_fuel]
      gives the fuel, [2 * k + 2] for names of rank below [k], under which it
      is never produced, and [expandLiterals_fuel_mono] shows that results do
      not depend on the fuel.
    - Strings are byte strings; [\w] of a regular expression is the ASCII
      class.  Numbers that index children are integers.
    - Histories are sequences of any length: [reachable] and [edit_step]
      are inductive relations and their theorems are by rule induction, so
      no bound on the number of events is chosen.

    ** What is not modelled

    - The libraries and modules the sources import and that are not under
      [src/]: ts-morph (modelled from its documented behaviour in [Ast], to
      the extent the sources use it), [support/sandbox] (an interface and
      one evaluator), [model/element], [model/alias], [model/api-model],
      [model/project/protocol], [model/typescript/reference] (interfaces or
      parameters where the sources call them).
    - Of ts-morph, what the sources do not rely on.  [getSourceFile] is the
      lookup of a path as the project holds it, which is how [getNode]
      calls it on the paths [getPath] writes ([getFilePath] is absolute);
      the search by the last segments that ts-morph makes for a name
      without folder is not modelled, and a name without folder is taken
      for a path.  [parseFile] replaces the document wholesale, as the
      specification describes a re-parse: every node object of the file
      is forgotten, the object of the file among them, where ts-morph's
      overwrite keeps the object of the file and forgets what is below
      it; the sources hold statements and what is below them in their
      references.  [Object.prototype.toString] is taken for the text of a
      node in a template ([node_toString]), ts-morph's nodes declaring no
      [toString]; the keys of [getStructure] and the numbers of
      [StructureKind] are those of one version of ts-morph: the text of a
      structure that ts-morph returns and of one that [createImportFor]
      builds differ at the second key there ([created_not_existing]), and
      in any order of the keys at the named imports, which are objects
      in the one and strings in the other.  The text of the error [getSourceFile] throws
      for an argument that is no string ([not_a_path]) is the library's.
    - The rule [plugins/azure/rules/parameter-description-required.ts]:
      every line of the file is a comment, and nothing of it runs.
    - The manipulation methods of ts-morph ([remove], [insertStatements],
      [replaceWithText]), which keep the objects of the nodes an edit does
      not touch: the sources under [src/] call none of them, and the
      specification describes an edit as a new parse, which is what
      [edit_file] is.  A reference whose node such a method keeps alive is
      the transparent case of [Reference].
    - Every line of the implementation files that executes is the source
      of a definition; the lines no definition translates are imports,
      comments, blank lines and the closing lines of blocks.  Of the
      tests, the installation of [source-map-support] is left out as
      well.
    - What the tests of [test/load-openapi3.ts] call (the importer, the
      serializer, the file system, [path], regular expressions): these
      are the fields of an interface, and the implementation in memory
      stands for them on absolute paths and names with extensions of
      letters only.  [console.log] and the stopwatch print and are left
      out.
    - The generated files under [test/scenarios/], which are data: some of
      them are written as trees in [Scenarios] and are the inputs of the
      witnesses. *)

From Stdlib Require Import Ascii String.
From stdpp Require Import base option strings list.

(** ** Exceptions and the result monad *)

(** What the modelled code can throw. *)
Inductive error : Type :=
| AssertionError (msg : string)  (* assert.fail(msg) *)
| JsError (msg : string)         (* throw new Error(msg) *)
| TypeError (msg : string)       (* a call or property access on undefined *)
| LibError (msg : string)        (* thrown inside a ts-morph accessor *)
| OutOfFuel.                     (* the model ran out of fuel *)

Inductive res (A : Type) : Type :=
| Ok (a : A)
| Err (e : error).
Arguments Ok {A} a.
Arguments Err {A} e.

#[export] Instance error_eq_dec : EqDecision error.
Proof. solve_decision. Defined.

#[export] Instance res_eq_dec `{EqDecision A} : EqDecision (res A).
Proof. solve_decision. Defined.

#[export] Instance res_ret : MRet res := @Ok.

#[export] Instance res_bind : MBind res := fun A B f m =>
  match m with
  | Ok a => f a
  | Err e => Err e
  end.

#[export] Instance res_fmap : FMap res := fun A B f m =>
  match m with
  | Ok a => Ok (f a)
  | Err e => Err e
  end.

(** [is_ok m]: the call returned. *)
Definition is_ok {A} (m : res A) : bool :=
  match m with Ok _ => true | Err _ => false end.

(** [of_option e o]: [o || fail(e)], the value or the exception. *)
Definition of_option {A} (e : error) (o : option A) : res A :=
  match o with Some a => Ok a | None => Err e end.

(** JavaScript's [a || b] on values that are objects or [undefined]. *)
Definition js_or {A} (a b : option A) : option A :=
  match a with Some _ => a | None => b end.

(** [m.map(f)] where [f] may throw: the first exception wins. *)
Fixpoint mapM_res {A B} (f : A -> res B) (l : list A) : res (list B) :=
  match l with
  | [] => Ok []
  | a :: l' => b ← f a; bs ← mapM_res f l'; Ok (b :: bs)
  end.

(** [array.splice(k, 0, x)]: [x] put before the element at [k], or at the
    end when the list is shorter. *)
Definition insert_at {A} (k : nat) (x : A) (l : list A) : list A := take k l ++ x :: drop k l.

Declare Scope adl_scope.
Delimit Scope adl_scope with adl.
Notation "a '|?' b" := (js_or a b) (at level 50, left associativity) : adl_scope.
Notation "'throw' e" := (Err e) (at level 10, e at level 9) : adl_scope.
Open Scope adl_scope.

(** ** Tactics *)

(** Case analysis on a result or an option that the goal matches on or
    binds, innermost first, keeping the equation; a scrutinee that is already
    a constructor is left to [simpl]. *)
Ltac case_on m :=
  lazymatch m with
  | Ok _ => fail
  | Err _ => fail
  | Some _ => fail
  | None => fail
  | mbind _ _ => fail
  | fmap _ _ => fail
  | match _ with Ok _ => _ | Err _ => _ end => fail
  | match _ with Some _ => _ | None => _ end => fail
  | _ => let E := fresh "E" in destruct m eqn:E
  end.

Ltac case_res :=
  match goal with
  | |- context [match ?m with Ok _ => _ | Err _ => _ end] => case_on m
  | |- context [mbind _ ?m] => case_on m
  | |- context [fmap _ ?m] => case_on m
  | |- context [match ?m with Some _ => _ | None => _ end] => case_on m
  end.

Create HintDb adl discriminated.
Create Rewrite HintDb adl_rw.

(** ** Lemmas on the result monad *)

Section res_lemmas.
Context {A B C : Type}.
Implicit Types (m : res A) (f : A -> res B) (g : B -> res C).

Lemma bind_Ok a f : Ok a ≫= f = f a.
Proof. reflexivity. Qed.

Lemma bind_Err e f : Err e ≫= f = Err e.
Proof. reflexivity. Qed.

Lemma bind_ret m : m ≫= Ok = m.
Proof. by destruct m. Qed.

Lemma bind_assoc m f g : (m ≫= f) ≫= g = m ≫= (fun a => f a ≫= g).
Proof. by destruct m. Qed.

Lemma bind_Ok_inv m f b :
  m ≫= f = Ok b <-> exists a, m = Ok a /\ f a = Ok b.
Proof.
  destruct m as [a|e]; simpl; split.
  - eauto.
  - by intros (? & [= <-] & ?).
  - done.
  - by intros (? & ? & ?).
Qed.

Lemma bind_Err_inv m f e :
  m ≫= f = Err e <-> m = Err e \/ exists a, m = Ok a /\ f a = Err e.
Proof.
  destruct m as [a|e']; simpl; split.
  - eauto.
  - intros [?|(? & ? & ?)]; congruence.
  - intros [= ->]. by left.
  - intros [?|(? & ? & ?)]; congruence.
Qed.

Lemma fmap_Ok_inv (h : A -> B) m b :
  h <$> m = Ok b <-> exists a, m = Ok a /\ b = h a.
Proof.
  destruct m as [a|e]; simpl; split.
  - intros [= <-]. eauto.
  - by intros (? & [= <-] & ->).
  - done.
  - by intros (? & ? & ?).
Qed.

(** Two computations run before their continuations: when each with its
    continuation is a function of the computation [d], so are the four. *)
Lemma bind_both {A' B' T E} (x : res A) (y : res B) (f : A -> res A') (g : B -> res B')
    (d : res T) (a : T -> A') (b : T -> B') (h : A' -> B' -> E) :
  x ≫= f = a <$> d -> y ≫= g = b <$> d ->
  (u ← x; w ← y; c ← f u; e ← g w; Ok (h c e)) = (fun t => h (a t) (b t)) <$> d.
Proof.
  destruct d, x, y; cbn [mbind res_bind fmap res_fmap]; intros Hx Hy;
    rewrite ?Hx, ?Hy; simplify_eq; done.
Qed.

Lemma is_ok_true m : is_ok m = true <-> exists a, m = Ok a.
Proof. destruct m; simpl; split; eauto; try done. by intros [? ?]. Qed.

Lemma of_option_Ok e (o : option A) a : of_option e o = Ok a <-> o = Some a.
Proof. destruct o; simpl; split; congruence. Qed.

Lemma of_option_Err e (o : option A) e' :
  of_option e o = Err e' <-> o = None /\ e' = e.
Proof.
  destruct o; simpl; split; try done.
  - by intros [? ?].
  - by intros [= <-].
  - by intros [_ ->].
Qed.

End res_lemmas.

#[export] Hint Rewrite @bind_Ok @bind_Err @bind_ret : adl_rw.

Section js_or_lemmas.
Context {A : Type}.
Implicit Types a b : option A.

Lemma js_or_Some_l x b : Some x |? b = Some x.
Proof. reflexivity. Qed.

Lemma js_or_None_l b : None |? b = b.
Proof. reflexivity. Qed.

Lemma js_or_None_r a : a |? None = a.
Proof. by destruct a. Qed.

Lemma js_or_Some a b x :
  a |? b = Some x <-> a = Some x \/ (a = None /\ b = Some x).
Proof. destruct a; simpl; split; try intros [?|[? ?]]; try congruence; eauto. Qed.

Lemma js_or_None a b : a |? b = None <-> a = None /\ b = None.
Proof. destruct a; simpl; split; try intros [? ?]; try congruence; eauto. Qed.

End js_or_lemmas.

#[export] Hint Rewrite @js_or_Some_l @js_or_None_l @js_or_None_r : adl_rw.

(** ** Lemmas on [mapM_res] *)

Section mapM_lemmas.
Context {A B : Type}.
Implicit Types (f : A -> res B) (l : list A).

Lemma mapM_res_app f l1 l2 :
  mapM_res f (l1 ++ l2) =
  bs1 ← mapM_res f l1; bs2 ← mapM_res f l2; Ok (bs1 ++ bs2).
Proof.
  induction l1 as [|a l1 IH]; simpl.
  - by autorewrite with adl_rw.
  - rewrite IH. by repeat (case_res; simpl).
Qed.

Lemma mapM_res_Ok_length f l bs :
  mapM_res f l = Ok bs -> length bs = length l.
Proof.
  revert bs. induction l as [|a l IH]; simpl; intros bs.
  - by intros [= <-].
  - do 2 (case_res; simpl; [|done]).
    intros [= <-]. simpl. f_equal. by apply IH.
Qed.

Lemma mapM_res_total f l :
  Forall (fun a => is_ok (f a) = true) l ->
  mapM_res f l = Ok (omap (fun a => match f a with Ok b => Some b | Err _ => None end) l).
Proof.
  induction 1 as [|a l Ha _ IH]; simpl; [done|].
  destruct (f a); [|done]. simpl. by rewrite IH.
Qed.

Lemma mapM_res_pure (h : A -> B) l : mapM_res (fun a => Ok (h a)) l = Ok (h <$> l).
Proof. induction l as [|a l IH]; simpl; [done|]. by rewrite IH. Qed.

(** No element throws [e]: neither does the map. *)
Lemma mapM_res_no_err f l e :
  Forall (fun a => f a <> Err e) l -> mapM_res f l <> Err e.
Proof.
  induction 1 as [|a l Ha _ IH]; simpl; [done|].
  destruct (f a); simpl; [|congruence].
  destruct (mapM_res f l); simpl; congruence.
Qed.

(** Two functions that agree wherever the first does not throw [e] give the
    same map, when that map does not throw [e]. *)
Lemma mapM_res_agree f g l e :
  (forall a, a ∈ l -> f a <> Err e -> g a = f a) ->
  mapM_res f l <> Err e -> mapM_res g l = mapM_res f l.
Proof.
  induction l as [|a l IH]; simpl; intros Hfg Hne; [done|].
  assert (Ha : f a <> Err e) by (intros E; by rewrite E in Hne).
  rewrite (Hfg a) by (done || apply elem_of_cons; by left).
  destruct (f a); simpl in *; [|done].
  rewrite IH; [done|intros; apply Hfg; [apply elem_of_cons; by right|done]|].
  intros E. by rewrite E in Hne.
Qed.

(** What holds of every result holds of the results of the map. *)
Lemma mapM_res_Forall f l bs (P : B -> Prop) :
  (forall a b, a ∈ l -> f a = Ok b -> P b) -> mapM_res f l = Ok bs -> Forall P bs.
Proof.
  revert bs. induction l as [|a l IH]; simpl; intros bs HP; [by intros [= <-]|].
  destruct (f a) as [b|] eqn:Hb; simpl; [|done].
  destruct (mapM_res f l) as [bs'|]; simpl; [|done]. intros [= <-].
  constructor; [apply (HP a); [apply elem_of_cons; by left|done]|].
  apply IH; [|done]. intros a' b' Hin. apply HP, elem_of_cons. by right.
Qed.

Lemma fmap_ne_Err (h : A -> B) (m : res A) e : m <> Err e -> h <$> m <> Err e.
Proof. destruct m; simpl; congruence. Qed.

Lemma mapM_res_ext f g l : (forall a, a ∈ l -> f a = g a) -> mapM_res f l = mapM_res g l.
Proof.
  induction l as [|a l IH]; simpl; intros H; [done|].
  rewrite (H a), IH; [done| |apply elem_of_cons; by left].
  intros a' Ha'. apply H, elem_of_cons. by right.
Qed.

Lemma mapM_res_fmap {A'} (h : A' -> A) f (l : list A') :
  mapM_res f (h <$> l) = mapM_res (fun a => f (h a)) l.
Proof. induction l as [|a l IH]; [done|]. rewrite fmap_cons. cbn [mapM_res]. by rewrite IH. Qed.

Lemma fmap_mapM_res {C} (h : B -> C) f l :
  fmap (M:=list) h <$> mapM_res f l = mapM_res (fun a => h <$> f a) l.
Proof.
  induction l as [|a l IH]; [done|]. cbn [mapM_res]. rewrite <- IH.
  destruct (f a); [|done]. by destruct (mapM_res f l).
Qed.

Lemma mapM_res_singleton f a : mapM_res f [a] = b ← f a; Ok [b].
Proof. simpl. by destruct (f a). Qed.

End mapM_lemmas.

(** ** Lemmas on lists *)

Section list_lemmas.
Context {A : Type}.

(** [Array.prototype.map], written [map] where the source has it, is the
    [fmap] of lists. *)
Lemma map_fmap {B} (h : A -> B) (l : list A) : map h l = h <$> l.
Proof. reflexivity. Qed.

(** A filter that no element passes is empty. *)
Lemma filter_nil_Forall (P : A -> Prop) `{!forall x, Decision (P x)} (l : list A) :
  Forall (fun x => ~ P x) l -> filter P l = [].
Proof.
  induction 1 as [|x l Hx _ IH]; [done|].
  by rewrite filter_cons, decide_False.
Qed.

(** A filter that every element passes keeps the list. *)
Lemma filter_all_Forall (P : A -> Prop) `{!forall x, Decision (P x)} (l : list A) :
  Forall P l -> filter P l = l.
Proof.
  induction 1 as [|x l Hx _ IH]; [done|].
  by rewrite filter_cons, decide_True, IH.
Qed.

(** A filter of a mapped list, when the two tests agree through the map. *)
Lemma filter_fmap_agree {B} (h : B -> A) (P : A -> Prop) (Q : B -> Prop)
    `{!forall x, Decision (P x)} `{!forall y, Decision (Q y)} (l : list B) :
  (forall y, P (h y) <-> Q y) -> filter P (h <$> l) = h <$> filter Q l.
Proof.
  intros HPQ. induction l as [|y l IH]; [done|].
  rewrite fmap_cons, !filter_cons, IH.
  destruct (decide (P (h y))) as [HP|HP], (decide (Q y)) as [HQ|HQ];
    [done|by apply HPQ in HP|by apply HPQ in HQ|done].
Qed.

(** ** Insertion and deletion in a list *)

Section splice.
Implicit Types (l : list A) (x y m : A) (i j k : nat).

Lemma insert_at_0 m l : insert_at 0 m l = m :: l.
Proof. unfold insert_at. by rewrite take_0, drop_0. Qed.

Lemma insert_at_S k m y l : insert_at (S k) m (y :: l) = y :: insert_at k m l.
Proof. reflexivity. Qed.

Lemma insert_at_nil k m : insert_at k m [] = [m].
Proof. unfold insert_at. by rewrite take_nil, drop_nil. Qed.

(** Deleting what was inserted gives the list back, and so does inserting
    again what was deleted. *)
Lemma delete_insert_at k m l : k <= length l -> delete k (insert_at k m l) = l.
Proof.
  revert l. induction k as [|k IH]; intros l Hk; [by rewrite insert_at_0|].
  destruct l as [|y l]; simpl in Hk; [lia|].
  rewrite insert_at_S. simpl. f_equal. apply IH. lia.
Qed.

Lemma insert_at_delete k m l : l !! k = Some m -> insert_at k m (delete k l) = l.
Proof.
  revert l. induction k as [|k IH]; intros [|y l] Hk; try done.
  - injection Hk as ->. by rewrite insert_at_0.
  - simpl. rewrite insert_at_S. f_equal. by apply IH.
Qed.

(** An element at or after an insertion is one place later. *)
Lemma lookup_insert_at_after k m l i x :
  l !! i = Some x -> k <= i -> insert_at k m l !! S i = Some x.
Proof.
  revert l i. induction k as [|k IH]; intros l i Hi Hk; [by rewrite insert_at_0|].
  destruct l as [|y l], i as [|i]; try done; try lia.
  rewrite insert_at_S. simpl in *. apply IH; [done|lia].
Qed.

End splice.

Section find.
Context (P : A -> Prop) `{!forall x, Decision (P x)}.
Implicit Types (l : list A) (x y m : A) (i j k : nat).

Lemma list_find_cons x l :
  list_find P (x :: l)
  = if decide (P x) then Some (0, x) else prod_map S id <$> list_find P l.
Proof. reflexivity. Qed.

(** The first element that passes a test, after another element is
    deleted: the same element, one place earlier when the deletion is before
    it. *)
Lemma list_find_delete l i x k :
  list_find P l = Some (i, x) -> k <> i ->
  list_find P (delete k l) = Some (if decide (k < i) then pred i else i, x).
Proof.
  intros (Hi & Hx & Hbefore)%list_find_Some Hk. apply list_find_Some.
  case_decide as Hlt.
  - split_and!; [|done|].
    + rewrite list_lookup_delete_ge by lia. by replace (S (pred i)) with i by lia.
    + intros j y Hj Hji. destruct (decide (j < k)).
      * rewrite list_lookup_delete_lt in Hj by done. apply (Hbefore j); [done|lia].
      * rewrite list_lookup_delete_ge in Hj by lia. apply (Hbefore (S j)); [done|lia].
  - split_and!; [|done|].
    + by rewrite list_lookup_delete_lt by lia.
    + intros j y Hj Hji. rewrite list_lookup_delete_lt in Hj by lia. by apply (Hbefore j).
Qed.

(** After an insertion: the same element, one place later when the
    insertion is at or before it, unless the new element passes the test
    and comes first. *)
Lemma list_find_insert_at l i x k m :
  list_find P l = Some (i, x) -> (k <= i -> ~ P m) ->
  list_find P (insert_at k m l) = Some (if decide (k <= i) then S i else i, x).
Proof.
  revert i k. induction l as [|y l IH]; intros i k Hfind Hm; [done|].
  destruct k as [|k].
  - rewrite insert_at_0, list_find_cons, decide_False by (apply Hm; lia).
    rewrite Hfind. simpl. by destruct (decide (0 <= i)); [|lia].
  - rewrite insert_at_S. rewrite list_find_cons in Hfind |- *.
    destruct (decide (P y)) as [Hy|Hy].
    + injection Hfind as <- <-. by rewrite decide_False by lia.
    + destruct (list_find P l) as [[i' x']|] eqn:Hl; [|done]. injection Hfind as <- <-.
      rewrite (IH i' k eq_refl) by (intros; apply Hm; lia). simpl.
      by repeat case_decide; try lia.
Qed.

(** An inserted element that passes the test, at or before the first one
    that does, is the first. *)
Lemma list_find_insert_at_first l i x k m :
  list_find P l = Some (i, x) -> k <= i -> P m ->
  list_find P (insert_at k m l) = Some (k, m).
Proof.
  intros (Hi & Hx & Hbefore)%list_find_Some Hk Hm. apply list_find_Some.
  unfold insert_at. apply lookup_lt_Some in Hi as Hlen.
  split_and!; [|done|].
  - rewrite lookup_app_r by (rewrite length_take; lia).
    by replace (k - length (take k l)) with 0 by (rewrite length_take; lia).
  - intros j y Hj Hjk. rewrite lookup_app_l in Hj by (rewrite length_take; lia).
    rewrite lookup_take_lt in Hj by done. apply (Hbefore j); [done|lia].
Qed.

End find.

(** ** Filters of edited and indexed lists *)

Section selection.
Context (P : A -> Prop) `{!forall x, Decision (P x)}.
Implicit Types (l : list A) (x : A) (k : nat).

(** A filter keeps the order of a sublist. *)
#[export] Instance filter_sublist_proper : Proper (sublist ==> sublist) (filter P).
Proof.
  induction 1 as [|x l1 l2 _ IH|x l1 l2 _ IH]; [done|..]; rewrite ?filter_cons;
    repeat case_decide; try done; by constructor.
Qed.

(** Deleting an element the filter rejects leaves the filter as it is. *)
Lemma filter_delete_rejected l k x :
  l !! k = Some x -> ~ P x -> filter P (delete k l) = filter P l.
Proof.
  revert k. induction l as [|y l IH]; intros [|k]; [done..| |]; simpl.
  - intros [= ->] HP. by rewrite filter_cons, decide_False.
  - intros Hk HP. by rewrite !filter_cons, (IH k).
Qed.

(** The elements of an indexed list that pass a test on the element, seen
    through a function of the element. *)
Lemma filter_indexed {B} (g : A -> B) l : forall h : nat -> nat,
  (fun s => g s.2) <$> filter (fun s => P s.2) (imap (fun i x => (h i, x)) l)
  = g <$> filter P l.
Proof.
  induction l as [|x l IH]; intros h; [done|].
  rewrite imap_cons, !filter_cons. simpl. specialize (IH (h ∘ S)).
  case_decide; [rewrite !fmap_cons; simpl; f_equal|]; exact IH.
Qed.

End selection.

(** Inserting an element the filter rejects leaves the filter as it is. *)
Lemma filter_insert_at_rejected (P : A -> Prop) `{!forall x, Decision (P x)} l k x :
  ~ P x -> filter P (insert_at k x l) = filter P l.
Proof.
  intros HP. unfold insert_at.
  by rewrite filter_app, filter_cons, decide_False, <- filter_app, take_drop.
Qed.

Lemma sublist_insert_at (l : list A) k x : sublist l (insert_at k x l).
Proof.
  unfold insert_at. rewrite <- (take_drop k l) at 1.
  apply sublist_app; [done|by apply sublist_cons_r; left].
Qed.

Lemma Forall_sublist_of (P : A -> Prop) (l l' : list A) :
  Forall P l -> sublist l' l -> Forall P l'.
Proof.
  rewrite !Forall_forall. intros Hl Hsub x Hx. by apply Hl, (sublist_subseteq _ _ Hsub).
Qed.

(** Two elements with the same image in a duplicate-free [omap] are at
    the same place. *)
Lemma NoDup_omap_lookup {B} (f : A -> option B) (l : list A) i j x y v :
  NoDup (omap f l) -> l !! i = Some x -> l !! j = Some y ->
  f x = Some v -> f y = Some v -> i = j.
Proof.
  revert i j. induction l as [|z l IH]; intros i j Hnodup Hi Hj Hx Hy; [done|].
  assert (forall k w, l !! k = Some w -> f w = Some v -> f z = Some v -> False) as Hhead.
  { intros k w Hw Hfw Hfz. csimpl in Hnodup. rewrite Hfz in Hnodup.
    apply NoDup_cons in Hnodup as [Hv _]. apply Hv, list_elem_of_omap.
    exists w. eauto using list_elem_of_lookup_2. }
  destruct i as [|i], j as [|j]; simplify_eq/=;
    [done|by destruct (Hhead j y)|by destruct (Hhead i x)|].
  f_equal. apply IH; [|done..]. csimpl in Hnodup.
  destruct (f z); [by apply NoDup_cons in Hnodup as [_ ?]|done].
Qed.

#[export] Instance omap_sublist_proper {B} (f : A -> option B) :
  Proper (sublist ==> sublist) (omap f).
Proof.
  induction 1 as [|x l1 l2 _ IH|x l1 l2 _ IH]; csimpl; [done|..];
    destruct (f x); try done; by constructor.
Qed.

(** A list indexed is free of duplicates. *)
Lemma NoDup_imap_pair (l : list A) : NoDup (imap pair l).
Proof.
  apply NoDup_alt. intros i j [k x] (y & _ & [= -> _])%list_lookup_imap_Some.
  by intros (y' & _ & [= ->])%list_lookup_imap_Some.
Qed.

(** A function with duplicate-free images on a list is injective on it. *)
Lemma NoDup_fmap_inj_on {B} (f : A -> B) (l : list A) x y :
  NoDup (f <$> l) -> x ∈ l -> y ∈ l -> f x = f y -> x = y.
Proof.
  intros Hnodup [i Hi]%list_elem_of_lookup_1 [j Hj]%list_elem_of_lookup_1 Hf.
  assert (i = j) as ->; [|congruence].
  apply (NoDup_lookup _ i j (f x) Hnodup); rewrite list_lookup_fmap; [by rewrite Hi|].
  by rewrite Hj, Hf.
Qed.

#[export] Instance app_sublist_proper : Proper (sublist ==> sublist ==> sublist) (@app A).
Proof. intros l1 l2 H12 k1 k2 Hk. by apply sublist_app. Qed.

#[export] Instance app_sublist_flip_proper :
  Proper (sublist --> sublist --> flip sublist) (@app A).
Proof. intros l1 l2 H12 k1 k2 Hk. by apply sublist_app. Qed.

(** A concatenation, piece by piece, for a relation that [app] respects. *)
Lemma bind_pointwise {B} (R : relation (list B)) `{!Reflexive R}
    `{!Proper (R ==> R ==> R) app} (f g : A -> list B) (l : list A) :
  Forall (fun x => R (f x) (g x)) l -> R (l ≫= f) (l ≫= g).
Proof. induction 1; csimpl; [done|by f_equiv]. Qed.

End list_lemmas.
