(* ===== verification/JsString.v ===== *)
(** * JsString: the string primitives of JavaScript that the sources call

    [String.prototype.startsWith], [indexOf], [substring], the single
    [replace] that [relativePath] performs, [JSON.stringify] on a string
    ([json_quote]) and the reading of a string literal back ([json_unquote]),
    which is what the expression sandbox does with the argument of a locator
    expression.

    Strings are sequences of bytes ([string] of the Standard Library).  A
    character above 0x7F stands for itself in every function here, which is
    what JavaScript does with the UTF-16 units of well-formed text; lone
    surrogates, which [JSON.stringify] escapes, cannot be written in this
    model. *)

From Stdlib Require Import Ascii String NArith ZArith.
From stdpp Require Import base option strings list.
From S2P Require Import Prelude.

(** ** Characters that cannot be written inside a literal *)

Definition dquote : ascii := "034".
Definition backslash : ascii := "092".

Definition str1 (c : ascii) : string := String c EmptyString.

(** ** Prefixes and search *)

(** [s.startsWith(p)]. *)
Fixpoint startsWith (s p : string) {struct p} : bool :=
  match p, s with
  | EmptyString, _ => true
  | String a p', String b s' => if decide (a = b) then startsWith s' p' else false
  | String _ _, EmptyString => false
  end.

(** The rest of [s] after the prefix [p], when [s] starts with [p]. *)
Fixpoint strip_prefix (p s : string) {struct p} : option string :=
  match p, s with
  | EmptyString, _ => Some s
  | String a p', String b s' => if decide (a = b) then strip_prefix p' s' else None
  | String _ _, EmptyString => None
  end.

(** Position of the first occurrence of the character [c]. *)
Fixpoint find_char (c : ascii) (s : string) : option nat :=
  match s with
  | EmptyString => None
  | String a s' => if decide (a = c) then Some 0 else S <$> find_char c s'
  end.

(** [s.indexOf(c)] for a one-character needle: -1 when it does not occur. *)
Definition indexOf (s : string) (c : ascii) : Z :=
  match find_char c s with
  | Some i => Z.of_nat i
  | None => (-1)%Z
  end.

Fixpoint string_drop (n : nat) (s : string) : string :=
  match n, s with
  | O, _ => s
  | S n', String _ s' => string_drop n' s'
  | S _, EmptyString => EmptyString
  end.

(** [s.substring(start)]: a negative start counts as 0, a start beyond the
    end gives the empty string. *)
Definition js_substring (s : string) (start : Z) : string :=
  string_drop (Z.to_nat start) s.

(** [\w] of a regular expression. *)
Definition is_word_char (c : ascii) : bool :=
  let n := N_of_ascii c in
  ((48 <=? n) && (n <=? 57) || (65 <=? n) && (n <=? 90)
   || (97 <=? n) && (n <=? 122) || (n =? 95))%N.

(** ** JSON.stringify on a string *)

Definition hex_digit (n : N) : ascii :=
  ascii_of_N (if (n <? 10)%N then 48 + n else 87 + n).

(** The escape sequence [JSON.stringify] writes for one character. *)
Definition escape_char (c : ascii) : string :=
  let n := N_of_ascii c in
  if decide (c = dquote) then String backslash (str1 dquote)
  else if decide (c = backslash) then String backslash (str1 backslash)
  else if (n =? 8)%N then String backslash "b"
  else if (n =? 9)%N then String backslash "t"
  else if (n =? 10)%N then String backslash "n"
  else if (n =? 12)%N then String backslash "f"
  else if (n =? 13)%N then String backslash "r"
  else if (n <? 32)%N then
    String backslash ("u00" +:+ String (hex_digit (n / 16)) (str1 (hex_digit (n mod 16))))
  else str1 c.

Fixpoint escape (s : string) : string :=
  match s with
  | EmptyString => EmptyString
  | String c s' => escape_char c +:+ escape s'
  end.

(** [JSON.stringify(text)] for a string [text]. *)
Definition json_quote (text : string) : string :=
  String dquote (escape text +:+ str1 dquote).

(** ** Reading a string literal *)

Definition hex_value (c : ascii) : option N :=
  let n := N_of_ascii c in
  if ((48 <=? n) && (n <=? 57))%N then Some (n - 48)%N
  else if ((97 <=? n) && (n <=? 102))%N then Some (n - 87)%N
  else if ((65 <=? n) && (n <=? 70))%N then Some (n - 55)%N
  else None.

(** The character a one-letter escape stands for. *)
Definition simple_escape (e : ascii) : option ascii :=
  let n := N_of_ascii e in
  if decide (e = dquote) then Some dquote
  else if decide (e = backslash) then Some backslash
  else if (n =? 47)%N then Some e
  else if (n =? 98)%N then Some (ascii_of_N 8)
  else if (n =? 116)%N then Some (ascii_of_N 9)
  else if (n =? 110)%N then Some (ascii_of_N 10)
  else if (n =? 102)%N then Some (ascii_of_N 12)
  else if (n =? 114)%N then Some (ascii_of_N 13)
  else None.

(** [\uXXXX] for a code below 256, given the four digits. *)
Definition unicode_escape (h1 h2 h3 h4 : ascii) : option ascii :=
  a ← hex_value h1; b ← hex_value h2; c ← hex_value h3; d ← hex_value h4;
  if ((a =? 0) && (b =? 0))%N then Some (ascii_of_N (16 * c + d)) else None.

(** The body of a string literal up to its closing quote: the string it
    denotes and what follows the quote.  [None] is a syntax error: no closing
    quote, a raw line break, an escape this model does not read. *)
Fixpoint unescape (s : string) : option (string * string) :=
  match s with
  | EmptyString => None
  | String c s' =>
    if decide (c = dquote) then Some (EmptyString, s')
    else if decide (c = backslash) then
      match s' with
      | String e s'' =>
        if decide (e = "u"%char) then
          match s'' with
          | String h1 (String h2 (String h3 (String h4 s4))) =>
            d ← unicode_escape h1 h2 h3 h4;
            r ← unescape s4;
            Some (String d r.1, r.2)
          | _ => None
          end
        else
          d ← simple_escape e;
          r ← unescape s'';
          Some (String d r.1, r.2)
      | EmptyString => None
      end
    else if ((N_of_ascii c =? 10) || (N_of_ascii c =? 13))%N then None
    else r ← unescape s'; Some (String c r.1, r.2)
  end.

(** One step of [unescape]: the closing quote ([None]) or the next character
    of the denoted string, and the text that follows. *)
Definition decode1 (s : string) : option (option ascii * string) :=
  match s with
  | EmptyString => None
  | String c s' =>
    if decide (c = dquote) then Some (None, s')
    else if decide (c = backslash) then
      match s' with
      | String e s'' =>
        if decide (e = "u"%char) then
          match s'' with
          | String h1 (String h2 (String h3 (String h4 s4))) =>
            d ← unicode_escape h1 h2 h3 h4; Some (Some d, s4)
          | _ => None
          end
        else d ← simple_escape e; Some (Some d, s'')
      | EmptyString => None
      end
    else if ((N_of_ascii c =? 10) || (N_of_ascii c =? 13))%N then None
    else Some (Some c, s')
  end.

(** A complete string literal at the head of [s]. *)
Definition json_unquote (s : string) : option (string * string) :=
  match s with
  | String c s' => if decide (c = dquote) then unescape s' else None
  | EmptyString => None
  end.

(** ** Lemmas *)

Section string_lemmas.
Implicit Types (s p t : string) (c : ascii).

Lemma app_cons_s c s t : String c s +:+ t = String c (s +:+ t).
Proof. reflexivity. Qed.

Lemma app_nil_l_s s : EmptyString +:+ s = s.
Proof. reflexivity. Qed.

Lemma app_nil_r_s s : s +:+ EmptyString = s.
Proof. induction s as [|a s IH]; [done|]. by rewrite app_cons_s, IH. Qed.

Lemma app_assoc_s s t u : (s +:+ t) +:+ u = s +:+ (t +:+ u).
Proof. induction s as [|a s IH]; [done|]. by rewrite !app_cons_s, IH. Qed.

Lemma startsWith_app s p : startsWith (p +:+ s) p = true.
Proof.
  induction p as [|a p IH]; [done|].
  rewrite app_cons_s. simpl. rewrite decide_True by done. exact IH.
Qed.

Lemma strip_prefix_app p s : strip_prefix p (p +:+ s) = Some s.
Proof.
  induction p as [|a p IH]; [done|].
  rewrite app_cons_s. simpl. rewrite decide_True by done. exact IH.
Qed.

Lemma strip_prefix_Some p s r : strip_prefix p s = Some r <-> s = p +:+ r.
Proof.
  revert s. induction p as [|a p IH]; intros s.
  - simpl. rewrite app_nil_l_s. split; congruence.
  - rewrite app_cons_s. simpl. destruct s as [|b s]; [done|].
    case_decide; subst.
    + rewrite IH. split; congruence.
    + split; congruence.
Qed.

Lemma startsWith_strip s p : startsWith s p = true <-> is_Some (strip_prefix p s).
Proof.
  revert s. induction p as [|a p IH]; intros s; simpl.
  - split; eauto.
  - destruct s as [|b s]; [split; [done|by intros [? ?]]|].
    case_decide; [apply IH|]. split; [done|by intros [? ?]].
Qed.

Lemma startsWith_iff s p : startsWith s p = true <-> exists r, s = p +:+ r.
Proof.
  rewrite startsWith_strip. unfold is_Some.
  split; intros [r Hr]; exists r; by apply strip_prefix_Some.
Qed.

Lemma startsWith_head_ne s p a b :
  a <> b -> startsWith (String a s) (String b p) = false.
Proof. intros Hab. simpl. rewrite decide_False; [done|congruence]. Qed.

Lemma find_char_Some c s i :
  find_char c s = Some i ->
  exists p r, s = p +:+ String c r /\ String.length p = i /\ find_char c p = None.
Proof.
  revert i. induction s as [|a s IH]; intros i; simpl; [done|].
  case_decide; subst.
  - intros [= <-]. by exists EmptyString, s.
  - destruct (find_char c s) as [j|]; simpl; [|done].
    intros [= <-]. destruct (IH j eq_refl) as (p & r & -> & <- & Hp).
    exists (String a p), r. simpl. rewrite decide_False by done.
    by rewrite Hp.
Qed.

Lemma find_char_app_None c p s :
  find_char c p = None -> find_char c (p +:+ s) = (fun i => String.length p + i) <$> find_char c s.
Proof.
  induction p as [|a p IH]; intros Hp.
  - rewrite app_nil_l_s. by destruct (find_char c s).
  - rewrite app_cons_s. simpl in *. case_decide; [done|].
    destruct (find_char c p); [done|]. rewrite IH by done.
    by destruct (find_char c s).
Qed.

Lemma string_drop_app p r : string_drop (String.length p) (p +:+ r) = r.
Proof. induction p as [|a p IH]; [done|]. by rewrite app_cons_s. Qed.

Lemma string_drop_0 s : string_drop 0 s = s.
Proof. by destruct s. Qed.

End string_lemmas.

(** ** The round trip of a quoted string *)

Section quote_roundtrip.
Implicit Types (s t : string) (c : ascii).

(** [unescape] is the iteration of [decode1]. *)
Lemma unescape_step s :
  unescape s =
  match decode1 s with
  | Some (Some c, r) => r' ← unescape r; Some (String c r'.1, r'.2)
  | Some (None, r) => Some (EmptyString, r)
  | None => None
  end.
Proof.
  destruct s as [|c s]; [done|]. simpl.
  repeat (case_decide || case_match || simplify_option_eq); done.
Qed.

(** Reading back the escape sequence of one character gives the character. *)
Lemma decode1_escape_char c t : decode1 (escape_char c +:+ t) = Some (Some c, t).
Proof. destruct c as [[] [] [] [] [] [] [] []]; by vm_compute. Qed.

Lemma unescape_escape_char c t :
  unescape (escape_char c +:+ t) = r ← unescape t; Some (String c r.1, r.2).
Proof. by rewrite unescape_step, decode1_escape_char. Qed.

Lemma unescape_escape s t :
  unescape (escape s +:+ String dquote t) = Some (s, t).
Proof.
  induction s as [|c s IH]; simpl; [done|].
  by rewrite app_assoc_s, unescape_escape_char, IH.
Qed.

Lemma json_unquote_quote s t : json_unquote (json_quote s +:+ t) = Some (s, t).
Proof.
  unfold json_unquote, json_quote. rewrite app_cons_s.
  rewrite decide_True by done.
  rewrite app_assoc_s. apply unescape_escape.
Qed.

Lemma json_quote_inj : Inj (=) (=) json_quote.
Proof.
  intros s1 s2 Heq.
  pose proof (json_unquote_quote s1 EmptyString) as H1.
  rewrite Heq, json_unquote_quote in H1. congruence.
Qed.

Lemma json_quote_head s : exists r, json_quote s = String dquote r.
Proof. unfold json_quote. eauto. Qed.

End quote_roundtrip.
