(* ===== verification/Ast.v ===== *)
(** * Ast: the document tree the core reads and edits

    The sources never build a tree themselves: they call ts-morph.  This file
    is the model of what they call.  A [Node] is a rose tree carrying exactly
    what the sources ask of a node: its kind name, the result of [getName] and
    [getValue] when the node has these methods, its JSDoc tags and its
    children in the order of [getChildren].  A [Project] maps file paths to
    source files, each with the generation at which it was parsed; a node
    object ([NodeObj]) is a file, a generation and a position, and it is
    forgotten ([wasForgotten]) as soon as its file is re-parsed or removed.

    Only [TypeDeclaration] and [IsTypeDeclaration] translate lines of [src/];
    the accessors are ts-morph's, modelled from its documented behaviour. *)

From Stdlib Require Import Ascii String ZArith.
From stdpp Require Import base option strings list gmap.
From S2P Require Import Prelude JsString.

(** ** Identifiers and paths *)

(** What a path segment can be at run time: [string | number | undefined]. *)
Inductive jsid : Type :=
| IUndef
| IStr (s : string)
| INum (z : Z).

#[export] Instance jsid_eq_dec : EqDecision jsid.
Proof. solve_decision. Defined.

(** [Path] of @azure-tools/sourcemap. *)
Definition Path : Type := list jsid.

(** The value of [getName()], a string or [undefined], as an identifier. *)
Definition name_id (v : option string) : jsid :=
  match v with Some s => IStr s | None => IUndef end.

(** ** Nodes *)

Unset Elimination Schemes.
Inductive Node : Type := mkNode {
  kindName : string;                 (* getKindName() *)
  nodeName : option (option string); (* None: the node has no getName *)
  nodeValue : option jsid;           (* None: the node has no getValue *)
  docTags : list (string * string);  (* JSDoc tags: name and text *)
  children : list Node               (* getChildren() *)
}.
Set Elimination Schemes.

(** A position: the child indices from the root of a file down to a node. *)
Definition pos : Type := list nat.

Fixpoint node_at (n : Node) (p : pos) : option Node :=
  match p with
  | [] => Some n
  | i :: p' => c ← children n !! i; node_at c p'
  end.

Definition isSyntaxList (n : Node) : bool := bool_decide (kindName n = "SyntaxList").

(** ** Projects and node objects *)

Record SourceFile : Type := mkSourceFile {
  sfGen : nat;      (* generation at which this tree was parsed *)
  sfRoot : Node     (* the SourceFile node *)
}.

Record Project : Type := mkProject {
  files : gmap string SourceFile;
  nextGen : nat     (* generation the next parse gets *)
}.

Record NodeObj : Type := mkObj {
  oFile : string;
  oGen : nat;
  oPos : pos
}.

#[export] Instance NodeObj_eq_dec : EqDecision NodeObj.
Proof. solve_decision. Defined.

#[export] Instance NodeObj_countable : Countable NodeObj.
Proof.
  apply (inj_countable' (fun o => (oFile o, oGen o, oPos o))
                        (fun t => mkObj t.1.1 t.1.2 t.2)).
  by intros [].
Defined.

(** [node.wasForgotten()]. *)
Definition wasForgotten (proj : Project) (o : NodeObj) : bool :=
  match files proj !! oFile o with
  | Some sf => negb (bool_decide (sfGen sf = oGen o))
  | None => true
  end.

(** The tree node an object stands for, while it is not forgotten. *)
Definition resolve_obj (proj : Project) (o : NodeObj) : option Node :=
  sf ← files proj !! oFile o;
  if bool_decide (sfGen sf = oGen o) then node_at (sfRoot sf) (oPos o) else None.

(** Any ts-morph accessor called on a forgotten node throws. *)
Definition forgotten_error : error :=
  LibError "Attempted to get information from a node that was removed or forgotten.".

Definition the_node (proj : Project) (o : NodeObj) : res Node :=
  of_option forgotten_error (resolve_obj proj o).

(** [project.getSourceFile(path)] for the path of a file as the project
    knows it.  ts-morph looks a name without folder up among the last
    segments of the paths as well; the paths [getPath] writes first are
    those of [getFilePath], which are absolute, and a name without folder is
    taken for a path here. *)
Definition getSourceFile (proj : Project) (path : string) : option NodeObj :=
  sf ← files proj !! path; Some (mkObj path (sfGen sf) []).

(** [project.getSourceFile] called with what is no string throws inside
    ts-morph; the text of that error is the library's and is not modelled. *)
Definition not_a_path : error := LibError "getSourceFile: the argument is no string".

Definition child_obj (o : NodeObj) (i : nat) : NodeObj :=
  mkObj (oFile o) (oGen o) (oPos o ++ [i]).

(** [node.getChildAtIndex(i)]: throws when there is no such child. *)
Definition getChildAtIndex (proj : Project) (o : NodeObj) (i : Z) : res NodeObj :=
  n ← the_node proj o;
  if bool_decide (0 <= i < Z.of_nat (length (children n)))%Z
  then Ok (child_obj o (Z.to_nat i))
  else Err (LibError "Child index out of range.").

(** [node.getChildIndex()]: the index in the containing node or syntax list. *)
Definition getChildIndex (o : NodeObj) : res nat :=
  of_option (LibError "Expected to find a parent.") (last (oPos o)).

(** Proper prefixes of a position, the longest first. *)
Fixpoint proper_prefixes (p : pos) : list pos :=
  match p with
  | [] => []
  | i :: p' => (cons i <$> proper_prefixes p') ++ [[]]
  end.

Definition at_pos (o : NodeObj) (p : pos) : NodeObj := mkObj (oFile o) (oGen o) p.

(** The object under [d] at the relative position [p]. *)
Definition below (d : NodeObj) (p : pos) : NodeObj := at_pos d (oPos d ++ p).

Definition not_syntax_list_at (root : Node) (p : pos) : bool :=
  match node_at root p with
  | Some n => negb (isSyntaxList n)
  | None => false
  end.

(** [node.getAncestors()]: the parents in ascending order, the closest
    first and the source file last; syntax lists are not parents. *)
Definition getAncestors (proj : Project) (o : NodeObj) : res (list NodeObj) :=
  _ ← the_node proj o;
  root ← the_node proj (at_pos o []);
  Ok (at_pos o <$> filter (fun p => not_syntax_list_at root p = true) (proper_prefixes (oPos o))).

(** [node.getParent()]: [undefined] for a source file. *)
Definition getParent (proj : Project) (o : NodeObj) : res (option NodeObj) :=
  head <$> getAncestors proj o.

Definition is_named (kind name : string) (d : Node) : bool :=
  bool_decide (kindName d = kind) && bool_decide (nodeName d = Some (Some name)).

(** The first node of kind [kind] called [name] among the nodes listed
    under [n], which are the children of its syntax lists (statements of a
    file or block, members of a declaration), in source order; its position
    relative to [n]. *)
Definition find_listed (kind name : string) (n : Node) : option pos :=
  ic ← list_find (fun c => isSyntaxList c = true /\
         is_Some (list_find (fun d => is_named kind name d = true) (children c)))
       (children n);
  jd ← list_find (fun d => is_named kind name d = true) (children ic.2);
  Some [ic.1; jd.1].

(** [file.getEnum(name)] and [enum.getMember(name)]: the first one listed. *)
Definition getEnum (n : Node) (name : string) : option pos :=
  find_listed "EnumDeclaration" name n.

Definition getMember (n : Node) (name : string) : option pos :=
  find_listed "EnumMember" name n.

(** ** JSDoc tags (support/doc-tag) *)

Definition hasTag (n : Node) (tagName : string) : bool :=
  bool_decide (tagName ∈ (fst <$> docTags n)).

Definition getTagValues (n : Node) (tagName : string) : list string :=
  snd <$> filter (fun t => t.1 = tagName) (docTags n).

(** ** Type declarations *)

(** The kinds of [TypeDeclaration]. *)
Inductive TypeDeclaration : Type :=
| TypeAliasDeclaration
| InterfaceDeclaration
| ClassDeclaration
| EnumDeclaration.

#[export] Instance TypeDeclaration_eq_dec : EqDecision TypeDeclaration.
Proof. solve_decision. Defined.

Definition declaration_kind (n : Node) : option TypeDeclaration :=
  if bool_decide (kindName n = "TypeAliasDeclaration") then Some TypeAliasDeclaration
  else if bool_decide (kindName n = "ClassDeclaration") then Some ClassDeclaration
  else if bool_decide (kindName n = "InterfaceDeclaration") then Some InterfaceDeclaration
  else if bool_decide (kindName n = "EnumDeclaration") then Some EnumDeclaration
  else None.

(** [IsTypeDeclaration(node)]; the argument may be [undefined]. *)
Definition IsTypeDeclaration (node : option Node) : bool :=
  match node with
  | Some n => bool_decide (is_Some (declaration_kind n))
  | None => false
  end.

(** ** Edits of the project *)

(** Parsing [root] as the file [path], new or not: the tree is replaced
    wholesale and gets a generation no node object has seen. *)
Definition parseFile (path : string) (root : Node) (proj : Project) : Project :=
  mkProject (<[path := mkSourceFile (nextGen proj) root]> (files proj)) (S (nextGen proj)).

Definition removeSourceFile (path : string) (proj : Project) : Project :=
  mkProject (delete path (files proj)) (nextGen proj).

Definition emptyProject : Project := mkProject ∅ 0.

(** Every file was parsed before the next generation. *)
Definition wf_project (proj : Project) : Prop :=
  map_Forall (fun _ sf => sfGen sf < nextGen proj) (files proj).

(** Every file of the project is known by an absolute path. *)
Definition absolute_paths (proj : Project) : Prop :=
  forall path, is_Some (files proj !! path) -> startsWith path "/" = true.

(** Two projects hold the same tree, of the same generation, for [file]. *)
Definition agree_on (file : string) (proj proj' : Project) : Prop :=
  files proj !! file = files proj' !! file.

(** The object is a node of the current tree of its file. *)
Definition live (proj : Project) (o : NodeObj) : Prop := is_Some (resolve_obj proj o).

(** Two projects hold the same tree for [file], of whatever generations, or
    both hold none. *)
Definition same_tree (file : string) (proj proj' : Project) : Prop :=
  sfRoot <$> files proj !! file = sfRoot <$> files proj' !! file.

(** The object at the same place in the tree of generation [g]. *)
Definition regen (g : nat) (o : NodeObj) : NodeObj := mkObj (oFile o) g (oPos o).

(** The object at the same place in the tree [proj] holds now for the file
    of [o]: what a node object of before a parse corresponds to after it. *)
Definition transport (proj : Project) (o : NodeObj) : NodeObj :=
  match files proj !! oFile o with
  | Some sf => regen (sfGen sf) o
  | None => o
  end.

(** ** Lemmas on nodes and positions *)

Section node_lemmas.
Implicit Types (n m c : Node) (p q : pos) (i j : nat).

(** Induction on a node with the hypothesis for all its children. *)
Lemma Node_ind (P : Node -> Prop) :
  (forall k nm v t cs, Forall P cs -> P (mkNode k nm v t cs)) -> forall n, P n.
Proof.
  intros H. fix IH 1. intros [k nm v t cs]. apply H.
  induction cs as [|c cs IHcs]; constructor; [apply IH | apply IHcs].
Qed.

Lemma node_at_nil n : node_at n [] = Some n.
Proof. reflexivity. Qed.

Lemma node_at_app n p q : node_at n (p ++ q) = node_at n p ≫= fun m => node_at m q.
Proof.
  revert n. induction p as [|i p IH]; intros n; simpl; [done|].
  destruct (children n !! i) as [c|]; simpl; [apply IH|done].
Qed.

Lemma node_at_snoc n p i : node_at n (p ++ [i]) = m ← node_at n p; children m !! i.
Proof.
  rewrite node_at_app. destruct (node_at n p) as [m|]; simpl; [|done].
  by destruct (children m !! i).
Qed.

Lemma node_at_two n i j c d :
  children n !! i = Some c -> children c !! j = Some d -> node_at n [i; j] = Some d.
Proof. intros Hi Hj. simpl. rewrite Hi. simpl. by rewrite Hj. Qed.

Lemma find_listed_Some kind name n p :
  find_listed kind name n = Some p ->
  exists d, node_at n p = Some d /\ is_named kind name d = true.
Proof.
  unfold find_listed. intros H.
  destruct (list_find _ (children n)) as [[i c]|] eqn:Hi; simpl in H; [|done].
  destruct (list_find _ (children c)) as [[j d]|] eqn:Hj; simpl in H; [|done].
  injection H as <-.
  apply list_find_Some in Hi as (Hi & _ & _).
  apply list_find_Some in Hj as (Hj & Hd & _).
  exists d. split; [by eapply node_at_two|done].
Qed.

(** The first listed node of a kind and name, located. *)
Lemma find_listed_first kind name n i j c d :
  children n !! i = Some c -> isSyntaxList c = true ->
  children c !! j = Some d -> is_named kind name d = true ->
  (forall j' d', children c !! j' = Some d' -> j' < j -> is_named kind name d' <> true) ->
  (forall i' c', children n !! i' = Some c' -> i' < i ->
     ~ (isSyntaxList c' = true /\
        is_Some (list_find (fun d => is_named kind name d = true) (children c')))) ->
  find_listed kind name n = Some [i; j].
Proof.
  intros Hi Hsl Hj Hd Hbefore Hlists. unfold find_listed.
  assert (list_find (fun d => is_named kind name d = true) (children c) = Some (j, d)) as Hfj.
  { apply list_find_Some. eauto. }
  assert (list_find (fun c => isSyntaxList c = true /\
      is_Some (list_find (fun d => is_named kind name d = true) (children c)))
    (children n) = Some (i, c)) as ->.
  { apply list_find_Some. split_and!; [done|done|by rewrite Hfj|done]. }
  simpl. by rewrite Hfj.
Qed.

End node_lemmas.

(** ** Lemmas on node objects *)

Section obj_lemmas.
Implicit Types (proj : Project) (o d : NodeObj) (n m root : Node) (p : pos).

Lemma resolve_obj_Some proj o n :
  resolve_obj proj o = Some n <->
  exists sf, files proj !! oFile o = Some sf /\ sfGen sf = oGen o /\
             node_at (sfRoot sf) (oPos o) = Some n.
Proof.
  unfold resolve_obj. destruct (files proj !! oFile o) as [sf|]; simpl.
  - case_bool_decide; split.
    + eauto.
    + by intros (? & [= <-] & _ & ?).
    + done.
    + by intros (? & [= <-] & ? & _).
  - split; [done|by intros (? & ? & _)].
Qed.

Lemma the_node_Ok proj o n : the_node proj o = Ok n <-> resolve_obj proj o = Some n.
Proof. apply of_option_Ok. Qed.

Lemma resolve_the_node proj o n : resolve_obj proj o = Some n -> the_node proj o = Ok n.
Proof. apply the_node_Ok. Qed.

Lemma the_node_Err proj o e : the_node proj o = Err e -> e = forgotten_error.
Proof. intros H. by apply of_option_Err in H as [_ ->]. Qed.

Lemma the_node_live proj o n : the_node proj o = Ok n -> live proj o.
Proof. intros H%the_node_Ok. by exists n. Qed.

Lemma live_the_node proj o : live proj o -> exists n, the_node proj o = Ok n.
Proof. intros [n H]. exists n. by apply the_node_Ok. Qed.

Lemma wasForgotten_false proj o :
  wasForgotten proj o = false <->
  exists sf, files proj !! oFile o = Some sf /\ sfGen sf = oGen o.
Proof.
  unfold wasForgotten. destruct (files proj !! oFile o) as [sf|].
  - case_bool_decide; simpl; split; eauto; try done.
    by intros (? & [= <-] & ?).
  - split; [done|by intros (? & ? & _)].
Qed.

Lemma live_not_forgotten proj o : live proj o -> wasForgotten proj o = false.
Proof.
  intros [n (sf & ? & ? & _)%resolve_obj_Some]. apply wasForgotten_false. eauto.
Qed.

Lemma resolve_at_pos proj o root p :
  resolve_obj proj (at_pos o []) = Some root ->
  resolve_obj proj (at_pos o p) = node_at root p.
Proof.
  intros (sf & Hf & Hg & [= <-])%resolve_obj_Some. unfold resolve_obj. simpl in *.
  rewrite Hf. simpl. by rewrite bool_decide_eq_true_2.
Qed.

Lemma resolve_below proj d n p :
  resolve_obj proj d = Some n -> resolve_obj proj (below d p) = node_at n p.
Proof.
  intros (sf & Hf & Hg & Hn)%resolve_obj_Some. unfold resolve_obj, below. simpl.
  rewrite Hf. simpl. rewrite bool_decide_eq_true_2 by done.
  by rewrite node_at_app, Hn.
Qed.

Lemma child_obj_below o i : child_obj o i = below o [i].
Proof. reflexivity. Qed.

Lemma below_below d p q : below (below d p) q = below d (p ++ q).
Proof. unfold below, at_pos. simpl. by rewrite (assoc_L (++)). Qed.

Lemma resolve_child_obj proj o n i :
  resolve_obj proj o = Some n -> resolve_obj proj (child_obj o i) = children n !! i.
Proof.
  intros H. rewrite child_obj_below, (resolve_below _ _ n) by done.
  simpl. by destruct (children n !! i).
Qed.

Lemma getChildAtIndex_nat proj o n i c :
  the_node proj o = Ok n -> children n !! i = Some c ->
  getChildAtIndex proj o (Z.of_nat i) = Ok (child_obj o i).
Proof.
  intros Hn Hc. unfold getChildAtIndex. rewrite Hn. simpl.
  apply lookup_lt_Some in Hc.
  rewrite bool_decide_eq_true_2 by lia. by rewrite Nat2Z.id.
Qed.

Lemma getChildAtIndex_live proj o z c : getChildAtIndex proj o z = Ok c -> live proj c.
Proof.
  unfold getChildAtIndex. destruct (the_node proj o) as [n|] eqn:Hn; simpl; [|done].
  case_bool_decide as Hz; [|done]. intros [= <-].
  apply the_node_Ok in Hn. unfold live.
  rewrite (resolve_child_obj _ _ n) by done.
  apply lookup_lt_is_Some. lia.
Qed.

Lemma getSourceFile_Some proj path o :
  getSourceFile proj path = Some o <->
  exists sf, files proj !! path = Some sf /\ o = mkObj path (sfGen sf) [].
Proof.
  unfold getSourceFile. destruct (files proj !! path) as [sf|]; simpl.
  - split; [intros [= <-]; eauto|by intros (? & [= <-] & ->)].
  - split; [done|by intros (? & ? & _)].
Qed.

Lemma getSourceFile_resolve proj path o :
  getSourceFile proj path = Some o ->
  exists sf, files proj !! path = Some sf /\ resolve_obj proj o = Some (sfRoot sf).
Proof.
  intros (sf & Hf & ->)%getSourceFile_Some. exists sf. split; [done|].
  apply resolve_obj_Some. exists sf. by simpl.
Qed.

End obj_lemmas.

(** ** Lemmas on the edits of a project *)

Section edit_lemmas.
Implicit Types (proj : Project) (o : NodeObj) (root : Node) (path : string).

Lemma wf_emptyProject : wf_project emptyProject.
Proof. apply map_Forall_empty. Qed.

Lemma wf_parseFile path root proj :
  wf_project proj -> wf_project (parseFile path root proj).
Proof.
  intros Hwf. unfold wf_project, parseFile. simpl.
  apply map_Forall_insert_2; [simpl; lia|].
  eapply map_Forall_impl; [exact Hwf|]. simpl. lia.
Qed.

Lemma wf_removeSourceFile path proj :
  wf_project proj -> wf_project (removeSourceFile path proj).
Proof. intros Hwf. by apply map_Forall_delete. Qed.

Lemma live_gen_lt proj o : wf_project proj -> live proj o -> oGen o < nextGen proj.
Proof.
  intros Hwf [n (sf & Hf & <- & _)%resolve_obj_Some]. exact (Hwf _ _ Hf).
Qed.

(** Re-parsing a file forgets every node object made before. *)
Lemma parseFile_forgets path root proj o :
  oFile o = path -> oGen o < nextGen proj ->
  wasForgotten (parseFile path root proj) o = true.
Proof.
  intros <- Hlt. unfold wasForgotten, parseFile. simpl.
  rewrite lookup_insert_eq. simpl. rewrite bool_decide_eq_false_2; [done|lia].
Qed.

Lemma parseFile_other path root proj o :
  oFile o <> path -> resolve_obj (parseFile path root proj) o = resolve_obj proj o.
Proof.
  intros Hne. unfold resolve_obj, parseFile. simpl.
  by rewrite lookup_insert_ne.
Qed.

Lemma parseFile_fresh path root proj p :
  resolve_obj (parseFile path root proj) (mkObj path (nextGen proj) p) = node_at root p.
Proof.
  unfold resolve_obj, parseFile. simpl. rewrite lookup_insert_eq. simpl.
  by rewrite bool_decide_eq_true_2.
Qed.

Lemma removeSourceFile_forgets path proj o :
  oFile o = path -> wasForgotten (removeSourceFile path proj) o = true.
Proof.
  intros <-. unfold wasForgotten, removeSourceFile. simpl.
  by rewrite lookup_delete_eq.
Qed.

Lemma removeSourceFile_other path proj o :
  oFile o <> path -> resolve_obj (removeSourceFile path proj) o = resolve_obj proj o.
Proof.
  intros Hne. unfold resolve_obj, removeSourceFile. simpl.
  by rewrite lookup_delete_ne.
Qed.

Lemma absolute_paths_emptyProject : absolute_paths emptyProject.
Proof. intros path [sf Hsf]. simpl in Hsf. by rewrite lookup_empty in Hsf. Qed.

Lemma absolute_paths_parseFile path root proj :
  startsWith path "/" = true -> absolute_paths proj ->
  absolute_paths (parseFile path root proj).
Proof.
  intros Hpath Habs file [sf Hsf]. unfold parseFile in Hsf. simpl in Hsf.
  apply lookup_insert_Some in Hsf as [[<- _]|[_ Hsf]]; [done|]. apply Habs. eauto.
Qed.

Lemma absolute_paths_removeSourceFile path proj :
  absolute_paths proj -> absolute_paths (removeSourceFile path proj).
Proof.
  intros Habs file [sf Hsf]. unfold removeSourceFile in Hsf. simpl in Hsf.
  apply lookup_delete_Some in Hsf as [_ Hsf]. apply Habs. eauto.
Qed.

End edit_lemmas.

(** ** What ts-morph reads of a node is in the file of the node *)

Section locality.
Implicit Types (proj : Project) (o d : NodeObj) (file : string).

(** Agreement on a file is an equivalence of projects. *)
#[export] Instance agree_on_equivalence file : Equivalence (agree_on file).
Proof.
  unfold agree_on. split; [by intros ?|by intros ? ?|].
  intros ? ? ? H1 H2. by rewrite H1.
Qed.

Lemma parseFile_agree file path root proj :
  path <> file -> agree_on file (parseFile path root proj) proj.
Proof. intros H. unfold agree_on, parseFile. simpl. by rewrite lookup_insert_ne. Qed.

Lemma removeSourceFile_agree file path proj :
  path <> file -> agree_on file (removeSourceFile path proj) proj.
Proof. intros H. unfold agree_on, removeSourceFile. simpl. by rewrite lookup_delete_ne. Qed.

Lemma resolve_obj_local proj proj' o :
  agree_on (oFile o) proj proj' -> resolve_obj proj o = resolve_obj proj' o.
Proof. intros H. unfold resolve_obj. by rewrite H. Qed.

Lemma the_node_local proj proj' o :
  agree_on (oFile o) proj proj' -> the_node proj o = the_node proj' o.
Proof. intros H. unfold the_node. by rewrite (resolve_obj_local _ proj'). Qed.

Lemma wasForgotten_local proj proj' o :
  agree_on (oFile o) proj proj' -> wasForgotten proj o = wasForgotten proj' o.
Proof. intros H. unfold wasForgotten. by rewrite H. Qed.

Lemma getSourceFile_local proj proj' file :
  agree_on file proj proj' -> getSourceFile proj file = getSourceFile proj' file.
Proof. intros H. unfold getSourceFile. by rewrite H. Qed.

Lemma getChildAtIndex_local proj proj' o i :
  agree_on (oFile o) proj proj' -> getChildAtIndex proj o i = getChildAtIndex proj' o i.
Proof. intros H. unfold getChildAtIndex. by rewrite (the_node_local _ proj'). Qed.

Lemma getAncestors_local proj proj' o :
  agree_on (oFile o) proj proj' -> getAncestors proj o = getAncestors proj' o.
Proof.
  intros H. unfold getAncestors.
  by rewrite (the_node_local _ proj' o), (the_node_local _ proj' (at_pos o [])).
Qed.

Lemma getParent_local proj proj' o :
  agree_on (oFile o) proj proj' -> getParent proj o = getParent proj' o.
Proof. intros H. unfold getParent. by rewrite (getAncestors_local _ proj'). Qed.

Lemma getAncestors_file proj o ancestors a :
  getAncestors proj o = Ok ancestors -> a ∈ ancestors -> oFile a = oFile o.
Proof.
  unfold getAncestors. destruct (the_node proj o); [|done]. simpl.
  destruct (the_node proj (at_pos o [])); [|done]. simpl.
  intros [= <-] (p & -> & _)%list_elem_of_fmap. done.
Qed.

End locality.

(** ** The same tree under another generation *)

Section content.
Implicit Types (proj : Project) (o d : NodeObj) (file : string) (g i : nat) (p : pos).

#[export] Instance same_tree_equivalence file : Equivalence (same_tree file).
Proof.
  unfold same_tree. split; [by intros ?|by intros ? ?|].
  intros ? ? ? H1 H2. by rewrite H1.
Qed.

Lemma agree_on_same_tree file proj proj' : agree_on file proj proj' -> same_tree file proj proj'.
Proof. unfold agree_on, same_tree. by intros ->. Qed.

(** Parsing the tree a file has again changes its generation only. *)
Lemma same_tree_parseFile file sf proj :
  files proj !! file = Some sf -> same_tree file proj (parseFile file (sfRoot sf) proj).
Proof. intros H. unfold same_tree, parseFile. simpl. by rewrite H, lookup_insert_eq. Qed.

Lemma regen_child_obj g o i : regen g (child_obj o i) = child_obj (regen g o) i.
Proof. reflexivity. Qed.

Lemma regen_below g o p : regen g (below o p) = below (regen g o) p.
Proof. reflexivity. Qed.

Lemma regen_at_pos g o p : regen g (at_pos o p) = at_pos (regen g o) p.
Proof. reflexivity. Qed.

Lemma transport_regen proj o sf :
  files proj !! oFile o = Some sf -> transport proj o = regen (sfGen sf) o.
Proof. intros H. unfold transport. by rewrite H. Qed.

Lemma transport_at_pos proj o p : transport proj (at_pos o p) = at_pos (transport proj o) p.
Proof. unfold transport. simpl. by destruct (files proj !! oFile o). Qed.

Lemma transport_below proj o p : transport proj (below o p) = below (transport proj o) p.
Proof. unfold transport. simpl. by destruct (files proj !! oFile o). Qed.

Lemma transport_child_obj proj o i :
  transport proj (child_obj o i) = child_obj (transport proj o) i.
Proof. apply transport_below. Qed.

Lemma transport_file proj o : oFile (transport proj o) = oFile o.
Proof. unfold transport. by destruct (files proj !! oFile o). Qed.

Lemma transport_pos proj o : oPos (transport proj o) = oPos o.
Proof. unfold transport. by destruct (files proj !! oFile o). Qed.

(** A live object and its counterpart stand for the same node. *)
Lemma resolve_transport proj proj' o :
  same_tree (oFile o) proj proj' -> live proj o ->
  resolve_obj proj' (transport proj' o) = resolve_obj proj o.
Proof.
  intros Hsame [n Hn]. rewrite Hn.
  apply resolve_obj_Some in Hn as (sf & Hf & Hg & Hn).
  unfold same_tree in Hsame. rewrite Hf in Hsame.
  destruct (files proj' !! oFile o) as [sf'|] eqn:Hf'; [|done].
  injection Hsame as Hroot. rewrite (transport_regen _ _ sf') by done.
  apply resolve_obj_Some. exists sf'. simpl. by rewrite <- Hroot.
Qed.

Lemma the_node_transport proj proj' o :
  same_tree (oFile o) proj proj' -> live proj o ->
  the_node proj' (transport proj' o) = the_node proj o.
Proof. intros Hsame Hlive. unfold the_node. by rewrite (resolve_transport proj). Qed.

Lemma transport_live proj proj' o :
  same_tree (oFile o) proj proj' -> live proj o -> live proj' (transport proj' o).
Proof. intros Hsame Hlive. unfold live. by rewrite (resolve_transport proj). Qed.

(** A live object is its own counterpart. *)
Lemma transport_id proj o : live proj o -> transport proj o = o.
Proof.
  intros [n (sf & Hf & Hg & _)%resolve_obj_Some].
  rewrite (transport_regen _ _ sf) by done. destruct o. simpl in *. by subst.
Qed.

End content.

(** The lemmas that say an object is a node of the tree, for [eauto]. *)
#[export] Hint Resolve absolute_paths_emptyProject absolute_paths_parseFile
  absolute_paths_removeSourceFile : adl.
#[export] Hint Resolve resolve_the_node the_node_live live_not_forgotten
  getChildAtIndex_live : adl.
