(* ===== verification/Scenarios.v ===== *)
(** * Scenarios: documents of the repository as trees

    The files under [test/scenarios/] are what the core produces and reads
    back.  A few of them are written here as the trees ts-morph builds for
    them, to serve as the concrete inputs on which the theorems are
    instantiated.  Tokens are leaves; a declaration carries its JSDoc tags;
    type annotations are kept as nodes with their kind and, for a type
    reference, their name. *)

From Stdlib Require Import Ascii String ZArith.
From stdpp Require Import base option strings list gmap.
From S2P Require Import Prelude JsString Ast.

(** ** Builders *)

Definition token (kind : string) : Node := mkNode kind None None [] [].

Definition syntaxList (cs : list Node) : Node := mkNode "SyntaxList" None None [] cs.

Definition jsDoc (tags : list (string * string)) : Node :=
  mkNode "JSDoc" None None tags [].

(** A node with a name and JSDoc tags. *)
Definition named (kind name : string) (tags : list (string * string)) (cs : list Node) : Node :=
  mkNode kind (Some (Some name)) None tags cs.

Definition typeReference (name : string) (args : list Node) : Node :=
  mkNode "TypeReference" None None []
    (token "Identifier" ::
     match args with
     | [] => []
     | _ => [token "LessThanToken"; syntaxList args; token "GreaterThanToken"]
     end).

(** [name: type;] or [name?: type;] in an interface. *)
Definition propertySignature (name : string) (optional : bool)
    (tags : list (string * string)) (type : Node) : Node :=
  named "PropertySignature" name tags
    ((match tags with [] => [] | _ => [jsDoc tags] end) ++
     token "Identifier" ::
     (if optional then [token "QuestionToken"] else []) ++
     [token "ColonToken"; type; token "SemicolonToken"]).

(** [export interface name { members }]. *)
Definition interfaceDeclaration (name : string) (tags : list (string * string))
    (heritage : list Node) (members : list Node) : Node :=
  named "InterfaceDeclaration" name tags
    ((match tags with [] => [] | _ => [jsDoc tags] end) ++
     [syntaxList [token "ExportKeyword"]; token "InterfaceKeyword"; token "Identifier"] ++
     (match heritage with [] => [] | _ => [syntaxList heritage] end) ++
     [token "OpenBraceToken"; syntaxList members; token "CloseBraceToken"]).

(** [name = 'value'] in an enum. *)
Definition enumMember (name : string) (value : jsid) (tags : list (string * string)) : Node :=
  mkNode "EnumMember" (Some (Some name)) (Some value) tags
    ((match tags with [] => [] | _ => [jsDoc tags] end) ++
     [token "Identifier"; token "EqualsToken"; token "StringLiteral"]).

(** [export enum name { members }]. *)
Definition enumDeclaration (name : string) (tags : list (string * string))
    (members : list Node) : Node :=
  named "EnumDeclaration" name tags
    ((match tags with [] => [] | _ => [jsDoc tags] end) ++
     [syntaxList [token "ExportKeyword"]; token "EnumKeyword"; token "Identifier";
      token "OpenBraceToken"; syntaxList members; token "CloseBraceToken"]).

(** [export type name = type;]. *)
Definition typeAliasDeclaration (name : string) (tags : list (string * string))
    (type : Node) : Node :=
  named "TypeAliasDeclaration" name tags
    ((match tags with [] => [] | _ => [jsDoc tags] end) ++
     [syntaxList [token "ExportKeyword"]; token "TypeKeyword"; token "Identifier";
      token "EqualsToken"; type; token "SemicolonToken"]).

(** [import { name } from 'module';]: an import has no [getName]. *)
Definition importDeclaration : Node :=
  mkNode "ImportDeclaration" None None []
    [token "ImportKeyword"; token "ImportClause"; token "FromKeyword";
     token "StringLiteral"; token "SemicolonToken"].

Definition sourceFile (statements : list Node) : Node :=
  mkNode "SourceFile" None None [] [syntaxList statements; token "EndOfFileToken"].

(** ** apimanagement/output/enums/AppType.ts *)

(** The comment of the member is text without a tag. *)
Definition AppType_developerPortal : Node :=
  mkNode "EnumMember" (Some (Some "developerPortal")) (Some (IStr "developerPortal")) []
    [jsDoc []; token "Identifier"; token "EqualsToken"; token "StringLiteral"].

Definition AppType_enum : Node :=
  enumDeclaration "AppType"
    [("extensible", EmptyString);
     ("description", "Determines the type of application which send the create user request. Default is old publisher portal.")]
    [AppType_developerPortal].

Definition AppType_ts : Node := sourceFile [AppType_enum].

Definition AppType_path : string := "/enums/AppType.ts".

(** ** management-keyvault/output/models/DeletedVaultListResult.ts *)

Definition DeletedVaultListResult_interface : Node :=
  interfaceDeclaration "DeletedVaultListResult" [("description", "List of vaults")] []
    [propertySignature "value" false [("description", "The list of deleted vaults.")]
       (typeReference "Array" [typeReference "DeletedVault" []]);
     propertySignature "nextLink" false
       [("description", "The URL to get the next set of deleted vaults.")]
       (token "StringKeyword")].

Definition DeletedVaultListResult_ts : Node :=
  sourceFile [importDeclaration; DeletedVaultListResult_interface].

Definition DeletedVaultListResult_path : string := "/models/DeletedVaultListResult.ts".

(** ** management-keyvault/output/models/PrivateLinkResourceListResult.ts *)

Definition PrivateLinkResourceListResult_interface : Node :=
  interfaceDeclaration "PrivateLinkResourceListResult"
    [("description", "A list of private link resources")] []
    [propertySignature "value" false [("description", "Array of private link resources")]
       (typeReference "Array" [typeReference "PrivateLinkResource" []])].

Definition PrivateLinkResourceListResult_ts : Node :=
  sourceFile [importDeclaration; PrivateLinkResourceListResult_interface].

Definition PrivateLinkResourceListResult_path : string :=
  "/models/PrivateLinkResourceListResult.ts".

(** ** An interface declared twice

    TypeScript merges the declarations of an interface; the importer writes
    one per occurrence of a name. *)

Definition merged_Vaults_first : Node :=
  interfaceDeclaration "Vaults" [("description", "Operations on vaults")] []
    [propertySignature "name" false [] (token "StringKeyword")].

Definition merged_Vaults_second : Node :=
  interfaceDeclaration "Vaults" [] []
    [propertySignature "location" false [] (token "StringKeyword")].

Definition merged_ts : Node := sourceFile [merged_Vaults_first; merged_Vaults_second].

Definition merged_path : string := "/models/Vaults.ts".

(** ** Projects *)

(** The enum file alone, parsed once. *)
Definition enum_project : Project := parseFile AppType_path AppType_ts emptyProject.

(** The two key-vault models, in the order the importer writes them. *)
Definition keyvault_project : Project :=
  parseFile PrivateLinkResourceListResult_path PrivateLinkResourceListResult_ts
    (parseFile DeletedVaultListResult_path DeletedVaultListResult_ts emptyProject).

(** [AppType.ts] parsed again, unchanged. *)
Definition enum_project_reparsed : Project := parseFile AppType_path AppType_ts enum_project.

(** The project in which [AppType.ts] was parsed again without the enum. *)
Definition enum_project_emptied : Project :=
  parseFile AppType_path (sourceFile []) enum_project.

(** [AppType.ts] parsed without the enum and then with it again. *)
Definition enum_project_restored : Project :=
  parseFile AppType_path AppType_ts enum_project_emptied.

(** The file with the interface declared twice, alone. *)
Definition merged_project : Project := parseFile merged_path merged_ts emptyProject.

(** The objects the witnesses speak of. *)
Definition AppType_obj : NodeObj := mkObj AppType_path 0 [0; 0].
Definition developerPortal_obj : NodeObj := mkObj AppType_path 0 [0; 0; 5; 0].
Definition DeletedVaultListResult_obj : NodeObj := mkObj DeletedVaultListResult_path 0 [0; 1].
Definition DeletedVault_import_obj : NodeObj := mkObj DeletedVaultListResult_path 0 [0; 0].
Definition merged_Vaults_first_obj : NodeObj := mkObj merged_path 0 [0; 0].
Definition merged_Vaults_second_obj : NodeObj := mkObj merged_path 0 [0; 1].
