(* ===== verification/Sandbox.v ===== *)
(** * Sandbox: the evaluator of locator expressions

    [getNode] hands every path segment that starts with [$.] to
    [evaluateExpression], created by [createSandbox] of [support/sandbox],
    which is not among the sources.  What [getNode] needs of it is stated as
    an interface: the class [Sandbox] is the evaluator, [SandboxLaws] what it
    must do on the two expressions [getNodeIdentifier] writes.  The theorems
    on paths are proved against the laws.

    [tsEvaluate] is an evaluator that reads exactly these two expressions, a
    call of [getEnum] or of [getMember] on [$] with one string literal, and
    runs the ts-morph accessor; [tsEvaluate_laws] shows that it satisfies the
    interface.  Any other expression is a syntax error of this evaluator.

    The last law, [eval_content], is the determinism the specification asks
    of resolution: an expression is evaluated on the tree of a file, and the
    generation of the tree does not show in what it finds. *)

From Stdlib Require Import Ascii String ZArith.
From stdpp Require Import base option strings list gmap.
From S2P Require Import Prelude JsString Ast.

(** ** The interface *)

(** [evaluateExpression(expression, { $ })]; [$] may be [undefined]. *)
Class Sandbox : Type :=
  evaluateExpression : Project -> string -> option NodeObj -> res (option NodeObj).

Definition getEnum_expr (name : string) : string :=
  "$.getEnum(" +:+ json_quote name +:+ ")".

Definition getMember_expr (name : string) : string :=
  "$.getMember(" +:+ json_quote name +:+ ")".

Class SandboxLaws (SB : Sandbox) : Prop := {
  (* on a source file, [$.getEnum("name")] is ts-morph's getEnum *)
  eval_getEnum proj d n name :
    the_node proj d = Ok n -> kindName n = "SourceFile" ->
    evaluateExpression proj (getEnum_expr name) (Some d) = Ok (below d <$> getEnum n name);
  (* on an enum declaration, [$.getMember("name")] is ts-morph's getMember *)
  eval_getMember proj d n name :
    the_node proj d = Ok n -> kindName n = "EnumDeclaration" ->
    evaluateExpression proj (getMember_expr name) (Some d) = Ok (below d <$> getMember n name);
  (* whatever it returns is a node of the current tree *)
  eval_live proj e d o :
    evaluateExpression proj e d = Ok (Some o) -> live proj o;
  (* [$.] on undefined throws *)
  eval_undefined proj e :
    startsWith e "$." = true -> is_ok (evaluateExpression proj e None) = false;
  (* of the file of [$] *)
  eval_file proj e d o :
    evaluateExpression proj e (Some d) = Ok (Some o) -> oFile o = oFile d;
  (* and it reads nothing but that file *)
  eval_local proj proj' e dollar :
    (forall d, dollar = Some d -> agree_on (oFile d) proj proj') ->
    evaluateExpression proj e dollar = evaluateExpression proj' e dollar;
  (* of that file it reads the tree, whatever the generation of the tree *)
  eval_content proj proj' e d :
    same_tree (oFile d) proj proj' -> live proj d ->
    evaluateExpression proj' e (Some (transport proj' d))
    = fmap (M:=option) (transport proj') <$> evaluateExpression proj e (Some d)
}.

(** ** An evaluator for the expressions of [getNodeIdentifier] *)

Inductive locator : Type :=
| CallGetEnum (name : string)
| CallGetMember (name : string).

(** The argument list after the opening parenthesis: one string literal. *)
Definition parse_arg (r : string) : option string :=
  match json_unquote r with
  | Some (s, rest) => if decide (rest = ")") then Some s else None
  | None => None
  end.

Definition parse_locator (e : string) : option locator :=
  match strip_prefix "$.getEnum(" e with
  | Some r => CallGetEnum <$> parse_arg r
  | None =>
    match strip_prefix "$.getMember(" e with
    | Some r => CallGetMember <$> parse_arg r
    | None => None
    end
  end.

(** Kinds whose nodes have [getEnum]: the statemented nodes. *)
Definition isStatemented (n : Node) : bool :=
  bool_decide (kindName n ∈ ["SourceFile"; "ModuleDeclaration"; "ModuleBlock"; "Block"]).

Definition hasMembers (n : Node) : bool :=
  bool_decide (kindName n = "EnumDeclaration").

Definition call_on (proj : Project) (dollar : option NodeObj)
    (has : Node -> bool) (method : Node -> option pos) (what : string) : res (option NodeObj) :=
  match dollar with
  | None => Err (TypeError ("Cannot read property '" +:+ what +:+ "' of undefined"))
  | Some d =>
    n ← the_node proj d;
    if has n then Ok (below d <$> method n)
    else Err (TypeError ("$." +:+ what +:+ " is not a function"))
  end.

Definition tsEvaluate : Sandbox := fun proj e dollar =>
  match parse_locator e with
  | Some (CallGetEnum name) =>
      call_on proj dollar isStatemented (fun n => getEnum n name) "getEnum"
  | Some (CallGetMember name) =>
      call_on proj dollar hasMembers (fun n => getMember n name) "getMember"
  | None => Err (JsError ("SyntaxError: " +:+ e))
  end.

(** ** The evaluator satisfies the interface *)

Section evaluator_lemmas.
Implicit Types (proj : Project) (d o : NodeObj) (n : Node) (name e : string).

Lemma parse_arg_quote name : parse_arg (json_quote name +:+ ")") = Some name.
Proof. unfold parse_arg. rewrite json_unquote_quote. by rewrite decide_True. Qed.

Lemma parse_getEnum_expr name : parse_locator (getEnum_expr name) = Some (CallGetEnum name).
Proof.
  unfold parse_locator, getEnum_expr. rewrite strip_prefix_app.
  by rewrite parse_arg_quote.
Qed.

Lemma parse_getMember_expr name :
  parse_locator (getMember_expr name) = Some (CallGetMember name).
Proof.
  unfold parse_locator, getMember_expr.
  generalize (parse_arg_quote name). generalize (json_quote name +:+ ")").
  intros r Hr.
  replace (strip_prefix "$.getEnum(" ("$.getMember(" +:+ r)) with (@None string) by done.
  rewrite strip_prefix_app. by rewrite Hr.
Qed.

(** Locator expressions are injective in the name they carry. *)
Lemma getEnum_expr_inj : Inj (=) (=) getEnum_expr.
Proof.
  intros a b H. pose proof (parse_getEnum_expr a) as Ha.
  rewrite H, parse_getEnum_expr in Ha. congruence.
Qed.

Lemma getMember_expr_inj : Inj (=) (=) getMember_expr.
Proof.
  intros a b H. pose proof (parse_getMember_expr a) as Ha.
  rewrite H, parse_getMember_expr in Ha. congruence.
Qed.

Lemma call_on_live proj dollar has kind name what o :
  call_on proj dollar has (find_listed kind name) what = Ok (Some o) -> live proj o.
Proof.
  unfold call_on. destruct dollar as [d|]; [|done].
  destruct (the_node proj d) as [n|] eqn:Hn; simpl; [|done].
  destruct (has n); [|done].
  destruct (find_listed kind name n) as [p|] eqn:Hp; simpl; [|done].
  intros [= <-]. apply the_node_Ok in Hn.
  apply find_listed_Some in Hp as (m & Hm & _).
  exists m. by rewrite (resolve_below _ _ n).
Qed.

Lemma call_on_file proj d has method what o :
  call_on proj (Some d) has method what = Ok (Some o) -> oFile o = oFile d.
Proof.
  unfold call_on. case_res; simpl; [|done]. destruct (has _); [|done].
  destruct (method _); simpl; [|done]. by intros [= <-].
Qed.

Lemma call_on_local proj proj' dollar has method what :
  (forall d, dollar = Some d -> agree_on (oFile d) proj proj') ->
  call_on proj dollar has method what = call_on proj' dollar has method what.
Proof.
  intros H. destruct dollar as [d|]; [|done]. unfold call_on.
  by rewrite (the_node_local proj proj') by auto.
Qed.

Lemma call_on_content proj proj' d has method what :
  same_tree (oFile d) proj proj' -> live proj d ->
  call_on proj' (Some (transport proj' d)) has method what
  = fmap (M:=option) (transport proj') <$> call_on proj (Some d) has method what.
Proof.
  intros Hsame Hlive. unfold call_on. rewrite (the_node_transport proj) by done.
  case_res; simpl; [|done]. destruct (has _); [|done]. simpl.
  destruct (method _); simpl; [|done]. by rewrite transport_below.
Qed.

Lemma tsEvaluate_live proj e dollar o :
  tsEvaluate proj e dollar = Ok (Some o) -> live proj o.
Proof.
  unfold tsEvaluate. destruct (parse_locator e) as [[name|name]|]; [| |done];
    apply call_on_live.
Qed.

End evaluator_lemmas.

#[export] Instance tsEvaluate_laws : SandboxLaws tsEvaluate.
Proof.
  split.
  - intros proj d n name Hn Hk. unfold evaluateExpression, tsEvaluate.
    rewrite parse_getEnum_expr. simpl. rewrite Hn. simpl.
    unfold isStatemented. rewrite Hk. by rewrite bool_decide_eq_true_2 by set_solver.
  - intros proj d n name Hn Hk. unfold evaluateExpression, tsEvaluate.
    rewrite parse_getMember_expr. simpl. rewrite Hn. simpl.
    unfold hasMembers. by rewrite bool_decide_eq_true_2.
  - intros proj e d o. apply tsEvaluate_live.
  - intros proj e _. unfold evaluateExpression, tsEvaluate.
    by destruct (parse_locator e) as [ [name|name] | ].
  - intros proj e d o. unfold evaluateExpression, tsEvaluate.
    destruct (parse_locator e) as [ [name|name] | ]; [| |done]; apply call_on_file.
  - intros proj proj' e dollar H. unfold evaluateExpression, tsEvaluate.
    destruct (parse_locator e) as [ [name|name] | ]; [| |done]; by apply call_on_local.
  - intros proj proj' e d Hsame Hlive. unfold evaluateExpression, tsEvaluate.
    destruct (parse_locator e) as [ [name|name] | ]; [| |done]; by apply call_on_content.
Qed.
