(* ===== verification/NodePath.v ===== *)
(** * NodePath: paths to nodes and their resolution

    [getNodeIdentifier], [getPath] and [getNode] of [support/typescript.ts]:
    the identifier of a node, the path from the project to a node, and the
    walk that finds the node of a path again.  [getNode] consumes the array it
    is given ([path.shift()]); [getNode_st] returns the array's final state
    beside the result, and [getNode] is its first component.

    The theorems say when the path of a node leads back to the node: for a
    statement of a file that its identifier addresses it does; for a node
    below a statement, and for a statement whose name an earlier statement
    has, it does not.  For a statement found by its name ([by_name]) the
    condition is exact ([getNode_getPath_exact]), and the path finds in an
    edited list of statements the statement that is [found_as] the old one
    ([getNode_found_as]). *)

From Stdlib Require Import Ascii String ZArith.
From stdpp Require Import base option strings list gmap.
From S2P Require Import Prelude JsString Ast Scenarios Sandbox.

(** ** Identifiers *)

(** [quote(text)]. *)
Definition quote (text : string) : string := json_quote text.

(** [quote(node.getName())] inside a template: [JSON.stringify(undefined)] is
    [undefined], which a template prints as the word. *)
Definition quote_name (v : option string) : string :=
  match v with
  | Some s => quote s
  | None => "undefined"
  end.

(** A call of [getName] on a node that may lack the method. *)
Definition getName (n : Node) : res (option string) :=
  of_option (TypeError "node.getName is not a function") (nodeName n).

(** The fallback of [getNodeIdentifier]: name, else value, else child index.
    [index] is the call of [getChildIndex], made only when it is needed. *)
Definition plain_identifier (n : Node) (index : res nat) : res jsid :=
  match nodeName n with
  | Some v => Ok (name_id v)
  | None =>
    match nodeValue n with
    | Some v => Ok v
    | None => i ← index; Ok (INum (Z.of_nat i))
    end
  end.

(** The body of [getNodeIdentifier] on the node [n] of the file [file]. *)
Definition identify (file : string) (n : Node) (index : res nat) : res jsid :=
  if decide (kindName n = "SourceFile") then Ok (IStr file)
  else if decide (kindName n = "EnumMember") then
    v ← getName n; Ok (IStr ("$.getMember(" +:+ quote_name v +:+ ")"))
  else if decide (kindName n = "EnumDeclaration") then
    v ← getName n; Ok (IStr ("$.getEnum(" +:+ quote_name v +:+ ")"))
  else plain_identifier n index.

(** [getNodeIdentifier(node)]. *)
Definition getNodeIdentifier (proj : Project) (o : NodeObj) : res jsid :=
  n ← the_node proj o;
  identify (oFile o) n (getChildIndex o).

(** [getPath(node, ...args)]. *)
Definition getPath (proj : Project) (o : NodeObj) (args : Path) : res Path :=
  ancestors ← getAncestors proj o;
  ids ← mapM_res (getNodeIdentifier proj) ancestors;
  id ← getNodeIdentifier proj o;
  Ok (ids ++ id :: args).

(** ** Resolution *)

(** [path.shift()]: the first element, [undefined] when there is none, and
    the array without it. *)
Definition shift (path : Path) : jsid * Path :=
  match path with
  | [] => (IUndef, [])
  | index :: rest => (index, rest)
  end.

(** Where [getNode] starts: the project or a node. *)
Inductive origin : Type :=
| FromProject
| FromNode (o : NodeObj).

(** The test of [find] in [getNode]: the name or the value is the index. *)
Definition matches (index : jsid) (each : Node) : bool :=
  match nodeName each with
  | Some v => bool_decide (name_id v = index)
  | None => false
  end
  ||
  match nodeValue each with
  | Some v => bool_decide (v = index)
  | None => false
  end.

(** The segment is a string that starts with [$.]. *)
Definition is_expression (index : jsid) : option string :=
  match index with
  | IStr s => if startsWith s "$." then Some s else None
  | _ => None
  end.

(** [from.getChildren().find(...) || (typeof index === 'number' ?
    from.getChildAtIndex(index) : undefined)]. *)
Definition find_child (proj : Project) (from : NodeObj) (index : jsid) : res (option NodeObj) :=
  n ← the_node proj from;
  match list_find (fun each => matches index each = true) (children n) with
  | Some (i, _) => Ok (Some (child_obj from i))
  | None =>
    match index with
    | INum z => Some <$> getChildAtIndex proj from z
    | _ => Ok None
    end
  end.

(** ** Statements of a file *)

(** The statements of a source file: the children of its first child, the
    syntax list. *)
Definition statements_of (root : Node) : option (list Node) :=
  sl ← children root !! 0;
  if isSyntaxList sl && bool_decide (kindName root = "SourceFile")
  then Some (children sl) else None.

(** The object is the statement [i] of its file: the statements, [i] and the
    node. *)
Definition top_level (proj : Project) (o : NodeObj) : option (list Node * nat * Node) :=
  match oPos o with
  | [0; i] =>
    root ← resolve_obj proj (at_pos o []);
    stmts ← statements_of root;
    n ← stmts !! i;
    Some (stmts, i, n)
  | _ => None
  end.

(** The statement [n], the [i]-th of [stmts], is the one its identifier
    finds: the first enum declaration of its name, or the first statement
    whose name or value is the identifier, or the statement at the index
    when no name or value is. *)
Definition addressable (file : string) (stmts : list Node) (i : nat) (n : Node) : bool :=
  match identify file n (Ok i) with
  | Ok id =>
    if decide (kindName n = "EnumDeclaration") then
      match nodeName n with
      | Some (Some name) =>
        bool_decide (fst <$> list_find (fun d => is_named "EnumDeclaration" name d = true) stmts
                     = Some i)
      | _ => false
      end
    else if decide (kindName n = "SourceFile" \/ kindName n = "EnumMember") then false
    else
      bool_decide (is_expression id = None) &&
      match list_find (fun each => matches id each = true) stmts with
      | Some (j, _) => bool_decide (j = i)
      | None => bool_decide (id = INum (Z.of_nat i))
      end
  | Err _ => false
  end.

(** ** Statements found by their name *)

(** The identifier of [n] is made of its name: [n] is an enum declaration
    with a name, or a node with [getName] that is no source file or enum
    member and whose name is not read as an expression. *)
Definition by_name (n : Node) : bool :=
  match nodeName n with
  | Some v =>
    if decide (kindName n = "EnumDeclaration") then bool_decide (is_Some v)
    else if decide (kindName n = "SourceFile" \/ kindName n = "EnumMember") then false
    else bool_decide (is_expression (name_id v) = None)
  | None => false
  end.

(** The test [getNode] applies to a statement [m] when it looks for the
    identifier of [n]: an enum declaration of the name, for an enum
    declaration; the name as name or value, otherwise. *)
Definition found_as (n m : Node) : bool :=
  match nodeName n with
  | Some v =>
    if decide (kindName n = "EnumDeclaration") then
      match v with
      | Some name => is_named "EnumDeclaration" name m
      | None => false
      end
    else matches (name_id v) m
  | None => false
  end.

Section resolution.
Context `{SB : Sandbox}.

(** One round of [getNode] once [index] is shifted off the path: the
    expression, when the segment is one, then the search in the children. *)
Definition getNodeStep (proj : Project) (index : jsid) (from : NodeObj) : res (option NodeObj) :=
  result ← match is_expression index with
           | Some e =>
             n ← the_node proj from;
             dollar ← (if isSyntaxList n then getParent proj from else Ok (Some from));
             evaluateExpression proj e dollar
           | None => Ok None
           end;
  match result with
  | Some r => Ok (Some r)
  | None => find_child proj from index
  end.

(** [getNode(path, from)] for a node [from]: the result and what is left of
    [path]. *)
Fixpoint getNodeFrom (proj : Project) (from : NodeObj) (path : Path) : res (option NodeObj) * Path :=
  match path with
  | [] => (getNodeStep proj IUndef from, [])
  | index :: rest =>
    match getNodeStep proj index from, rest with
    | Ok (Some r), _ :: _ => getNodeFrom proj r rest
    | result, _ => (result, rest)
    end
  end.

(** The message of [fail] when the file is not in the project. *)
Definition not_in_project (index : string) : error :=
  AssertionError ("SourceFile " +:+ index +:+ " is not in the project").

(** [from.getSourceFile(index)?.getChildAtIndex(0) || fail(...)]. *)
Definition first_child_of_file (proj : Project) (index : jsid) : res NodeObj :=
  match index with
  | IStr s =>
    match getSourceFile proj s with
    | Some sf => getChildAtIndex proj sf 0
    | None => Err (not_in_project s)
    end
  | _ => Err not_a_path
  end.

(** [getNode(path, from)] with the final state of [path]. *)
Definition getNode_st (proj : Project) (path : Path) (from : origin) : res (option NodeObj) * Path :=
  match from with
  | FromNode o => getNodeFrom proj o path
  | FromProject =>
    let (index, path1) := shift path in
    match first_child_of_file proj index with
    | Ok from' => getNodeFrom proj from' path1
    | Err e => (Err e, path1)
    end
  end.

(** [getNode(path, from)]. *)
Definition getNode (proj : Project) (path : Path) (from : origin) : res (option NodeObj) :=
  (getNode_st proj path from).1.

End resolution.

(** ** Lemmas on identifiers and statements *)

Section statement_lemmas.
Implicit Types (proj : Project) (o : NodeObj) (n root sl : Node) (stmts : list Node) (i : nat).

Lemma statements_of_Some root stmts :
  statements_of root = Some stmts <->
  exists sl, children root !! 0 = Some sl /\ isSyntaxList sl = true /\
             kindName root = "SourceFile" /\ children sl = stmts.
Proof.
  unfold statements_of. destruct (children root !! 0) as [sl|]; simpl.
  - destruct (isSyntaxList sl) eqn:Hsl; simpl.
    + case_bool_decide; split.
      * intros [= <-]. eauto.
      * by intros (? & [= <-] & _ & _ & ->).
      * done.
      * by intros (? & _ & _ & ? & _).
    + split; [done|]. intros (? & [= <-] & ? & _). congruence.
  - split; [done|by intros (? & ? & _)].
Qed.

(** What [top_level] says, spelled out. *)
Lemma top_level_Some proj o stmts i n :
  top_level proj o = Some (stmts, i, n) <->
  exists root, oPos o = [0; i] /\ resolve_obj proj (at_pos o []) = Some root /\
               statements_of root = Some stmts /\ stmts !! i = Some n.
Proof.
  unfold top_level. split.
  - destruct (oPos o) as [ | [ | ? ] [ | j [ | ? ? ] ] ]; try done.
    destruct (resolve_obj proj (at_pos o [])) as [root|]; simpl; [|done].
    destruct (statements_of root) as [stmts'|] eqn:Hs; simpl; [|done].
    destruct (stmts' !! j) as [n'|] eqn:Hn; simpl; [|done].
    intros [= <- <- <-]. by exists root.
  - intros (root & -> & -> & Hs & Hn). simpl. rewrite Hs. simpl. by rewrite Hn.
Qed.

Lemma top_level_eta proj o stmts i n :
  top_level proj o = Some (stmts, i, n) -> o = at_pos o [0; i].
Proof. intros (root & Hp & _)%top_level_Some. destruct o. simpl in *. by subst. Qed.

Lemma top_level_syntax_list proj o stmts i n :
  top_level proj o = Some (stmts, i, n) ->
  exists root sl, resolve_obj proj (at_pos o []) = Some root /\
    kindName root = "SourceFile" /\
    resolve_obj proj (at_pos o [0]) = Some sl /\ children root !! 0 = Some sl /\
    isSyntaxList sl = true /\ children sl = stmts.
Proof.
  intros (root & Hp & Hroot & (sl & Hsl & Hk & Hrk & Hc)%statements_of_Some & Hn)%top_level_Some.
  exists root, sl. split_and!; try done.
  rewrite (resolve_at_pos _ _ root) by done. simpl. by rewrite Hsl.
Qed.

Lemma top_level_resolve proj o stmts i n :
  top_level proj o = Some (stmts, i, n) -> resolve_obj proj o = Some n.
Proof.
  intros H. pose proof (top_level_eta _ _ _ _ _ H) as Ho.
  destruct (top_level_syntax_list _ _ _ _ _ H) as (root & sl & Hroot & _ & _ & Hsl & _ & Hc).
  apply top_level_Some in H as (_ & _ & _ & _ & Hn).
  rewrite Ho, (resolve_at_pos _ _ root) by done.
  apply (node_at_two _ _ _ sl); [done|by rewrite Hc].
Qed.

Lemma getAncestors_statement proj o stmts i n :
  top_level proj o = Some (stmts, i, n) -> getAncestors proj o = Ok [at_pos o []].
Proof.
  intros H. pose proof (top_level_resolve _ _ _ _ _ H) as Hn.
  destruct (top_level_syntax_list _ _ _ _ _ H) as (root & sl & Hroot & Hrk & _ & Hsl & Hslk & _).
  apply top_level_Some in H as (_ & Hp & _).
  unfold getAncestors. rewrite (resolve_the_node _ _ _ Hn). simpl.
  rewrite (resolve_the_node _ _ _ Hroot). simpl. rewrite Hp. simpl.
  assert (not_syntax_list_at root [0] = false) as H0.
  { unfold not_syntax_list_at. simpl. rewrite Hsl. simpl. by rewrite Hslk. }
  assert (not_syntax_list_at root [] = true) as H1.
  { unfold not_syntax_list_at, isSyntaxList. simpl. by rewrite Hrk. }
  rewrite filter_cons_False by (by rewrite H0).
  by rewrite filter_cons_True by done.
Qed.

Lemma getNodeIdentifier_file proj o root :
  resolve_obj proj o = Some root -> kindName root = "SourceFile" ->
  getNodeIdentifier proj o = Ok (IStr (oFile o)).
Proof.
  intros Hr Hk. unfold getNodeIdentifier, identify.
  rewrite (resolve_the_node _ _ _ Hr). simpl. by rewrite decide_True by done.
Qed.

Lemma getNodeIdentifier_statement proj o stmts i n :
  top_level proj o = Some (stmts, i, n) ->
  getNodeIdentifier proj o = identify (oFile o) n (Ok i).
Proof.
  intros H. unfold getNodeIdentifier.
  rewrite (resolve_the_node _ _ _ (top_level_resolve _ _ _ _ _ H)). simpl.
  apply top_level_Some in H as (_ & Hp & _). unfold getChildIndex. by rewrite Hp.
Qed.

(** A forgotten node has no path. *)
Lemma getPath_live proj o args path : getPath proj o args = Ok path -> live proj o.
Proof.
  unfold getPath, getAncestors. destruct (the_node proj o) eqn:Hn; [|done].
  intros _. by apply the_node_live in Hn.
Qed.

(** The path of a statement: its file, then its identifier. *)
Lemma getPath_statement proj o stmts i n args :
  top_level proj o = Some (stmts, i, n) ->
  getPath proj o args = id ← identify (oFile o) n (Ok i); Ok (IStr (oFile o) :: id :: args).
Proof.
  intros H. unfold getPath. rewrite (getAncestors_statement _ _ _ _ _ H).
  destruct (top_level_syntax_list _ _ _ _ _ H) as (root & sl & Hroot & Hrk & _).
  cbn [mbind res_bind mapM_res].
  rewrite (getNodeIdentifier_file proj (at_pos o []) root Hroot Hrk).
  cbn [mbind res_bind]. rewrite (getNodeIdentifier_statement _ _ _ _ _ H).
  by destruct (identify (oFile o) n (Ok i)).
Qed.

(** The identifier of a statement found by its name does not depend on
    where the statement is. *)
Lemma identify_by_name file n index index' :
  by_name n = true -> identify file n index = identify file n index'.
Proof.
  unfold by_name, identify, plain_identifier.
  destruct (nodeName n) as [v|]; [|done]. by repeat case_decide.
Qed.

(** For such a statement, [addressable] says it is the first statement that
    answers to its name. *)
Lemma addressable_by_name file stmts i n :
  by_name n = true ->
  addressable file stmts i n
  = bool_decide (fst <$> list_find (fun m => found_as n m = true) stmts = Some i).
Proof.
  unfold by_name, found_as, addressable, identify, getName, plain_identifier.
  destruct (nodeName n) as [v|]; [|done].
  destruct (decide (kindName n = "EnumDeclaration")) as [Hk|Hk].
  - rewrite !decide_False by (by rewrite Hk). by destruct v.
  - destruct (decide (_ \/ _)) as [|Hk2]; [done|]. intros Hexpr.
    rewrite !decide_False by tauto. rewrite Hexpr. simpl.
    destruct (list_find _ stmts) as [[j c]|]; simpl.
    + apply bool_decide_ext. split; [by intros ->|by intros [= ->]].
    + apply bool_decide_eq_false_2. by destruct v.
Qed.

Lemma identify_by_name_Ok file n index : by_name n = true -> is_ok (identify file n index) = true.
Proof.
  unfold by_name, identify, getName, plain_identifier.
  destruct (nodeName n) as [v|]; [|done]. by repeat case_decide.
Qed.

(** Another statement of the file of a statement. *)
Lemma top_level_sibling proj o stmts i n j c :
  top_level proj o = Some (stmts, i, n) -> stmts !! j = Some c ->
  top_level proj (at_pos o [0; j]) = Some (stmts, j, c).
Proof.
  intros (root & _ & Hroot & Hstmts & _)%top_level_Some Hj.
  apply top_level_Some. by exists root.
Qed.

(** A statement found by its name answers to its own name. *)
Lemma found_as_refl n : by_name n = true -> found_as n n = true.
Proof.
  unfold by_name, found_as, is_named, matches.
  destruct (nodeName n) as [v|] eqn:Hv; [|done].
  destruct (decide (kindName n = "EnumDeclaration")) as [Hk|Hk].
  - intros [name ->]%bool_decide_eq_true. by rewrite !bool_decide_eq_true_2.
  - intros _. by rewrite bool_decide_eq_true_2.
Qed.

End statement_lemmas.

(** ** Resolution of the path of a statement *)

Section resolution_lemmas.
Context `{SB : Sandbox} `{!SandboxLaws SB}.
Implicit Types (proj : Project) (o from : NodeObj) (n root sl : Node).
Implicit Types (stmts : list Node) (i : nat) (id index : jsid) (path : Path).

Lemma first_child_of_file_statement proj o stmts i n :
  top_level proj o = Some (stmts, i, n) ->
  first_child_of_file proj (IStr (oFile o)) = Ok (at_pos o [0]).
Proof.
  intros H. destruct (top_level_syntax_list _ _ _ _ _ H)
    as (root & sl & Hroot & _ & _ & Hsl & _).
  pose proof Hroot as (sf & Hf & Hg & [= Hr])%resolve_obj_Some. simpl in *.
  unfold first_child_of_file, getSourceFile. rewrite Hf. simpl. rewrite Hg.
  by rewrite (getChildAtIndex_nat _ _ root 0 sl) by eauto with adl.
Qed.

Lemma getParent_first_child proj o stmts i n :
  top_level proj o = Some (stmts, i, n) ->
  getParent proj (at_pos o [0]) = Ok (Some (at_pos o [])).
Proof.
  intros H. destruct (top_level_syntax_list _ _ _ _ _ H)
    as (root & sl & Hroot & Hrk & Hsl & _).
  unfold getParent, getAncestors.
  rewrite (resolve_the_node _ _ _ Hsl). simpl.
  change (at_pos (at_pos o [0]) []) with (at_pos o []).
  rewrite (resolve_the_node _ _ _ Hroot). simpl.
  rewrite filter_cons_True; [done|].
  unfold not_syntax_list_at, isSyntaxList. simpl. by rewrite Hrk.
Qed.

Lemma find_child_found proj from n index i c :
  resolve_obj proj from = Some n ->
  list_find (fun each => matches index each = true) (children n) = Some (i, c) ->
  find_child proj from index = Ok (Some (child_obj from i)).
Proof.
  intros Hn Hf. unfold find_child.
  rewrite (resolve_the_node _ _ _ Hn). simpl. by rewrite Hf.
Qed.

Lemma find_child_by_index proj from n i c :
  resolve_obj proj from = Some n ->
  list_find (fun each => matches (INum (Z.of_nat i)) each = true) (children n) = None ->
  children n !! i = Some c ->
  find_child proj from (INum (Z.of_nat i)) = Ok (Some (child_obj from i)).
Proof.
  intros Hn Hf Hc. unfold find_child.
  rewrite (resolve_the_node _ _ _ Hn). simpl. rewrite Hf.
  by rewrite (getChildAtIndex_nat _ _ n i c) by eauto with adl.
Qed.

Lemma getNodeStep_plain proj index from :
  is_expression index = None -> getNodeStep proj index from = find_child proj from index.
Proof. intros H. unfold getNodeStep. by rewrite H. Qed.

Lemma is_expression_getEnum name :
  is_expression (IStr (getEnum_expr name)) = Some (getEnum_expr name).
Proof. reflexivity. Qed.

Lemma is_expression_getMember name :
  is_expression (IStr (getMember_expr name)) = Some (getMember_expr name).
Proof. reflexivity. Qed.

(** The step on [$.getEnum("name")] from the syntax list of a file. *)
Lemma getNodeStep_getEnum proj o stmts i n name d :
  top_level proj o = Some (stmts, i, n) ->
  list_find (fun d => is_named "EnumDeclaration" name d = true) stmts = Some (i, d) ->
  getNodeStep proj (IStr (getEnum_expr name)) (at_pos o [0]) = Ok (Some o).
Proof.
  intros H Hfind. pose proof (top_level_eta _ _ _ _ _ H) as Ho.
  destruct (top_level_syntax_list _ _ _ _ _ H)
    as (root & sl & Hroot & Hrk & Hsl & Hc0 & Hslk & Hc).
  unfold getNodeStep. rewrite is_expression_getEnum.
  rewrite (resolve_the_node _ _ _ Hsl). simpl. rewrite Hslk.
  rewrite (getParent_first_child _ _ _ _ _ H). simpl.
  rewrite (eval_getEnum proj (at_pos o []) root name) by eauto with adl.
  subst stmts. pose proof Hfind as (Hi & Hd & Hbefore)%list_find_Some.
  unfold getEnum. rewrite (find_listed_first _ _ root 0 i sl d); try done.
  - simpl. by rewrite Ho at 2.
  - intros ?? _ ?. lia.
Qed.

(** The step on the identifier of a statement that its identifier
    addresses, from the syntax list of its file. *)
Lemma getNodeStep_statement proj o stmts i n id :
  top_level proj o = Some (stmts, i, n) ->
  addressable (oFile o) stmts i n = true ->
  identify (oFile o) n (Ok i) = Ok id ->
  getNodeStep proj id (at_pos o [0]) = Ok (Some o).
Proof.
  intros H Haddr Hid. pose proof (top_level_eta _ _ _ _ _ H) as Ho.
  destruct (top_level_syntax_list _ _ _ _ _ H)
    as (root & sl & Hroot & Hrk & Hsl & Hc0 & Hslk & Hc).
  unfold addressable in Haddr. rewrite Hid in Haddr.
  unfold identify in Hid.
  destruct (decide (kindName n = "EnumDeclaration")) as [Hk|Hk].
  - rewrite !decide_False in Hid by (by rewrite Hk).
    destruct (nodeName n) as [[name|]|] eqn:Hname; try done.
    apply bool_decide_eq_true in Haddr.
    destruct (list_find _ stmts) as [[j d]|] eqn:Hfind; simpl in Haddr; [|done].
    injection Haddr as ->. unfold getName in Hid. rewrite Hname in Hid.
    injection Hid as <-. by apply (getNodeStep_getEnum _ _ stmts i n name d).
  - destruct (decide (_ \/ _)) as [|Hk2]; [done|].
    apply andb_true_iff in Haddr as [Hexpr%bool_decide_eq_true Hfirst].
    rewrite getNodeStep_plain by done. subst stmts.
    destruct (list_find _ (children sl)) as [[j c]|] eqn:Hfind.
    + apply bool_decide_eq_true in Hfirst as ->.
      rewrite (find_child_found _ _ sl _ i c) by done. by rewrite Ho at 2.
    + apply bool_decide_eq_true in Hfirst as ->.
      apply top_level_Some in H as (_ & _ & _ & _ & Hn).
      rewrite (find_child_by_index _ _ sl i n) by done. by rewrite Ho at 2.
Qed.

(** The step on [$.getMember("member")] from an enum declaration. *)
Lemma getNodeStep_getMember proj o e member p :
  resolve_obj proj o = Some e -> kindName e = "EnumDeclaration" ->
  getMember e member = Some p ->
  getNodeStep proj (IStr (getMember_expr member)) o = Ok (Some (below o p)).
Proof.
  intros He%resolve_the_node Hk Hmember.
  unfold getNodeStep. rewrite is_expression_getMember, He. simpl.
  unfold isSyntaxList. rewrite Hk. simpl.
  by rewrite (eval_getMember proj o e member He Hk), Hmember.
Qed.

(** The step of [getNode] on the identifier of [n], from the statements of
    a file: the first statement that answers to the name. *)
Lemma getNodeStep_found_as proj o stmts j m n id (place : res nat) :
  top_level proj o = Some (stmts, j, m) ->
  by_name n = true -> identify (oFile o) n place = Ok id ->
  list_find (fun c => found_as n c = true) stmts = Some (j, m) ->
  getNodeStep proj id (at_pos o [0]) = Ok (Some o).
Proof.
  intros Htop Hname Hid Hfind. pose proof (top_level_eta _ _ _ _ _ Htop) as Ho.
  unfold by_name in Hname. unfold found_as in Hfind.
  unfold identify, getName, plain_identifier in Hid.
  destruct (nodeName n) as [v|]; [|done].
  destruct (decide (kindName n = "EnumDeclaration")) as [Hk|Hk].
  - rewrite !decide_False in Hid by (by rewrite Hk). destruct v as [name|]; [|done].
    injection Hid as <-. by apply (getNodeStep_getEnum _ _ stmts j m name m).
  - destruct (decide (_ \/ _)) as [|Hk2]; [done|]. apply bool_decide_eq_true in Hname.
    rewrite !decide_False in Hid by tauto. injection Hid as <-.
    destruct (top_level_syntax_list _ _ _ _ _ Htop) as (root & sl & _ & _ & Hsl & _ & _ & <-).
    rewrite getNodeStep_plain by done.
    rewrite (find_child_found _ _ sl _ j m) by done. by rewrite Ho at 2.
Qed.

(** The address made of a file and the identifier of [n] leads to the
    first statement of the file that answers to the name of [n]. *)
Lemma getNode_found_as proj o stmts j m n id (place : res nat) :
  top_level proj o = Some (stmts, j, m) ->
  by_name n = true -> identify (oFile o) n place = Ok id ->
  list_find (fun c => found_as n c = true) stmts = Some (j, m) ->
  getNode proj [IStr (oFile o); id] FromProject = Ok (Some o).
Proof.
  intros Htop Hname Hid Hfind. unfold getNode, getNode_st. cbn [shift].
  rewrite (first_child_of_file_statement _ _ _ _ _ Htop). cbn [getNodeFrom].
  by rewrite (getNodeStep_found_as _ _ _ _ _ _ _ _ Htop Hname Hid Hfind).
Qed.

(** A statement found by its name that its identifier addresses is the
    first that answers to its name. *)
Lemma addressable_found_as proj o stmts i n :
  top_level proj o = Some (stmts, i, n) -> by_name n = true ->
  addressable (oFile o) stmts i n = true ->
  list_find (fun c => found_as n c = true) stmts = Some (i, n).
Proof.
  intros (_ & _ & _ & _ & Hi)%top_level_Some Hname Haddr.
  rewrite addressable_by_name in Haddr by done. apply bool_decide_eq_true in Haddr.
  destruct (list_find _ stmts) as [[j c]|] eqn:Hfind; [|done]. injection Haddr as ->.
  apply list_find_Some in Hfind as (Hc & _). congruence.
Qed.

(** The path of a statement that its identifier addresses leads to it. *)
Lemma getNode_statement proj o stmts i n id :
  top_level proj o = Some (stmts, i, n) ->
  addressable (oFile o) stmts i n = true ->
  identify (oFile o) n (Ok i) = Ok id ->
  getNode_st proj [IStr (oFile o); id] FromProject = (Ok (Some o), []).
Proof.
  intros H Haddr Hid. unfold getNode_st. cbn [shift].
  rewrite (first_child_of_file_statement _ _ _ _ _ H). cbn [getNodeFrom].
  by rewrite (getNodeStep_statement _ _ _ _ _ _ H Haddr Hid).
Qed.

End resolution_lemmas.

(** ** General facts on [getNode] *)

Section getNode_facts.
Context `{SB : Sandbox} `{!SandboxLaws SB}.
Implicit Types (proj : Project) (o from r : NodeObj) (n : Node).
Implicit Types (index : jsid) (path rest : Path) (origin : origin).

Lemma find_child_live proj from index r :
  find_child proj from index = Ok (Some r) -> live proj r.
Proof.
  unfold find_child. destruct (the_node proj from) as [n|] eqn:Hn; simpl; [|done].
  apply the_node_Ok in Hn.
  destruct (list_find _ (children n)) as [[i c]|] eqn:Hfind.
  - intros [= <-]. apply list_find_Some in Hfind as (Hi & _).
    exists c. by rewrite (resolve_child_obj _ _ n).
  - destruct index as [| |z]; try done.
    destruct (getChildAtIndex proj from z) as [c|] eqn:Hc; simpl; [|done].
    intros [= <-]. by eapply getChildAtIndex_live.
Qed.

Lemma getNodeStep_live proj index from r :
  getNodeStep proj index from = Ok (Some r) -> live proj r.
Proof.
  unfold getNodeStep. intros H.
  apply bind_Ok_inv in H as ([r'|] & Hexpr & H).
  - injection H as <-. destruct (is_expression index) as [e|]; [|done].
    apply bind_Ok_inv in Hexpr as (n & _ & Hexpr).
    apply bind_Ok_inv in Hexpr as (dollar & _ & Hexpr).
    by eapply eval_live.
  - by eapply find_child_live.
Qed.

Lemma getNodeFrom_live proj from path o :
  (getNodeFrom proj from path).1 = Ok (Some o) -> live proj o.
Proof.
  revert from. induction path as [|index rest IH]; intros from; simpl.
  - apply getNodeStep_live.
  - destruct (getNodeStep proj index from) as [[r|]|] eqn:Hstep; try done.
    destruct rest as [|index' rest']; [|apply IH].
    simpl. intros [= <-]. by eapply getNodeStep_live.
Qed.

Lemma getNodeFrom_suffix proj from path : suffix (getNodeFrom proj from path).2 path.
Proof.
  revert from. induction path as [|index rest IH]; intros from; simpl; [done|].
  destruct (getNodeStep proj index from) as [[r|]|]; try by apply suffix_cons_r.
  destruct rest as [|index' rest']; [by apply suffix_cons_r|].
  apply suffix_cons_r, IH.
Qed.

Lemma getNodeFrom_found_all proj from path o :
  (getNodeFrom proj from path).1 = Ok (Some o) -> (getNodeFrom proj from path).2 = [].
Proof.
  revert from. induction path as [|index rest IH]; intros from; simpl; [done|].
  destruct (getNodeStep proj index from) as [[r|]|]; try done.
  destruct rest as [|index' rest']; [done|apply IH].
Qed.

(** Whatever a walk returns is a node of the current tree. *)
Lemma getNode_st_live proj path origin o :
  (getNode_st proj path origin).1 = Ok (Some o) -> live proj o.
Proof.
  unfold getNode_st. destruct origin as [|from]; [|apply getNodeFrom_live].
  destruct (shift path) as [index path1].
  destruct (first_child_of_file proj index); [apply getNodeFrom_live|done].
Qed.

End getNode_facts.

(** ** The properties of path resolution *)

Section path_theorems.
Context `{SB : Sandbox} `{!SandboxLaws SB}.
Implicit Types (proj : Project) (o a e_obj : NodeObj) (n e : Node).
Implicit Types (stmts : list Node) (i : nat) (path rest : Path) (s name : string).

(** C1 (address round trip for statements).  For a statement of a source
    file that its identifier addresses (it is the first enum declaration of
    its name, or the first statement whose name or value is its identifier,
    or it has neither and no statement has its index as a value), the path
    that [getPath] computes for it is resolved by [getNode], from the
    project, to the statement itself. *)
Theorem getNode_getPath_statement proj o stmts i n :
  top_level proj o = Some (stmts, i, n) ->
  addressable (oFile o) stmts i n = true ->
  (path ← getPath proj o []; getNode proj path FromProject) = Ok (Some o).
Proof.
  intros H Haddr. rewrite (getPath_statement _ _ _ _ _ _ H).
  destruct (identify (oFile o) n (Ok i)) as [id|] eqn:Hid; simpl.
  - unfold getNode. by rewrite (getNode_statement _ _ _ _ _ _ H Haddr Hid).
  - unfold addressable in Haddr. by rewrite Hid in Haddr.
Qed.

(** (paths with further segments).  The segments given to [getPath] after
    the node are followed from the node: the path [getPath(node, ...args)]
    of a statement that its identifier addresses, resolved from the
    project, is [args] resolved from the statement. *)
Theorem getNode_getPath_args proj o stmts i n index args :
  top_level proj o = Some (stmts, i, n) ->
  addressable (oFile o) stmts i n = true ->
  (path ← getPath proj o (index :: args); getNode proj path FromProject)
  = getNode proj (index :: args) (FromNode o).
Proof.
  intros H Haddr. rewrite (getPath_statement _ _ _ _ _ _ H).
  destruct (identify (oFile o) n (Ok i)) as [id|] eqn:Hid; simpl.
  - unfold getNode, getNode_st. cbn [shift].
    rewrite (first_child_of_file_statement _ _ _ _ _ H). cbn [getNodeFrom].
    by rewrite (getNodeStep_statement _ _ _ _ _ _ H Haddr Hid).
  - unfold addressable in Haddr. by rewrite Hid in Haddr.
Qed.

Lemma getPath_head proj o a ancestors id path :
  getAncestors proj o = Ok (a :: ancestors) ->
  getNodeIdentifier proj a = Ok id ->
  getPath proj o [] = Ok path ->
  exists rest, path = id :: rest.
Proof.
  intros Ha Hid. unfold getPath. rewrite Ha. simpl. rewrite Hid. simpl.
  destruct (mapM_res _ ancestors) as [ids|]; simpl; [|done].
  destruct (getNodeIdentifier proj o); simpl; [|done].
  intros [= <-]. eauto.
Qed.

Lemma getNode_not_in_project proj s rest :
  files proj !! s = None ->
  getNode_st proj (IStr s :: rest) FromProject = (Err (not_in_project s), rest).
Proof.
  intros Hs. unfold getNode_st, first_child_of_file, getSourceFile. simpl.
  by rewrite Hs.
Qed.

(** A first segment that is no absolute path names no file. *)
Lemma getNode_relative proj s rest :
  absolute_paths proj -> startsWith s "/" = false ->
  getNode proj (IStr s :: rest) FromProject = Err (not_in_project s).
Proof.
  intros Habs Hs. unfold getNode. rewrite getNode_not_in_project; [done|].
  destruct (files proj !! s) as [sf|] eqn:Hf; [|done].
  rewrite (Habs s) in Hs by eauto. done.
Qed.

(** C2 (paths of nested nodes do not resolve).  [getAncestors] lists the
    closest parent first, so the path of a node whose parent [a] is not the
    source file starts with the identifier of [a] and not with the file.
    In a project whose files have absolute paths, whenever that identifier
    is a string that does not start with a slash, resolving the path from
    the project fails with the assertion that the source file is not in the
    project. *)
Theorem getNode_getPath_nested_fails proj o a ancestors s path :
  absolute_paths proj ->
  getAncestors proj o = Ok (a :: ancestors) ->
  getNodeIdentifier proj a = Ok (IStr s) ->
  startsWith s "/" = false ->
  getPath proj o [] = Ok path ->
  getNode proj path FromProject = Err (not_in_project s).
Proof.
  intros Habs Ha Hid Hs Hpath.
  destruct (getPath_head _ _ _ _ _ _ Ha Hid Hpath) as [rest ->].
  by apply getNode_relative.
Qed.

(** C22 (a name declared twice).  A statement whose identifier is the
    name or value of an earlier statement of its file has the path of that
    statement: [getNode] resolves its path to the earlier statement, which is
    another node.  The second of two declarations of an interface is not
    found again from its path. *)
Theorem getNode_getPath_shadowed proj o stmts j n id i c :
  top_level proj o = Some (stmts, j, n) ->
  identify (oFile o) n (Ok j) = Ok id ->
  is_expression id = None ->
  list_find (fun each => matches id each = true) stmts = Some (i, c) ->
  i <> j ->
  (path ← getPath proj o []; getNode proj path FromProject) = Ok (Some (at_pos o [0; i])) /\
  at_pos o [0; i] <> o.
Proof.
  intros H Hid Hexpr Hfind Hij. pose proof (top_level_eta _ _ _ _ _ H) as Ho.
  split; [|rewrite Ho at 2; intros [= ?]; done].
  destruct (top_level_syntax_list _ _ _ _ _ H) as (root & sl & _ & _ & Hsl & _ & _ & <-).
  rewrite (getPath_statement _ _ _ _ _ _ H), Hid. simpl.
  unfold getNode, getNode_st. cbn [shift].
  rewrite (first_child_of_file_statement _ _ _ _ _ H). cbn [getNodeFrom fst].
  rewrite getNodeStep_plain by done.
  by rewrite (find_child_found _ _ sl _ i c).
Qed.

(** The path of a statement found by its name leads to the first statement
    of the file that answers to the name. *)
Lemma getNode_getPath_first_found proj o stmts i n j c :
  top_level proj o = Some (stmts, i, n) -> by_name n = true ->
  list_find (fun m => found_as n m = true) stmts = Some (j, c) ->
  (path ← getPath proj o []; getNode proj path FromProject) = Ok (Some (at_pos o [0; j])).
Proof.
  intros Htop Hname Hfind. rewrite (getPath_statement _ _ _ _ _ _ Htop).
  pose proof (identify_by_name_Ok (oFile o) n (Ok i) Hname) as Hid.
  destruct (identify (oFile o) n (Ok i)) as [id|] eqn:Hidn; [|done]. simpl.
  pose proof Hfind as (Hj & _)%list_find_Some.
  pose proof (top_level_sibling _ _ _ _ _ _ _ Htop Hj) as Htop'.
  apply (getNode_found_as _ (at_pos o [0; j]) _ _ _ _ _ _ Htop' Hname Hidn Hfind).
Qed.

(** C9 (the round trip, exactly).  For a statement found by its name, the
    path of [getPath] is resolved by [getNode] to the statement if and only
    if the statement is the one its identifier addresses, the first of its
    file that answers to its name: [addressable] is the condition of the
    round trip, no more than it takes. *)
Theorem getNode_getPath_exact proj o stmts i n :
  top_level proj o = Some (stmts, i, n) -> by_name n = true ->
  (path ← getPath proj o []; getNode proj path FromProject) = Ok (Some o) <->
  addressable (oFile o) stmts i n = true.
Proof.
  intros Htop Hname. pose proof (top_level_eta _ _ _ _ _ Htop) as Ho.
  pose proof Htop as (_ & _ & _ & _ & Hi%list_elem_of_lookup_2)%top_level_Some.
  destruct (list_find_elem_of (fun m => found_as n m = true) stmts n Hi)
    as [[j c] Hfind]; [by apply found_as_refl|].
  rewrite (getNode_getPath_first_found _ _ _ _ _ _ _ Htop Hname Hfind).
  rewrite addressable_by_name, bool_decide_eq_true, Hfind by done. simpl.
  split; [rewrite Ho at 2; by intros [= ->]|by intros [= ->]; rewrite <- Ho].
Qed.

(** C5 (locator expressions).  The path that names a file, then an enum
    declaration by [$.getEnum("name")], then a member by
    [$.getMember("member")], resolves to the member that ts-morph's
    [getMember] finds in the enum declaration, when the declaration is the
    first of its name in the file. *)
Theorem getNode_enum_member proj e_obj stmts i e name member p :
  top_level proj e_obj = Some (stmts, i, e) ->
  kindName e = "EnumDeclaration" ->
  nodeName e = Some (Some name) ->
  addressable (oFile e_obj) stmts i e = true ->
  getMember e member = Some p ->
  getNode proj [IStr (oFile e_obj); IStr (getEnum_expr name); IStr (getMember_expr member)]
    FromProject = Ok (Some (below e_obj p)).
Proof.
  intros H Hk Hname Haddr Hmember.
  assert (identify (oFile e_obj) e (Ok i) = Ok (IStr (getEnum_expr name))) as Hid.
  { unfold identify, getName. rewrite Hname.
    by rewrite !decide_False, decide_True by (done || by rewrite Hk). }
  unfold getNode, getNode_st. cbn [shift].
  rewrite (first_child_of_file_statement _ _ _ _ _ H). cbn [getNodeFrom].
  rewrite (getNodeStep_statement _ _ _ _ _ _ H Haddr Hid).
  by rewrite (getNodeStep_getMember _ _ e _ p) by eauto using top_level_resolve.
Qed.

(** C6 (resolution returns live nodes).  Whatever the path and wherever the
    walk starts, a node that [getNode] returns is a node of the current tree
    of its file: it is never a forgotten object. *)
Theorem getNode_live proj path origin o :
  getNode proj path origin = Ok (Some o) -> live proj o.
Proof. apply getNode_st_live. Qed.

(** C10 (the path is consumed).  [getNode] shifts segments off the array it
    is given: what is left is always a suffix of the path, and it is empty
    whenever a node is returned, so a caller that keeps the path must pass a
    copy. *)
Theorem getNode_st_consumes proj path origin :
  suffix (getNode_st proj path origin).2 path /\
  (forall o, (getNode_st proj path origin).1 = Ok (Some o) ->
             (getNode_st proj path origin).2 = []).
Proof.
  unfold getNode_st. destruct origin as [|from].
  - destruct path as [|index path1]; simpl.
    + destruct (first_child_of_file proj IUndef) as [from'|]; simpl; [|done].
      split; [done|]. intros o _. done.
    + destruct (first_child_of_file proj index) as [from'|]; simpl.
      * split; [apply suffix_cons_r, getNodeFrom_suffix|apply getNodeFrom_found_all].
      * split; [by apply suffix_cons_r|done].
  - split; [apply getNodeFrom_suffix|apply getNodeFrom_found_all].
Qed.

End path_theorems.

(** ** Witnesses on the documents of the repository *)

(** The enum [AppType] of [AppType.ts] is found again from its path. *)
Lemma getNode_getPath_statement_witness :
  (path ← getPath enum_project AppType_obj [];
   @getNode tsEvaluate enum_project path FromProject) = Ok (Some AppType_obj).
Proof.
  apply (getNode_getPath_statement (SB:=tsEvaluate) enum_project AppType_obj
           [AppType_enum] 0 AppType_enum); reflexivity.
Defined.

(** So is the interface of [DeletedVaultListResult.ts], by its name. *)
Example getNode_getPath_interface :
  (path ← getPath keyvault_project DeletedVaultListResult_obj [];
   @getNode tsEvaluate keyvault_project path FromProject)
  = Ok (Some DeletedVaultListResult_obj).
Proof. reflexivity. Qed.

(** And the import before it, which has no name, by its index. *)
Example getNode_getPath_import :
  getPath keyvault_project DeletedVault_import_obj []
  = Ok [IStr DeletedVaultListResult_path; INum 0] /\
  @getNode tsEvaluate keyvault_project [IStr DeletedVaultListResult_path; INum 0] FromProject
  = Ok (Some DeletedVault_import_obj).
Proof. split; reflexivity. Qed.

Lemma absolute_paths_enum_project : absolute_paths enum_project.
Proof. unfold enum_project. auto with adl. Qed.

(** The member [developerPortal] of [AppType]: its path starts with the
    expression for the enum, and resolving it fails. *)
Lemma getNode_getPath_nested_fails_witness :
  @getNode tsEvaluate enum_project
    [IStr (getEnum_expr "AppType"); IStr AppType_path; IStr (getMember_expr "developerPortal")]
    FromProject
  = Err (not_in_project (getEnum_expr "AppType")).
Proof.
  apply (getNode_getPath_nested_fails (SB:=tsEvaluate) enum_project developerPortal_obj
           AppType_obj [mkObj AppType_path 0 []] (getEnum_expr "AppType"));
    [apply absolute_paths_enum_project|reflexivity..].
Defined.

(** With the file first, the same three segments find the member. *)
Lemma getNode_enum_member_witness :
  @getNode tsEvaluate enum_project
    [IStr AppType_path; IStr (getEnum_expr "AppType"); IStr (getMember_expr "developerPortal")]
    FromProject
  = Ok (Some developerPortal_obj).
Proof.
  apply (getNode_enum_member (SB:=tsEvaluate) enum_project AppType_obj [AppType_enum] 0
           AppType_enum "AppType" "developerPortal" [5; 0]); reflexivity.
Defined.

Lemma getNode_live_witness : live enum_project AppType_obj.
Proof.
  apply (getNode_live (SB:=tsEvaluate) enum_project
           [IStr AppType_path; IStr (getEnum_expr "AppType")] FromProject).
  reflexivity.
Defined.

(** The second declaration of the interface [Vaults] has the path of the
    first, and is resolved to the first. *)
Lemma getNode_getPath_shadowed_witness :
  (path ← getPath merged_project merged_Vaults_second_obj [];
   @getNode tsEvaluate merged_project path FromProject) = Ok (Some merged_Vaults_first_obj) /\
  merged_Vaults_first_obj <> merged_Vaults_second_obj.
Proof.
  apply (getNode_getPath_shadowed (SB:=tsEvaluate) merged_project merged_Vaults_second_obj
           [merged_Vaults_first; merged_Vaults_second] 1 merged_Vaults_second
           (IStr "Vaults") 0 merged_Vaults_first); [reflexivity..|done].
Defined.

(** The first declaration of the interface [Vaults] is found again from its
    path; the second is not, and is not addressable. *)
(** The path of the enum [AppType] with the locator of a member leads to
    the member. *)
Lemma getNode_getPath_args_witness :
  (path ← getPath enum_project AppType_obj [IStr (getMember_expr "developerPortal")];
   @getNode tsEvaluate enum_project path FromProject)
  = @getNode tsEvaluate enum_project [IStr (getMember_expr "developerPortal")]
      (FromNode AppType_obj).
Proof.
  apply (getNode_getPath_args (SB:=tsEvaluate) enum_project AppType_obj [AppType_enum] 0
           AppType_enum); reflexivity.
Defined.

Example getNode_getPath_developerPortal :
  (path ← getPath enum_project AppType_obj [IStr (getMember_expr "developerPortal")];
   @getNode tsEvaluate enum_project path FromProject) = Ok (Some developerPortal_obj).
Proof. reflexivity. Qed.

Lemma getNode_getPath_exact_witness :
  (path ← getPath merged_project merged_Vaults_second_obj [];
   @getNode tsEvaluate merged_project path FromProject) = Ok (Some merged_Vaults_second_obj) <->
  addressable merged_path [merged_Vaults_first; merged_Vaults_second] 1 merged_Vaults_second
  = true.
Proof.
  apply (getNode_getPath_exact (SB:=tsEvaluate) merged_project merged_Vaults_second_obj
           [merged_Vaults_first; merged_Vaults_second] 1 merged_Vaults_second); reflexivity.
Defined.
