(* ===== verification/Reference.v ===== *)
(** * Reference: references that reacquire their target

    [referenceTo] of [support/typescript.ts] wraps a node in a proxy whose
    four traps ([get], [getOwnPropertyDescriptor], [has], [set]) first ask
    the node they hold whether it was forgotten and, when it was, look the
    node up again by the path captured at creation.  The proxy's mutable
    variable [current] and the constant [path] are the state [Ref]; a trap
    takes the state and returns the new state beside its result.  The project
    is the shared store every reference reads; it is passed explicitly.

    [Reflect.get] and the other operations on the object that is finally
    reached are an interface ([Reflect]); [own_properties] is an
    implementation that keeps the own properties of node objects in a map.
    Whenever the lookup of a trap ends on a node, the trap is the operation
    of [Reflect] on that node ([traps_on_target]). *)

From Stdlib Require Import Ascii String ZArith.
From stdpp Require Import base option strings list gmap.
From S2P Require Import Prelude JsString Ast Scenarios Sandbox NodePath.

(** ** The operations of [Reflect] *)

(** [S] is the state of the JavaScript objects outside the tree (their own
    properties), [V] the values of properties. *)
Class Reflect (S V : Type) : Type := {
  Reflect_get : S -> Project -> NodeObj -> string -> res V;
  Reflect_getOwnPropertyDescriptor : S -> Project -> NodeObj -> string -> res V;
  Reflect_has : S -> Project -> NodeObj -> string -> res bool;
  Reflect_set : S -> Project -> NodeObj -> string -> V -> res (S * bool)
}.

(** A [Reflect] operation applied to what may be [undefined]. *)
Definition on_object {A} (what : string) (op : NodeObj -> res A) (target : option NodeObj) : res A :=
  match target with
  | Some o => op o
  | None => Err (TypeError (what +:+ " called on non-object"))
  end.

(** Own properties of node objects, as strings; a property that was never
    set reads as [undefined]. *)
#[export] Instance own_properties : Reflect (gmap (NodeObj * string) string) (option string) := {
  Reflect_get props _ o property := Ok (props !! (o, property));
  Reflect_getOwnPropertyDescriptor props _ o property := Ok (props !! (o, property));
  Reflect_has props _ o property := Ok (bool_decide (is_Some (props !! (o, property))));
  Reflect_set props _ o property value :=
    Ok (match value with
        | Some v => <[(o, property) := v]> props
        | None => delete (o, property) props
        end, true)
}.

(** ** The state of a reference *)

Record Ref : Type := mkRef {
  current : option NodeObj;  (* [let current]; [undefined] after a failed lookup *)
  path : Path                (* [const path] *)
}.

#[export] Instance Ref_eq_dec : EqDecision Ref.
Proof. solve_decision. Defined.

Section reference.
Context `{SB : Sandbox}.

(** [referenceTo(input)] up to the creation of the proxy: [getPath] throws
    on a forgotten node. *)
Definition referenceTo (proj : Project) (input : NodeObj) : res Ref :=
  path ← getPath proj input [];
  Ok (mkRef (Some input) path).

(** [current.wasForgotten() ? (current = getNode([...path], project)) :
    current], the first argument of every trap.  [getNode] is given a copy
    of the path, so what it leaves of the copy is dropped. *)
Definition current_target (proj : Project) (r : Ref) : res (option NodeObj) * Ref :=
  match current r with
  | None => (Err (TypeError "Cannot read property 'wasForgotten' of undefined"), r)
  | Some cur =>
    if wasForgotten proj cur then
      let (found, _) := getNode_st proj (path r) FromProject in
      match found with
      | Ok target => (Ok target, mkRef target (path r))
      | Err e => (Err e, r)
      end
    else (Ok (Some cur), r)
  end.

Context {S V : Type} `{RF : Reflect S V}.

(** The [get] trap. *)
Definition proxy_get (st : S) (proj : Project) (r : Ref) (property : string) : res V * Ref :=
  let (target, r') := current_target proj r in
  (target ≫= on_object "Reflect.get" (fun o => Reflect_get st proj o property), r').

(** The [getOwnPropertyDescriptor] trap. *)
Definition proxy_getOwnPropertyDescriptor (st : S) (proj : Project) (r : Ref)
    (property : string) : res V * Ref :=
  let (target, r') := current_target proj r in
  (target ≫= on_object "Reflect.getOwnPropertyDescriptor"
     (fun o => Reflect_getOwnPropertyDescriptor st proj o property), r').

(** The [has] trap. *)
Definition proxy_has (st : S) (proj : Project) (r : Ref) (property : string) : res bool * Ref :=
  let (target, r') := current_target proj r in
  (target ≫= on_object "Reflect.has" (fun o => Reflect_has st proj o property), r').

(** The [set] trap: the new state of the objects comes with the result. *)
Definition proxy_set (st : S) (proj : Project) (r : Ref) (property : string) (value : V)
    : res (S * bool) * Ref :=
  let (target, r') := current_target proj r in
  (target ≫= on_object "Reflect.set" (fun o => Reflect_set st proj o property value), r').

End reference.

(** ** The life of a reference *)

(** What happens between the creation of a reference and its use: files are
    parsed again or removed, and the reference is accessed. *)
Inductive event : Type :=
| EvParse (file : string) (root : Node)
| EvRemove (file : string)
| EvAccess.

Definition apply_event `{SB : Sandbox} (ev : event) (s : Project * Ref) : Project * Ref :=
  match ev with
  | EvParse file root => (parseFile file root s.1, s.2)
  | EvRemove file => (removeSourceFile file s.1, s.2)
  | EvAccess => (s.1, (current_target s.1 s.2).2)
  end.

(** The states a project and a reference reach from [s0]. *)
Inductive reachable `{SB : Sandbox} (s0 : Project * Ref) : Project * Ref -> Prop :=
| reach_init : reachable s0 s0
| reach_step s ev : reachable s0 s -> reachable s0 (apply_event ev s).

(** The invariant of a reference: it was made before the next generation,
    and while it is not forgotten its object is a node of the tree. *)
Definition ref_ok (proj : Project) (r : Ref) : Prop :=
  forall cur, current r = Some cur ->
    oGen cur < nextGen proj /\ (wasForgotten proj cur = false -> live proj cur).

(** ** A reference of the scenarios *)

(** The reference to the enum [AppType], as [referenceTo] makes it. *)
Definition AppType_ref : Ref :=
  mkRef (Some AppType_obj) [IStr AppType_path; IStr (getEnum_expr "AppType")].

(** ** Lemmas on the traps *)

Section reference_lemmas.
Context `{SB : Sandbox} `{!SandboxLaws SB}.
Implicit Types (proj : Project) (r : Ref) (cur o input : NodeObj) (e : error).

Lemma current_target_fresh proj r cur :
  current r = Some cur -> wasForgotten proj cur = false ->
  current_target proj r = (Ok (Some cur), r).
Proof. intros Hc Hf. unfold current_target. by rewrite Hc, Hf. Qed.

Lemma current_target_found proj r cur target :
  current r = Some cur -> wasForgotten proj cur = true ->
  getNode proj (path r) FromProject = Ok target ->
  current_target proj r = (Ok target, mkRef target (path r)).
Proof.
  intros Hc Hf Hg. unfold current_target, getNode in *. rewrite Hc, Hf.
  destruct (getNode_st proj (path r) FromProject) as [found rest].
  simpl in Hg. by rewrite Hg.
Qed.

Lemma current_target_thrown proj r cur e :
  current r = Some cur -> wasForgotten proj cur = true ->
  getNode proj (path r) FromProject = Err e ->
  current_target proj r = (Err e, r).
Proof.
  intros Hc Hf Hg. unfold current_target, getNode in *. rewrite Hc, Hf.
  destruct (getNode_st proj (path r) FromProject) as [found rest].
  simpl in Hg. by rewrite Hg.
Qed.

Lemma current_target_undefined proj r :
  current r = None ->
  current_target proj r
  = (Err (TypeError "Cannot read property 'wasForgotten' of undefined"), r).
Proof. intros Hc. unfold current_target. by rewrite Hc. Qed.

(** No trap changes the path of a reference. *)
Lemma current_target_path proj r : path (current_target proj r).2 = path r.
Proof.
  unfold current_target. destruct (current r) as [cur|]; [|done].
  destruct (wasForgotten proj cur); [|done].
  destruct (getNode_st proj (path r) FromProject) as [[target|e] rest]; done.
Qed.

(** The result of a lookup is what the reference holds afterwards. *)
Lemma current_target_Ok proj r target r' :
  current_target proj r = (Ok target, r') -> current r' = target.
Proof.
  unfold current_target. destruct (current r) as [cur|] eqn:Hc; [|done].
  destruct (wasForgotten proj cur).
  - destruct (getNode_st proj (path r) FromProject) as [[t|e] rest]; [|done].
    by intros [= <- <-].
  - by intros [= <- <-].
Qed.

Lemma current_target_live proj r o :
  ref_ok proj r -> (current_target proj r).1 = Ok (Some o) -> live proj o.
Proof.
  intros Hok. unfold current_target. destruct (current r) as [cur|] eqn:Hc; [|done].
  destruct (wasForgotten proj cur) eqn:Hf.
  - pose proof (getNode_st_live proj (path r) FromProject o) as Hlive.
    destruct (getNode_st proj (path r) FromProject) as [[t|e] rest]; [|done].
    simpl in *. exact Hlive.
  - simpl. intros [= <-]. by apply (Hok cur).
Qed.

Lemma referenceTo_Ok proj input r :
  referenceTo proj input = Ok r <->
  live proj input /\ current r = Some input /\ getPath proj input [] = Ok (path r).
Proof.
  unfold referenceTo. split.
  - intros (p & Hp & [= <-])%bind_Ok_inv. eauto using getPath_live.
  - intros (_ & Hc & Hp). rewrite Hp. simpl. destruct r. simpl in *. by subst.
Qed.

Lemma referenceTo_ref_ok proj input r :
  wf_project proj -> referenceTo proj input = Ok r -> ref_ok proj r.
Proof.
  intros Hwf (Hlive & Hc & _)%referenceTo_Ok cur Hcur.
  rewrite Hc in Hcur. injection Hcur as <-.
  split; [by apply live_gen_lt|done].
Qed.

(** The path of a reference to a statement. *)
Lemma referenceTo_statement proj o stmts i n r :
  top_level proj o = Some (stmts, i, n) -> referenceTo proj o = Ok r ->
  current r = Some o /\ exists id, identify (oFile o) n (Ok i) = Ok id /\
                               path r = [IStr (oFile o); id].
Proof.
  intros Htop (_ & Hc & Hpath)%referenceTo_Ok. split; [done|].
  rewrite (getPath_statement _ _ _ _ _ _ Htop) in Hpath.
  destruct (identify (oFile o) n (Ok i)) as [id|]; [|done].
  injection Hpath as <-. eauto.
Qed.

(** A forgotten reference whose path addresses a statement of the current
    tree takes that statement. *)
Lemma current_target_statement proj r cur o stmts i n id :
  current r = Some cur -> wasForgotten proj cur = true ->
  top_level proj o = Some (stmts, i, n) ->
  addressable (oFile o) stmts i n = true ->
  identify (oFile o) n (Ok i) = Ok id ->
  path r = [IStr (oFile o); id] ->
  current_target proj r = (Ok (Some o), mkRef (Some o) (path r)).
Proof.
  intros Hc Hf Htop Haddr Hid Hpath. apply (current_target_found _ _ cur); [done..|].
  unfold getNode. by rewrite Hpath, (getNode_statement _ _ _ _ _ _ Htop Haddr Hid).
Qed.

End reference_lemmas.

(** ** The traps on the node a use yields *)

Section trap_lemmas.
Context `{SB : Sandbox} {S V : Type} `{RF : Reflect S V}.
Implicit Types (proj : Project) (r : Ref) (o : NodeObj) (st : S) (property : string).

(** When the reference yields a node, each trap is the [Reflect] operation
    on that node. *)
Lemma traps_on_target st proj r o property value :
  (current_target proj r).1 = Ok (Some o) ->
  (proxy_get st proj r property).1 = Reflect_get st proj o property /\
  (proxy_getOwnPropertyDescriptor st proj r property).1
    = Reflect_getOwnPropertyDescriptor st proj o property /\
  (proxy_has st proj r property).1 = Reflect_has st proj o property /\
  (proxy_set st proj r property value).1 = Reflect_set st proj o property value.
Proof.
  unfold proxy_get, proxy_getOwnPropertyDescriptor, proxy_has, proxy_set.
  destruct (current_target proj r) as [target r']. simpl. by intros ->.
Qed.

End trap_lemmas.

(** ** Lemmas on the invariant *)

Section invariant_lemmas.
Context `{SB : Sandbox} `{!SandboxLaws SB}.
Implicit Types (proj : Project) (r : Ref) (cur o : NodeObj) (file : string).

Lemma wasForgotten_parseFile_other file root proj o :
  oFile o <> file -> wasForgotten (parseFile file root proj) o = wasForgotten proj o.
Proof. intros Hne. unfold wasForgotten, parseFile. simpl. by rewrite lookup_insert_ne. Qed.

Lemma wasForgotten_removeSourceFile_other file proj o :
  oFile o <> file -> wasForgotten (removeSourceFile file proj) o = wasForgotten proj o.
Proof.
  intros Hne. unfold wasForgotten, removeSourceFile. simpl. by rewrite lookup_delete_ne.
Qed.

Lemma ref_ok_parseFile file root proj r :
  ref_ok proj r -> ref_ok (parseFile file root proj) r.
Proof.
  intros Hok cur Hc. destruct (Hok cur Hc) as [Hlt Hlive]. split; [simpl; lia|].
  destruct (decide (oFile cur = file)) as [Hf|Hf].
  - by rewrite parseFile_forgets.
  - rewrite wasForgotten_parseFile_other by done. intros Hnf.
    unfold live. rewrite parseFile_other by done. by apply Hlive.
Qed.

Lemma ref_ok_removeSourceFile file proj r :
  ref_ok proj r -> ref_ok (removeSourceFile file proj) r.
Proof.
  intros Hok cur Hc. destruct (Hok cur Hc) as [Hlt Hlive]. split; [done|].
  destruct (decide (oFile cur = file)) as [Hf|Hf].
  - by rewrite removeSourceFile_forgets.
  - rewrite wasForgotten_removeSourceFile_other by done. intros Hnf.
    unfold live. rewrite removeSourceFile_other by done. by apply Hlive.
Qed.

Lemma ref_ok_access proj r :
  wf_project proj -> ref_ok proj r -> ref_ok proj (current_target proj r).2.
Proof.
  intros Hwf Hok. pose proof (current_target_live proj r) as Hlive.
  unfold current_target in *. destruct (current r) as [cur|] eqn:Hc; [|done].
  destruct (wasForgotten proj cur) eqn:Hf; [|done].
  destruct (getNode_st proj (path r) FromProject) as [[target|e] rest]; [|done].
  simpl in *. intros o Ho. simpl in Ho. subst target.
  specialize (Hlive o Hok eq_refl). split; [by apply live_gen_lt|done].
Qed.

Lemma apply_event_invariant ev proj r :
  wf_project proj -> ref_ok proj r ->
  wf_project (apply_event ev (proj, r)).1 /\
  ref_ok (apply_event ev (proj, r)).1 (apply_event ev (proj, r)).2 /\
  path (apply_event ev (proj, r)).2 = path r.
Proof.
  intros Hwf Hok. destruct ev as [file root|file|]; simpl.
  - split_and!; [by apply wf_parseFile|by apply ref_ok_parseFile|done].
  - split_and!; [by apply wf_removeSourceFile|by apply ref_ok_removeSourceFile|done].
  - split_and!; [done|by apply ref_ok_access|apply current_target_path].
Qed.

Lemma reachable_invariant proj0 r0 proj r :
  wf_project proj0 -> ref_ok proj0 r0 -> reachable (proj0, r0) (proj, r) ->
  wf_project proj /\ ref_ok proj r /\ path r = path r0.
Proof.
  intros Hwf0 Hok0 Hreach. remember (proj, r) as s eqn:Hs. revert proj r Hs.
  induction Hreach as [|[proj1 r1] ev _ IH]; intros proj r Hs.
  - by injection Hs as <- <-.
  - destruct (IH proj1 r1 eq_refl) as (Hwf & Hok & Hpath).
    destruct (apply_event_invariant ev proj1 r1 Hwf Hok) as (H1 & H2 & H3).
    rewrite Hs in H1, H2, H3. simpl in *. split_and!; [done|done|congruence].
Qed.

End invariant_lemmas.

(** ** The properties of references *)

Section reference_theorems.
Context `{SB : Sandbox} `{!SandboxLaws SB}.
Context {S V : Type} `{RF : Reflect S V}.
Implicit Types (proj : Project) (r : Ref) (cur o input : NodeObj) (st : S).
Implicit Types (stmts : list Node) (i : nat) (n : Node) (property : string).

(** C8 (a reference is transparent while its node lives).  Right after
    [referenceTo], and as long as the node is not forgotten, each of the four
    traps is the [Reflect] operation on the node itself, and the reference
    does not change. *)
Theorem proxy_transparent proj input r st property value :
  referenceTo proj input = Ok r ->
  proxy_get st proj r property = (Reflect_get st proj input property, r) /\
  proxy_getOwnPropertyDescriptor st proj r property
    = (Reflect_getOwnPropertyDescriptor st proj input property, r) /\
  proxy_has st proj r property = (Reflect_has st proj input property, r) /\
  proxy_set st proj r property value = (Reflect_set st proj input property value, r).
Proof.
  intros (Hlive%live_not_forgotten & Hc & _)%referenceTo_Ok.
  unfold proxy_get, proxy_getOwnPropertyDescriptor, proxy_has, proxy_set.
  by rewrite (current_target_fresh _ _ _ Hc Hlive).
Qed.

(** C3 (healing).  A reference made to a statement of a file, once the
    statement's object is forgotten, reacquires on its next use the statement
    of the same file that has the same identifier in the current tree,
    provided the identifier addresses it there; it then holds the new object
    and the following uses do not look it up again. *)
Theorem reference_heals proj o stmts i n r proj' o' stmts' i' n' :
  top_level proj o = Some (stmts, i, n) ->
  referenceTo proj o = Ok r ->
  wasForgotten proj' o = true ->
  top_level proj' o' = Some (stmts', i', n') ->
  oFile o' = oFile o ->
  identify (oFile o) n' (Ok i') = identify (oFile o) n (Ok i) ->
  addressable (oFile o') stmts' i' n' = true ->
  current_target proj' r = (Ok (Some o'), mkRef (Some o') (path r)) /\
  current_target proj' (mkRef (Some o') (path r)) = (Ok (Some o'), mkRef (Some o') (path r)).
Proof.
  intros Htop Href Hforgotten Htop' Hfile Hid Haddr.
  destruct (referenceTo_statement _ _ _ _ _ _ Htop Href) as (Hc & id & Hid' & Hpath).
  rewrite <- Hid, <- Hfile in Hid'. rewrite <- Hfile in Hpath. split.
  - by apply (current_target_statement _ _ o _ stmts' i' n' id).
  - apply current_target_fresh; [done|].
    apply live_not_forgotten. eexists. by eapply top_level_resolve.
Qed.

(** C4 (a lost reference stays lost).  When the lookup finds no node the
    trap fails, and the reference then holds [undefined]: every later use, in
    whatever state the project is, fails on [current.wasForgotten()] without
    looking the path up, even if the node is back. *)
Theorem reference_lost_forever proj r r' st property :
  current_target proj r = (Ok None, r') ->
  (proxy_get st proj r property).1 = Err (TypeError "Reflect.get called on non-object") /\
  forall proj', current_target proj' r'
    = (Err (TypeError "Cannot read property 'wasForgotten' of undefined"), r').
Proof.
  intros H. split.
  - unfold proxy_get. by rewrite H.
  - intros proj'. apply current_target_undefined. by eapply current_target_Ok.
Qed.

(** (a lookup that throws leaves the reference as it was).  While the
    file of a reference is removed from the project every use throws the
    assertion of [getNode], and the reference keeps its object and its path,
    so that it can heal once the file is parsed again. *)
Theorem reference_file_removed proj o stmts i n r :
  top_level proj o = Some (stmts, i, n) ->
  referenceTo proj o = Ok r ->
  current_target (removeSourceFile (oFile o) proj) r = (Err (not_in_project (oFile o)), r).
Proof.
  intros Htop (_ & Hc & Hpath)%referenceTo_Ok.
  rewrite (getPath_statement _ _ _ _ _ _ Htop) in Hpath.
  destruct (identify (oFile o) n (Ok i)) as [id|]; [|done]. injection Hpath as Hpath.
  apply (current_target_thrown _ _ o); [done|by apply removeSourceFile_forgets|].
  unfold getNode. rewrite <- Hpath, getNode_not_in_project; [done|].
  apply lookup_delete_eq.
Qed.

(** C7 (every node a reference yields is live).  Start from a reference
    made in a well-formed project; let files be parsed again and removed and
    the reference be used, in any order.  Whenever a use of the reference
    then yields a node, it is a node of the current tree; and the path of
    the reference is still the one computed at creation. *)
Theorem reference_access_live proj0 input r0 proj r :
  wf_project proj0 ->
  referenceTo proj0 input = Ok r0 ->
  reachable (proj0, r0) (proj, r) ->
  path r = path r0 /\
  forall o, (current_target proj r).1 = Ok (Some o) -> live proj o.
Proof.
  intros Hwf Href Hreach.
  destruct (reachable_invariant proj0 r0 proj r Hwf
              (referenceTo_ref_ok _ _ _ Hwf Href) Hreach) as (_ & Hok & Hpath).
  split; [done|]. intros o. by apply current_target_live.
Qed.


End reference_theorems.

(** ** Witnesses on the documents of the repository *)

Lemma proxy_transparent_witness :
  @proxy_get tsEvaluate _ _ own_properties ∅ enum_project AppType_ref "brand"
  = (Ok None, AppType_ref).
Proof.
  exact (proj1 (proxy_transparent (SB:=tsEvaluate) (RF:=own_properties)
                  enum_project AppType_obj AppType_ref ∅ "brand" None eq_refl)).
Defined.

Lemma reference_heals_witness :
  @current_target tsEvaluate enum_project_reparsed AppType_ref
  = (Ok (Some (mkObj AppType_path 1 [0; 0])),
     mkRef (Some (mkObj AppType_path 1 [0; 0])) (path AppType_ref)).
Proof.
  apply (reference_heals (SB:=tsEvaluate) enum_project AppType_obj [AppType_enum] 0
           AppType_enum AppType_ref enum_project_reparsed (mkObj AppType_path 1 [0; 0])
           [AppType_enum] 0 AppType_enum); reflexivity.
Defined.

Lemma reference_lost_forever_witness :
  @current_target tsEvaluate enum_project_reparsed (mkRef None (path AppType_ref))
  = (Err (TypeError "Cannot read property 'wasForgotten' of undefined"),
     mkRef None (path AppType_ref)).
Proof.
  exact (proj2 (reference_lost_forever (SB:=tsEvaluate) (RF:=own_properties)
                  enum_project_emptied AppType_ref (mkRef None (path AppType_ref)) ∅ "brand"
                  eq_refl) enum_project_reparsed).
Defined.

Lemma reference_file_removed_witness :
  @current_target tsEvaluate (removeSourceFile AppType_path enum_project) AppType_ref
  = (Err (not_in_project AppType_path), AppType_ref).
Proof.
  apply (reference_file_removed (SB:=tsEvaluate) enum_project AppType_obj
           [AppType_enum] 0 AppType_enum AppType_ref); reflexivity.
Defined.

Lemma reference_access_live_witness :
  live enum_project_reparsed (mkObj AppType_path 1 [0; 0]).
Proof.
  apply (reference_access_live (SB:=tsEvaluate) enum_project AppType_obj AppType_ref
           enum_project_reparsed AppType_ref).
  - apply wf_parseFile, wf_emptyProject.
  - reflexivity.
  - apply (reach_step _ (enum_project, AppType_ref) (EvParse AppType_path AppType_ts)).
    apply reach_init.
  - reflexivity.
Defined.

