(* ===== verification/Healing.v ===== *)
(** * Healing: a reference against the resolution of its address

    The specification describes a reference by what its uses return: the
    node its address resolves to in the current documents.  The proxy of
    [referenceTo] keeps the node it found last and resolves the address only
    when that node was forgotten.  This file relates the two:
    [resolve_address] is the reference of the specification, which keeps
    nothing, and [reference_refines_resolution] shows that the proxy returns
    what it returns, along any sequence of parses, removals and uses, until a
    use finds no node.  It rests on the fact that [getNode] reads one file
    only ([getNode_local]).

    The last theorems are about references that do not heal as meant: a
    statement addressed by its index heals to whatever statement has that
    index, and a reference to a node below a statement, whose path starts
    with the parent of the node, throws on every use once the node is
    forgotten. *)

From Stdlib Require Import Ascii String ZArith.
From stdpp Require Import base option strings list gmap.
From S2P Require Import Prelude JsString Ast Scenarios Sandbox NodePath Reference.

(** ** The reference of the specification *)

Section abstract_reference.
Context `{SB : Sandbox}.

(** A use of a reference with this address: the node of the address in the
    current project. *)
Definition resolve_address (proj : Project) (address : Path) : res (option NodeObj) :=
  getNode proj address FromProject.

(** The file an address starts with. *)
Definition file_of (address : Path) : option string :=
  match address with
  | IStr file :: _ => Some file
  | _ => None
  end.

(** The node a reference holds is in the file of its path, and while it is
    not forgotten it is the node the path resolves to. *)
Definition coherent (proj : Project) (r : Ref) : Prop :=
  forall cur, current r = Some cur ->
    file_of (path r) = Some (oFile cur) /\
    (wasForgotten proj cur = false -> resolve_address proj (path r) = Ok (Some cur)).

End abstract_reference.

(** ** keyvault: the model without its import *)

(** [DeletedVaultListResult.ts] after its import is deleted. *)
Definition DeletedVaultListResult_edited : Node :=
  sourceFile [DeletedVaultListResult_interface].

Definition keyvault_project_edited : Project :=
  parseFile DeletedVaultListResult_path DeletedVaultListResult_edited keyvault_project.

(** The reference to the import of [DeletedVaultListResult.ts], as
    [referenceTo] makes it. *)
Definition DeletedVault_import_ref : Ref :=
  mkRef (Some DeletedVault_import_obj) [IStr DeletedVaultListResult_path; INum 0].

(** The reference to the member [developerPortal] of [AppType], as
    [referenceTo] makes it: the enum, the file, the member. *)
Definition developerPortal_ref : Ref :=
  mkRef (Some developerPortal_obj)
    [IStr (getEnum_expr "AppType"); IStr AppType_path;
     IStr (getMember_expr "developerPortal")].

(** ** [getNode] reads one file *)

Section locality.
Context `{SB : Sandbox} `{!SandboxLaws SB}.
Implicit Types (proj : Project) (from o : NodeObj) (index : jsid) (path rest : Path)
  (file : string).

Lemma is_expression_Some index e :
  is_expression index = Some e -> index = IStr e /\ startsWith e "$." = true.
Proof.
  destruct index as [|s|z]; try done. unfold is_expression.
  destruct (startsWith s "$.") eqn:Hs; [|done]. by intros [= <-].
Qed.

Lemma find_child_file proj from index o :
  find_child proj from index = Ok (Some o) -> oFile o = oFile from.
Proof.
  unfold find_child. case_res; simpl; [|done].
  destruct (list_find _ _) as [[i c]|]; [by intros [= <-]|].
  destruct index as [| |z]; try done. unfold getChildAtIndex.
  case_res; simpl; [|done]. case_bool_decide; [|done]. by intros [= <-].
Qed.

Lemma find_child_local proj proj' from index :
  agree_on (oFile from) proj proj' -> find_child proj from index = find_child proj' from index.
Proof.
  intros H. unfold find_child. rewrite (the_node_local _ proj') by done.
  case_res; simpl; [|done]. destruct (list_find _ _); [done|].
  destruct index as [| |z]; try done. by rewrite (getChildAtIndex_local _ proj').
Qed.

(** The node an expression is evaluated on is in the file of [from]. *)
Lemma dollar_file proj from n dollar d :
  (if isSyntaxList n then getParent proj from else Ok (Some from)) = Ok dollar ->
  dollar = Some d -> oFile d = oFile from.
Proof.
  destruct (isSyntaxList n); [|by intros [= <-] [= <-]].
  unfold getParent. destruct (getAncestors proj from) as [ancestors|] eqn:Ha; [|done].
  simpl. intros [= <-] Hd. apply (getAncestors_file _ _ _ _ Ha).
  destruct ancestors; [done|]. injection Hd as ->. apply elem_of_cons. by left.
Qed.

Lemma getNodeStep_file proj index from o :
  getNodeStep proj index from = Ok (Some o) -> oFile o = oFile from.
Proof.
  unfold getNodeStep. intros ([r|] & Hexpr & H)%bind_Ok_inv; [|by apply find_child_file in H].
  injection H as <-. destruct (is_expression index) as [e|] eqn:Hexp; [|done].
  apply bind_Ok_inv in Hexpr as (n & _ & (dollar & Hd & He)%bind_Ok_inv).
  destruct dollar as [d|].
  - rewrite (eval_file _ _ _ _ He). by apply (dollar_file _ _ _ _ _ Hd).
  - apply is_expression_Some in Hexp as [_ Hs].
    apply (eval_undefined proj) in Hs. by rewrite He in Hs.
Qed.

Lemma getNodeStep_local proj proj' index from :
  agree_on (oFile from) proj proj' ->
  getNodeStep proj index from = getNodeStep proj' index from.
Proof.
  intros H. unfold getNodeStep.
  rewrite (find_child_local _ proj'), (the_node_local _ proj'), (getParent_local _ proj') by done.
  destruct (is_expression index) as [e|]; [|done].
  destruct (the_node proj' from) as [n|]; [|done]. simpl.
  destruct (if isSyntaxList n then _ else _) as [dollar|] eqn:Hd; [|done]. simpl.
  rewrite (eval_local proj proj' e dollar); [done|].
  intros d Hsome. by rewrite (dollar_file _ _ _ _ _ Hd Hsome).
Qed.

Lemma getNodeFrom_local proj proj' path : forall from,
  agree_on (oFile from) proj proj' ->
  getNodeFrom proj from path = getNodeFrom proj' from path.
Proof.
  induction path as [|index rest IH]; intros from H; simpl.
  - by rewrite (getNodeStep_local _ proj').
  - rewrite <- (getNodeStep_local proj proj') by done.
    destruct (getNodeStep proj index from) as [[r|]|] eqn:Hstep; try done.
    destruct rest as [|index' rest']; [done|].
    apply IH. by rewrite (getNodeStep_file _ _ _ _ Hstep).
Qed.

Lemma getNodeFrom_file proj path : forall from o,
  (getNodeFrom proj from path).1 = Ok (Some o) -> oFile o = oFile from.
Proof.
  induction path as [|index rest IH]; intros from o; simpl.
  - apply getNodeStep_file.
  - destruct (getNodeStep proj index from) as [[r|]|] eqn:Hstep; try done.
    destruct rest as [|index' rest'].
    + intros [= <-]. by apply getNodeStep_file in Hstep.
    + intros Ho%IH. rewrite Ho. by apply getNodeStep_file in Hstep.
Qed.

Lemma first_child_of_file_file proj file o :
  first_child_of_file proj (IStr file) = Ok o -> oFile o = file.
Proof.
  unfold first_child_of_file. destruct (getSourceFile proj file) as [sf|] eqn:Hsf; [|done].
  apply getSourceFile_Some in Hsf as (? & ? & ->). unfold getChildAtIndex.
  case_res; simpl; [|done]. case_bool_decide; [|done]. by intros [= <-].
Qed.

(** The resolution of an address reads the file the address starts with,
    and nothing else of the project. *)
Lemma getNode_local proj proj' file rest :
  agree_on file proj proj' ->
  getNode proj (IStr file :: rest) FromProject = getNode proj' (IStr file :: rest) FromProject.
Proof.
  intros H. unfold getNode, getNode_st. cbn [shift]. unfold first_child_of_file.
  rewrite <- (getSourceFile_local proj proj') by done.
  destruct (getSourceFile proj file) as [sf|] eqn:Hsf; [|done].
  apply getSourceFile_Some in Hsf as (? & ? & ->).
  rewrite <- (getChildAtIndex_local proj proj') by done.
  destruct (getChildAtIndex proj _ 0) as [from|] eqn:Hfrom; [|done].
  rewrite (getNodeFrom_local proj proj'); [done|].
  unfold getChildAtIndex in Hfrom. revert Hfrom.
  case_res; simpl; [|done]. case_bool_decide; [|done]. by intros [= <-].
Qed.

(** What an address resolves to is in the file the address starts with. *)
Lemma getNode_file proj file rest o :
  getNode proj (IStr file :: rest) FromProject = Ok (Some o) -> oFile o = file.
Proof.
  unfold getNode, getNode_st. cbn [shift].
  destruct (first_child_of_file proj (IStr file)) as [from|] eqn:Hfrom; [|done].
  intros Ho%getNodeFrom_file. rewrite Ho. by apply first_child_of_file_file in Hfrom.
Qed.

End locality.

(** ** The proxy against the resolution of its path *)

Section coherence.
Context `{SB : Sandbox} `{!SandboxLaws SB}.
Implicit Types (proj : Project) (r : Ref) (cur o : NodeObj) (file : string).

Lemma file_of_Some address file :
  file_of address = Some file -> exists rest, address = IStr file :: rest.
Proof. destruct address as [ | [ | s | z ] rest ]; try done. intros [= ->]. eauto. Qed.

(** A change of another file does not change what a path resolves to. *)
Lemma coherent_agree proj proj' r :
  (forall cur, current r = Some cur ->
     wasForgotten proj' cur = false ->
     wasForgotten proj cur = false /\ agree_on (oFile cur) proj' proj) ->
  coherent proj r -> coherent proj' r.
Proof.
  intros Hsame Hco cur Hc. destruct (Hco cur Hc) as [Hfile Hres]. split; [done|].
  intros Hnf. destruct (Hsame cur Hc Hnf) as [Hnf' Hagree].
  destruct (file_of_Some _ _ Hfile) as [rest Hpath]. unfold resolve_address in *.
  rewrite Hpath in *. rewrite (getNode_local proj' proj) by done. auto.
Qed.

Lemma coherent_parseFile file root proj r :
  ref_ok proj r -> coherent proj r -> coherent (parseFile file root proj) r.
Proof.
  intros Hok. apply coherent_agree. intros cur Hc.
  destruct (decide (oFile cur = file)) as [Hf|Hf].
  - rewrite parseFile_forgets; [done|done|]. by apply (Hok cur).
  - rewrite wasForgotten_parseFile_other by done. eauto using parseFile_agree.
Qed.

Lemma coherent_removeSourceFile file proj r :
  coherent proj r -> coherent (removeSourceFile file proj) r.
Proof.
  apply coherent_agree. intros cur Hc.
  destruct (decide (oFile cur = file)) as [Hf|Hf].
  - by rewrite removeSourceFile_forgets.
  - rewrite wasForgotten_removeSourceFile_other by done. eauto using removeSourceFile_agree.
Qed.

Lemma coherent_access proj r : coherent proj r -> coherent proj (current_target proj r).2.
Proof.
  intros Hco. unfold current_target. destruct (current r) as [cur|] eqn:Hc; [|done].
  destruct (wasForgotten proj cur); [|done].
  destruct (getNode_st proj (path r) FromProject) as [[target|e] rest] eqn:Hget; [|done].
  assert (Hres : resolve_address proj (path r) = Ok target)
    by (unfold resolve_address, getNode; by rewrite Hget).
  simpl. intros cur' Hc'. simpl in *. subst target. split; [|done].
  destruct (Hco cur Hc) as [Hfile _]. rewrite Hfile.
  destruct (file_of_Some _ _ Hfile) as [rest' Hpath]. rewrite Hpath in Hres.
  by rewrite (getNode_file _ _ _ _ Hres).
Qed.

(** An address that resolves starts with the file of the node. *)
Lemma resolve_address_file_of proj address o :
  resolve_address proj address = Ok (Some o) -> file_of address = Some (oFile o).
Proof.
  destruct address as [ | [ | file | z ] rest ]; try done.
  intros H. simpl. by rewrite (getNode_file _ _ _ _ H).
Qed.

(** A reference whose path leads to its node starts coherent. *)
Lemma referenceTo_coherent proj o r :
  referenceTo proj o = Ok r -> resolve_address proj (path r) = Ok (Some o) ->
  coherent proj r.
Proof.
  intros (_ & Hc & _)%referenceTo_Ok Hres cur Hcur.
  rewrite Hc in Hcur. injection Hcur as <-.
  split; [by apply (resolve_address_file_of proj)|done].
Qed.

(** The path of a reference to a statement that its identifier addresses
    leads to the statement. *)
Lemma referenceTo_resolves proj o stmts i n r :
  top_level proj o = Some (stmts, i, n) ->
  addressable (oFile o) stmts i n = true ->
  referenceTo proj o = Ok r -> resolve_address proj (path r) = Ok (Some o).
Proof.
  intros Htop Haddr (_ & id & Hid & ->)%(referenceTo_statement _ _ _ _ _ _ Htop).
  unfold resolve_address, getNode. by rewrite (getNode_statement _ _ _ _ _ _ Htop Haddr Hid).
Qed.

Lemma apply_event_coherent ev proj r :
  ref_ok proj r -> coherent proj r ->
  coherent (apply_event ev (proj, r)).1 (apply_event ev (proj, r)).2.
Proof.
  intros Hok Hco. destruct ev as [file root|file|]; simpl;
    auto using coherent_parseFile, coherent_removeSourceFile, coherent_access.
Qed.

Lemma reachable_coherent proj0 r0 proj r :
  wf_project proj0 -> ref_ok proj0 r0 -> coherent proj0 r0 ->
  reachable (proj0, r0) (proj, r) ->
  coherent proj r /\ path r = path r0.
Proof.
  intros Hwf0 Hok0 Hco0 Hreach.
  enough (wf_project proj /\ ref_ok proj r /\ coherent proj r /\ path r = path r0)
    by tauto.
  remember (proj, r) as s eqn:Hs. revert proj r Hs.
  induction Hreach as [|[proj1 r1] ev _ IH]; intros proj r Hs.
  - by injection Hs as <- <-.
  - destruct (IH proj1 r1 eq_refl) as (Hwf & Hok & Hco & Hpath).
    destruct (apply_event_invariant ev proj1 r1 Hwf Hok) as (H1 & H2 & H3).
    pose proof (apply_event_coherent ev proj1 r1 Hok Hco) as H4.
    rewrite Hs in H1, H2, H3, H4. simpl in *. split_and!; [done..|congruence].
Qed.

(** A coherent reference that holds a node yields what its path resolves
    to. *)
Lemma coherent_refines proj r :
  coherent proj r -> is_Some (current r) ->
  (current_target proj r).1 = resolve_address proj (path r).
Proof.
  intros Hco [cur Hc]. destruct (Hco cur Hc) as [_ Hres].
  unfold current_target. rewrite Hc.
  destruct (wasForgotten proj cur); [|by rewrite Hres].
  unfold resolve_address, getNode.
  by destruct (getNode_st proj (path r) FromProject) as [[target|e] rest].
Qed.

End coherence.

(** ** Theorems *)

Section healing_theorems.
Context `{SB : Sandbox} `{!SandboxLaws SB}.
Implicit Types (proj : Project) (r : Ref) (cur o : NodeObj) (stmts : list Node).

(** C12 (the proxy refines the reference of the specification).  Take a
    reference whose path leads to its node when it is made, in a
    well-formed project, and let files be parsed again and removed and the
    reference be used, in any order.  As long as the reference holds a node,
    a use of it returns exactly what the resolution of its address returns in
    the current project: keeping the node found last is not observable. *)
Theorem reference_refines_resolution proj0 o r0 proj r :
  wf_project proj0 ->
  referenceTo proj0 o = Ok r0 ->
  resolve_address proj0 (path r0) = Ok (Some o) ->
  reachable (proj0, r0) (proj, r) ->
  is_Some (current r) ->
  (current_target proj r).1 = resolve_address proj (path r0).
Proof.
  intros Hwf Href Hres0 Hreach Hc.
  destruct (reachable_coherent proj0 r0 proj r Hwf
              (referenceTo_ref_ok _ _ _ Hwf Href)
              (referenceTo_coherent _ _ _ Href Hres0) Hreach)
    as (Hco & <-).
  by apply coherent_refines.
Qed.


(** C23 (a positional address heals to another node).  A reference to a
    statement that has no name and no value is addressed by the index of the
    statement.  After its file is parsed again the reference reacquires the
    statement at that index, whatever it is: its kind and its own identifier
    play no part. *)
Theorem reference_heals_by_position proj o stmts i n r proj' o' stmts' n' :
  top_level proj o = Some (stmts, i, n) ->
  identify (oFile o) n (Ok i) = Ok (INum (Z.of_nat i)) ->
  referenceTo proj o = Ok r ->
  wasForgotten proj' o = true ->
  top_level proj' o' = Some (stmts', i, n') ->
  oFile o' = oFile o ->
  list_find (fun each => matches (INum (Z.of_nat i)) each = true) stmts' = None ->
  resolve_address proj' (path r) = Ok (Some o') /\
  current_target proj' r = (Ok (Some o'), mkRef (Some o') (path r)).
Proof.
  intros Htop Hid (_ & Hc & Hpath)%referenceTo_Ok Hforgotten Htop' Hfile Hnone.
  rewrite (getPath_statement _ _ _ _ _ _ Htop), Hid in Hpath. injection Hpath as Hpath.
  enough (resolve_address proj' (path r) = Ok (Some o')) as Hres
    by (split; [done|by apply (current_target_found _ _ o)]).
  unfold resolve_address, getNode, getNode_st. rewrite <- Hpath, <- Hfile. cbn [shift].
  rewrite (first_child_of_file_statement _ _ _ _ _ Htop'). cbn [getNodeFrom fst].
  destruct (top_level_syntax_list _ _ _ _ _ Htop') as (root & sl & _ & _ & Hsl & _ & _ & Hch).
  apply top_level_Some in Htop' as Hi. destruct Hi as (_ & _ & _ & _ & Hi).
  rewrite getNodeStep_plain by done.
  rewrite (find_child_by_index _ _ sl i n') by (rewrite ?Hch; done).
  simpl. do 2 f_equal. by rewrite (top_level_eta _ _ _ _ _ Htop') at 2.
Qed.

(** C21 (a reference to a nested node never heals).  The path of a
    reference to a node below a statement starts with the identifier of the
    parent of the node.  Once the node is forgotten, every use of the
    reference, in every project whose files have absolute paths, throws the
    assertion that this identifier is no source file of the project, and
    leaves the reference as it was. *)
Theorem reference_nested_never_heals proj o a ancestors s r proj' :
  referenceTo proj o = Ok r ->
  getAncestors proj o = Ok (a :: ancestors) ->
  getNodeIdentifier proj a = Ok (IStr s) ->
  startsWith s "/" = false ->
  absolute_paths proj' ->
  wasForgotten proj' o = true ->
  resolve_address proj' (path r) = Err (not_in_project s) /\
  current_target proj' r = (Err (not_in_project s), r).
Proof.
  intros (_ & Hc & Hpath)%referenceTo_Ok Ha Hid Hs Habs Hf.
  destruct (getPath_head _ _ _ _ _ _ Ha Hid Hpath) as [rest Hrest].
  enough (resolve_address proj' (path r) = Err (not_in_project s)) as Hres
    by (split; [done|by apply (current_target_thrown _ _ o)]).
  rewrite Hrest. by apply getNode_relative.
Qed.

End healing_theorems.

(** ** The theorems at the scenario documents *)

Lemma reference_refines_resolution_witness :
  (@current_target tsEvaluate enum_project_reparsed AppType_ref).1 =
  @resolve_address tsEvaluate enum_project_reparsed (path AppType_ref).
Proof.
  apply (reference_refines_resolution (SB:=tsEvaluate) enum_project AppType_obj
           AppType_ref enum_project_reparsed AppType_ref).
  - apply wf_parseFile, wf_emptyProject.
  - reflexivity.
  - reflexivity.
  - apply (reach_step _ (enum_project, AppType_ref) (EvParse AppType_path AppType_ts)).
    apply reach_init.
  - by eexists.
Defined.

(** The reference to the import of the file yields, once the import is
    deleted, the interface that took its place. *)
Lemma reference_heals_by_position_witness :
  @resolve_address tsEvaluate keyvault_project_edited (path DeletedVault_import_ref)
  = Ok (Some (mkObj DeletedVaultListResult_path 2 [0; 0])) /\
  @current_target tsEvaluate keyvault_project_edited DeletedVault_import_ref
  = (Ok (Some (mkObj DeletedVaultListResult_path 2 [0; 0])),
     mkRef (Some (mkObj DeletedVaultListResult_path 2 [0; 0])) (path DeletedVault_import_ref)).
Proof.
  apply (reference_heals_by_position (SB:=tsEvaluate) keyvault_project DeletedVault_import_obj
           [importDeclaration; DeletedVaultListResult_interface] 0 importDeclaration
           DeletedVault_import_ref keyvault_project_edited
           (mkObj DeletedVaultListResult_path 2 [0; 0])
           [DeletedVaultListResult_interface] DeletedVaultListResult_interface);
    reflexivity.
Defined.

(** The reference to the member [developerPortal] of [AppType], once
    [AppType.ts] is parsed again. *)
Lemma reference_nested_never_heals_witness :
  @resolve_address tsEvaluate enum_project_reparsed (path developerPortal_ref)
  = Err (not_in_project (getEnum_expr "AppType")) /\
  @current_target tsEvaluate enum_project_reparsed developerPortal_ref
  = (Err (not_in_project (getEnum_expr "AppType")), developerPortal_ref).
Proof.
  apply (reference_nested_never_heals (SB:=tsEvaluate) enum_project developerPortal_obj
           AppType_obj [mkObj AppType_path 0 []] (getEnum_expr "AppType")
           developerPortal_ref enum_project_reparsed);
    [reflexivity..|unfold enum_project_reparsed, enum_project; auto with adl|reflexivity].
Defined.
