(* ===== verification/Content.v ===== *)
(** * Content: resolution is a function of the address and the trees

    The specification asks that resolving an address be a function of the
    address and of the content of the documents, with no hidden state.  In
    the model the only thing a project holds beside the trees is the
    generation of each tree, which tells node objects of before a parse from
    those of after it.  This file shows that [getNode] does not see it: in
    two projects that hold the same tree for the file of an address, the
    address resolves to the node at the same place, which stands for the
    same tree node ([getNode_content]).

    For references this is the healing the specification describes: after
    edits that leave the file as it was (a statement deleted and written back,
    the file parsed again unchanged), a reference whose path led to its node
    leads to the node at the same place ([reference_heals_unchanged]). *)

From Stdlib Require Import Ascii String ZArith.
From stdpp Require Import base option strings list gmap.
From S2P Require Import Prelude JsString Ast Scenarios Sandbox NodePath Reference Healing.

(** ** What is compared *)

(** The result of a resolution, read in the project [proj']: the node at
    the same place in the tree [proj'] holds. *)
Definition transported (proj' : Project) (found : res (option NodeObj)) : res (option NodeObj) :=
  fmap (M:=option) (transport proj') <$> found.

(** The tree node a resolution ends on: what the caller of [getNode] reads
    of the project through the object it gets. *)
Definition content_at `{SB : Sandbox} (proj : Project) (address : Path) : res (option Node) :=
  found ← getNode proj address FromProject; Ok (found ≫= resolve_obj proj).

(** ** The accessors of ts-morph on the counterpart of a node *)

Section accessors.
Implicit Types (proj : Project) (o from d : NodeObj) (index : jsid) (z : Z).

Lemma live_at_pos_nil proj o : live proj o -> live proj (at_pos o []).
Proof.
  intros [n (sf & Hf & Hg & _)%resolve_obj_Some]. exists (sfRoot sf).
  apply resolve_obj_Some. by exists sf.
Qed.

Lemma getChildAtIndex_content proj proj' o z :
  same_tree (oFile o) proj proj' -> live proj o ->
  getChildAtIndex proj' (transport proj' o) z = transport proj' <$> getChildAtIndex proj o z.
Proof.
  intros Hsame Hlive. unfold getChildAtIndex. rewrite (the_node_transport proj) by done.
  case_res; simpl; [|done]. case_bool_decide; [|done]. simpl.
  by rewrite transport_child_obj.
Qed.

Lemma getAncestors_content proj proj' o :
  same_tree (oFile o) proj proj' -> live proj o ->
  getAncestors proj' (transport proj' o) = fmap (M:=list) (transport proj') <$> getAncestors proj o.
Proof.
  intros Hsame Hlive. unfold getAncestors. rewrite (the_node_transport proj) by done.
  case_res; simpl; [|done].
  rewrite <- transport_at_pos, (the_node_transport proj) by auto using live_at_pos_nil.
  case_res; simpl; [|done]. f_equal. rewrite <- list_fmap_compose, transport_pos.
  apply list_fmap_ext. intros _ p _. simpl. by rewrite transport_at_pos.
Qed.

Lemma getParent_content proj proj' o :
  same_tree (oFile o) proj proj' -> live proj o ->
  getParent proj' (transport proj' o) = fmap (M:=option) (transport proj') <$> getParent proj o.
Proof.
  intros Hsame Hlive. unfold getParent. rewrite (getAncestors_content proj) by done.
  destruct (getAncestors proj o) as [[|a ancestors]|]; done.
Qed.

(** The ancestors of a node are nodes of the tree. *)
Lemma getAncestors_live proj o ancestors a :
  getAncestors proj o = Ok ancestors -> a ∈ ancestors -> live proj a.
Proof.
  unfold getAncestors. case_res; simpl; [|done].
  destruct (the_node proj (at_pos o [])) as [root|] eqn:Hroot; simpl; [|done].
  intros [= <-] (p & -> & [Hp _]%list_elem_of_filter)%list_elem_of_fmap.
  apply the_node_Ok in Hroot. unfold live. rewrite (resolve_at_pos _ _ root) by done.
  unfold not_syntax_list_at in Hp. by destruct (node_at root p).
Qed.

Lemma getParent_live proj o d : getParent proj o = Ok (Some d) -> live proj d.
Proof.
  unfold getParent. destruct (getAncestors proj o) as [[|a ancestors]|] eqn:Ha; try done.
  intros [= <-]. apply (getAncestors_live _ _ _ _ Ha), elem_of_cons. by left.
Qed.

Lemma getNodeIdentifier_content proj proj' o :
  same_tree (oFile o) proj proj' -> live proj o ->
  getNodeIdentifier proj' (transport proj' o) = getNodeIdentifier proj o.
Proof.
  intros Hsame Hlive. unfold getNodeIdentifier, getChildIndex.
  by rewrite (the_node_transport proj), transport_file, transport_pos.
Qed.

(** The path of a node is a function of the tree of its file. *)
Lemma getPath_content proj proj' o args :
  same_tree (oFile o) proj proj' -> live proj o ->
  getPath proj' (transport proj' o) args = getPath proj o args.
Proof.
  intros Hsame Hlive. unfold getPath.
  rewrite (getAncestors_content proj), (getNodeIdentifier_content proj) by done.
  destruct (getAncestors proj o) as [ancestors|] eqn:Ha; [|done].
  cbn [fmap res_fmap mbind res_bind]. rewrite mapM_res_fmap.
  rewrite (mapM_res_ext _ (getNodeIdentifier proj)); [done|].
  intros a Hin. apply getNodeIdentifier_content; [|by eapply getAncestors_live].
  by rewrite (getAncestors_file _ _ _ _ Ha Hin).
Qed.

End accessors.

(** ** The walk on the counterpart of a node *)

Section walk.
Context `{SB : Sandbox} `{!SandboxLaws SB}.
Implicit Types (proj : Project) (o from d : NodeObj) (index : jsid) (path rest : Path).

Lemma find_child_content proj proj' from index :
  same_tree (oFile from) proj proj' -> live proj from ->
  find_child proj' (transport proj' from) index = transported proj' (find_child proj from index).
Proof.
  intros Hsame Hlive. unfold find_child, transported.
  rewrite (the_node_transport proj) by done. case_res; simpl; [|done].
  destruct (list_find _ _) as [[i c]|]; simpl; [by rewrite transport_child_obj|].
  destruct index as [| |z]; try done. rewrite (getChildAtIndex_content proj) by done.
  by destruct (getChildAtIndex proj from z).
Qed.

(** The node an expression is evaluated on, in the two projects. *)
Lemma dollar_content proj proj' from n :
  same_tree (oFile from) proj proj' -> live proj from ->
  (if isSyntaxList n then getParent proj' (transport proj' from)
   else Ok (Some (transport proj' from)))
  = transported proj' (if isSyntaxList n then getParent proj from else Ok (Some from)).
Proof.
  intros Hsame Hlive. destruct (isSyntaxList n); [|done]. by apply getParent_content.
Qed.

Lemma evaluate_content proj proj' index e from n dollar :
  same_tree (oFile from) proj proj' -> live proj from ->
  is_expression index = Some e ->
  (if isSyntaxList n then getParent proj from else Ok (Some from)) = Ok dollar ->
  evaluateExpression proj' e (transport proj' <$> dollar)
  = transported proj' (evaluateExpression proj e dollar).
Proof.
  intros Hsame Hlive [_ He]%is_expression_Some Hd. destruct dollar as [d|]; simpl.
  - assert (live proj d) as Hd_live.
    { destruct (isSyntaxList n); [by eapply getParent_live|by injection Hd as <-]. }
    apply eval_content; [|done]. by rewrite (dollar_file _ _ _ _ _ Hd eq_refl).
  - rewrite (eval_local proj' proj e None) by done.
    apply (eval_undefined proj) in He. by destruct (evaluateExpression proj e None).
Qed.

Lemma getNodeStep_content proj proj' index from :
  same_tree (oFile from) proj proj' -> live proj from ->
  getNodeStep proj' index (transport proj' from)
  = transported proj' (getNodeStep proj index from).
Proof.
  intros Hsame Hlive. unfold getNodeStep.
  rewrite (find_child_content proj), (the_node_transport proj) by done.
  destruct (is_expression index) as [e|] eqn:He; [|done].
  destruct (the_node proj from) as [n|]; [|done]. cbn [mbind res_bind].
  rewrite (dollar_content proj) by done.
  destruct (if isSyntaxList n then _ else _) as [dollar|] eqn:Hd; [|done].
  cbn [transported fmap res_fmap mbind res_bind].
  rewrite (evaluate_content proj proj' index e from n dollar) by done.
  by destruct (evaluateExpression proj e dollar) as [[r|]|].
Qed.

Lemma getNodeFrom_content proj proj' path : forall from,
  same_tree (oFile from) proj proj' -> live proj from ->
  getNodeFrom proj' (transport proj' from) path
  = (transported proj' (getNodeFrom proj from path).1, (getNodeFrom proj from path).2).
Proof.
  induction path as [|index rest IH]; intros from Hsame Hlive; cbn [getNodeFrom].
  - by rewrite (getNodeStep_content proj).
  - rewrite (getNodeStep_content proj) by done.
    destruct (getNodeStep proj index from) as [[r|]|] eqn:Hstep; try done.
    destruct rest as [|index' rest']; [done|]. cbn [transported fmap res_fmap option_fmap option_map].
    apply IH; [|by eapply getNodeStep_live].
    by rewrite (getNodeStep_file _ _ _ _ Hstep).
Qed.

Lemma first_child_of_file_content proj proj' index :
  (forall file, index = IStr file -> same_tree file proj proj') ->
  first_child_of_file proj' index = transport proj' <$> first_child_of_file proj index.
Proof.
  intros Hsame. destruct index as [|file|z]; try done. simpl.
  specialize (Hsame file eq_refl). unfold getSourceFile. unfold same_tree in Hsame.
  destruct (files proj !! file) as [sf|] eqn:Hf, (files proj' !! file) as [sf'|] eqn:Hf';
    try done. simpl.
  assert (live proj (mkObj file (sfGen sf) [])) as Hlive.
  { exists (sfRoot sf). apply resolve_obj_Some. by exists sf. }
  replace (mkObj file (sfGen sf') []) with (transport proj' (mkObj file (sfGen sf) []))
    by (unfold transport; simpl; by rewrite Hf').
  apply getChildAtIndex_content; [|done]. unfold same_tree. simpl. by rewrite Hf, Hf'.
Qed.

Lemma getNode_st_content proj proj' path :
  (forall file, file_of path = Some file -> same_tree file proj proj') ->
  getNode_st proj' path FromProject
  = (transported proj' (getNode_st proj path FromProject).1,
     (getNode_st proj path FromProject).2).
Proof.
  intros Hsame. unfold getNode_st. destruct (shift path) as [index path1] eqn:Hshift.
  rewrite (first_child_of_file_content proj).
  - destruct (first_child_of_file proj index) as [from|] eqn:Hfrom; [|done]. simpl.
    destruct index as [|file|z]; try done.
    apply getNodeFrom_content.
    + rewrite (first_child_of_file_file _ _ _ Hfrom). apply Hsame.
      destruct path; [done|]. by injection Hshift as -> _.
    + revert Hfrom. simpl. destruct (getSourceFile proj file); [|done].
      apply getChildAtIndex_live.
  - intros file ->. apply Hsame. destruct path; [done|]. by injection Hshift as -> _.
Qed.

End walk.

(** ** Theorems *)

Section content_theorems.
Context `{SB : Sandbox} `{!SandboxLaws SB}.
Implicit Types (proj : Project) (o : NodeObj) (path : Path) (r : Ref).

(** [getNode] on the same tree: the nodes at the same place. *)
Lemma getNode_transported proj proj' path :
  (forall file, file_of path = Some file -> same_tree file proj proj') ->
  getNode proj' path FromProject = transported proj' (getNode proj path FromProject).
Proof. intros Hsame. unfold getNode. by rewrite (getNode_st_content proj). Qed.

(** C15 (resolution is a function of the content).  The generation of a
    tree does not show in a resolution.  In two projects that hold the same
    tree for the file an address names, [getNode] returns for the address
    the nodes at the same place, or nothing in both, or throws the same
    error in both; and the tree node the resolution ends on is the same:
    what an address resolves to is a function of the address and of the
    tree of the file it names. *)
Theorem getNode_content proj proj' path :
  (forall file, file_of path = Some file -> same_tree file proj proj') ->
  getNode proj' path FromProject = transported proj' (getNode proj path FromProject) /\
  content_at proj' path = content_at proj path.
Proof.
  intros Hsame. split; [by apply getNode_transported|].
  unfold content_at. rewrite (getNode_transported proj) by done.
  destruct (getNode proj path FromProject) as [[o|]|] eqn:Hfound; try done.
  cbn [transported fmap res_fmap option_fmap option_map mbind res_bind option_bind].
  f_equal. apply resolve_transport; [|by eapply getNode_st_live].
  destruct path as [|[|file|z] rest]; try done.
  rewrite (getNode_file _ _ _ _ Hfound). by apply Hsame.
Qed.

(** Healing when the file is as it was.  A reference whose path led to its
    node, used after the file was replaced by a tree equal to the one it
    had, takes the node at the same place of the new tree, which stands for
    the same tree node as the one it was made for. *)
Theorem reference_heals_unchanged proj o r proj' :
  referenceTo proj o = Ok r ->
  resolve_address proj (path r) = Ok (Some o) ->
  same_tree (oFile o) proj proj' ->
  wasForgotten proj' o = true ->
  current_target proj' r
    = (Ok (Some (transport proj' o)), mkRef (Some (transport proj' o)) (path r)) /\
  resolve_obj proj' (transport proj' o) = resolve_obj proj o.
Proof.
  intros (Hlive & Hc & _)%referenceTo_Ok Hres Hsame Hf.
  split; [|by apply resolve_transport].
  apply (current_target_found _ _ o); [done..|].
  rewrite (getNode_transported proj); [unfold resolve_address in Hres; by rewrite Hres|].
  intros file Hfile. destruct (path r) as [|[|file'|z] rest]; try done.
  injection Hfile as ->. by rewrite <- (getNode_file _ _ _ _ Hres).
Qed.

End content_theorems.

(** ** Witnesses *)

(** [AppType.ts] parsed again unchanged: the reference to the enum takes the
    enum of the new tree. *)
Lemma reference_heals_unchanged_witness :
  @current_target tsEvaluate enum_project_reparsed AppType_ref
    = (Ok (Some (mkObj AppType_path 1 [0; 0])),
       mkRef (Some (mkObj AppType_path 1 [0; 0])) (path AppType_ref)) /\
  resolve_obj enum_project_reparsed (mkObj AppType_path 1 [0; 0])
    = resolve_obj enum_project AppType_obj.
Proof.
  apply (reference_heals_unchanged (SB:=tsEvaluate) enum_project AppType_obj AppType_ref
           enum_project_reparsed); reflexivity.
Defined.

Lemma getNode_content_witness :
  @getNode tsEvaluate enum_project_reparsed
    [IStr AppType_path; IStr (getEnum_expr "AppType"); IStr (getMember_expr "developerPortal")]
    FromProject
  = Ok (Some (mkObj AppType_path 1 [0; 0; 5; 0])) /\
  @content_at tsEvaluate enum_project_reparsed
    [IStr AppType_path; IStr (getEnum_expr "AppType"); IStr (getMember_expr "developerPortal")]
  = @content_at tsEvaluate enum_project
    [IStr AppType_path; IStr (getEnum_expr "AppType"); IStr (getMember_expr "developerPortal")].
Proof.
  apply (getNode_content (SB:=tsEvaluate) enum_project enum_project_reparsed
           [IStr AppType_path; IStr (getEnum_expr "AppType");
            IStr (getMember_expr "developerPortal")]).
  intros file [= <-]. reflexivity.
Defined.
