(* ===== verification/Edits.v ===== *)
(** * Edits: references across insertions and deletions of statements

    The specification promises that a reference stays usable across
    structural edits, insertions and deletions, as long as the node it
    addresses still exists.  An edit is modelled as the specification
    describes it: the document is replaced wholesale by the edited tree, so
    every node object of before is forgotten and the proxy of [referenceTo]
    resolves its path again on the next use.

    [remove_statement] and [insert_statement] edit the statements of a file.
    The theorems follow a reference to a statement that is found by its name
    ([by_name]) through one edit: it survives the deletion of any other
    statement and the insertion of a statement that does not answer to its
    name before it, at the place the statement has moved to; a statement
    inserted before it that answers to the name takes the reference; and a
    statement deleted and put back leaves every reference as it was. *)

From Stdlib Require Import Ascii String ZArith.
From stdpp Require Import base option strings list gmap.
From S2P Require Import Prelude JsString Ast Scenarios Sandbox NodePath Reference Healing Content.

(** ** Edits of the statements of a file *)

Definition with_children (cs : list Node) (n : Node) : Node :=
  mkNode (kindName n) (nodeName n) (nodeValue n) (docTags n) cs.

(** The source file [root] with [f] applied to its statements, the children
    of its first child. *)
Definition with_statements (f : list Node -> list Node) (root : Node) : Node :=
  with_children
    match children root with
    | sl :: rest => with_children (f (children sl)) sl :: rest
    | [] => []
    end root.

(** The file replaced by its tree with the statements edited. *)
Definition edit_file (file : string) (f : list Node -> list Node) (proj : Project) : Project :=
  match files proj !! file with
  | Some sf => parseFile file (with_statements f (sfRoot sf)) proj
  | None => proj
  end.

(** The deletion of the statement at [k]. *)
Definition remove_statement (file : string) (k : nat) : Project -> Project :=
  edit_file file (delete k).

(** The insertion of the statement [m] before the statement at [k]. *)
Definition insert_statement (file : string) (k : nat) (m : Node) : Project -> Project :=
  edit_file file (insert_at k m).

(** ** Where statements move *)

(** Where a statement is after an edit at [k]. *)
Definition after_removal (k i : nat) : nat := if decide (k < i) then pred i else i.

Definition after_insertion (k i : nat) : nat := if decide (k <= i) then S i else i.

(** ** keyvault: a model inserted, the import removed *)

(** [DeletedVaultListResult.ts] with the interface of
    [PrivateLinkResourceListResult.ts] written between its import and its
    interface. *)
Definition keyvault_project_inserted : Project :=
  insert_statement DeletedVaultListResult_path 1 PrivateLinkResourceListResult_interface
    keyvault_project.

Definition keyvault_project_removed : Project :=
  remove_statement DeletedVaultListResult_path 0 keyvault_project.

(** The reference to the interface of [DeletedVaultListResult.ts]. *)
Definition DeletedVaultListResult_ref : Ref :=
  mkRef (Some DeletedVaultListResult_obj)
    [IStr DeletedVaultListResult_path; IStr "DeletedVaultListResult"].

(** ** Lemmas on edited files *)

Section edit_lemmas.
Implicit Types (proj : Project) (o : NodeObj) (root n m : Node) (stmts : list Node)
  (f : list Node -> list Node) (file : string) (i j k : nat).

Lemma statements_of_with_statements f root stmts :
  statements_of root = Some stmts -> statements_of (with_statements f root) = Some (f stmts).
Proof.
  intros (sl & Hsl & Hk & Hroot & <-)%statements_of_Some. apply statements_of_Some.
  exists (with_children (f (children sl)) sl). split_and!; try done.
  simpl. by destruct (children root) as [|sl' rest]; simplify_eq/=.
Qed.

(** The statements of a file after an edit, as objects of the new tree. *)
Lemma top_level_edit_file proj o stmts i n f j m :
  top_level proj o = Some (stmts, i, n) -> f stmts !! j = Some m ->
  top_level (edit_file (oFile o) f proj) (mkObj (oFile o) (nextGen proj) [0; j])
  = Some (f stmts, j, m).
Proof.
  intros (root & _ & (sf & Hf & _ & [= <-])%resolve_obj_Some & Hstmts & _)%top_level_Some Hj.
  simpl in Hf. apply top_level_Some. exists (with_statements f (sfRoot sf)).
  unfold edit_file. rewrite Hf. split_and!; [done| |by apply statements_of_with_statements|done].
  apply parseFile_fresh.
Qed.

Lemma edit_file_forgets proj o stmts i n f :
  wf_project proj -> top_level proj o = Some (stmts, i, n) ->
  wasForgotten (edit_file (oFile o) f proj) o = true.
Proof.
  intros Hwf Htop. pose proof (top_level_resolve _ _ _ _ _ Htop) as Hn.
  pose proof Hn as (sf & Hf & _)%resolve_obj_Some. unfold edit_file. rewrite Hf.
  apply parseFile_forgets; [done|]. apply live_gen_lt; [done|by exists n].
Qed.

Lemma with_statements_compose f g root :
  with_statements g (with_statements f root) = with_statements (g ∘ f) root.
Proof.
  unfold with_statements, with_children. simpl. by destruct (children root).
Qed.

(** An edit that leaves the statements as they are leaves the file as it
    is. *)
Lemma with_statements_id f root stmts :
  statements_of root = Some stmts -> f stmts = stmts -> with_statements f root = root.
Proof.
  intros (sl & Hsl & _ & _ & <-)%statements_of_Some Hf.
  destruct root as [kind nm v t [|sl' rest]]; simplify_eq/=.
  unfold with_statements, with_children. simpl. rewrite Hf. by destruct sl.
Qed.

(** Two edits of a file, one after the other. *)
Lemma edit_file_twice file f g proj sf :
  files proj !! file = Some sf ->
  files (edit_file file g (edit_file file f proj)) !! file
  = Some (mkSourceFile (S (nextGen proj)) (with_statements (g ∘ f) (sfRoot sf))).
Proof.
  intros Hf. unfold edit_file at 2. rewrite Hf. unfold edit_file, parseFile. simpl.
  rewrite lookup_insert_eq. simpl. by rewrite lookup_insert_eq, with_statements_compose.
Qed.

(** A statement deleted and put back: the file holds the tree it had, two
    generations later. *)
Lemma reinsert_same_tree proj file sf stmts k m :
  files proj !! file = Some sf -> statements_of (sfRoot sf) = Some stmts ->
  stmts !! k = Some m ->
  same_tree file proj (insert_statement file k m (remove_statement file k proj)) /\
  files (insert_statement file k m (remove_statement file k proj)) !! file
  = Some (mkSourceFile (S (nextGen proj)) (sfRoot sf)).
Proof.
  intros Hf Hstmts Hk. unfold insert_statement, remove_statement.
  assert (with_statements (insert_at k m ∘ delete k) (sfRoot sf) = sfRoot sf) as Hroot.
  { apply (with_statements_id _ _ stmts); [done|]. by apply insert_at_delete. }
  pose proof (edit_file_twice file (delete k) (insert_at k m) proj sf Hf) as Hfiles.
  rewrite Hroot in Hfiles. split; [|done].
  unfold same_tree. by rewrite Hf, Hfiles.
Qed.

End edit_lemmas.

(** ** A reference after an edit *)

Section follow.
Context `{SB : Sandbox} `{!SandboxLaws SB}.
Implicit Types (proj : Project) (o : NodeObj) (n m : Node) (stmts : list Node)
  (f : list Node -> list Node) (r : Ref) (i j k : nat).

(** A reference to a statement found by its name, after an edit of its
    file: it takes the first statement of the new tree that answers to the
    name. *)
Lemma reference_follows_edit proj o stmts i n r f j m :
  wf_project proj ->
  top_level proj o = Some (stmts, i, n) -> by_name n = true ->
  referenceTo proj o = Ok r ->
  list_find (fun c => found_as n c = true) (f stmts) = Some (j, m) ->
  current_target (edit_file (oFile o) f proj) r
    = (Ok (Some (mkObj (oFile o) (nextGen proj) [0; j])),
       mkRef (Some (mkObj (oFile o) (nextGen proj) [0; j])) (path r)) /\
  resolve_obj (edit_file (oFile o) f proj) (mkObj (oFile o) (nextGen proj) [0; j]) = Some m.
Proof.
  intros Hwf Htop Hname Href Hfind.
  destruct (referenceTo_statement _ _ _ _ _ _ Htop Href) as (Hc & id & Hid & Hpath).
  pose proof Hfind as (Hj & _)%list_find_Some.
  pose proof (top_level_edit_file _ _ _ _ _ f j m Htop Hj) as Htop'.
  split; [|by apply (top_level_resolve _ _ _ _ _ Htop')].
  apply (current_target_found _ _ o); [done|by eapply edit_file_forgets|].
  rewrite Hpath. apply (getNode_found_as _ _ _ _ _ _ _ _ Htop' Hname Hid Hfind).
Qed.

End follow.

(** ** Theorems *)

Section edit_theorems.
Context `{SB : Sandbox} `{!SandboxLaws SB}.
Implicit Types (proj : Project) (o : NodeObj) (n m : Node) (stmts : list Node)
  (r : Ref) (i j k : nat).

(** C38 (healing after a deletion).  A reference to a statement that is found by
    its name and that its path leads to survives the deletion of any other
    statement of the file: the next use of the reference takes the statement
    at the place it has moved to in the new tree, and it is the same tree
    node. *)
Theorem reference_survives_removal proj o stmts i n r k :
  wf_project proj ->
  top_level proj o = Some (stmts, i, n) -> by_name n = true ->
  addressable (oFile o) stmts i n = true ->
  referenceTo proj o = Ok r ->
  k <> i ->
  current_target (remove_statement (oFile o) k proj) r
    = (Ok (Some (mkObj (oFile o) (nextGen proj) [0; after_removal k i])),
       mkRef (Some (mkObj (oFile o) (nextGen proj) [0; after_removal k i])) (path r)) /\
  resolve_obj (remove_statement (oFile o) k proj)
    (mkObj (oFile o) (nextGen proj) [0; after_removal k i]) = Some n.
Proof.
  intros Hwf Htop Hname Haddr Href Hk.
  apply (reference_follows_edit _ _ stmts i n); [done..|].
  apply list_find_delete; [by eapply addressable_found_as|done].
Qed.

(** (healing after an insertion).  The reference survives the insertion of a
    statement after its target, and of a statement before its target that
    does not answer to the name of the target. *)
Theorem reference_survives_insertion proj o stmts i n r k m :
  wf_project proj ->
  top_level proj o = Some (stmts, i, n) -> by_name n = true ->
  addressable (oFile o) stmts i n = true ->
  referenceTo proj o = Ok r ->
  (k <= i -> found_as n m = false) ->
  current_target (insert_statement (oFile o) k m proj) r
    = (Ok (Some (mkObj (oFile o) (nextGen proj) [0; after_insertion k i])),
       mkRef (Some (mkObj (oFile o) (nextGen proj) [0; after_insertion k i])) (path r)) /\
  resolve_obj (insert_statement (oFile o) k m proj)
    (mkObj (oFile o) (nextGen proj) [0; after_insertion k i]) = Some n.
Proof.
  intros Hwf Htop Hname Haddr Href Hm.
  apply (reference_follows_edit _ _ stmts i n); [done..|].
  apply list_find_insert_at; [by eapply addressable_found_as|].
  intros Hk. rewrite (Hm Hk). done.
Qed.

(** C18 (a reference taken over).  A statement inserted at or before the target
    that answers to the name of the target takes the reference: the next use
    returns the inserted statement, although the target is still in the
    file. *)
Theorem reference_taken_by_insertion proj o stmts i n r k m :
  wf_project proj ->
  top_level proj o = Some (stmts, i, n) -> by_name n = true ->
  addressable (oFile o) stmts i n = true ->
  referenceTo proj o = Ok r ->
  k <= i -> found_as n m = true ->
  current_target (insert_statement (oFile o) k m proj) r
    = (Ok (Some (mkObj (oFile o) (nextGen proj) [0; k])),
       mkRef (Some (mkObj (oFile o) (nextGen proj) [0; k])) (path r)) /\
  resolve_obj (insert_statement (oFile o) k m proj) (mkObj (oFile o) (nextGen proj) [0; k])
    = Some m /\
  resolve_obj (insert_statement (oFile o) k m proj) (mkObj (oFile o) (nextGen proj) [0; S i])
    = Some n.
Proof.
  intros Hwf Htop Hname Haddr Href Hk Hm.
  pose proof (addressable_found_as _ _ _ _ _ Htop Hname Haddr) as Hfind.
  destruct (reference_follows_edit proj o stmts i n r (insert_at k m) k m) as [Hcur Hres];
    [done..|by eapply list_find_insert_at_first|].
  split_and!; [done..|].
  unfold insert_statement. eapply top_level_resolve.
  apply (top_level_edit_file _ _ _ _ _ (insert_at k m) (S i) n Htop).
  apply list_find_Some in Hfind as (Hi & _). by apply lookup_insert_at_after.
Qed.

(** C17 (healing after a statement is deleted and put back).  Whatever node of
    the file a reference was made for, if its path led to the node, then
    after the statement at [k] is deleted and the same statement is inserted
    at [k] again the next use of the reference takes the node at the same
    place of the new tree, which is the same tree node. *)
Theorem reference_heals_reinserted proj o r sf stmts k m :
  wf_project proj ->
  referenceTo proj o = Ok r ->
  resolve_address proj (path r) = Ok (Some o) ->
  files proj !! oFile o = Some sf -> statements_of (sfRoot sf) = Some stmts ->
  stmts !! k = Some m ->
  current_target (insert_statement (oFile o) k m (remove_statement (oFile o) k proj)) r
    = (Ok (Some (regen (S (nextGen proj)) o)),
       mkRef (Some (regen (S (nextGen proj)) o)) (path r)) /\
  resolve_obj (insert_statement (oFile o) k m (remove_statement (oFile o) k proj))
    (regen (S (nextGen proj)) o) = resolve_obj proj o.
Proof.
  intros Hwf Href Hres Hf Hstmts Hk.
  pose proof (reinsert_same_tree _ _ _ _ _ _ Hf Hstmts Hk) as [Hsame Hgen].
  pose proof (transport_regen _ o _ Hgen) as Ho. cbn [sfGen] in Ho. rewrite <- Ho.
  apply reference_heals_unchanged; [done..|].
  apply referenceTo_Ok in Href as (Hlive & _).
  unfold wasForgotten. rewrite Hgen. simpl.
  apply live_gen_lt in Hlive; [|done]. rewrite bool_decide_eq_false_2; [done|lia].
Qed.

End edit_theorems.

(** ** Witnesses on the key-vault models *)

(** The import of [DeletedVaultListResult.ts] is deleted: the reference to
    the interface finds it first in the file. *)
Lemma reference_survives_removal_witness :
  @current_target tsEvaluate keyvault_project_removed DeletedVaultListResult_ref
    = (Ok (Some (mkObj DeletedVaultListResult_path 2 [0; 0])),
       mkRef (Some (mkObj DeletedVaultListResult_path 2 [0; 0]))
         (path DeletedVaultListResult_ref)) /\
  resolve_obj keyvault_project_removed (mkObj DeletedVaultListResult_path 2 [0; 0])
    = Some DeletedVaultListResult_interface.
Proof.
  apply (reference_survives_removal (SB:=tsEvaluate) keyvault_project
           DeletedVaultListResult_obj [importDeclaration; DeletedVaultListResult_interface]
           1 DeletedVaultListResult_interface DeletedVaultListResult_ref 0);
    [apply wf_parseFile, wf_parseFile, wf_emptyProject|reflexivity..|done].
Defined.

(** Another interface is written before it: the reference finds it third. *)
Lemma reference_survives_insertion_witness :
  @current_target tsEvaluate keyvault_project_inserted DeletedVaultListResult_ref
    = (Ok (Some (mkObj DeletedVaultListResult_path 2 [0; 2])),
       mkRef (Some (mkObj DeletedVaultListResult_path 2 [0; 2]))
         (path DeletedVaultListResult_ref)) /\
  resolve_obj keyvault_project_inserted (mkObj DeletedVaultListResult_path 2 [0; 2])
    = Some DeletedVaultListResult_interface.
Proof.
  apply (reference_survives_insertion (SB:=tsEvaluate) keyvault_project
           DeletedVaultListResult_obj [importDeclaration; DeletedVaultListResult_interface]
           1 DeletedVaultListResult_interface DeletedVaultListResult_ref 1
           PrivateLinkResourceListResult_interface);
    [apply wf_parseFile, wf_parseFile, wf_emptyProject|reflexivity..|done].
Defined.

(** The file with the interface [Vaults] declared twice is what the file
    with the second declaration becomes when the first is inserted: the
    reference to the second declaration is taken by the first. *)
Lemma reference_taken_by_insertion_witness :
  @current_target tsEvaluate
    (insert_statement merged_path 0 merged_Vaults_first
       (parseFile merged_path (sourceFile [merged_Vaults_second]) emptyProject))
    (mkRef (Some (mkObj merged_path 0 [0; 0])) [IStr merged_path; IStr "Vaults"])
    = (Ok (Some (mkObj merged_path 1 [0; 0])),
       mkRef (Some (mkObj merged_path 1 [0; 0])) [IStr merged_path; IStr "Vaults"]) /\
  resolve_obj
    (insert_statement merged_path 0 merged_Vaults_first
       (parseFile merged_path (sourceFile [merged_Vaults_second]) emptyProject))
    (mkObj merged_path 1 [0; 0]) = Some merged_Vaults_first /\
  resolve_obj
    (insert_statement merged_path 0 merged_Vaults_first
       (parseFile merged_path (sourceFile [merged_Vaults_second]) emptyProject))
    (mkObj merged_path 1 [0; 1]) = Some merged_Vaults_second.
Proof.
  apply (reference_taken_by_insertion (SB:=tsEvaluate)
           (parseFile merged_path (sourceFile [merged_Vaults_second]) emptyProject)
           (mkObj merged_path 0 [0; 0]) [merged_Vaults_second] 0 merged_Vaults_second
           (mkRef (Some (mkObj merged_path 0 [0; 0])) [IStr merged_path; IStr "Vaults"])
           0 merged_Vaults_first);
    [apply wf_parseFile, wf_emptyProject|reflexivity..|done|reflexivity].
Defined.

(** The import of [DeletedVaultListResult.ts] deleted and written back: the
    reference to the interface takes the interface of the new tree. *)
Lemma reference_heals_reinserted_witness :
  @current_target tsEvaluate
    (insert_statement DeletedVaultListResult_path 0 importDeclaration keyvault_project_removed)
    DeletedVaultListResult_ref
    = (Ok (Some (mkObj DeletedVaultListResult_path 3 [0; 1])),
       mkRef (Some (mkObj DeletedVaultListResult_path 3 [0; 1]))
         (path DeletedVaultListResult_ref)) /\
  resolve_obj
    (insert_statement DeletedVaultListResult_path 0 importDeclaration keyvault_project_removed)
    (mkObj DeletedVaultListResult_path 3 [0; 1])
  = resolve_obj keyvault_project DeletedVaultListResult_obj.
Proof.
  apply (reference_heals_reinserted (SB:=tsEvaluate) keyvault_project
           DeletedVaultListResult_obj DeletedVaultListResult_ref
           (mkSourceFile 0 DeletedVaultListResult_ts)
           [importDeclaration; DeletedVaultListResult_interface] 0 importDeclaration);
    [apply wf_parseFile, wf_parseFile, wf_emptyProject|reflexivity..].
Defined.
