(* ===== verification/Tracking.v ===== *)
(** * Tracking: a reference along a history of edits

    The specification says a reference is safe to retain across arbitrary
    structural edits as long as the node it addresses still exists.  This
    file states that for the proxy of [referenceTo] and a statement found by
    its name, over histories of any length.

    A history is a sequence of steps ([edit_step]): an edit of the statements
    of the file that leaves the statement the first to answer to its name, a
    parse or a removal of another file, a use of the reference.  The
    invariant [tracks] says where the statement is in the current tree and
    that the node the reference holds, when it is not forgotten, is that
    statement.  [reference_tracks_statement] concludes that after any such
    history a use of the reference returns a live node which is the
    statement.  The edits of [Edits] that keep a statement addressed are
    steps of such histories ([removal_is_step], [insertion_is_step]). *)

From Stdlib Require Import Ascii String ZArith.
From stdpp Require Import base option strings list gmap relations.
From S2P Require Import Prelude JsString Ast Scenarios Sandbox NodePath Reference Healing.
From S2P Require Import Content Edits.

(** ** Histories *)

(** The statements a project holds for a file. *)
Definition statements_in (proj : Project) (file : string) : option (list Node) :=
  sf ← files proj !! file; statements_of (sfRoot sf).

(** One step of the history of a reference to the statement [n] of [file]:
    the project and the state of the reference, before and after. *)
Inductive edit_step `{SB : Sandbox} (file : string) (n : Node)
    : relation (Project * Ref) :=
| step_edit proj r f stmts i :
    statements_in proj file = Some stmts ->
    list_find (fun m => found_as n m = true) (f stmts) = Some (i, n) ->
    edit_step file n (proj, r) (edit_file file f proj, r)
| step_parse_other proj r file' root :
    file' <> file ->
    edit_step file n (proj, r) (parseFile file' root proj, r)
| step_remove_other proj r file' :
    file' <> file ->
    edit_step file n (proj, r) (removeSourceFile file' proj, r)
| step_use proj r :
    edit_step file n (proj, r) (proj, (current_target proj r).2).

(** The object of the statement [i] of the tree a project holds for a
    file. *)
Definition statement_obj (file : string) (sf : SourceFile) (i : nat) : NodeObj :=
  mkObj file (sfGen sf) [0; i].

(** The invariant: the file holds [n] as the first statement that answers
    to its name, the path of the reference is the file and the identifier
    [id] of [n], and the node the reference holds was made before the next
    generation and, unless it was forgotten, is that statement. *)
Definition tracks (file : string) (n : Node) (id : jsid) (s : Project * Ref) : Prop :=
  wf_project s.1 /\ path s.2 = [IStr file; id] /\
  exists sf stmts i cur,
    files s.1 !! file = Some sf /\ statements_of (sfRoot sf) = Some stmts /\
    list_find (fun m => found_as n m = true) stmts = Some (i, n) /\
    current s.2 = Some cur /\ oFile cur = file /\ oGen cur < nextGen s.1 /\
    (wasForgotten s.1 cur = false -> cur = statement_obj file sf i).

(** ** A history of the key-vault models *)

(** [DeletedVaultListResult.ts] through three steps: another interface is
    written before the interface, the reference is used, the import is
    deleted. *)
Definition keyvault_history_1 : Project * Ref :=
  (keyvault_project_inserted, DeletedVaultListResult_ref).

Definition keyvault_history_2 : Project * Ref :=
  (keyvault_project_inserted,
   mkRef (Some (mkObj DeletedVaultListResult_path 2 [0; 2])) (path DeletedVaultListResult_ref)).

Definition keyvault_history_3 : Project * Ref :=
  (remove_statement DeletedVaultListResult_path 0 keyvault_project_inserted,
   mkRef (Some (mkObj DeletedVaultListResult_path 2 [0; 2])) (path DeletedVaultListResult_ref)).

(** ** Lemmas on the invariant *)

Section tracking_lemmas.
Context `{SB : Sandbox} `{!SandboxLaws SB}.
Context (file : string) (n : Node) (id : jsid).
Context (Hname : by_name n = true) (Hid : identify file n (Ok 0) = Ok id).
Implicit Types (proj : Project) (r : Ref) (s : Project * Ref) (sf : SourceFile)
  (stmts : list Node) (i : nat) (cur o : NodeObj).

Lemma top_level_statement_obj proj sf stmts i m :
  files proj !! file = Some sf -> statements_of (sfRoot sf) = Some stmts ->
  stmts !! i = Some m ->
  top_level proj (statement_obj file sf i) = Some (stmts, i, m).
Proof.
  intros Hf Hstmts Hi. apply top_level_Some. exists (sfRoot sf).
  split_and!; [done| |done..]. apply resolve_obj_Some. by exists sf.
Qed.

(** A use of a reference whose path is the address of [n], when the file
    holds [n] as the first statement that answers to its name. *)
Lemma current_target_tracked proj r sf stmts i cur :
  path r = [IStr file; id] ->
  files proj !! file = Some sf -> statements_of (sfRoot sf) = Some stmts ->
  list_find (fun m => found_as n m = true) stmts = Some (i, n) ->
  current r = Some cur ->
  (wasForgotten proj cur = false -> cur = statement_obj file sf i) ->
  current_target proj r
    = (Ok (Some (statement_obj file sf i)), mkRef (Some (statement_obj file sf i)) (path r)) /\
  resolve_obj proj (statement_obj file sf i) = Some n.
Proof.
  intros Hpath Hf Hstmts Hfind Hc Hcur. pose proof Hfind as (Hi & _)%list_find_Some.
  pose proof (top_level_statement_obj _ _ _ _ _ Hf Hstmts Hi) as Htop.
  split; [|by apply (top_level_resolve _ _ _ _ _ Htop)].
  destruct (wasForgotten proj cur) eqn:Hforgotten.
  - apply (current_target_found _ _ cur); [done..|]. rewrite Hpath.
    apply (getNode_found_as _ _ _ _ _ _ _ _ Htop Hname Hid Hfind).
  - rewrite (current_target_fresh _ _ cur) by done. rewrite <- (Hcur eq_refl), <- Hc.
    by destruct r.
Qed.

(** A use under the invariant: the statement, wherever it is now. *)
Lemma tracks_use proj r :
  tracks file n id (proj, r) ->
  exists o, (current_target proj r).1 = Ok (Some o) /\ resolve_obj proj o = Some n.
Proof.
  intros (_ & Hpath & sf & stmts & i & cur & Hf & Hstmts & Hfind & Hc & _ & _ & Hcur).
  cbn [fst snd] in *.
  destruct (current_target_tracked _ _ _ _ _ _ Hpath Hf Hstmts Hfind Hc Hcur) as [-> Hres].
  eauto.
Qed.

Lemma tracks_edit proj r f stmts i :
  statements_in proj file = Some stmts ->
  list_find (fun m => found_as n m = true) (f stmts) = Some (i, n) ->
  tracks file n id (proj, r) -> tracks file n id (edit_file file f proj, r).
Proof.
  intros Hin Hfind (Hwf & Hpath & sf & stmts' & _ & cur & Hf & Hstmts & _ & Hc & Hfile & Hgen & _).
  simpl in *. unfold statements_in in Hin. rewrite Hf in Hin. simpl in Hin.
  rewrite Hstmts in Hin. injection Hin as ->. unfold edit_file. rewrite Hf.
  split_and!; [by apply wf_parseFile|done|].
  exists (mkSourceFile (nextGen proj) (with_statements f (sfRoot sf))), (f stmts), i, cur.
  simpl. rewrite lookup_insert_eq.
  split_and!; [done|by apply statements_of_with_statements|done..|lia|].
  rewrite parseFile_forgets; done.
Qed.

(** A step that leaves the file alone. *)
Lemma tracks_other proj proj' r :
  wf_project proj' -> agree_on file proj' proj -> nextGen proj <= nextGen proj' ->
  tracks file n id (proj, r) -> tracks file n id (proj', r).
Proof.
  intros Hwf' Hagree Hle (_ & Hpath & sf & stmts & i & cur & Hf & Hstmts & Hfind & Hc & Hfile
                          & Hgen & Hcur).
  simpl in *. split_and!; [done..|]. exists sf, stmts, i, cur. simpl.
  rewrite Hagree. split_and!; [done..|lia|].
  rewrite (wasForgotten_local proj' proj); [done|by rewrite Hfile].
Qed.

Lemma tracks_access proj r :
  tracks file n id (proj, r) -> tracks file n id (proj, (current_target proj r).2).
Proof.
  intros (Hwf & Hpath & sf & stmts & i & cur & Hf & Hstmts & Hfind & Hc & Hfile & Hgen & Hcur).
  cbn [fst snd] in *.
  destruct (current_target_tracked _ _ _ _ _ _ Hpath Hf Hstmts Hfind Hc Hcur) as [-> _].
  unfold tracks. cbn [fst snd current path]. split_and!; [done..|]. exists sf, stmts, i, (statement_obj file sf i).
  split_and!; [done..|exact (Hwf _ _ Hf)|done].
Qed.

(** Every step keeps the invariant. *)
Lemma tracks_step s s' : edit_step file n s s' -> tracks file n id s -> tracks file n id s'.
Proof.
  intros Hstep Htracks. pose proof Htracks as (Hwf & _).
  destruct Hstep as [proj r f stmts i Hin Hfind|proj r file' root Hne|proj r file' Hne|proj r].
  - by apply (tracks_edit _ _ _ stmts i).
  - apply (tracks_other proj); [by apply wf_parseFile|by apply parseFile_agree|simpl; lia|done].
  - apply (tracks_other proj);
      [by apply wf_removeSourceFile|by apply removeSourceFile_agree|done..].
  - by apply tracks_access.
Qed.

Lemma tracks_history s s' :
  rtc (edit_step file n) s s' -> tracks file n id s -> tracks file n id s'.
Proof. induction 1; eauto using tracks_step. Qed.

End tracking_lemmas.

(** ** The edits that are steps *)

Section steps.
Context `{SB : Sandbox}.
Implicit Types (proj : Project) (r : Ref) (stmts : list Node) (n m : Node) (i k : nat).

(** The deletion of another statement. *)
Lemma removal_is_step file n proj r stmts i k :
  statements_in proj file = Some stmts ->
  list_find (fun m => found_as n m = true) stmts = Some (i, n) -> k <> i ->
  edit_step file n (proj, r) (remove_statement file k proj, r).
Proof.
  intros Hin Hfind Hk. apply (step_edit _ _ _ _ _ stmts (after_removal k i)); [done|].
  by apply list_find_delete.
Qed.

(** The insertion of a statement after [n], or of one that does not answer
    to the name of [n]. *)
Lemma insertion_is_step file n proj r stmts i k m :
  statements_in proj file = Some stmts ->
  list_find (fun m => found_as n m = true) stmts = Some (i, n) ->
  (k <= i -> found_as n m = false) ->
  edit_step file n (proj, r) (insert_statement file k m proj, r).
Proof.
  intros Hin Hfind Hm. apply (step_edit _ _ _ _ _ stmts (after_insertion k i)); [done|].
  apply list_find_insert_at; [done|]. intros Hk. by rewrite (Hm Hk).
Qed.

(** A step is an event of [Reference]: an edit is a parse of the edited
    tree. *)
Lemma edit_step_event file n s s' :
  edit_step file n s s' -> exists ev, s' = apply_event ev s.
Proof.
  intros [proj r f stmts i (sf & Hsf & _)%bind_Some _|proj r file' root _|proj r file' _|proj r].
  - exists (EvParse file (with_statements f (sfRoot sf))). unfold edit_file. by rewrite Hsf.
  - by exists (EvParse file' root).
  - by exists (EvRemove file').
  - by exists EvAccess.
Qed.

(** A history is a sequence of events: what holds in every state a
    reference reaches holds along every history. *)
Lemma history_reachable file n s0 s :
  rtc (edit_step file n) s0 s -> reachable s0 s.
Proof.
  revert s. apply rtc_ind_r; [apply reach_init|].
  intros s s' _ [ev ->]%edit_step_event Hs. by apply reach_step.
Qed.

End steps.

(** ** Theorems *)

Section tracking_theorems.
Context `{SB : Sandbox} `{!SandboxLaws SB}.
Context {S V : Type} `{RF : Reflect S V}.
Implicit Types (proj : Project) (o : NodeObj) (n : Node) (stmts : list Node) (r : Ref)
  (i : nat) (st : S) (property : string).

(** A reference to a statement found by its name, that its identifier
    addresses, starts under the invariant. *)
Lemma referenceTo_tracks proj o stmts i n r :
  wf_project proj ->
  top_level proj o = Some (stmts, i, n) -> by_name n = true ->
  addressable (oFile o) stmts i n = true ->
  referenceTo proj o = Ok r ->
  exists id, identify (oFile o) n (Ok 0) = Ok id /\ tracks (oFile o) n id (proj, r).
Proof.
  intros Hwf Htop Hname Haddr Href.
  destruct (referenceTo_statement _ _ _ _ _ _ Htop Href) as (Hc & id & Hid & Hpath).
  rewrite (identify_by_name _ _ _ (Ok 0)) in Hid by done. exists id. split; [done|].
  pose proof (top_level_resolve _ _ _ _ _ Htop) as Hn.
  pose proof Htop as (root & Hpos & (sf & Hf & Hgen & [= <-])%resolve_obj_Some & Hstmts & _)
    %top_level_Some.
  split_and!; [done..|]. exists sf, stmts, i, o. cbn [fst snd oFile] in *.
  split_and!; [done|done|by eapply addressable_found_as|done|done| |].
  - apply live_gen_lt; [done|by exists n].
  - intros _. unfold statement_obj. rewrite Hgen, <- Hpos. by destruct o.
Qed.

(** C13 (a reference kept through a history of edits).  Make a reference
    to a statement found by its name that its path leads to.  After any
    history of edits of its file that leave the statement the first to
    answer to its name, of parses and removals of other files, and of uses
    of the reference, a use of the reference returns a node of the current
    tree, that node is the statement, and the [get] and [set] traps of the
    proxy are [Reflect.get] and [Reflect.set] on it: the holder of the
    reference reads and writes the statement as if it held the node. *)
Theorem reference_tracks_statement proj0 o stmts i n r0 proj r :
  wf_project proj0 ->
  top_level proj0 o = Some (stmts, i, n) -> by_name n = true ->
  addressable (oFile o) stmts i n = true ->
  referenceTo proj0 o = Ok r0 ->
  rtc (edit_step (oFile o) n) (proj0, r0) (proj, r) ->
  exists o',
    (current_target proj r).1 = Ok (Some o') /\ resolve_obj proj o' = Some n /\
    forall st property value,
      (proxy_get st proj r property).1 = Reflect_get st proj o' property /\
      (proxy_set st proj r property value).1 = Reflect_set st proj o' property value.
Proof.
  intros Hwf Htop Hname Haddr Href Hhistory.
  destruct (referenceTo_tracks _ _ _ _ _ _ Hwf Htop Hname Haddr Href) as (id & Hid & Htracks).
  apply (tracks_history (oFile o) n id Hname Hid _ _ Hhistory) in Htracks.
  destruct (tracks_use (oFile o) n id Hname Hid _ _ Htracks) as (o' & Hcur & Hres).
  exists o'. split_and!; [done..|]. intros st property value.
  by destruct (traps_on_target st proj r o' property value Hcur) as (? & _ & _ & ?).
Qed.

End tracking_theorems.

(** ** The history of the key-vault models *)

(** The three steps are a history of the reference to the interface. *)
Lemma keyvault_history :
  rtc (edit_step (SB:=tsEvaluate) DeletedVaultListResult_path DeletedVaultListResult_interface)
      (keyvault_project, DeletedVaultListResult_ref) keyvault_history_3.
Proof.
  apply (rtc_l _ _ keyvault_history_1).
  { apply (insertion_is_step _ _ _ _ [importDeclaration; DeletedVaultListResult_interface] 1);
      [reflexivity..|done]. }
  apply (rtc_l _ _ keyvault_history_2); [apply (step_use (SB:=tsEvaluate))|].
  apply rtc_once.
  apply (removal_is_step _ _ _ _
           [importDeclaration; PrivateLinkResourceListResult_interface;
            DeletedVaultListResult_interface] 2); [reflexivity..|done].
Defined.

Lemma reference_tracks_statement_witness :
  exists o',
    (@current_target tsEvaluate keyvault_history_3.1 keyvault_history_3.2).1 = Ok (Some o') /\
    resolve_obj keyvault_history_3.1 o' = Some DeletedVaultListResult_interface /\
    forall st property value,
      (@proxy_get tsEvaluate _ _ own_properties st keyvault_history_3.1 keyvault_history_3.2
         property).1 = Reflect_get st keyvault_history_3.1 o' property /\
      (@proxy_set tsEvaluate _ _ own_properties st keyvault_history_3.1 keyvault_history_3.2
         property value).1 = Reflect_set st keyvault_history_3.1 o' property value.
Proof.
  apply (reference_tracks_statement (SB:=tsEvaluate) (RF:=own_properties) keyvault_project
           DeletedVaultListResult_obj [importDeclaration; DeletedVaultListResult_interface]
           1 DeletedVaultListResult_interface DeletedVaultListResult_ref);
    [apply wf_parseFile, wf_parseFile, wf_emptyProject|reflexivity..|].
  exact keyvault_history.
Defined.

Example keyvault_history_end :
  (@current_target tsEvaluate keyvault_history_3.1 keyvault_history_3.2).1
  = Ok (Some (mkObj DeletedVaultListResult_path 3 [0; 1])).
Proof. reflexivity. Qed.
