(* ===== verification/Writes.v ===== *)
(** * Writes: what is written and read through a reference

    The [set] trap of the proxy of [referenceTo] writes on the node object
    the reference holds when it is called, and the [get] trap reads from the
    node object the reference holds when it is called.  [ReflectLaws] says
    what [Reflect.get] returns after [Reflect.set], on the object written
    and on every other; [own_properties] satisfies it.

    Against that interface: what is written through a reference is read
    back through it while its node lives ([proxy_set_get]).  Once the node is
    forgotten the reference holds another object, the node of the new tree,
    and a read through it returns what it would have returned had nothing
    been written ([proxy_write_forgotten]), also when the file was parsed
    again from the text it had. *)

From Stdlib Require Import Ascii String ZArith.
From stdpp Require Import base option strings list gmap.
From S2P Require Import Prelude JsString Ast Scenarios Sandbox NodePath Reference Healing Content.

(** ** What [Reflect] promises *)

(** [Reflect.get] after [Reflect.set]: the value written, when the write
    was accepted, on the object and the property written; what was there
    before on every other object and property, in whatever tree. *)
Class ReflectLaws {S V : Type} (RF : Reflect S V) : Prop := {
  get_set st proj o property value st' :
    Reflect_set st proj o property value = Ok (st', true) ->
    Reflect_get st' proj o property = Ok value;
  get_set_other st proj proj' o property value st' accepted o' property' :
    Reflect_set st proj o property value = Ok (st', accepted) ->
    (o', property') <> (o, property) ->
    Reflect_get st' proj' o' property' = Reflect_get st proj' o' property'
}.

(** ** A write of the scenarios *)

(** The own properties after [brand] is set on the enum [AppType] through
    its reference. *)
Definition AppType_branded : gmap (NodeObj * string) string :=
  {[ (AppType_obj, "brand") := "portal" ]}.

(** ** Lemmas *)

(** Own properties kept in a map satisfy the laws. *)
#[export] Instance own_properties_laws : ReflectLaws own_properties.
Proof.
  split.
  - intros props proj o property [v|] props' [= <-]; simpl; f_equal;
      [apply lookup_insert_eq|apply lookup_delete_eq].
  - intros props proj proj' o property [v|] props' accepted o' property' [= <- _] Hne; simpl;
      f_equal; [by apply lookup_insert_ne|by apply lookup_delete_ne].
Qed.

Section write_lemmas.
Context `{SB : Sandbox} `{!SandboxLaws SB}.
Implicit Types (proj : Project) (r : Ref) (o : NodeObj).

(** A use of a reference that yields a node leaves the reference holding
    that node, and the next use in the same project yields it again. *)
Lemma current_target_again proj r o r' :
  current_target proj r = (Ok (Some o), r') ->
  current r' = Some o /\ path r' = path r /\ current_target proj r' = (Ok (Some o), r').
Proof.
  intros H. pose proof (current_target_Ok _ _ _ _ H) as Hc.
  assert (wasForgotten proj o = false /\ path r' = path r) as [Hlive Hpath].
  { unfold current_target in H. destruct (current r) as [cur|] eqn:Hcur; [|done].
    destruct (wasForgotten proj cur) eqn:Hf.
    - pose proof (getNode_st_live proj (path r) FromProject o) as Hlive.
      destruct (getNode_st proj (path r) FromProject) as [[t|e] rest]; [|done].
      injection H as -> <-. auto using live_not_forgotten.
    - by injection H as <- <-. }
  split_and!; [done..|]. by apply current_target_fresh.
Qed.

End write_lemmas.

(** ** Theorems *)

Section write_theorems.
Context `{SB : Sandbox} `{!SandboxLaws SB}.
Context {S V : Type} `{RF : Reflect S V}.
Implicit Types (proj : Project) (r : Ref) (o : NodeObj) (st : S) (property : string)
  (value : V).

(** (a write is read back).  A value written through a reference, when
    the write is accepted, is what a read of the property through the
    reference returns next, and the reference holds the node it wrote on. *)
Theorem proxy_set_get st proj r property value st' r' :
  ReflectLaws RF ->
  proxy_set st proj r property value = (Ok (st', true), r') ->
  proxy_get st' proj r' property = (Ok value, r').
Proof.
  intros Hlaws. unfold proxy_set, proxy_get.
  destruct (current_target proj r) as [[[o|]|e] r1] eqn:Htarget; try done.
  intros [= Hset <-]. destruct (current_target_again _ _ _ _ Htarget) as (_ & _ & ->).
  simpl in *. by rewrite (get_set _ _ _ _ _ _ Hset).
Qed.

(** C16 (a write does not survive the node).  Write a property through a
    reference.  Once the node the reference wrote on is forgotten, a read
    of the property through the reference returns what it would return had
    nothing been written, and leaves the reference in the same state: the
    reference has taken another object, the node of the new tree, and what
    was written stayed on the old one.  This is so whatever the edit was,
    a parse of the text the file had included. *)
Theorem proxy_write_forgotten st proj r property value st' accepted r' proj' o :
  ReflectLaws RF ->
  (current_target proj r).1 = Ok (Some o) ->
  proxy_set st proj r property value = (Ok (st', accepted), r') ->
  wasForgotten proj' o = true ->
  proxy_get st' proj' r' property = proxy_get st proj' r' property.
Proof.
  intros Hlaws. unfold proxy_set, proxy_get.
  destruct (current_target proj r) as [[[o1|]|e] r1] eqn:Htarget; try done.
  intros [= ->] [= Hset <-] Hforgotten. cbn [mbind res_bind on_object] in Hset.
  destruct (current_target_again _ _ _ _ Htarget) as (Hc & _ & _).
  destruct (current_target proj' r1) as [[[o'|]|e'] r2] eqn:Htarget'; try done.
  cbn [mbind res_bind on_object]. f_equal.
  apply (get_set_other _ _ _ _ _ _ _ _ _ _ Hset). intros [= ->].
  unfold current_target in Htarget'. rewrite Hc, Hforgotten in Htarget'.
  pose proof (getNode_st_live proj' (path r1) FromProject o) as Hlive.
  destruct (getNode_st proj' (path r1) FromProject) as [[t|] rest]; [|done].
  injection Htarget' as -> _. by rewrite (live_not_forgotten _ _ (Hlive eq_refl)) in Hforgotten.
Qed.

End write_theorems.

(** ** The theorems at the enum [AppType] *)

(** [brand] written through the reference to the enum is read back. *)
Lemma proxy_set_get_witness :
  @proxy_get tsEvaluate _ _ own_properties AppType_branded enum_project AppType_ref "brand"
  = (Ok (Some "portal"), AppType_ref).
Proof.
  apply (proxy_set_get (SB:=tsEvaluate) (RF:=own_properties) ∅ enum_project AppType_ref
           "brand" (Some "portal") AppType_branded AppType_ref own_properties_laws).
  reflexivity.
Defined.

(** [AppType.ts] parsed again from the text it had: the reference heals to
    the enum of the new tree, and [brand] is read as before it was
    written. *)
Lemma proxy_write_forgotten_witness :
  @proxy_get tsEvaluate _ _ own_properties AppType_branded enum_project_reparsed AppType_ref
    "brand"
  = @proxy_get tsEvaluate _ _ own_properties ∅ enum_project_reparsed AppType_ref "brand".
Proof.
  apply (proxy_write_forgotten (SB:=tsEvaluate) (RF:=own_properties) ∅ enum_project
           AppType_ref "brand" (Some "portal") AppType_branded true AppType_ref
           enum_project_reparsed AppType_obj own_properties_laws); reflexivity.
Defined.

(** The same read, computed: the reference holds the enum of the new tree,
    which stands for the tree node it was made for, and [brand] is
    [undefined]. *)
Example brand_lost :
  @proxy_get tsEvaluate _ _ own_properties AppType_branded enum_project_reparsed AppType_ref
    "brand"
  = (Ok None, mkRef (Some (mkObj AppType_path 1 [0; 0])) (path AppType_ref)) /\
  resolve_obj enum_project_reparsed (mkObj AppType_path 1 [0; 0])
  = resolve_obj enum_project AppType_obj.
Proof. split; reflexivity. Qed.
