(* ===== verification/Address.v ===== *)
(** * Address: the address of the specification against [getPath]

    The specification gives a node an address that starts with its document
    and goes down to the node, and asks that resolving the address of a node
    finds the node.  [computeAddress] is that address, computed from the
    root of the file down with the identifiers of [getNodeIdentifier].

    This file relates it to the code.  [getPath] holds the same segments
    with the ancestors in the opposite order ([computeAddress_getPath]).
    [getNode] resolves the address of a member of an enum, for which
    [getNodeIdentifier] writes locator expressions
    ([resolve_computeAddress_enum_member]); it does not resolve the address
    of a member of an interface, because it looks a name up among the
    children of a node and members are the children of a syntax list below
    it ([resolve_computeAddress_member_fails]). *)

From Stdlib Require Import Ascii String ZArith.
From stdpp Require Import base option strings list gmap.
From S2P Require Import Prelude JsString Ast Scenarios Sandbox NodePath Reference Healing.

(** ** The address of a node *)

(** [getChildIndex] of the node at the position [q] below a node whose own
    index is [base]. *)
Definition index_at (base : res nat) (q : pos) : res nat :=
  match last q with
  | Some i => Ok i
  | None => base
  end.

(** [getNodeIdentifier] of the node at the position [q] below [root]. *)
Definition identify_at (file : string) (root : Node) (base : res nat) (q : pos) : res jsid :=
  m ← of_option forgotten_error (node_at root q);
  identify file m (index_at base q).

(** The identifiers on the way from [n] down to the position [p] below it:
    [n] unless it is a syntax list, which is no parent, then the nodes
    between, and the node at [p] whatever it is. *)
Fixpoint address_from (file : string) (n : Node) (index : res nat) (p : pos) : res Path :=
  match p with
  | [] => id ← identify file n index; Ok [id]
  | i :: p' =>
    c ← of_option forgotten_error (children n !! i);
    if isSyntaxList n then address_from file c (Ok i) p'
    else id ← identify file n index; rest ← address_from file c (Ok i) p'; Ok (id :: rest)
  end.

(** [computeAddress(node)]: the document first. *)
Definition computeAddress (proj : Project) (o : NodeObj) : res Path :=
  root ← the_node proj (at_pos o []);
  address_from (oFile o) root (getChildIndex (at_pos o [])) (oPos o).

(** A member listed under a statement: [s] is a statement of its file, the
    child [k] of the statement is a syntax list and [m] is its child [j]. *)
Definition listed_member (proj : Project) (s : NodeObj) (k j : nat)
    : option (list Node * nat * Node * Node) :=
  '(stmts, i, d) ← top_level proj s;
  sl ← children d !! k;
  m ← children sl !! j;
  if isSyntaxList sl && negb (isSyntaxList d) then Some (stmts, i, d, m) else None.

(** ** Objects of the scenarios *)

(** The property [value] of the interface of [DeletedVaultListResult.ts]. *)
Definition DeletedVaultListResult_value_obj : NodeObj :=
  mkObj DeletedVaultListResult_path 0 [0; 1; 5; 0].

(** ** Identifiers by position *)

Section positions.
Implicit Types (proj : Project) (o : NodeObj) (n c root : Node) (p q : pos) (i : nat).
Implicit Types (file : string) (base : res nat).

Lemma identify_at_nil file n base : identify_at file n base [] = identify file n base.
Proof. reflexivity. Qed.

Lemma identify_at_cons file n c base i q :
  children n !! i = Some c ->
  identify_at file n base (i :: q) = identify_at file c (Ok i) q.
Proof.
  intros Hc. unfold identify_at, index_at. simpl. rewrite Hc. simpl.
  rewrite last_cons. by destruct (last q).
Qed.

Lemma identify_at_no_child file n base i q :
  children n !! i = None -> identify_at file n base (i :: q) = Err forgotten_error.
Proof. intros Hc. unfold identify_at. simpl. by rewrite Hc. Qed.

Lemma address_from_cons file n c base i p :
  children n !! i = Some c ->
  address_from file n base (i :: p) =
  if isSyntaxList n then address_from file c (Ok i) p
  else id ← identify file n base; rest ← address_from file c (Ok i) p; Ok (id :: rest).
Proof. intros Hc. cbn [address_from]. by rewrite Hc. Qed.

Lemma identify_SourceFile file n base :
  kindName n = "SourceFile" -> identify file n base = Ok (IStr file).
Proof. intros Hk. unfold identify. by rewrite decide_True. Qed.

Lemma identify_EnumMember file n base member :
  kindName n = "EnumMember" -> nodeName n = Some (Some member) ->
  identify file n base = Ok (IStr (getMember_expr member)).
Proof.
  intros Hk Hname. unfold identify, getName. rewrite Hname.
  by rewrite decide_False, decide_True by (done || by rewrite Hk).
Qed.

Lemma not_syntax_list_at_cons n c i q :
  children n !! i = Some c -> not_syntax_list_at n (i :: q) = not_syntax_list_at c q.
Proof. intros Hc. unfold not_syntax_list_at. simpl. by rewrite Hc. Qed.

(** The ancestors of a position below [n], the closest first: those below
    the child, then [n] itself. *)
Lemma ancestors_cons n c i p :
  children n !! i = Some c ->
  filter (fun q => not_syntax_list_at n q = true) (proper_prefixes (i :: p)) =
  (cons i <$> filter (fun q => not_syntax_list_at c q = true) (proper_prefixes p)) ++
  (if isSyntaxList n then [] else [[]]).
Proof.
  intros Hc. cbn [proper_prefixes]. rewrite filter_app. f_equal.
  - apply filter_fmap_agree. intros q. by rewrite (not_syntax_list_at_cons n c).
  - rewrite filter_cons, filter_nil. unfold not_syntax_list_at. simpl.
    by destruct (isSyntaxList n).
Qed.

(** Their identifiers. *)
Lemma ancestor_ids_cons file n c base i p :
  children n !! i = Some c ->
  mapM_res (identify_at file n base)
    (filter (fun q => not_syntax_list_at n q = true) (proper_prefixes (i :: p))) =
  below ← mapM_res (identify_at file c (Ok i))
            (filter (fun q => not_syntax_list_at c q = true) (proper_prefixes p));
  if isSyntaxList n then Ok below
  else id ← identify file n base; Ok (below ++ [id]).
Proof.
  intros Hc. rewrite (ancestors_cons n c) by done.
  rewrite mapM_res_app, mapM_res_fmap.
  rewrite (mapM_res_ext (fun q => identify_at file n base (i :: q))
             (identify_at file c (Ok i)))
    by (intros; by apply identify_at_cons).
  destruct (mapM_res _ (filter _ _)) as [below|]; simpl; [|done].
  destruct (isSyntaxList n); simpl; [by rewrite app_nil_r|].
  rewrite identify_at_nil. by destruct (identify file n base).
Qed.

End positions.

(** ** The address and the path *)

Section address_lemmas.
Implicit Types (proj : Project) (o : NodeObj) (n c root : Node) (p q : pos) (i : nat).
Implicit Types (file : string) (base : res nat) (addr ids : Path) (id : jsid).

(** The address from [n] down to [p] holds the identifiers of the ancestors
    of [p] below [n], the farthest first, and then the identifier of the
    node at [p]. *)
Lemma address_from_Ok file p : forall n base addr,
  address_from file n base p = Ok addr <->
  exists ids id,
    mapM_res (identify_at file n base)
      (filter (fun q => not_syntax_list_at n q = true) (proper_prefixes p)) = Ok ids /\
    identify_at file n base p = Ok id /\ addr = reverse ids ++ [id].
Proof.
  induction p as [|i p IH]; intros n base addr.
  - cbn [address_from proper_prefixes]. setoid_rewrite identify_at_nil. simpl.
    destruct (identify file n base) as [id0|]; simpl; split.
    + intros [= <-]. by exists [], id0.
    + by intros (ids & id & [= <-] & [= <-] & ->).
    + done.
    + by intros (? & ? & _ & ? & _).
  - cbn [address_from]. destruct (children n !! i) as [c|] eqn:Hc; simpl.
    2: { setoid_rewrite (identify_at_no_child file n base i p Hc).
         split; [done|]. by intros (? & ? & _ & ? & _). }
    setoid_rewrite (ancestor_ids_cons file n c base i p Hc).
    setoid_rewrite (identify_at_cons file n c base i p Hc).
    destruct (isSyntaxList n); [setoid_rewrite bind_ret; apply IH|].
    destruct (identify file n base) as [id0|]; simpl.
    + split.
      * intros (rest & (ids & id & H1 & H2 & ->)%IH & [= <-])%bind_Ok_inv.
        exists (ids ++ [id0]), id. rewrite H1. simpl. by rewrite reverse_snoc.
      * intros (ids' & id & Hm & H2 & ->).
        destruct (mapM_res _ _) as [ids|] eqn:H1; simpl in Hm; [|done].
        injection Hm as <-. rewrite reverse_snoc.
        by rewrite (proj2 (IH c (Ok i) (reverse ids ++ [id]))) by eauto.
    + split; [done|]. intros (? & ? & Hm & _). by destruct (mapM_res _ _).
Qed.

Lemma identify_at_node file root base q id :
  identify_at file root base q = Ok id -> is_Some (node_at root q).
Proof. unfold identify_at. by destruct (node_at root q). Qed.

Lemma getNodeIdentifier_at proj o root q :
  resolve_obj proj (at_pos o []) = Some root ->
  getNodeIdentifier proj (at_pos o q) =
  identify_at (oFile o) root (getChildIndex (at_pos o [])) q.
Proof.
  intros Hroot. unfold getNodeIdentifier, identify_at, the_node.
  rewrite (resolve_at_pos _ _ root) by done. simpl.
  destruct (node_at root q); simpl; [|done]. f_equal.
Qed.

(** [getPath] by positions: the ancestors, the closest first, then the
    node. *)
Lemma getPath_at proj o root :
  resolve_obj proj (at_pos o []) = Some root ->
  getPath proj o [] =
  _ ← the_node proj o;
  ids ← mapM_res (identify_at (oFile o) root (getChildIndex (at_pos o [])))
         (filter (fun q => not_syntax_list_at root q = true) (proper_prefixes (oPos o)));
  id ← identify_at (oFile o) root (getChildIndex (at_pos o [])) (oPos o);
  Ok (ids ++ [id]).
Proof.
  intros Hroot. unfold getPath, getAncestors.
  destruct (the_node proj o); simpl; [|done].
  rewrite (resolve_the_node _ _ _ Hroot). simpl. rewrite mapM_res_fmap.
  rewrite (mapM_res_ext _ (identify_at (oFile o) root (getChildIndex (at_pos o []))))
    by (intros; by apply getNodeIdentifier_at).
  rewrite <- (getNodeIdentifier_at proj o root) by done. by destruct o.
Qed.

Lemma listed_member_Some proj s k j stmts i d m :
  listed_member proj s k j = Some (stmts, i, d, m) <->
  exists sl, top_level proj s = Some (stmts, i, d) /\ isSyntaxList d = false /\
             children d !! k = Some sl /\ isSyntaxList sl = true /\
             children sl !! j = Some m.
Proof.
  unfold listed_member.
  destruct (top_level proj s) as [[[stmts' i'] d']|]; simpl;
    [|split; [done|by intros (? & ? & _)]].
  destruct (children d' !! k) as [sl|] eqn:Hk; simpl.
  2: { split; [done|]. intros (? & [= _ _ <-] & _ & ? & _). congruence. }
  destruct (children sl !! j) as [m'|] eqn:Hj; simpl.
  2: { split; [done|]. intros (? & [= _ _ <-] & _ & ? & _ & ?). congruence. }
  destruct (isSyntaxList sl) eqn:Hsl, (isSyntaxList d') eqn:Hd; simpl;
    (split; [intros [= <- <- <- <-] || done; eauto 10|]);
    intros (sl' & [= <- <- <-] & ? & ? & ? & ?); congruence.
Qed.

(** The address of a member listed under a statement: the file, the
    statement and the member; the two syntax lists on the way are no
    parents. *)
Lemma computeAddress_member proj s k j stmts i d m :
  listed_member proj s k j = Some (stmts, i, d, m) ->
  computeAddress proj (below s [k; j]) =
  id ← identify (oFile s) d (Ok i); rest ← (id' ← identify (oFile s) m (Ok j); Ok [id']);
  Ok (IStr (oFile s) :: id :: rest).
Proof.
  intros (sl & Htop & Hd & Hk & Hsl & Hj)%listed_member_Some.
  destruct (top_level_syntax_list _ _ _ _ _ Htop)
    as (root & sl0 & Hroot & Hrk & _ & H0 & Hsl0 & Hstmts).
  apply top_level_Some in Htop as (_ & Hp & _ & _ & Hi). rewrite <- Hstmts in Hi.
  unfold computeAddress. change (at_pos (below s [k; j]) []) with (at_pos s []).
  rewrite (resolve_the_node _ _ _ Hroot). cbn [mbind res_bind].
  change (oPos (below s [k; j])) with (oPos s ++ [k; j]). rewrite Hp.
  change (oFile (below s [k; j])) with (oFile s). cbn [app].
  rewrite (address_from_cons _ root sl0), (address_from_cons _ sl0 d),
    (address_from_cons _ d sl), (address_from_cons _ sl m) by done.
  rewrite Hsl0, Hd, Hsl, (identify_SourceFile _ root) by done.
  unfold isSyntaxList. rewrite Hrk, bool_decide_eq_false_2 by done. cbn [address_from].
  destruct (identify (oFile s) d (Ok i)); simpl; [|done].
  by destruct (identify (oFile s) m (Ok j)).
Qed.

End address_lemmas.

(** ** Theorems *)

Section address_theorems.
Context `{SB : Sandbox} `{!SandboxLaws SB}.
Implicit Types (proj : Project) (o s : NodeObj) (addr ids : Path) (id : jsid).

(** C19 (the path of the code against the address of the specification).
    [getPath] returns a path exactly when the node has an address, and the
    two hold the same segments: the path is the address with the segments
    before the last in the opposite order, the closest parent first and the
    file last. *)
Theorem computeAddress_getPath proj o addr :
  computeAddress proj o = Ok addr <->
  exists ids id, getPath proj o [] = Ok (ids ++ [id]) /\ addr = reverse ids ++ [id].
Proof.
  unfold computeAddress. destruct (the_node proj (at_pos o [])) as [root|] eqn:Hroot; simpl.
  - apply the_node_Ok in Hroot. rewrite (getPath_at _ _ root) by done.
    setoid_rewrite address_from_Ok.
    assert (resolve_obj proj o = node_at root (oPos o)) as Ho
      by (rewrite <- (resolve_at_pos proj o root) by done; by destruct o).
    unfold the_node. rewrite Ho.
    split; intros (ids & id & H & H').
    + destruct H' as [Hid ->]. exists ids, id. split; [|done].
      destruct (identify_at_node _ _ _ _ _ Hid) as [n Hn].
      rewrite Hn. simpl. by rewrite H, Hid.
    + subst addr. exists ids, id. revert H.
      destruct (node_at root (oPos o)); simpl; [|done].
      do 2 (case_res; simpl; [|done]). by intros [= [<- <-]%app_inj_tail].
  - split; [done|]. intros (ids & id & Hp & _). revert Hp. unfold getPath, getAncestors.
    destruct (the_node proj o); simpl; [|done]. by rewrite Hroot.
Qed.

(** (address round trip for the members of an enum).  The address of
    a member of an enum declaration is the file, [$.getEnum] with the name
    of the declaration and [$.getMember] with the name of the member, and
    [getNode] resolves it to the member, when the declaration is the
    first of its name in the file and the member the first of its name in
    the declaration. *)
Theorem resolve_computeAddress_enum_member proj s k j stmts i e m member :
  listed_member proj s k j = Some (stmts, i, e, m) ->
  addressable (oFile s) stmts i e = true ->
  kindName e = "EnumDeclaration" ->
  kindName m = "EnumMember" -> nodeName m = Some (Some member) ->
  getMember e member = Some [k; j] ->
  (addr ← computeAddress proj (below s [k; j]); resolve_address proj addr)
  = Ok (Some (below s [k; j])).
Proof.
  intros Hm Haddr Hke Hkm Hname Hmember.
  rewrite (computeAddress_member _ _ _ _ _ _ _ _ Hm).
  apply listed_member_Some in Hm as (sl & Htop & _).
  destruct (identify (oFile s) e (Ok i)) as [id|] eqn:Hid;
    [|by unfold addressable in Haddr; rewrite Hid in Haddr].
  rewrite (identify_EnumMember _ m _ member) by done.
  cbn [mbind res_bind]. unfold resolve_address, getNode, getNode_st. cbn [shift].
  rewrite (first_child_of_file_statement _ _ _ _ _ Htop). cbn [getNodeFrom].
  rewrite (getNodeStep_statement _ _ _ _ _ _ Htop Haddr Hid).
  by rewrite (getNodeStep_getMember _ _ e _ [k; j]) by eauto using top_level_resolve.
Qed.

(** C20 (the address of a member of an interface does not resolve).  A
    member listed under a statement and identified by its name has the
    address of the file, the statement and the name.  [getNode] looks the
    name up among the children of the statement; the member is a child of
    a syntax list below the statement, so unless a child of the statement
    has that name or value the address resolves to [undefined]. *)
Theorem resolve_computeAddress_member_fails proj s k j stmts i d m name :
  listed_member proj s k j = Some (stmts, i, d, m) ->
  addressable (oFile s) stmts i d = true ->
  identify (oFile s) m (Ok j) = Ok (IStr name) ->
  startsWith name "$." = false ->
  list_find (fun each => matches (IStr name) each = true) (children d) = None ->
  (addr ← computeAddress proj (below s [k; j]); resolve_address proj addr) = Ok None.
Proof.
  intros Hm Haddr Hidm Hname Hnone.
  rewrite (computeAddress_member _ _ _ _ _ _ _ _ Hm), Hidm.
  apply listed_member_Some in Hm as (sl & Htop & _).
  destruct (identify (oFile s) d (Ok i)) as [id|] eqn:Hid;
    [|by unfold addressable in Haddr; rewrite Hid in Haddr].
  cbn [mbind res_bind]. unfold resolve_address, getNode, getNode_st. cbn [shift].
  rewrite (first_child_of_file_statement _ _ _ _ _ Htop). cbn [getNodeFrom].
  rewrite (getNodeStep_statement _ _ _ _ _ _ Htop Haddr Hid).
  rewrite getNodeStep_plain by (unfold is_expression; by rewrite Hname).
  unfold find_child.
  rewrite (resolve_the_node _ _ _ (top_level_resolve _ _ _ _ _ Htop)). simpl.
  by rewrite Hnone.
Qed.

End address_theorems.

(** ** The theorems at the scenario documents *)

(** The member [developerPortal] of [AppType]: its path and its address. *)
Example computeAddress_getPath_developerPortal :
  getPath enum_project developerPortal_obj [] =
    Ok [IStr (getEnum_expr "AppType"); IStr AppType_path;
        IStr (getMember_expr "developerPortal")] /\
  computeAddress enum_project developerPortal_obj =
    Ok [IStr AppType_path; IStr (getEnum_expr "AppType");
        IStr (getMember_expr "developerPortal")].
Proof. split; reflexivity. Qed.

Lemma resolve_computeAddress_enum_member_witness :
  (addr ← computeAddress enum_project developerPortal_obj;
   @resolve_address tsEvaluate enum_project addr) = Ok (Some developerPortal_obj).
Proof.
  apply (resolve_computeAddress_enum_member (SB:=tsEvaluate) enum_project AppType_obj 5 0
           [AppType_enum] 0 AppType_enum AppType_developerPortal "developerPortal");
    reflexivity.
Defined.

(** The property [value] of the interface [DeletedVaultListResult]: its
    address is the file, the interface and [value], and resolves to
    nothing. *)
Lemma resolve_computeAddress_member_fails_witness :
  (addr ← computeAddress keyvault_project DeletedVaultListResult_value_obj;
   @resolve_address tsEvaluate keyvault_project addr) = Ok None.
Proof.
  apply (resolve_computeAddress_member_fails (SB:=tsEvaluate) keyvault_project
           DeletedVaultListResult_obj 5 0
           [importDeclaration; DeletedVaultListResult_interface] 1
           DeletedVaultListResult_interface
           (propertySignature "value" false [("description", "The list of deleted vaults.")]
              (typeReference "Array" [typeReference "DeletedVault" []]))
           "value");
    reflexivity.
Defined.

Example computeAddress_value :
  computeAddress keyvault_project DeletedVaultListResult_value_obj =
  Ok [IStr DeletedVaultListResult_path; IStr "DeletedVaultListResult"; IStr "value"].
Proof. reflexivity. Qed.
