(* ===== verification/TypeExpand.v ===== *)
(** * TypeExpand: unions, definitions and literal values of a type

    [expandUnion], [getDefinition] and [expandLiterals] of
    [support/typescript.ts].  A type node is seen through the three tests the
    code makes of it (literal type, type reference, union type); the
    declarations of a name are what its symbol lists, and a name may have no
    symbol.  [expandLiterals] follows type aliases without any bound, so the
    model gives it fuel: [expandLiterals_enough_fuel] shows which fuel is
    enough when the aliases are not circular, and [expandLiterals_circular]
    that no fuel is when they are. *)

From Stdlib Require Import Ascii String ZArith.
From stdpp Require Import base option strings list gmap.
From S2P Require Import Prelude JsString.

(** ** Type nodes and declarations *)

(** [node.getLiteral()] of a literal type node. *)
Inductive Literal : Type :=
| NumericLiteral (value : Z)
| StringLiteral (value : string)
| OtherLiteral (kindName : string).  (* true, false, null, -1, ... *)

Unset Elimination Schemes.
Inductive TypeNode : Type :=
| LiteralTypeNode (literal : Literal)
| TypeReferenceNode (typeName : string)
| UnionTypeNode (types : list TypeNode)     (* getTypeNodes() *)
| OtherTypeNode (kindName : string).
Set Elimination Schemes.

(** What the symbol of a type name can declare. *)
Inductive Declaration : Type :=
| TypeAliasDecl (name : string) (type : option TypeNode)  (* getTypeNode() *)
| TypeParameterDecl (name : string)
| OtherDecl (kindName : string).

(** [typeName.getSymbol()?.getDeclarations()] for every type name: no entry
    when the name has no symbol. *)
Abbreviation Symbols := (gmap string (list Declaration)).

(** What [expandLiterals] returns: strings, numbers, type parameters. *)
Inductive Expanded : Type :=
| EStr (s : string)
| ENum (z : Z)
| EParam (name : string).

#[export] Instance Literal_eq_dec : EqDecision Literal.
Proof. solve_decision. Defined.

#[export] Instance Expanded_eq_dec : EqDecision Expanded.
Proof. solve_decision. Defined.

Definition isUnionTypeNode (node : TypeNode) : bool :=
  match node with UnionTypeNode _ => true | _ => false end.

(** ** expandUnion *)

(** [each => Node.isUnionTypeNode(each) ? expandUnion(each) : each], as the
    list that [flat] splices in. *)
Fixpoint expand_each (each : TypeNode) : list TypeNode :=
  match each with
  | UnionTypeNode types => mjoin (map expand_each types)
  | _ => [each]
  end.

(** [expandUnion(node)] for the union whose type nodes are [types]. *)
Definition expandUnion (types : list TypeNode) : list TypeNode :=
  mjoin (map expand_each types).

(** ** getDefinition *)

(** A node printed inside a template: ts-morph does not override
    [toString]. *)
Definition node_toString : string := "[object Object]".

(** [getDefinition(node)] for a reference to [typeName]. *)
Definition getDefinition (symbols : Symbols) (typeName : string) : res Declaration :=
  match symbols !! typeName with
  | None => Err (JsError ("Cannot resolve type reference '" +:+ node_toString +:+ "'."))
  | Some [declaration] => Ok declaration
  | Some _ => Err (JsError ("Ambiguous type reference '" +:+ node_toString +:+ "'."))
  end.

(** ** expandLiterals *)

Definition unexpected_literal (kindName : string) : error :=
  AssertionError ("unexpected literal type '" +:+ kindName +:+ "' ").

Definition unsupported_reference (kindName : string) : error :=
  AssertionError ("unsupported type reference node '" +:+ kindName +:+ "' ").

Definition unsupported_type (kindName : string) : error :=
  AssertionError ("unsupported type for expandLiterals '" +:+ kindName +:+ "' ").

(** The branch of [expandLiterals] for a literal type. *)
Definition expand_literal (literal : Literal) (allowNumbers : bool) : res (list Expanded) :=
  match literal with
  | NumericLiteral z => if allowNumbers then Ok [ENum z] else Err (unexpected_literal "NumericLiteral")
  | StringLiteral s => Ok [EStr s]
  | OtherLiteral kindName => Err (unexpected_literal kindName)
  end.

(** [expandLiterals(node, allowNumbers)] with [allowNumbers] already
    defaulted. *)
Fixpoint expandLiterals_fuel (fuel : nat) (symbols : Symbols) (node : TypeNode)
    (allowNumbers : bool) : res (list Expanded) :=
  match fuel with
  | O => Err OutOfFuel
  | S fuel' =>
    match node with
    | LiteralTypeNode literal => expand_literal literal allowNumbers
    | TypeReferenceNode typeName =>
      definition ← getDefinition symbols typeName;
      match definition with
      | TypeAliasDecl _ (Some type) => expandLiterals_fuel fuel' symbols type allowNumbers
      | TypeAliasDecl _ None => Err (LibError "Expected to find a type node.")
      | TypeParameterDecl name => Ok [EParam name]
      | OtherDecl kindName => Err (unsupported_reference kindName)
      end
    | UnionTypeNode types =>
      @mjoin list _ Expanded <$> mapM_res (fun each => expandLiterals_fuel fuel' symbols each allowNumbers)
                         (expandUnion types)
    | OtherTypeNode kindName => Err (unsupported_type kindName)
    end
  end.

(** [expandLiterals(node, allowNumbers?)]: [allowNumbers ?? true]. *)
Definition expandLiterals (fuel : nat) (symbols : Symbols) (node : TypeNode)
    (allowNumbers : option bool) : res (list Expanded) :=
  expandLiterals_fuel fuel symbols node (default true allowNumbers).

(** ** What the theorems speak of *)

(** The leaves of a type under its unions, left to right. *)
Inductive leaf_of : TypeNode -> TypeNode -> Prop :=
| leaf_self node : isUnionTypeNode node = false -> leaf_of node node
| leaf_union types each node :
    each ∈ types -> leaf_of each node -> leaf_of (UnionTypeNode types) node.

(** The names a type refers to at its leaves. *)
Definition references (node : TypeNode) : list string :=
  omap (fun leaf => match leaf with TypeReferenceNode name => Some name | _ => None end)
       (expand_each node).

(** The type an alias stands for, when the name is declared once, as an
    alias. *)
Definition alias_body (symbols : Symbols) (name : string) : option TypeNode :=
  match symbols !! name with
  | Some [TypeAliasDecl _ (Some type)] => Some type
  | _ => None
  end.

(** The aliases are not circular: [rank] decreases from an alias to the
    names its type refers to. *)
Definition ranked (symbols : Symbols) (rank : string -> nat) : Prop :=
  forall name type, alias_body symbols name = Some type ->
    Forall (fun r => rank r < rank name) (references type).

(** ** air-epa-gov/aliases/f_p_ieay.ts *)

(** [1 | 2 | 3 | 4 | 5], the first type argument of [FormData]. *)
Definition f_p_ieay_years : TypeNode :=
  UnionTypeNode [LiteralTypeNode (NumericLiteral 1); LiteralTypeNode (NumericLiteral 2);
             LiteralTypeNode (NumericLiteral 3); LiteralTypeNode (NumericLiteral 4);
             LiteralTypeNode (NumericLiteral 5)].

(** A file in which [Years] is that union and [Range] adds a name to it. *)
Definition years_symbols : Symbols :=
  {[ "Years" := [TypeAliasDecl "Years" (Some f_p_ieay_years)];
     "Range" := [TypeAliasDecl "Range"
                   (Some (UnionTypeNode [TypeReferenceNode "Years";
                                     LiteralTypeNode (StringLiteral "p_ieay")]))] ]}.

(** A rank for [years_symbols]: [Range] refers to [Years]. *)
Definition years_rank (name : string) : nat :=
  if decide (name = "Range") then 1 else 0.

(** A name whose symbol lists nothing, and an interface declared twice. *)
Definition merged_symbols : Symbols :=
  {[ "Gone" := [];
     "Merged" := [OtherDecl "InterfaceDeclaration"; OtherDecl "InterfaceDeclaration"] ]}.

(** A circular alias: [type Loop = Loop | 1]. *)
Definition loop_symbols : Symbols :=
  {[ "Loop" := [TypeAliasDecl "Loop"
                  (Some (UnionTypeNode [TypeReferenceNode "Loop"; LiteralTypeNode (NumericLiteral 1)]))] ]}.

(** ** Lemmas *)

(** The cases of [getDefinition] in [expandLiterals]: what remains is the
    alias with its type [t], with [H] the equation of the call. *)
Tactic Notation "case_definition" constr(symbols) constr(name) "as" ident(t) ident(H) :=
  destruct (getDefinition symbols name) as [[? [t|]| |]|] eqn:H; simpl in *;
  try (done || congruence).

Section type_expand_lemmas.
Implicit Types (node each leaf : TypeNode) (types : list TypeNode)
  (symbols : Symbols) (name : string) (fuel : nat) (b : bool).

(** Induction on type nodes, with the hypothesis on every type of a union. *)
Lemma TypeNode_ind (P : TypeNode -> Prop) :
  (forall literal, P (LiteralTypeNode literal)) ->
  (forall typeName, P (TypeReferenceNode typeName)) ->
  (forall types, Forall P types -> P (UnionTypeNode types)) ->
  (forall kindName, P (OtherTypeNode kindName)) ->
  forall node, P node.
Proof.
  intros HL HR HU HO. fix IH 1.
  intros [literal|typeName|types|kindName]; [apply HL|apply HR| |apply HO].
  apply HU. induction types as [|t ts IHts]; constructor; [apply IH|apply IHts].
Qed.

Lemma expand_each_leaf_node node : isUnionTypeNode node = false -> expand_each node = [node].
Proof. by destruct node. Qed.

Lemma expand_each_union types : expand_each (UnionTypeNode types) = expandUnion types.
Proof. reflexivity. Qed.

Lemma expandUnion_cons each types :
  expandUnion (each :: types) = expand_each each ++ expandUnion types.
Proof. reflexivity. Qed.

Lemma expandUnion_app types1 types2 :
  expandUnion (types1 ++ types2) = expandUnion types1 ++ expandUnion types2.
Proof. unfold expandUnion. by rewrite map_app, join_app. Qed.

Lemma elem_of_expandUnion types leaf :
  leaf ∈ expandUnion types <-> exists each, each ∈ types /\ leaf ∈ expand_each each.
Proof.
  unfold expandUnion. rewrite list_elem_of_join. split.
  - intros (l & Hl & Hin). apply list_elem_of_fmap in Hin as (each & -> & ?). eauto.
  - intros (each & ? & ?). exists (expand_each each). split; [done|].
    apply list_elem_of_fmap. eauto.
Qed.

Lemma expand_each_not_union node :
  Forall (fun leaf => isUnionTypeNode leaf = false) (expand_each node).
Proof.
  induction node as [| |types IH|] using TypeNode_ind; try by repeat constructor.
  rewrite expand_each_union. apply Forall_forall. intros leaf Hin.
  apply elem_of_expandUnion in Hin as (each & Heach & Hin).
  rewrite Forall_forall in IH. specialize (IH each Heach).
  rewrite Forall_forall in IH. auto.
Qed.

Lemma expand_each_sound node leaf : leaf ∈ expand_each node -> leaf_of node leaf.
Proof.
  induction node as [| |types IH|] using TypeNode_ind;
    try (intros ->%list_elem_of_singleton; by constructor).
  rewrite expand_each_union. intros (each & Heach & Hin)%elem_of_expandUnion.
  rewrite Forall_forall in IH. eauto using leaf_union.
Qed.

Lemma expand_each_complete node leaf : leaf_of node leaf -> leaf ∈ expand_each node.
Proof.
  induction 1 as [node Hnode|types each node Heach _ IH].
  - rewrite expand_each_leaf_node by done. set_solver.
  - rewrite expand_each_union. apply elem_of_expandUnion. eauto.
Qed.

(** On types without a union inside, [expandUnion] changes nothing. *)
Lemma expandUnion_flat types :
  Forall (fun each => isUnionTypeNode each = false) types -> expandUnion types = types.
Proof.
  induction 1 as [|each types Heach _ IH]; [done|].
  by rewrite expandUnion_cons, expand_each_leaf_node, IH.
Qed.

Lemma references_leaf node leaf (P : string -> Prop) :
  leaf ∈ expand_each node -> Forall P (references node) -> Forall P (references leaf).
Proof.
  intros Hin HP. unfold references in *.
  pose proof (expand_each_not_union node) as Hnu. rewrite Forall_forall in Hnu.
  rewrite expand_each_leaf_node by auto.
  rewrite Forall_forall in HP. apply Forall_forall. intros r Hr. apply HP.
  apply list_elem_of_omap. apply list_elem_of_omap in Hr as (x & ->%list_elem_of_singleton & ?).
  eauto.
Qed.

Lemma getDefinition_Ok symbols name declaration :
  getDefinition symbols name = Ok declaration <-> symbols !! name = Some [declaration].
Proof.
  unfold getDefinition. destruct (symbols !! name) as [ [ | d [ | ? ? ] ] | ]; split; congruence.
Qed.

Lemma getDefinition_alias symbols name alias type :
  getDefinition symbols name = Ok (TypeAliasDecl alias (Some type)) ->
  alias_body symbols name = Some type.
Proof. intros H%getDefinition_Ok. unfold alias_body. by rewrite H. Qed.

Lemma getDefinition_fuel symbols name : getDefinition symbols name <> Err OutOfFuel.
Proof. unfold getDefinition. by destruct (symbols !! name) as [ [ | ? [ | ? ? ] ] | ]. Qed.

Lemma expand_literal_fuel literal b : expand_literal literal b <> Err OutOfFuel.
Proof. by destruct literal as [z|s|k], b. Qed.

Lemma expandLiterals_fuel_S fuel symbols node b :
  expandLiterals_fuel (S fuel) symbols node b =
  match node with
  | LiteralTypeNode literal => expand_literal literal b
  | TypeReferenceNode typeName =>
    definition ← getDefinition symbols typeName;
    match definition with
    | TypeAliasDecl _ (Some type) => expandLiterals_fuel fuel symbols type b
    | TypeAliasDecl _ None => Err (LibError "Expected to find a type node.")
    | TypeParameterDecl name => Ok [EParam name]
    | OtherDecl kindName => Err (unsupported_reference kindName)
    end
  | UnionTypeNode types =>
    @mjoin list _ Expanded <$> mapM_res (fun each => expandLiterals_fuel fuel symbols each b)
                                         (expandUnion types)
  | OtherTypeNode kindName => Err (unsupported_type kindName)
  end.
Proof. reflexivity. Qed.

Lemma expandLiterals_fuel_mono_aux fuel : forall fuel' symbols node b,
  fuel <= fuel' ->
  expandLiterals_fuel fuel symbols node b <> Err OutOfFuel ->
  expandLiterals_fuel fuel' symbols node b = expandLiterals_fuel fuel symbols node b.
Proof.
  induction fuel as [|fuel IH]; intros [|fuel'] symbols node b Hle Hne; try done; [lia|].
  rewrite !expandLiterals_fuel_S in *.
  destruct node as [literal|name|types|kindName]; try done.
  - case_definition symbols name as type Hdef. apply IH; [lia|done].
  - f_equal. apply mapM_res_agree with (e := OutOfFuel).
    + intros each _ Heach. apply IH; [lia|done].
    + intros E. by rewrite E in Hne.
Qed.

(** A type whose first leaf runs out of fuel, whatever fuel it gets up to
    [fuel], runs out of [fuel] itself. *)
Lemma expandLiterals_fuel_head fuel symbols node leaf b :
  head (expand_each node) = Some leaf ->
  (forall fuel', fuel' <= fuel -> expandLiterals_fuel fuel' symbols leaf b = Err OutOfFuel) ->
  expandLiterals_fuel fuel symbols node b = Err OutOfFuel.
Proof.
  intros Hhead Hleaf. destruct fuel as [|fuel]; [done|].
  destruct node as [literal|name|types|kindName];
    try (injection Hhead as <-; by apply Hleaf).
  rewrite expandLiterals_fuel_S. rewrite expand_each_union in Hhead.
  destruct (expandUnion types) as [|first rest]; simplify_eq/=.
  rewrite Hleaf by lia. done.
Qed.

Lemma alias_body_Some symbols name type :
  alias_body symbols name = Some type ->
  exists alias, getDefinition symbols name = Ok (TypeAliasDecl alias (Some type)).
Proof.
  unfold alias_body, getDefinition.
  destruct (symbols !! name) as [ [ | [ alias [ t | ] | | ] [ | ? ? ] ] | ]; try done.
  intros [= ->]. eauto.
Qed.

End type_expand_lemmas.

(** ** Theorems *)

Section type_expand_theorems.
Implicit Types (node each leaf : TypeNode) (types : list TypeNode)
  (symbols : Symbols) (name : string) (fuel : nat) (b : bool).

(** [expandUnion] returns exactly the leaves of the union: every type
    reached from it through unions only that is not a union itself. *)
Theorem expandUnion_leaves types leaf :
  leaf ∈ expandUnion types <-> leaf_of (UnionTypeNode types) leaf.
Proof.
  rewrite <- expand_each_union. split; [apply expand_each_sound|apply expand_each_complete].
Qed.

(** The result of [expandUnion] holds no union, and expanding it again
    changes nothing. *)
Theorem expandUnion_idempotent types :
  Forall (fun leaf => isUnionTypeNode leaf = false) (expandUnion types) /\
  expandUnion (expandUnion types) = expandUnion types.
Proof.
  assert (H := expand_each_not_union (UnionTypeNode types)).
  split; [done|]. by apply expandUnion_flat.
Qed.

(** C34 [getDefinition] reports a name whose symbol lists no declaration at
    all as ambiguous, like one that lists several; the message does not hold
    the name. *)
Theorem getDefinition_ambiguous symbols name declarations :
  symbols !! name = Some declarations -> length declarations <> 1 ->
  getDefinition symbols name = Err (JsError "Ambiguous type reference '[object Object]'.").
Proof.
  unfold getDefinition. intros -> Hlen. by destruct declarations as [ | ? [ | ? ? ] ].
Qed.

(** More fuel never changes a result of [expandLiterals]. *)
Theorem expandLiterals_fuel_mono fuel fuel' symbols node allowNumbers :
  fuel <= fuel' ->
  expandLiterals fuel symbols node allowNumbers <> Err OutOfFuel ->
  expandLiterals fuel' symbols node allowNumbers = expandLiterals fuel symbols node allowNumbers.
Proof. apply expandLiterals_fuel_mono_aux. Qed.

(** C32 [expandLiterals] returns: when the aliases are not circular and the
    names at the leaves of the type have rank below [k], fuel [2 * k + 2] is
    enough. *)
Theorem expandLiterals_enough_fuel symbols rank fuel k node allowNumbers :
  ranked symbols rank ->
  Forall (fun r => rank r < k) (references node) ->
  2 * k + 2 <= fuel ->
  expandLiterals fuel symbols node allowNumbers <> Err OutOfFuel.
Proof.
  intros Hranked. unfold expandLiterals. generalize (default true allowNumbers) as b.
  intros b. revert k node.
  assert (Hgen : forall k node, Forall (fun r => rank r < k) (references node) ->
            2 * k + (if isUnionTypeNode node then 2 else 1) <= fuel ->
            expandLiterals_fuel fuel symbols node b <> Err OutOfFuel).
  { induction fuel as [|fuel IH]; intros k node Hrefs Hfuel;
      [exfalso; destruct (isUnionTypeNode node); lia|].
    rewrite expandLiterals_fuel_S.
    destruct node as [literal|name|types|kindName]; simpl in *; try done.
    - apply expand_literal_fuel.
    - pose proof (getDefinition_fuel symbols name) as Hne.
      case_definition symbols name as type Hdef.
      apply getDefinition_alias in Hdef. apply Forall_inv in Hrefs.
      apply (IH (rank name)); [by apply Hranked|destruct (isUnionTypeNode type); lia].
    - apply fmap_ne_Err, mapM_res_no_err, Forall_forall. intros leaf Hleaf.
      apply (IH k); [by apply (references_leaf (UnionTypeNode types))|].
      pose proof (expand_each_not_union (UnionTypeNode types)) as Hnu.
      rewrite Forall_forall in Hnu. rewrite (Hnu leaf) by done. lia. }
  intros k node Hrefs Hfuel. apply (Hgen k); [done|destruct (isUnionTypeNode node); lia].
Qed.

(** C33 An alias whose first leaf is the alias itself is never expanded:
    whatever the fuel, [expandLiterals] does not return. *)
Theorem expandLiterals_circular symbols name type fuel allowNumbers :
  alias_body symbols name = Some type ->
  head (expand_each type) = Some (TypeReferenceNode name) ->
  expandLiterals fuel symbols (TypeReferenceNode name) allowNumbers = Err OutOfFuel.
Proof.
  intros [alias Hdef]%alias_body_Some Hhead. unfold expandLiterals.
  induction (lt_wf fuel) as [fuel _ IH]. destruct fuel as [|fuel]; [done|].
  rewrite expandLiterals_fuel_S, Hdef. simpl.
  apply (expandLiterals_fuel_head _ _ _ _ _ Hhead). intros fuel' Hle. apply IH. lia.
Qed.

(** With [allowNumbers] false no number is returned, through aliases and
    unions alike. *)
Theorem expandLiterals_no_numbers fuel symbols node values :
  expandLiterals fuel symbols node (Some false) = Ok values ->
  Forall (fun v => forall z, v <> ENum z) values.
Proof.
  unfold expandLiterals. simpl. revert node values.
  induction fuel as [|fuel IH]; intros node values; [done|].
  rewrite expandLiterals_fuel_S.
  destruct node as [[z|s|k]|name|types|kindName]; try done.
  - intros [= <-]. by repeat constructor.
  - case_definition symbols name as type Hdef; [apply IH|].
    intros [= <-]. by repeat constructor.
  - intros (parts & Hparts & ->)%fmap_Ok_inv. apply Forall_join.
    apply (mapM_res_Forall _ _ _ _ (fun each part _ => IH each part) Hparts).
Qed.

End type_expand_theorems.

(** ** The theorems at the scenario types *)

Lemma ranked_years_symbols : ranked years_symbols years_rank.
Proof.
  intros name type. unfold alias_body, years_symbols.
  destruct (decide (name = "Years")) as [->|HY].
  { intros [= <-]. by repeat constructor. }
  rewrite lookup_insert_ne by done.
  destruct (decide (name = "Range")) as [->|HR].
  { intros [= <-]. repeat constructor. }
  by rewrite lookup_singleton_ne.
Qed.

Example expandLiterals_Range :
  expandLiterals 6 years_symbols (TypeReferenceNode "Range") None =
  Ok [ENum 1; ENum 2; ENum 3; ENum 4; ENum 5; EStr "p_ieay"].
Proof. reflexivity. Qed.

Lemma getDefinition_ambiguous_witness :
  getDefinition merged_symbols "Gone" =
    Err (JsError "Ambiguous type reference '[object Object]'.") /\
  getDefinition merged_symbols "Merged" =
    Err (JsError "Ambiguous type reference '[object Object]'.").
Proof.
  split.
  - by apply (getDefinition_ambiguous merged_symbols "Gone" []).
  - by apply (getDefinition_ambiguous merged_symbols "Merged"
                [OtherDecl "InterfaceDeclaration"; OtherDecl "InterfaceDeclaration"]).
Defined.

Lemma expandLiterals_fuel_mono_witness :
  expandLiterals 10 years_symbols (TypeReferenceNode "Range") None =
  expandLiterals 6 years_symbols (TypeReferenceNode "Range") None.
Proof. apply expandLiterals_fuel_mono; [lia|done]. Defined.

Lemma expandLiterals_enough_fuel_witness :
  expandLiterals 6 years_symbols (TypeReferenceNode "Range") None <> Err OutOfFuel.
Proof.
  apply (expandLiterals_enough_fuel years_symbols years_rank 6 2);
    [apply ranked_years_symbols|by repeat constructor|lia].
Defined.

Lemma expandLiterals_circular_witness :
  expandLiterals 1000 loop_symbols (TypeReferenceNode "Loop") None = Err OutOfFuel.
Proof. by eapply expandLiterals_circular. Defined.

Lemma expandLiterals_no_numbers_witness :
  Forall (fun v => forall z, v <> ENum z) [EStr "p_ieay"; EStr "p_wbd"].
Proof.
  apply (expandLiterals_no_numbers 2 years_symbols
           (UnionTypeNode [LiteralTypeNode (StringLiteral "p_ieay");
                       UnionTypeNode [LiteralTypeNode (StringLiteral "p_wbd")]])).
  reflexivity.
Defined.
