(* ===== verification/Text.v ===== *)
(** * Text: the text of a declaration and the paths of a file

    [getInnerText] and the properties [relativePath] and [fullPath] that
    [support/typescript.ts] adds to source files.  The first two are string
    functions: [substring] and [indexOf] are those of [JsString], the regular
    expression [/(^\/)|(^\w)/] is written out as the test on the first
    character that it is.  [fullPath] hands the relative path to
    [getAbsolutePath] of [support/file-system], which is not among the
    sources and is a parameter here. *)

From Stdlib Require Import Ascii String ZArith.
From stdpp Require Import base option strings list.
From S2P Require Import Prelude JsString.

(** [getInnerText(declaration)] on the text of the declaration. *)
Definition getInnerText (text : string) : string :=
  js_substring text (indexOf text "{").

(** [relativePath]: [getFilePath().replace(/(^\/)|(^\w)/, './$2')].  A leading
    slash is replaced by [./]; a leading word character gets [./] before it;
    any other path is not matched and stays as it is. *)
Definition relativePath (filePath : string) : string :=
  match filePath with
  | String c rest =>
    if decide (c = "/"%char) then "./" +:+ rest
    else if is_word_char c then "./" +:+ String c rest
    else filePath
  | EmptyString => EmptyString
  end.

Section full_path.
Context {FileSystem : Type} (getAbsolutePath : FileSystem -> string -> string).

(** [fullPath]: [getAbsolutePath(api.fileSystem, this.relativePath)], for
    the file system of the api model of the project. *)
Definition fullPath (fileSystem : FileSystem) (filePath : string) : string :=
  getAbsolutePath fileSystem (relativePath filePath).

End full_path.

(** The text of [DeletedVaultListResult] up to its first member. *)
Definition DeletedVaultListResult_text : string :=
  "export interface DeletedVaultListResult { value?: Array<DeletedVault>; }".

Section text_lemmas.
Implicit Types (text p r filePath : string) (c : ascii).

Lemma indexOf_found p r c :
  find_char c p = None -> indexOf (p +:+ String c r) c = Z.of_nat (String.length p).
Proof.
  intros Hp. unfold indexOf. rewrite find_char_app_None by done. simpl.
  rewrite decide_True by done. simpl. f_equal. lia.
Qed.

Lemma indexOf_absent text c : find_char c text = None -> indexOf text c = (-1)%Z.
Proof. unfold indexOf. by intros ->. Qed.

Lemma relativePath_dot r : relativePath ("./" +:+ r) = "./" +:+ r.
Proof. reflexivity. Qed.

(** The inner text of a declaration starts at its first brace: what
    comes before it is dropped, whatever follows is kept. *)
Theorem getInnerText_brace p r :
  find_char "{" p = None -> getInnerText (p +:+ String "{" r) = String "{" r.
Proof.
  intros Hp. unfold getInnerText, js_substring. rewrite indexOf_found by done.
  by rewrite Nat2Z.id, string_drop_app.
Qed.

(** A text without a brace is its own inner text: [indexOf] is [-1] and
    [substring] starts at the beginning. *)
Theorem getInnerText_no_brace text :
  find_char "{" text = None -> getInnerText text = text.
Proof.
  intros H. unfold getInnerText, js_substring. rewrite indexOf_absent by done.
  apply string_drop_0.
Qed.

(** On the paths [getFilePath] returns, which are absolute, the result is
    the path from the root with [./] in front, as the comment in the source
    says. *)
Lemma relativePath_absolute r : relativePath ("/" +:+ r) = "./" +:+ r.
Proof. reflexivity. Qed.

(** [relativePath] is idempotent: its result starts with a dot when the
    expression matched, and is the path itself when it did not; neither is
    matched again. *)
Theorem relativePath_idempotent filePath :
  relativePath (relativePath filePath) = relativePath filePath.
Proof.
  destruct filePath as [|c rest]; [done|]. simpl.
  destruct (decide (c = "/"%char)) as [->|Hc]; [done|].
  destruct (is_word_char c) eqn:Hw; [done|].
  simpl. by rewrite decide_False, Hw.
Qed.

(** The full path of a file is that of its relative path: the two
    properties agree on every path [relativePath] returns. *)
Lemma fullPath_relativePath {FileSystem} (getAbsolutePath : FileSystem -> string -> string)
    fileSystem filePath :
  fullPath getAbsolutePath fileSystem (relativePath filePath) =
  fullPath getAbsolutePath fileSystem filePath.
Proof. unfold fullPath. by rewrite relativePath_idempotent. Qed.

(** A path that starts with neither a slash nor a word character is
    returned as it is, without [./] in front; [getFilePath] returns no such
    path. *)
Theorem relativePath_unmatched c r :
  c <> "/"%char -> is_word_char c = false -> relativePath (String c r) = String c r.
Proof. intros Hc Hw. simpl. by rewrite decide_False, Hw. Qed.

End text_lemmas.

Lemma getInnerText_brace_witness :
  getInnerText DeletedVaultListResult_text = "{ value?: Array<DeletedVault>; }".
Proof.
  apply (getInnerText_brace "export interface DeletedVaultListResult "
                            " value?: Array<DeletedVault>; }").
  reflexivity.
Defined.

Lemma getInnerText_no_brace_witness :
  getInnerText "export type Years = 1 | 2;" = "export type Years = 1 | 2;".
Proof. by apply getInnerText_no_brace. Defined.

Lemma relativePath_unmatched_witness :
  relativePath "@azure-tools/sourcemap.ts" = "@azure-tools/sourcemap.ts".
Proof. by apply relativePath_unmatched. Defined.
