(* ===== verification/Imports.v ===== *)
(** * Imports: the import declarations a type reference needs

    [createImportFor], [addImportsTo], [createImportsFor] and [addNullable] of
    [support/typescript.ts].  A structure is the JavaScript object the code
    builds, a list of keys in insertion order, because [addImportsTo] compares
    structures by their [JSON.stringify] text.  The import declarations of a
    source file are a list; [getStructure] and [addImportDeclarations] are
    those of ts-morph.  The module specifier between two files is ts-morph's
    too and stays a parameter of the section. *)

From Stdlib Require Import Ascii String ZArith.
From stdpp Require Import base option strings list gmap pretty.
From S2P Require Import Prelude JsString TypeExpand.

Set Warnings "-clear-no-such-hyp".

(** ** Objects and their JSON text *)

Unset Elimination Schemes.
Inductive json : Type :=
| JNum (z : Z)
| JBool (b : bool)
| JStr (s : string)
| JArr (items : list json)
| JObj (fields : list (string * json)).   (* a key that is undefined is absent *)
Set Elimination Schemes.

(** [items.join(sep)]. *)
Fixpoint join_with (sep : string) (items : list string) : string :=
  match items with
  | [] => EmptyString
  | [item] => item
  | item :: rest => item +:+ sep +:+ join_with sep rest
  end.

(** [JSON.stringify(v)]. *)
Fixpoint stringify (v : json) : string :=
  match v with
  | JNum z => pretty z
  | JBool b => if b then "true" else "false"
  | JStr s => json_quote s
  | JArr items => "[" +:+ join_with "," (map stringify items) +:+ "]"
  | JObj fields =>
    "{" +:+ join_with "," (map (fun kv => json_quote kv.1 +:+ ":" +:+ stringify kv.2) fields)
        +:+ "}"
  end.

(** [object.key]. *)
Definition field (key : string) (v : json) : option json :=
  match v with
  | JObj fields => (fun found => found.2.2) <$> list_find (fun kv => kv.1 = key) fields
  | _ => None
  end.

(** ** The import declarations of a file (ts-morph) *)

Record ImportDeclaration : Type := mkImportDeclaration {
  isTypeOnly : bool;
  defaultImport : option string;
  moduleSpecifier : string;
  namedImports : list (string * option string);   (* name, alias *)
  namespaceImport : option string
}.

#[export] Instance ImportDeclaration_eq_dec : EqDecision ImportDeclaration.
Proof. solve_decision. Defined.

Definition StructureKind_ImportDeclaration : Z := 14.
Definition StructureKind_ImportSpecifier : Z := 15.

(** An optional key of an object literal. *)
Definition optional (key : string) (value : option string) : list (string * json) :=
  match value with Some s => [(key, JStr s)] | None => [] end.

(** [ImportSpecifier.getStructure()]. *)
Definition specifier_structure (named : string * option string) : json :=
  JObj ([("kind", JNum StructureKind_ImportSpecifier); ("name", JStr named.1)]
        ++ optional "alias" named.2).

(** [ImportDeclaration.getStructure()]. *)
Definition getStructure (d : ImportDeclaration) : json :=
  JObj ([("kind", JNum StructureKind_ImportDeclaration); ("isTypeOnly", JBool (isTypeOnly d))]
        ++ optional "defaultImport" (defaultImport d)
        ++ [("moduleSpecifier", JStr (moduleSpecifier d));
            ("namedImports", JArr (specifier_structure <$> namedImports d))]
        ++ optional "namespaceImport" (namespaceImport d)).

Definition as_string (v : option json) : option string :=
  match v with Some (JStr s) => Some s | _ => None end.

(** A named import of a structure: a name, or a specifier structure. *)
Definition named_of_structure (v : json) : option (string * option string) :=
  match v with
  | JStr name => Some (name, None)
  | JObj _ => name ← as_string (field "name" v); Some (name, as_string (field "alias" v))
  | _ => None
  end.

(** The declaration that [addImportDeclarations] writes for a structure. *)
Definition declaration_of_structure (v : json) : res ImportDeclaration :=
  m ← of_option (LibError "moduleSpecifier") (as_string (field "moduleSpecifier" v));
  named ← match field "namedImports" v with
          | Some (JArr items) =>
              mapM_res (fun i => of_option (LibError "namedImports") (named_of_structure i)) items
          | Some _ => Err (LibError "namedImports")
          | None => Ok []
          end;
  Ok (mkImportDeclaration
        (match field "isTypeOnly" v with Some (JBool b) => b | _ => false end)
        (as_string (field "defaultImport" v)) m named
        (as_string (field "namespaceImport" v))).

(** [sourceFile.addImportDeclarations(structures)]: after the imports the
    file has. *)
Definition addImportDeclarations (declarations : list ImportDeclaration)
    (structures : list json) : res (list ImportDeclaration) :=
  added ← mapM_res declaration_of_structure structures;
  Ok (declarations ++ added).

(** ** Type references (model/schema/type) *)

Unset Elimination Schemes.
Inductive TypeReference : Type :=
  mkTypeReference (sourceFile : option string) (declaration : TypeNode)
                  (requiredReferences : list TypeReference).
Set Elimination Schemes.

Definition sourceFile (t : TypeReference) : option string :=
  match t with mkTypeReference f _ _ => f end.

Definition declaration (t : TypeReference) : TypeNode :=
  match t with mkTypeReference _ d _ => d end.

Definition requiredReferences (t : TypeReference) : list TypeReference :=
  match t with mkTypeReference _ _ r => r end.

(** [addNullable(typeReference)]. *)
Definition addNullable (typeReference : TypeReference) : TypeReference :=
  mkTypeReference None
    (UnionTypeNode [declaration typeReference; OtherTypeNode "NullKeyword"])
    [typeReference].

(** ** addImportsTo *)

(** The second loop of [addImportsTo]: the set of keys and the structures
    kept so far, over the structures that remain. *)
Fixpoint add_unique (set : gset string) (unique imports : list json) : gset string * list json :=
  match imports with
  | [] => (set, unique)
  | each :: rest =>
    let id := stringify each in
    if decide (id ∈ set) then add_unique set unique rest
    else add_unique ({[ id ]} ∪ set) (unique ++ [each]) rest
  end.

(** The first loop: the keys of the imports the file has. *)
Definition existing_keys (declarations : list ImportDeclaration) : gset string :=
  foldl (fun set each => {[ stringify each ]} ∪ set) ∅ (getStructure <$> declarations).

(** [addImportsTo(sourceFile, imports)] on the import declarations of the
    file. *)
Definition addImportsTo (declarations : list ImportDeclaration) (imports : list json)
    : res (list ImportDeclaration) :=
  let (_, unique) := add_unique (existing_keys declarations) [] imports in
  addImportDeclarations declarations unique.

(** The structures that [addImportsTo] keeps, given the keys it starts
    with. *)
Definition kept (set : gset string) (imports : list json) : list json :=
  (add_unique set [] imports).2.

(** ** createImportFor and createImportsFor *)

Section imports_for.
(** [from.getRelativePathAsModuleSpecifierTo(to)]. *)
Context (getRelativePathAsModuleSpecifierTo : string -> string -> string).

(** [createImportFor(name, sourceFile, relativeToSourceFile)]. *)
Definition createImportFor (name sourceFile relativeToSourceFile : string) : json :=
  JObj [("kind", JNum StructureKind_ImportDeclaration);
        ("namedImports", JArr [JStr name]);
        ("moduleSpecifier",
         JStr (getRelativePathAsModuleSpecifierTo relativeToSourceFile sourceFile))].

(** The structure that [impl] pushes for the reference itself. *)
Definition own_import (file : string) (typeReference : TypeReference) : list json :=
  match sourceFile typeReference, declaration typeReference with
  | Some other, TypeReferenceNode typeName =>
      if decide (file <> other) then [createImportFor typeName other file] else []
  | _, _ => []
  end.

(** [impl] of [createImportsFor], as the list of what it pushes. *)
Fixpoint createImportsFor_impl (file : string) (typeReference : TypeReference) : list json :=
  match typeReference with
  | mkTypeReference _ _ required =>
      own_import file typeReference ++ mjoin (map (createImportsFor_impl file) required)
  end.

(** [createImportsFor(sourceFile, typeReference)]. *)
Definition createImportsFor (file : string) (typeReference : TypeReference) : list json :=
  createImportsFor_impl file typeReference.

End imports_for.

(** ** azure/keyvault: the imports of [DeletedVaultListResult] *)

(** The files of one folder, named without their extension. *)
Definition sibling_specifier (from to : string) : string := "./" +:+ to.

(** [Array<DeletedVault>]: the array needs the type of its elements. *)
Definition DeletedVault_reference : TypeReference :=
  mkTypeReference (Some "DeletedVault") (TypeReferenceNode "DeletedVault") [].

Definition DeletedVault_array : TypeReference :=
  mkTypeReference None (OtherTypeNode "ArrayType") [DeletedVault_reference].

(** [import { DeletedVault } from './DeletedVault']. *)
Definition DeletedVault_import : ImportDeclaration :=
  mkImportDeclaration false None "./DeletedVault" [("DeletedVault", None)] None.

(** The structure of that import, as [createImportFor] builds it. *)
Definition DeletedVault_structure : json :=
  createImportFor sibling_specifier "DeletedVault" "DeletedVault" "DeletedVaultListResult".

(** ** Lemmas *)

Section import_lemmas.
Implicit Types (set : gset string) (unique imports : list json) (each u i : json)
  (declarations : list ImportDeclaration) (d : ImportDeclaration).

Lemma add_unique_acc imports : forall set unique,
  add_unique set unique imports =
  ((add_unique set [] imports).1, unique ++ (add_unique set [] imports).2).
Proof.
  induction imports as [|each rest IH]; intros set unique; simpl.
  - by rewrite app_nil_r.
  - case_decide; [apply IH|].
    rewrite (IH _ (unique ++ [each])), (IH _ [each]). simpl. by rewrite <- app_assoc.
Qed.

Lemma kept_cons_in set each rest :
  stringify each ∈ set -> kept set (each :: rest) = kept set rest.
Proof. intros H. unfold kept. simpl. by rewrite decide_True. Qed.

Lemma kept_cons_new set each rest :
  stringify each ∉ set ->
  kept set (each :: rest) = each :: kept ({[ stringify each ]} ∪ set) rest.
Proof. intros H. unfold kept. simpl. rewrite decide_False by done. by rewrite add_unique_acc. Qed.

(** Case analysis on the head of the imports, with both equations. *)
Lemma kept_cons_cases set each rest :
  (stringify each ∈ set /\ kept set (each :: rest) = kept set rest) \/
  ((stringify each ∉ set) /\
   kept set (each :: rest) = each :: kept ({[ stringify each ]} ∪ set) rest).
Proof.
  destruct (decide (stringify each ∈ set)); [left|right];
    eauto using kept_cons_in, kept_cons_new.
Qed.

Lemma kept_sublist imports : forall set, sublist (kept set imports) imports.
Proof.
  induction imports as [|each rest IH]; intros set; [constructor|].
  destruct (kept_cons_cases set each rest) as [[_ ->]|[_ ->]]; by constructor.
Qed.

Lemma kept_fresh imports : forall set u, u ∈ kept set imports -> stringify u ∉ set.
Proof.
  induction imports as [|each rest IH]; intros set u; [by intros ?%elem_of_nil|].
  destruct (kept_cons_cases set each rest) as [[_ ->]|[Hnew ->]]; [apply IH|].
  intros [->|Hu%IH]%elem_of_cons; [done|set_solver].
Qed.

Lemma kept_NoDup imports : forall set, NoDup (stringify <$> kept set imports).
Proof.
  induction imports as [|each rest IH]; intros set; [constructor|].
  destruct (kept_cons_cases set each rest) as [[_ ->]|[_ ->]]; [apply IH|].
  rewrite fmap_cons. constructor; [|apply IH].
  intros (u & Hkey & Hu%kept_fresh)%list_elem_of_fmap. set_solver.
Qed.

Lemma kept_complete imports : forall set i,
  i ∈ imports -> stringify i ∈ set \/ stringify i ∈ stringify <$> kept set imports.
Proof.
  induction imports as [|each rest IH]; intros set i; [by intros ?%elem_of_nil|].
  destruct (kept_cons_cases set each rest) as [[Hin ->]|[_ ->]];
    intros [->|Hi]%elem_of_cons; rewrite ?fmap_cons; try set_solver.
  destruct (IH ({[ stringify each ]} ∪ set) i Hi); set_solver.
Qed.

Lemma existing_keys_spec declarations key :
  key ∈ existing_keys declarations <->
  exists d, d ∈ declarations /\ key = stringify (getStructure d).
Proof.
  unfold existing_keys.
  assert (Hgen : forall l (acc : gset string),
    key ∈ foldl (fun set each => {[ stringify each ]} ∪ set) acc l <->
    key ∈ acc \/ exists v, v ∈ l /\ key = stringify v).
  { induction l as [|v l IH]; intros acc; simpl.
    - split; [by left|]. by intros [?|(v & ?%elem_of_nil & _)].
    - rewrite IH, elem_of_union, elem_of_singleton. setoid_rewrite elem_of_cons.
      naive_solver. }
  rewrite Hgen. split.
  - intros [?%elem_of_empty|(v & (d & -> & ?)%list_elem_of_fmap & ->)]; [done|eauto].
  - intros (d & ? & ->). right. eauto using list_elem_of_fmap_2.
Qed.

(** The text of a structure of [createImportFor] and the text of the
    structure of a declaration differ at their second key. *)
Lemma created_key_char rel name other file :
  String.get 12 (stringify (createImportFor rel name other file)) = Some "n"%char.
Proof. reflexivity. Qed.

Lemma existing_key_char d : String.get 12 (stringify (getStructure d)) = Some "i"%char.
Proof. by destruct d as [t [def|] m named ns]. Qed.

Lemma created_not_existing rel name other file declarations :
  stringify (createImportFor rel name other file) ∉ existing_keys declarations.
Proof.
  intros (d & _ & Hkey)%existing_keys_spec.
  pose proof (created_key_char rel name other file) as Hc.
  rewrite Hkey, existing_key_char in Hc. discriminate.
Qed.

Lemma declaration_of_created rel name other file :
  declaration_of_structure (createImportFor rel name other file) =
  Ok (mkImportDeclaration false None (rel file other) [(name, None)] None).
Proof. reflexivity. Qed.

(** Induction on type references, with the hypothesis on every required
    reference. *)
Lemma TypeReference_ind (P : TypeReference -> Prop) :
  (forall f decl required, Forall P required -> P (mkTypeReference f decl required)) ->
  forall t, P t.
Proof.
  intros H. fix IH 1. intros [f decl required]. apply H.
  induction required as [|r rs IHrs]; constructor; [apply IH|apply IHrs].
Qed.

Lemma createImportsFor_impl_eq rel file t :
  createImportsFor_impl rel file t =
  own_import rel file t ++ mjoin (map (createImportsFor_impl rel file) (requiredReferences t)).
Proof. by destruct t. Qed.

Lemma own_import_created rel file t v :
  v ∈ own_import rel file t ->
  exists name other, other <> file /\ v = createImportFor rel name other file.
Proof.
  unfold own_import. destruct (sourceFile t) as [other|]; [|by intros ?%elem_of_nil].
  destruct (declaration t) as [|name| |]; try by intros ?%elem_of_nil.
  case_decide; [|by intros ?%elem_of_nil]. intros ->%list_elem_of_singleton. eauto.
Qed.

Lemma createImportsFor_created rel file t v :
  v ∈ createImportsFor rel file t ->
  exists name other, other <> file /\ v = createImportFor rel name other file.
Proof.
  unfold createImportsFor. revert v.
  induction t as [f decl required IH] using TypeReference_ind. intros v.
  rewrite createImportsFor_impl_eq. intros [Hown|Hreq]%elem_of_app.
  - by apply own_import_created in Hown.
  - apply list_elem_of_join in Hreq as (l & Hv & (r & -> & Hr)%list_elem_of_fmap).
    rewrite Forall_forall in IH. by apply (IH r).
Qed.

End import_lemmas.

#[export] Hint Resolve kept_sublist kept_NoDup kept_fresh kept_complete : adl.

(** ** Theorems *)

Section import_theorems.
Context (rel : string -> string -> string).
Implicit Types (imports unique : list json) (declarations : list ImportDeclaration)
  (t : TypeReference) (file name other : string).

(** C35 [addImportsTo] adds the declarations of a sub-list of the imports, in
    their order, no two with the same text, none with the text of an import
    of the file; and every import it leaves out has the text of one that the
    file has or that it adds. *)
Theorem addImportsTo_unique declarations imports result :
  addImportsTo declarations imports = Ok result ->
  exists unique added,
    result = declarations ++ added /\
    mapM_res declaration_of_structure unique = Ok added /\
    sublist unique imports /\
    NoDup (stringify <$> unique) /\
    (forall u, u ∈ unique -> stringify u ∉ existing_keys declarations) /\
    (forall i, i ∈ imports ->
       stringify i ∈ existing_keys declarations \/ stringify i ∈ stringify <$> unique).
Proof.
  unfold addImportsTo, addImportDeclarations.
  destruct (add_unique _ [] imports) as [set unique] eqn:Hloop.
  assert (unique = kept (existing_keys declarations) imports) as -> by (unfold kept; by rewrite Hloop).
  intros (added & Hadded & [= <-])%bind_Ok_inv.
  exists (kept (existing_keys declarations) imports), added.
  eauto 10 with adl.
Qed.

(** C36 An import built by [createImportFor] is always added, also to a file
    that has this very import: the text of the structure of a declaration
    never equals the text of a structure built by [createImportFor]. *)
Theorem addImportsTo_adds_again declarations name other file :
  addImportsTo declarations [createImportFor rel name other file] =
  Ok (declarations ++ [mkImportDeclaration false None (rel file other) [(name, None)] None]).
Proof.
  unfold addImportsTo. fold (kept (existing_keys declarations) [createImportFor rel name other file]).
  rewrite (surjective_pairing (add_unique _ _ _)).
  fold (kept (existing_keys declarations) [createImportFor rel name other file]).
  rewrite kept_cons_new by apply created_not_existing.
  unfold addImportDeclarations. cbn [mapM_res snd]. by rewrite declaration_of_created.
Qed.

(** Every import of [createImportsFor] is one built by [createImportFor]
    from another file than the one it is for. *)
Theorem createImportsFor_other_file file t v :
  v ∈ createImportsFor rel file t ->
  exists name other, other <> file /\ v = createImportFor rel name other file.
Proof. apply createImportsFor_created. Qed.

(** A nullable type needs exactly the imports of the type it wraps. *)
Theorem createImportsFor_addNullable file t :
  createImportsFor rel file (addNullable t) = createImportsFor rel file t.
Proof.
  unfold createImportsFor, addNullable. rewrite createImportsFor_impl_eq. simpl.
  by rewrite app_nil_r.
Qed.

(** [addImportsTo] returns on the imports of [createImportsFor]: each of
    them is a structure that [addImportDeclarations] can write. *)
Theorem addImportsTo_createImportsFor declarations file t :
  is_ok (addImportsTo declarations (createImportsFor rel file t)) = true.
Proof.
  unfold addImportsTo.
  destruct (add_unique _ [] _) as [set unique] eqn:Hloop.
  assert (unique = kept (existing_keys declarations) (createImportsFor rel file t)) as ->
    by (unfold kept; by rewrite Hloop).
  unfold addImportDeclarations. rewrite mapM_res_total; [done|].
  apply Forall_forall. intros v Hv. apply elem_of_sublist with (l2 := createImportsFor rel file t) in Hv;
    [|apply kept_sublist].
  apply createImportsFor_created in Hv as (name & other & _ & ->).
  by rewrite declaration_of_created.
Qed.

End import_theorems.

(** ** The theorems at the imports of [DeletedVaultListResult] *)

Example createImportsFor_DeletedVault_array :
  createImportsFor sibling_specifier "DeletedVaultListResult" DeletedVault_array =
  [DeletedVault_structure].
Proof. reflexivity. Qed.

Lemma addImportsTo_unique_witness :
  exists unique added,
    [DeletedVault_import] = [] ++ added /\
    mapM_res declaration_of_structure unique = Ok added /\
    sublist unique [DeletedVault_structure; DeletedVault_structure] /\
    NoDup (stringify <$> unique) /\
    (forall u, u ∈ unique -> stringify u ∉ existing_keys []) /\
    (forall i, i ∈ [DeletedVault_structure; DeletedVault_structure] ->
       stringify i ∈ existing_keys [] \/ stringify i ∈ stringify <$> unique).
Proof.
  by apply (addImportsTo_unique [] [DeletedVault_structure; DeletedVault_structure]).
Defined.

Lemma createImportsFor_other_file_witness :
  exists name other,
    other <> "DeletedVaultListResult" /\
    DeletedVault_structure =
    createImportFor sibling_specifier name other "DeletedVaultListResult".
Proof.
  apply (createImportsFor_other_file sibling_specifier _ (addNullable DeletedVault_array)).
  by apply list_elem_of_singleton.
Defined.

(** The file that has the import gets it a second time. *)
Example addImportsTo_twice :
  addImportsTo [DeletedVault_import]
    (createImportsFor sibling_specifier "DeletedVaultListResult" DeletedVault_array) =
  Ok [DeletedVault_import; DeletedVault_import].
Proof. reflexivity. Qed.
