(* ===== verification/HttpModel.v ===== *)
(** * HttpModel: authentications, flows and connections of the HTTP protocol

    The classes of [model/http/protocol.ts] up to [ConnectionVariable].  A
    class is a module: its record [t], the record [Partial.t] of the keys an
    initializer may give, and [new], its constructor.  Every constructor ends
    with [this.initialize(initializer)], which assigns the keys the
    initializer has over what the field initializers and the parameters set;
    [assigned] and [assigned_opt] are that assignment for one key.  An alias
    ([model/alias]) is the name of a declaration of the model.  The
    initializer of [AuthenticationReference] is declared a partial
    [AuthenticationRequirement]; [initialize] copies the keys the object
    has, whatever its declared type, so [Initializer.t] has the keys of
    both classes and [Initializer.typed] says which the type admits.

    What the classes mean is not in the sources: [resolve], [authorized],
    [valid_reference] and [admits] follow the specification (an
    authentication requirement asks for all its authentications, a list of
    requirements for one of them; scopes belong to OAuth2; the allowed
    values of a variable, when it has any, are the only ones that may
    substitute it). *)

From Stdlib Require Import Ascii String ZArith.
From stdpp Require Import base option strings list.
From S2P Require Import Prelude.

(** ** Element.initialize *)

(** A key of the initializer assigned over the value the object has. *)
Definition assigned {A} (given : option A) (has : A) : A := default has given.

(** The same for a property that may be undefined. *)
Definition assigned_opt {A} (given : option A) (has : option A) : option A :=
  given |? has.

(** A value of the model or the name of a declaration that holds one. *)
Inductive or_alias (T : Type) : Type :=
| Inline (value : T)
| Alias (name : string).
Arguments Inline {T} value.
Arguments Alias {T} name.

(** ** Enumerations *)

Module AuthenticationType.
Inductive t : Type := ApiKey | Http | OAuth2 | OpenIdConnect.

Definition value (type : t) : string :=
  match type with
  | ApiKey => "apikey"
  | Http => "http"
  | OAuth2 => "oauth2"
  | OpenIdConnect => "openidconnect"
  end.

#[global] Instance eq_dec : EqDecision t.
Proof. solve_decision. Defined.
End AuthenticationType.

Module ParameterLocation.
Inductive t : Type := Query | Header | Cookie.

Definition value (location : t) : string :=
  match location with
  | Query => "query"
  | Header => "header"
  | Cookie => "cookie"
  end.

#[global] Instance eq_dec : EqDecision t.
Proof. solve_decision. Defined.
End ParameterLocation.

(** ** OAuth2 scopes and flows *)

Module OAuth2Scope.
Record t : Type := mk { name : string; description : string }.

Module Partial.
Record t : Type := mk { name : option string; description : option string }.
Definition none : t := mk None None.
End Partial.

Definition new (name description : string) (initializer : option Partial.t) : t :=
  let i := default Partial.none initializer in
  mk (assigned (Partial.name i) name) (assigned (Partial.description i) description).
End OAuth2Scope.

Module ClientCredentialsOAuth2Flow.
Record t : Type := mk {
  refreshUrl : option string;
  scopes : list OAuth2Scope.t;
  tokenUrl : string
}.

Module Partial.
Record t : Type := mk {
  refreshUrl : option string;
  scopes : option (list OAuth2Scope.t);
  tokenUrl : option string
}.
Definition none : t := mk None None None.
End Partial.

Definition new (tokenUrl : string) (initializer : option Partial.t) : t :=
  let i := default Partial.none initializer in
  mk (assigned_opt (Partial.refreshUrl i) None)
     (assigned (Partial.scopes i) [])
     (assigned (Partial.tokenUrl i) tokenUrl).
End ClientCredentialsOAuth2Flow.

Module PasswordOAuth2Flow.
Record t : Type := mk {
  refreshUrl : option string;
  scopes : list OAuth2Scope.t;
  tokenUrl : string
}.

Module Partial.
Record t : Type := mk {
  refreshUrl : option string;
  scopes : option (list OAuth2Scope.t);
  tokenUrl : option string
}.
Definition none : t := mk None None None.
End Partial.

Definition new (tokenUrl : string) (initializer : option Partial.t) : t :=
  let i := default Partial.none initializer in
  mk (assigned_opt (Partial.refreshUrl i) None)
     (assigned (Partial.scopes i) [])
     (assigned (Partial.tokenUrl i) tokenUrl).
End PasswordOAuth2Flow.

Module ImplicitOAuth2Flow.
Record t : Type := mk {
  refreshUrl : option string;
  scopes : list OAuth2Scope.t;
  authorizationUrl : string
}.

Module Partial.
Record t : Type := mk {
  refreshUrl : option string;
  scopes : option (list OAuth2Scope.t);
  authorizationUrl : option string
}.
Definition none : t := mk None None None.
End Partial.

Definition new (authorizationUrl : string) (initializer : option Partial.t) : t :=
  let i := default Partial.none initializer in
  mk (assigned_opt (Partial.refreshUrl i) None)
     (assigned (Partial.scopes i) [])
     (assigned (Partial.authorizationUrl i) authorizationUrl).
End ImplicitOAuth2Flow.

Module AuthorizationCodeOAuth2Flow.
Record t : Type := mk {
  refreshUrl : option string;
  scopes : list OAuth2Scope.t;
  authorizationUrl : string;
  tokenUrl : string
}.

Module Partial.
Record t : Type := mk {
  refreshUrl : option string;
  scopes : option (list OAuth2Scope.t);
  authorizationUrl : option string;
  tokenUrl : option string
}.
Definition none : t := mk None None None None.
End Partial.

Definition new (authorizationUrl tokenUrl : string) (initializer : option Partial.t) : t :=
  let i := default Partial.none initializer in
  mk (assigned_opt (Partial.refreshUrl i) None)
     (assigned (Partial.scopes i) [])
     (assigned (Partial.authorizationUrl i) authorizationUrl)
     (assigned (Partial.tokenUrl i) tokenUrl).
End AuthorizationCodeOAuth2Flow.

Module OAuth2Flows.
Record t : Type := mk {
  implicit : option ImplicitOAuth2Flow.t;
  password : option PasswordOAuth2Flow.t;
  clientCredentials : option ClientCredentialsOAuth2Flow.t;
  authorizationCode : option AuthorizationCodeOAuth2Flow.t
}.

(** Every key of the class is optional: the initializer is a [t]. *)
Definition new (initializer : option t) : t :=
  let i := default (mk None None None None) initializer in
  mk (assigned_opt (implicit i) None) (assigned_opt (password i) None)
     (assigned_opt (clientCredentials i) None) (assigned_opt (authorizationCode i) None).
End OAuth2Flows.

(** ** Authentications *)

Module ApiKeyAuthentication.
Record t : Type := mk {
  type : AuthenticationType.t;
  description : option string;
  name : string;
  parameterName : string;
  parameterLocation : ParameterLocation.t
}.

Module Partial.
Record t : Type := mk {
  description : option string;
  name : option string;
  parameterName : option string;
  parameterLocation : option ParameterLocation.t
}.
Definition none : t := mk None None None None.
End Partial.

Definition new (name parameterName : string) (parameterLocation : ParameterLocation.t)
    (initializer : option Partial.t) : t :=
  let i := default Partial.none initializer in
  mk AuthenticationType.ApiKey
     (assigned_opt (Partial.description i) None)
     (assigned (Partial.name i) name)
     (assigned (Partial.parameterName i) parameterName)
     (assigned (Partial.parameterLocation i) parameterLocation).
End ApiKeyAuthentication.

Module HttpAuthentication.
Record t : Type := mk {
  type : AuthenticationType.t;
  description : option string;
  bearerFormat : option string;
  name : string;
  scheme : string
}.

Module Partial.
Record t : Type := mk {
  description : option string;
  bearerFormat : option string;
  name : option string;
  scheme : option string
}.
Definition none : t := mk None None None None.
End Partial.

Definition new (name scheme : string) (initializer : option Partial.t) : t :=
  let i := default Partial.none initializer in
  mk AuthenticationType.Http
     (assigned_opt (Partial.description i) None)
     (assigned_opt (Partial.bearerFormat i) None)
     (assigned (Partial.name i) name)
     (assigned (Partial.scheme i) scheme).
End HttpAuthentication.

Module OAuth2Authentication.
Record t : Type := mk {
  type : AuthenticationType.t;
  description : option string;
  name : string;
  flows : OAuth2Flows.t
}.

Module Partial.
Record t : Type := mk {
  description : option string;
  name : option string;
  flows : option OAuth2Flows.t
}.
Definition none : t := mk None None None.
End Partial.

Definition new (name : string) (flows : OAuth2Flows.t) (initializer : option Partial.t) : t :=
  let i := default Partial.none initializer in
  mk AuthenticationType.OAuth2
     (assigned_opt (Partial.description i) None)
     (assigned (Partial.name i) name)
     (assigned (Partial.flows i) flows).
End OAuth2Authentication.

Module OpenIdConnectAuthentication.
Record t : Type := mk {
  type : AuthenticationType.t;
  description : option string;
  name : string;
  openIdConnectUrl : string
}.

Module Partial.
Record t : Type := mk {
  description : option string;
  name : option string;
  openIdConnectUrl : option string
}.
Definition none : t := mk None None None.
End Partial.

Definition new (name openIdConnectUrl : string) (initializer : option Partial.t) : t :=
  let i := default Partial.none initializer in
  mk AuthenticationType.OpenIdConnect
     (assigned_opt (Partial.description i) None)
     (assigned (Partial.name i) name)
     (assigned (Partial.openIdConnectUrl i) openIdConnectUrl).
End OpenIdConnectAuthentication.

(** The union [Authentication], with what [AuthenticationBase] declares for
    every member of it. *)
Inductive Authentication : Type :=
| AuthApiKey (a : ApiKeyAuthentication.t)
| AuthHttp (a : HttpAuthentication.t)
| AuthOAuth2 (a : OAuth2Authentication.t)
| AuthOpenIdConnect (a : OpenIdConnectAuthentication.t).

Module AuthenticationBase.
Definition type (a : Authentication) : AuthenticationType.t :=
  match a with
  | AuthApiKey a => ApiKeyAuthentication.type a
  | AuthHttp a => HttpAuthentication.type a
  | AuthOAuth2 a => OAuth2Authentication.type a
  | AuthOpenIdConnect a => OpenIdConnectAuthentication.type a
  end.

Definition description (a : Authentication) : option string :=
  match a with
  | AuthApiKey a => ApiKeyAuthentication.description a
  | AuthHttp a => HttpAuthentication.description a
  | AuthOAuth2 a => OAuth2Authentication.description a
  | AuthOpenIdConnect a => OpenIdConnectAuthentication.description a
  end.

Definition name (a : Authentication) : string :=
  match a with
  | AuthApiKey a => ApiKeyAuthentication.name a
  | AuthHttp a => HttpAuthentication.name a
  | AuthOAuth2 a => OAuth2Authentication.name a
  | AuthOpenIdConnect a => OpenIdConnectAuthentication.name a
  end.
End AuthenticationBase.

(** ** Requirements *)

Module AuthenticationReference.
(** Besides its own [scopes] and [authentication], the object has the key
    [authentications] when the initializer gave it. *)
Unset Elimination Schemes.
Inductive t : Type :=
  mk (scopes : list string)
     (authentication : or_alias Authentication)
     (authentications : option (list t)).
Set Elimination Schemes.

Definition scopes (r : t) : list string :=
  match r with mk s _ _ => s end.

Definition authentication (r : t) : or_alias Authentication :=
  match r with mk _ a _ => a end.

Definition authentications (r : t) : option (list t) :=
  match r with mk _ _ l => l end.

Definition reference : Type := t.

(** The initializer as the constructor finds it at run time: an object
    with some of the keys [initialize] assigns over the fields.  Its
    declared type, [Partial<AuthenticationRequirement>], admits
    [authentications] and not the keys of the reference ([typed]); types
    are erased, and [initialize] assigns whatever keys the object has. *)
Module Initializer.
Record t : Type := mk {
  scopes : option (list string);
  authentication : option (or_alias Authentication);
  authentications : option (list reference)
}.
Definition none : t := mk None None None.
Definition typed (i : t) : Prop := scopes i = None /\ authentication i = None.
End Initializer.

Definition new (authentication : or_alias Authentication)
    (initializer : option Initializer.t) : t :=
  let i := default Initializer.none initializer in
  mk (assigned (Initializer.scopes i) [])
     (assigned (Initializer.authentication i) authentication)
     (assigned_opt (Initializer.authentications i) None).
End AuthenticationReference.

Module AuthenticationRequirement.
Record t : Type := mk { authentications : list AuthenticationReference.t }.

(** The class has no constructor of its own. *)
Definition new : t := mk [].
End AuthenticationRequirement.

(** ** Connections *)

Module ConnectionVariable.
Record t : Type := mk {
  description : option string;
  defaultValue : option string;
  allowedValues : option (list string);
  name : string
}.

Module Partial.
Record t : Type := mk {
  description : option string;
  defaultValue : option string;
  allowedValues : option (list string);
  name : option string
}.
Definition none : t := mk None None None None.
End Partial.

Definition new (name : string) (initializer : option Partial.t) : t :=
  let i := default Partial.none initializer in
  mk (assigned_opt (Partial.description i) None)
     (assigned_opt (Partial.defaultValue i) None)
     (assigned_opt (Partial.allowedValues i) None)
     (assigned (Partial.name i) name).
End ConnectionVariable.

Module Connection.
Record t : Type := mk {
  description : option string;
  variables : list ConnectionVariable.t;
  url : string
}.

Module Partial.
Record t : Type := mk {
  description : option string;
  variables : option (list ConnectionVariable.t);
  url : option string
}.
Definition none : t := mk None None None.
End Partial.

Definition new (url : string) (initializer : option Partial.t) : t :=
  let i := default Partial.none initializer in
  mk (assigned_opt (Partial.description i) None)
     (assigned (Partial.variables i) [])
     (assigned (Partial.url i) url).
End Connection.

(** ** What the model means *)

(** The result of resolving an alias. *)
Inductive resolved (T : Type) : Type :=
| Resolved (value : T)
| UnresolvedAlias (name : string)
| AmbiguousAlias (name : string).
Arguments Resolved {T} value.
Arguments UnresolvedAlias {T} name.
Arguments AmbiguousAlias {T} name.

(** An authentication or the declared authentication of that name: none is
    unresolved, several are ambiguous. *)
Definition resolve (declared : list Authentication) (a : or_alias Authentication)
    : resolved Authentication :=
  match a with
  | Inline value => Resolved value
  | Alias name =>
    match filter (fun d => AuthenticationBase.name d = name) declared with
    | [] => UnresolvedAlias name
    | [d] => Resolved d
    | _ => AmbiguousAlias name
    end
  end.

Section authorization.
(** The declared authentications, and the ones a request satisfies. *)
Context (declared : list Authentication) (satisfied : Authentication -> bool).

Definition reference_satisfied (r : AuthenticationReference.t) : bool :=
  match resolve declared (AuthenticationReference.authentication r) with
  | Resolved a => satisfied a
  | _ => false
  end.

(** A requirement asks for all its authentications. *)
Definition requirement_satisfied (r : AuthenticationRequirement.t) : bool :=
  forallb reference_satisfied (AuthenticationRequirement.authentications r).

(** A list of requirements asks for one of them. *)
Definition authorized (requirements : list AuthenticationRequirement.t) : bool :=
  existsb requirement_satisfied requirements.

(** Scopes are for OAuth2 only. *)
Definition valid_reference (r : AuthenticationReference.t) : bool :=
  match AuthenticationReference.scopes r with
  | [] => true
  | _ =>
    match resolve declared (AuthenticationReference.authentication r) with
    | Resolved a => bool_decide (AuthenticationBase.type a = AuthenticationType.OAuth2)
    | _ => false
    end
  end.

End authorization.

(** [reference.scopes = scopes]: the assignment a caller makes after the
    construction. *)
Definition set_scopes (scopes : list string) (r : AuthenticationReference.t)
    : AuthenticationReference.t :=
  AuthenticationReference.mk scopes (AuthenticationReference.authentication r)
    (AuthenticationReference.authentications r).

(** A value may substitute a variable of a connection: any string when
    the variable lists no values, a listed one otherwise. *)
Definition admits (variable : ConnectionVariable.t) (value : string) : bool :=
  match ConnectionVariable.allowedValues variable with
  | None => true
  | Some values => bool_decide (value ∈ values)
  end.

(** The tag of each member of the union. *)
Definition well_tagged (a : Authentication) : Prop :=
  AuthenticationBase.type a =
  match a with
  | AuthApiKey _ => AuthenticationType.ApiKey
  | AuthHttp _ => AuthenticationType.Http
  | AuthOAuth2 _ => AuthenticationType.OAuth2
  | AuthOpenIdConnect _ => AuthenticationType.OpenIdConnect
  end.

(** ** The OAuth2 authentication of the specification's scenario *)

Definition oauth_flows : OAuth2Flows.t :=
  OAuth2Flows.new (Some (OAuth2Flows.mk None None None
    (Some (AuthorizationCodeOAuth2Flow.new "https://a/auth" "https://a/token"
       (Some (AuthorizationCodeOAuth2Flow.Partial.mk None
                (Some [OAuth2Scope.new "read" "Read access" None]) None None)))))).

Definition oauth : Authentication :=
  AuthOAuth2 (OAuth2Authentication.new "oauth" oauth_flows None).

Definition api_key : Authentication :=
  AuthApiKey (ApiKeyAuthentication.new "key" "x-api-key" ParameterLocation.Header None).

Definition oauth_reference : AuthenticationReference.t :=
  set_scopes ["read"] (AuthenticationReference.new (Alias "oauth") None).

Definition oauth_requirements : list AuthenticationRequirement.t :=
  [AuthenticationRequirement.mk [oauth_reference]].

(** ** Lemmas *)

Section model_lemmas.
Context (declared : list Authentication) (satisfied : Authentication -> bool).
Implicit Types (a d : Authentication) (r : AuthenticationReference.t)
  (q : AuthenticationRequirement.t) (requirements : list AuthenticationRequirement.t).

Lemma resolve_Inline a : resolve declared (Inline a) = Resolved a.
Proof. reflexivity. Qed.

Lemma resolve_Alias_Resolved name d :
  resolve declared (Alias name) = Resolved d <->
  filter (fun d => AuthenticationBase.name d = name) declared = [d].
Proof.
  unfold resolve.
  destruct (filter _ declared) as [ | d' [ | d'' rest ] ]; split; congruence.
Qed.

Lemma resolve_Resolved_name name d :
  resolve declared (Alias name) = Resolved d ->
  d ∈ declared /\ AuthenticationBase.name d = name.
Proof.
  intros H%resolve_Alias_Resolved.
  assert (Hd : d ∈ filter (fun d => AuthenticationBase.name d = name) declared)
    by (rewrite H; apply list_elem_of_singleton; done).
  apply list_elem_of_filter in Hd. tauto.
Qed.

(** With one declaration per name, a declared authentication is what its
    name resolves to. *)
Lemma filter_name_NoDup d :
  NoDup (AuthenticationBase.name <$> declared) -> d ∈ declared ->
  filter (fun d' => AuthenticationBase.name d' = AuthenticationBase.name d) declared = [d].
Proof.
  induction declared as [|d0 l IH]; intros Hnd Hin; [by apply elem_of_nil in Hin|].
  rewrite fmap_cons in Hnd. apply NoDup_cons in Hnd as [Hfresh Hnd].
  rewrite filter_cons. apply elem_of_cons in Hin as [->|Hin].
  - rewrite decide_True by done. f_equal.
    apply filter_nil_Forall, Forall_forall. intros d' Hd' Heq.
    apply Hfresh. rewrite <- Heq. by apply list_elem_of_fmap_2.
  - rewrite decide_False; [by apply IH|].
    intros Heq. apply Hfresh. rewrite Heq. by apply list_elem_of_fmap_2.
Qed.

Lemma reference_satisfied_true r :
  reference_satisfied declared satisfied r = true <->
  exists a, resolve declared (AuthenticationReference.authentication r) = Resolved a /\
            satisfied a = true.
Proof.
  unfold reference_satisfied.
  destruct (resolve declared _) as [a| |]; split; try done; eauto.
  - by intros (? & [= <-] & ?).
  - by intros (? & ? & _).
  - by intros (? & ? & _).
Qed.

Lemma requirement_satisfied_true q :
  requirement_satisfied declared satisfied q = true <->
  Forall (fun r => exists a,
            resolve declared (AuthenticationReference.authentication r) = Resolved a /\
            satisfied a = true)
         (AuthenticationRequirement.authentications q).
Proof.
  unfold requirement_satisfied. rewrite forallb_forall, Forall_forall.
  setoid_rewrite reference_satisfied_true. by setoid_rewrite list_elem_of_In.
Qed.

(** Two declarations of one name at different places: the filter keeps at
    least two. *)
Lemma filter_name_two name i j d1 d2 :
  i < j -> declared !! i = Some d1 -> declared !! j = Some d2 ->
  AuthenticationBase.name d1 = name -> AuthenticationBase.name d2 = name ->
  exists d d' rest, filter (fun d => AuthenticationBase.name d = name) declared = d :: d' :: rest.
Proof.
  intros Hij Hi Hj H1 H2.
  rewrite <- (take_drop_middle declared i d1 Hi).
  assert (Hj' : drop (S i) declared !! (j - S i) = Some d2)
    by (rewrite lookup_drop; by replace (S i + (j - S i)) with j by lia).
  rewrite <- (take_drop_middle _ _ d2 Hj').
  rewrite filter_app, filter_cons, decide_True by done.
  rewrite filter_app, filter_cons, decide_True by done.
  destruct (filter _ (take i declared)) as [|x [|y l]]; simpl.
  - destruct (filter _ (take (j - S i) (drop (S i) declared))) as [|x l]; simpl; eauto.
  - destruct (filter _ (take (j - S i) (drop (S i) declared))) as [|y l]; simpl; eauto.
  - eauto.
Qed.

End model_lemmas.

(** ** Theorems *)

Section model_theorems.
Context (declared : list Authentication) (satisfied : Authentication -> bool).
Implicit Types (a d : Authentication) (r : AuthenticationReference.t)
  (q : AuthenticationRequirement.t) (requirements : list AuthenticationRequirement.t).

(** An initializer that the declared type admits cannot give the
    reference its scopes or its authentication: the reference is
    constructed without scopes and with the authentication of the
    parameter, and the one key the type admits, [authentications], ends up
    on the reference. *)
Theorem AuthenticationReference_new_typed (authentication : or_alias Authentication)
    (i : AuthenticationReference.Initializer.t) :
  AuthenticationReference.Initializer.typed i ->
  AuthenticationReference.new authentication (Some i)
  = AuthenticationReference.mk [] authentication
      (AuthenticationReference.Initializer.authentications i).
Proof. destruct i as [scopes a [l|]]; intros [Hs Ha]; simpl in *; by subst. Qed.

(** A request is authorized exactly when one requirement of the list has
    all its authentications resolved and satisfied. *)
Theorem authorized_spec requirements :
  authorized declared satisfied requirements = true <->
  Exists (fun q => Forall (fun r => exists a,
            resolve declared (AuthenticationReference.authentication r) = Resolved a /\
            satisfied a = true) (AuthenticationRequirement.authentications q)) requirements.
Proof.
  unfold authorized. rewrite existsb_exists, Exists_exists.
  setoid_rewrite requirement_satisfied_true. by setoid_rewrite list_elem_of_In.
Qed.

(** A reference is valid exactly when it has no scopes or resolves to an
    OAuth2 authentication: scopes on any other authentication, or on a name
    that does not resolve, are rejected. *)
Theorem valid_reference_spec r :
  valid_reference declared r = true <->
  AuthenticationReference.scopes r = [] \/
  exists a, resolve declared (AuthenticationReference.authentication r) = Resolved a /\
            AuthenticationBase.type a = AuthenticationType.OAuth2.
Proof.
  unfold valid_reference. destruct (AuthenticationReference.scopes r) as [|s l].
  { split; [by left|done]. }
  destruct (resolve declared _) as [a| |]; rewrite ?bool_decide_eq_true.
  - split; [eauto|]. by intros [?|(? & [= <-] & ?)].
  - split; [done|]. by intros [?|(? & ? & _)].
  - split; [done|]. by intros [?|(? & ? & _)].
Qed.

(** With one declaration per name, the name of a declared authentication
    resolves to that authentication. *)
Theorem resolve_declared d :
  NoDup (AuthenticationBase.name <$> declared) -> d ∈ declared ->
  resolve declared (Alias (AuthenticationBase.name d)) = Resolved d.
Proof. intros Hnd Hin. apply resolve_Alias_Resolved. by apply filter_name_NoDup. Qed.

(** A name that two declarations share does not resolve: it is
    ambiguous, whichever of the two comes first. *)
Theorem resolve_ambiguous name i j d1 d2 :
  i <> j -> declared !! i = Some d1 -> declared !! j = Some d2 ->
  AuthenticationBase.name d1 = name -> AuthenticationBase.name d2 = name ->
  resolve declared (Alias name) = AmbiguousAlias name.
Proof.
  intros Hij Hi Hj H1 H2. unfold resolve.
  destruct (decide (i < j)) as [Hlt|Hge].
  - by destruct (filter_name_two declared name i j d1 d2) as (? & ? & ? & ->).
  - by destruct (filter_name_two declared name j i d2 d1) as (? & ? & ? & ->); [lia|..].
Qed.

End model_theorems.

(** Every constructor of an authentication gives it the tag of its
    class, whatever the initializer holds. *)
Theorem new_well_tagged :
  (forall name parameterName location i,
     well_tagged (AuthApiKey (ApiKeyAuthentication.new name parameterName location i))) /\
  (forall name scheme i, well_tagged (AuthHttp (HttpAuthentication.new name scheme i))) /\
  (forall name flows i, well_tagged (AuthOAuth2 (OAuth2Authentication.new name flows i))) /\
  (forall name url i,
     well_tagged (AuthOpenIdConnect (OpenIdConnectAuthentication.new name url i))).
Proof. by repeat split. Qed.

(** A variable admits every string when it is constructed without allowed
    values, and the strings of the list when it is constructed with one:
    the list narrows what may substitute the variable. *)
Theorem admits_new name initializer value :
  admits (ConnectionVariable.new name initializer) value
  = match initializer ≫= ConnectionVariable.Partial.allowedValues with
    | None => true
    | Some values => bool_decide (value ∈ values)
    end.
Proof. unfold admits. by destruct initializer as [[? ? [values|] ?]|]. Qed.

(** ** The theorems at the scenario *)

(** Requirements [{A, B}] and [{C}]: (A and B) or C. *)
Example authorized_and_or (satisfied : Authentication -> bool) (A B C : Authentication) :
  authorized [] satisfied
    [AuthenticationRequirement.mk [AuthenticationReference.new (Inline A) None;
                                   AuthenticationReference.new (Inline B) None];
     AuthenticationRequirement.mk [AuthenticationReference.new (Inline C) None]]
  = satisfied A && satisfied B || satisfied C.
Proof.
  unfold authorized, requirement_satisfied, reference_satisfied. simpl.
  by destruct (satisfied A), (satisfied B), (satisfied C).
Qed.

(** The requirement of the scenario resolves to the declared [oauth], is
    valid, and is the one requirement of the list. *)
Example oauth_scenario :
  resolve [oauth; api_key] (AuthenticationReference.authentication oauth_reference)
    = Resolved oauth /\
  valid_reference [oauth; api_key] oauth_reference = true /\
  authorized [oauth; api_key]
    (fun a => bool_decide (AuthenticationBase.name a = "oauth")) oauth_requirements = true /\
  length oauth_requirements = 1.
Proof. by repeat split. Qed.

Lemma resolve_declared_witness :
  resolve [oauth; api_key] (Alias "oauth") = Resolved oauth.
Proof.
  apply (resolve_declared [oauth; api_key] oauth).
  - apply NoDup_cons. split; [|apply NoDup_singleton]. by intros ?%list_elem_of_singleton.
  - apply elem_of_cons. by left.
Defined.

Lemma resolve_ambiguous_witness :
  resolve [oauth; api_key; oauth] (Alias "oauth") = AmbiguousAlias "oauth".
Proof. by apply (resolve_ambiguous [oauth; api_key; oauth] "oauth" 0 2 oauth oauth). Defined.
