(* ===== verification/Protocol.v ===== *)
(** * Protocol: the scans of the HTTP protocol

    [isHeader], [isParameterTypeAlias] and the class [HttpProtocol] of
    [model/http/protocol.ts].  The protocol holds source file objects and
    scans their statements on every call of a getter: the getters are
    functions of the project, and they throw when a file object was
    forgotten.  The tests of the api model on interfaces and type aliases
    ([model/api-model]) are an interface, [ApiShapes]; the constructor of the
    base class, which decides the files of a protocol made without any, is a
    parameter of [new].  [getAPI] of [support/typescript.ts], which reads
    the api model off a project, is here as well.

    The theorems say what each getter returns, in which order, with which
    type ([getters_well_typed], against [IsTypeDeclaration]), what a
    scan does on a forgotten file, and that a scan depends on the trees of
    the files and not on their generations ([declarations_of_content]). *)

From Stdlib Require Import Ascii String ZArith.
From stdpp Require Import base option strings list gmap.
From S2P Require Import Prelude JsString Ast Scenarios NodePath HttpModel.

Set Warnings "-clear-no-such-hyp".

(** ** The api model *)

(** The tests of [model/api-model] on a declaration. *)
Class ApiShapes : Type := {
  isOperationGroupInterfaceType : Node -> bool;
  isResponseCollectionTypeAlias : Node -> bool;
  isResponseTypeAlias : Node -> bool;
  isResultInterfaceType : Node -> bool;
  isResultTypeAlias : Node -> bool
}.

(** [api.KnownAliasTypes]: the tests registered by name. *)
Record ApiModel : Type := mkApiModel {
  KnownAliasTypes : gmap string (Node -> bool)
}.

(** A ts-morph project with the property [api] that the api model sets on
    it; the property is undefined until then. *)
Record ApiProject : Type := mkApiProject {
  tsProject : Project;
  api : option ApiModel
}.

(** [getAPI(input)] of [support/typescript.ts]: the property [api] of the
    project of the node.  A node object keeps its project when it is
    forgotten, so the node plays no part. *)
Definition getAPI (project : ApiProject) (input : NodeObj) : option ApiModel :=
  api project.

(** ** The tests of this file *)

(** [isHeader(declaration)]. *)
Definition isHeader (declaration : Node) : bool :=
  if hasTag declaration "header" then true else false.

(** [isParameterTypeAlias(declaration)]. *)
Definition isParameterTypeAlias (declaration : Node) : bool := false.

(** ** What a scan returns *)

(** The class a declaration is wrapped for. *)
Inductive View : Type :=
| ResponseCollectionView
| ResponseView
| ResultView
| ParameterView
| HeaderView.

#[export] Instance View_eq_dec : EqDecision View.
Proof. solve_decision. Defined.

(** [new Declaration(each, View)]. *)
Record Declaration : Type := mkDeclaration {
  node : NodeObj;
  view : View
}.

#[export] Instance Declaration_eq_dec : EqDecision Declaration.
Proof. solve_decision. Defined.

(** [new OperationGroup(each)]. *)
Record OperationGroup : Type := mkOperationGroup {
  group : NodeObj
}.

(** ** The statements of a file, by kind *)

(** The statements of the file of one kind, in the order of the file, each
    with its object. *)
Definition statements_of_kind (kind : string) (proj : Project) (file : NodeObj)
    : res (list (NodeObj * Node)) :=
  root ← the_node proj file;
  Ok (omap (fun s => if decide (kindName s.2 = kind) then Some (below file [0; s.1], s.2)
                     else None)
           (imap pair (default [] (statements_of root)))).

(** [sourceFile.getInterfaces()]. *)
Definition getInterfaces : Project -> NodeObj -> res (list (NodeObj * Node)) :=
  statements_of_kind "InterfaceDeclaration".

(** [sourceFile.getTypeAliases()]. *)
Definition getTypeAliases : Project -> NodeObj -> res (list (NodeObj * Node)) :=
  statements_of_kind "TypeAliasDeclaration".

(** [declarations.filter(test)], as the objects. *)
Definition matching (test : Node -> bool) (found : list (NodeObj * Node)) : list NodeObj :=
  fst <$> filter (fun d => test d.2 = true) found.

(** [files.map(each => get(each).filter(test)).flat()]. *)
Definition scan (get : Project -> NodeObj -> res (list (NodeObj * Node)))
    (test : Node -> bool) (proj : Project) (files : list NodeObj) : res (list NodeObj) :=
  per_file ← mapM_res (fun each => matching test <$> get proj each) files;
  Ok (concat per_file).

(** ** HttpProtocol *)

Module HttpProtocol.

Record t : Type := mk {
  files : list NodeObj;
  authentications : list (or_alias Authentication);
  authenticationRequirements : list (or_alias AuthenticationRequirement.t);
  connections : list (or_alias Connection.t)
}.

(** The constructor: the new state of the api model and the protocol.
    [base_files] is what the constructor of the base class takes for [files]
    when [sourceFiles] is undefined. *)
Definition new (base_files : list NodeObj) (api : ApiModel)
    (sourceFiles : option (list NodeObj)) : ApiModel * t :=
  (match sourceFiles with
   | None => mkApiModel (<["header" := isHeader]> (KnownAliasTypes api))
   | Some _ => api
   end,
   mk (default base_files sourceFiles) [] [] []).

Section getters.
Context `{shapes : ApiShapes}.

Definition operationGroups (proj : Project) (p : t) : res (list OperationGroup) :=
  map mkOperationGroup <$> scan getInterfaces isOperationGroupInterfaceType proj (files p).

Definition responseCollections (proj : Project) (p : t) : res (list Declaration) :=
  map (fun each => mkDeclaration each ResponseCollectionView) <$>
    scan getTypeAliases isResponseCollectionTypeAlias proj (files p).

Definition responses (proj : Project) (p : t) : res (list Declaration) :=
  map (fun each => mkDeclaration each ResponseView) <$>
    scan getTypeAliases isResponseTypeAlias proj (files p).

Definition results (proj : Project) (p : t) : res (list Declaration) :=
  aliases ← scan getTypeAliases isResultTypeAlias proj (files p);
  interfaces ← scan getInterfaces isResultInterfaceType proj (files p);
  Ok (map (fun each => mkDeclaration each ResultView) aliases ++
      map (fun each => mkDeclaration each ResultView) interfaces).

Definition parameters (proj : Project) (p : t) : res (list Declaration) :=
  map (fun each => mkDeclaration each ParameterView) <$>
    scan getTypeAliases isParameterTypeAlias proj (files p).

Definition headers (proj : Project) (p : t) : res (list Declaration) :=
  map (fun each => mkDeclaration each HeaderView) <$>
    scan getTypeAliases isHeader proj (files p).

End getters.

Definition createOperationGroup (p : t) : res unit :=
  Err (JsError "not implemented").

Definition createOperationResultAlias (p : t) : res unit :=
  Err (JsError "not implemented").

End HttpProtocol.

(** ** What the theorems speak of *)

(** [n] is the statement [i] of the file, which is not forgotten. *)
Definition statement_at (proj : Project) (file : NodeObj) (i : nat) (n : Node) : Prop :=
  exists root stmts,
    the_node proj file = Ok root /\ statements_of root = Some stmts /\ stmts !! i = Some n.


(** The kinds of declaration the getter of a view reads: type aliases, and
    for results interfaces as well. *)
Definition view_kinds (v : View) : list TypeDeclaration :=
  match v with
  | ResultView => [TypeAliasDeclaration; InterfaceDeclaration]
  | _ => [TypeAliasDeclaration]
  end.

(** The object is a live declaration of the kind [k]. *)
Definition declared_as (proj : Project) (o : NodeObj) (k : TypeDeclaration) : Prop :=
  exists n, resolve_obj proj o = Some n /\ declaration_kind n = Some k.

(** A declaration has the type of its view: its node is a type declaration
    of a kind the view is made from. *)
Definition well_typed (proj : Project) (d : Declaration) : Prop :=
  exists k, k ∈ view_kinds (view d) /\ declared_as proj (node d) k.

(** The getter of each view. *)
Definition declarations_of `{shapes : ApiShapes} (v : View)
    : Project -> HttpProtocol.t -> res (list Declaration) :=
  match v with
  | ResponseCollectionView => HttpProtocol.responseCollections
  | ResponseView => HttpProtocol.responses
  | ResultView => HttpProtocol.results
  | ParameterView => HttpProtocol.parameters
  | HeaderView => HttpProtocol.headers
  end.

(** The protocol with its files as the objects of the trees [proj] holds
    now. *)
Definition current_files (proj : Project) (p : HttpProtocol.t) : HttpProtocol.t :=
  HttpProtocol.mk (transport proj <$> HttpProtocol.files p)
    (HttpProtocol.authentications p) (HttpProtocol.authenticationRequirements p)
    (HttpProtocol.connections p).

(** A declaration on the node at the same place of the tree [proj] holds
    now. *)
Definition transport_declaration (proj : Project) (d : Declaration) : Declaration :=
  mkDeclaration (transport proj (node d)) (view d).

(** The files of a protocol are live in [proj], and [proj'] holds the same
    trees for them. *)
Definition same_documents (proj proj' : Project) (files : list NodeObj) : Prop :=
  Forall (fun file => live proj file /\ same_tree (oFile file) proj proj') files.

(** Tests that read JSDoc tags, to have an api model at hand. *)
Definition shapes_by_tag : ApiShapes := {|
  isOperationGroupInterfaceType n := hasTag n "operationGroup";
  isResponseCollectionTypeAlias n := hasTag n "responseCollection";
  isResponseTypeAlias n := hasTag n "response";
  isResultInterfaceType n := hasTag n "result";
  isResultTypeAlias n := hasTag n "result"
|}.

(** ** Two documents *)

(** A file with an operation group, a header, a result interface and the
    alias of [air-epa-gov/aliases/f_p_ieay.ts]. *)
Definition operations_ts : Node :=
  sourceFile
    [interfaceDeclaration "Vaults" [("operationGroup", EmptyString)] [] [];
     typeAliasDeclaration "ContentType" [("header", EmptyString)] (token "StringKeyword");
     interfaceDeclaration "Found" [("result", EmptyString)] [] [];
     typeAliasDeclaration "f_p_ieay" [] (typeReference "FormData" [])].

(** A file with a result alias and a header, and no operation group. *)
Definition aliases_ts : Node :=
  sourceFile
    [typeAliasDeclaration "Created" [("result", EmptyString)] (typeReference "Response" []);
     typeAliasDeclaration "ETag" [("header", EmptyString)] (token "StringKeyword")].

Definition operations_path : string := "/operations.ts".
Definition aliases_path : string := "/aliases.ts".

Definition protocol_project : Project :=
  parseFile aliases_path aliases_ts (parseFile operations_path operations_ts emptyProject).

Definition operations_file : NodeObj := mkObj operations_path 0 [].
Definition aliases_file : NodeObj := mkObj aliases_path 1 [].

(** The protocol over the two files, in this order. *)
Definition http_protocol : HttpProtocol.t :=
  (HttpProtocol.new [] (mkApiModel ∅) (Some [operations_file; aliases_file])).2.

(** The second file parsed again: its object of before is forgotten. *)
Definition protocol_project_reparsed : Project :=
  parseFile aliases_path aliases_ts protocol_project.

(** ** Lemmas *)

Section scan_lemmas.
Implicit Types (proj : Project) (file o : NodeObj) (n root : Node) (kind : string)
  (files : list NodeObj) (test : Node -> bool)
  (get : Project -> NodeObj -> res (list (NodeObj * Node))).

Lemma statement_at_resolve proj file i n :
  statement_at proj file i n -> resolve_obj proj (below file [0; i]) = Some n.
Proof.
  intros (root & stmts & Hroot%the_node_Ok & (sl & H0 & _ & _ & <-)%statements_of_Some & Hi).
  rewrite (resolve_below _ _ root) by done. by apply node_at_two with sl.
Qed.

(** What [statements_of_kind] finds: the statements of the kind. *)
Lemma elem_of_statements_of_kind kind proj file found o n :
  statements_of_kind kind proj file = Ok found ->
  (o, n) ∈ found <->
  exists i, o = below file [0; i] /\ kindName n = kind /\
            exists root, the_node proj file = Ok root /\
                         default [] (statements_of root) !! i = Some n.
Proof.
  unfold statements_of_kind. destruct (the_node proj file) as [root|]; [|done].
  simpl. intros [= <-]. rewrite list_elem_of_omap. split.
  - intros ([i m] & (j & y & [= -> ->] & Hj)%elem_of_lookup_imap & Hsome). simpl in Hsome.
    case_decide; [|done]. injection Hsome as <- <-. eauto 10.
  - intros (i & -> & Hk & root' & [= <-] & Hi). exists (i, n). split.
    + apply elem_of_lookup_imap. eauto.
    + simpl. by rewrite decide_True.
Qed.

Lemma statements_of_kind_statement kind proj file found o n :
  statements_of_kind kind proj file = Ok found -> (o, n) ∈ found ->
  exists i, o = below file [0; i] /\ kindName n = kind /\ statement_at proj file i n.
Proof.
  intros Hfound (i & -> & Hk & root & Hroot & Hi)%(elem_of_statements_of_kind _ _ _ _ _ _ Hfound).
  exists i. repeat split; [done|]. exists root.
  destruct (statements_of root) as [stmts|]; [eauto|]. by destruct i.
Qed.

Lemma statements_of_kind_Err kind proj file e :
  statements_of_kind kind proj file = Err e -> e = forgotten_error.
Proof.
  unfold statements_of_kind. destruct (the_node proj file) eqn:H; [done|].
  intros [= <-]. by apply the_node_Err in H.
Qed.

Lemma statements_of_kind_forgotten kind proj file :
  wasForgotten proj file = true -> statements_of_kind kind proj file = Err forgotten_error.
Proof.
  intros Hf. unfold statements_of_kind.
  destruct (the_node proj file) as [root|e] eqn:H.
  - apply the_node_live, live_not_forgotten in H. congruence.
  - by rewrite (the_node_Err _ _ _ H).
Qed.


Lemma scan_cons get test proj file files :
  scan get test proj (file :: files) =
  found ← get proj file; rest ← scan get test proj files; Ok (matching test found ++ rest).
Proof.
  unfold scan. simpl. by repeat (case_res; simpl).
Qed.

Lemma elem_of_matching test found o :
  o ∈ matching test found <-> exists n, (o, n) ∈ found /\ test n = true.
Proof.
  unfold matching. rewrite list_elem_of_fmap. split.
  - intros ([o' n] & -> & [? ?]%list_elem_of_filter). eauto.
  - intros (n & ? & ?). exists (o, n). split; [done|]. by apply list_elem_of_filter.
Qed.

(** What a scan finds: the objects of one of the files that pass the test. *)
Lemma elem_of_scan get test proj files os o :
  scan get test proj files = Ok os ->
  o ∈ os <-> exists file found n,
    file ∈ files /\ get proj file = Ok found /\ (o, n) ∈ found /\ test n = true.
Proof.
  revert os. induction files as [|file files IH]; intros os.
  - intros [= <-]. split; [by intros ?%elem_of_nil|]. by intros (? & ? & ? & ?%elem_of_nil & _).
  - rewrite scan_cons. destruct (get proj file) as [found|] eqn:Hget; [|done]. simpl.
    destruct (scan get test proj files) as [rest|]; [|done]. simpl. intros [= <-].
    rewrite elem_of_app, elem_of_matching, (IH rest eq_refl). split.
    + intros [(n & ? & ?)|(f & fd & n & ? & ?)]; [exists file, found, n|exists f, fd, n];
        rewrite elem_of_cons; naive_solver.
    + intros (f & fd & n & Hin & Hf & ? & ?).
      apply elem_of_cons in Hin as [->| ?]; [left|right; eauto 10].
      rewrite Hget in Hf. injection Hf as <-. eauto.
Qed.

(** A scan of statements finds the statements of the kind that pass the
    test, in the files it is given. *)
Lemma elem_of_scan_kind kind test proj files os o :
  scan (statements_of_kind kind) test proj files = Ok os ->
  o ∈ os <-> exists file i n,
    file ∈ files /\ o = below file [0; i] /\ statement_at proj file i n /\
    kindName n = kind /\ test n = true.
Proof.
  intros Hscan. rewrite (elem_of_scan _ _ _ _ _ _ Hscan). split.
  - intros (file & found & n & Hfile & Hfound & Hin & Htest).
    destruct (statements_of_kind_statement _ _ _ _ _ _ Hfound Hin) as (i & -> & Hk & Hat).
    eauto 10.
  - intros (file & i & n & Hfile & -> & (root & stmts & Hroot & Hstmts & Hi) & Hk & Htest).
    destruct (statements_of_kind kind proj file) as [found|] eqn:Hfound;
      [|unfold statements_of_kind in Hfound; by rewrite Hroot in Hfound].
    exists file, found, n. repeat split; try done.
    apply (elem_of_statements_of_kind _ _ _ _ _ _ Hfound). exists i. repeat split; try done.
    exists root. by rewrite Hstmts.
Qed.

Lemma scan_Err kind test proj files e :
  scan (statements_of_kind kind) test proj files = Err e -> e = forgotten_error.
Proof.
  induction files as [|file files IH]; [done|]. rewrite scan_cons.
  destruct (statements_of_kind kind proj file) eqn:Hfile; simpl.
  - destruct (scan _ test proj files); [done|]. intros [= <-]. by apply IH.
  - intros [= <-]. by apply statements_of_kind_Err in Hfile.
Qed.



(** The objects of a scan are declarations of the kind scanned for. *)
Lemma scan_declared_as kind k test proj files os :
  (forall n, kindName n = kind -> declaration_kind n = Some k) ->
  scan (statements_of_kind kind) test proj files = Ok os ->
  Forall (fun o => declared_as proj o k) os.
Proof.
  intros Hkind Hscan. apply Forall_forall. intros o Ho.
  apply (elem_of_scan_kind _ _ _ _ _ _ Hscan) in Ho
    as (file & i & n & _ & -> & Hat%statement_at_resolve & Hk & _).
  exists n. auto.
Qed.

Lemma declaration_kind_alias n :
  kindName n = "TypeAliasDeclaration" -> declaration_kind n = Some TypeAliasDeclaration.
Proof. intros Hk. unfold declaration_kind. by rewrite Hk. Qed.

Lemma declaration_kind_interface n :
  kindName n = "InterfaceDeclaration" -> declaration_kind n = Some InterfaceDeclaration.
Proof. intros Hk. unfold declaration_kind. by rewrite Hk. Qed.

(** Wrapping the objects of a scan for a view the kind belongs to. *)
Lemma wrap_well_typed proj v k os :
  k ∈ view_kinds v -> Forall (fun o => declared_as proj o k) os ->
  Forall (fun d => view d = v /\ well_typed proj d) (map (fun each => mkDeclaration each v) os).
Proof.
  intros Hk Hos. apply Forall_fmap. eapply Forall_impl; [exact Hos|].
  intros o Ho. split; [done|]. by exists k.
Qed.

(** The statements of a kind, read off the same tree of another
    generation. *)
Lemma statements_of_kind_content kind proj proj' file :
  same_tree (oFile file) proj proj' -> live proj file ->
  statements_of_kind kind proj' (transport proj' file)
  = fmap (M:=list) (prod_map (transport proj') id) <$> statements_of_kind kind proj file.
Proof.
  intros Hsame Hlive. unfold statements_of_kind. rewrite (the_node_transport proj) by done.
  case_res; simpl; [|done]. f_equal.
  generalize (imap pair (default [] (statements_of a))). intros l.
  induction l as [|[i n] l IH]; [done|]. csimpl. rewrite IH.
  case_decide; [|done]. by rewrite fmap_cons, <- transport_below.
Qed.

Lemma matching_prod_map test (h : NodeObj -> NodeObj) found :
  matching test (prod_map h id <$> found) = h <$> matching test found.
Proof.
  unfold matching. rewrite (filter_fmap_agree _ _ (fun d => test d.2 = true)) by done.
  rewrite <- !list_fmap_compose. by apply list_fmap_ext.
Qed.

(** A scan of the same trees finds the statements at the same places. *)
Lemma scan_content kind test proj proj' files :
  same_documents proj proj' files ->
  scan (statements_of_kind kind) test proj' (transport proj' <$> files)
  = fmap (M:=list) (transport proj') <$> scan (statements_of_kind kind) test proj files.
Proof.
  induction 1 as [|file files [Hlive Hsame] _ IH]; [done|].
  rewrite fmap_cons, !scan_cons, IH, (statements_of_kind_content _ proj) by done.
  destruct (statements_of_kind kind proj file) as [found|]; [|done].
  destruct (scan _ test proj files) as [rest|]; [|done].
  cbn [fmap res_fmap mbind res_bind]. by rewrite matching_prod_map, fmap_app.
Qed.

Lemma same_documents_elem_of proj proj' files file o :
  same_documents proj proj' files -> file ∈ files -> oFile o = oFile file ->
  same_tree (oFile o) proj proj'.
Proof.
  intros Hsame Hfile ->. by apply (proj1 (Forall_forall _ _) Hsame file Hfile).
Qed.

End scan_lemmas.

Section getter_lemmas.
Context `{shapes : ApiShapes}.

(** The getters on the same trees: the declarations at the same places, in
    the same order, with the same views. *)
Lemma declarations_of_content v proj proj' p :
  same_documents proj proj' (HttpProtocol.files p) ->
  declarations_of v proj' (current_files proj' p)
  = fmap (M:=list) (transport_declaration proj') <$> declarations_of v proj p.
Proof.
  intros Hsame.
  destruct v; unfold declarations_of, HttpProtocol.results, HttpProtocol.responseCollections,
    HttpProtocol.responses, HttpProtocol.parameters, HttpProtocol.headers, getTypeAliases,
    getInterfaces; cbn [current_files HttpProtocol.files];
    rewrite !(scan_content _ _ proj) by done;
    repeat destruct (scan _ _ proj _); cbn [fmap res_fmap mbind res_bind]; try reflexivity;
    f_equal; rewrite !map_fmap, ?fmap_app, <- !list_fmap_compose; done.
Qed.

Lemma operationGroups_content proj proj' p :
  same_documents proj proj' (HttpProtocol.files p) ->
  HttpProtocol.operationGroups proj' (current_files proj' p)
  = fmap (M:=list) (fun g => mkOperationGroup (transport proj' (group g)))
      <$> HttpProtocol.operationGroups proj p.
Proof.
  intros Hsame. unfold HttpProtocol.operationGroups, getInterfaces.
  cbn [current_files HttpProtocol.files]. rewrite (scan_content _ _ proj) by done.
  destruct (scan _ _ proj _); [|done]. cbn [fmap res_fmap]. f_equal.
  by rewrite !map_fmap, <- !list_fmap_compose.
Qed.

End getter_lemmas.

#[export] Hint Resolve declaration_kind_alias declaration_kind_interface : adl.

(** ** Theorems *)

Section protocol_theorems.
Context `{shapes : ApiShapes}.
Implicit Types (proj : Project) (p : HttpProtocol.t) (file o : NodeObj) (n : Node)
  (d : Declaration) (ds : list Declaration).

(** The headers of a protocol are exactly the type aliases with the tag
    [header] among the statements of its files, each wrapped as a header. *)
Theorem headers_spec proj p ds d :
  HttpProtocol.headers proj p = Ok ds ->
  d ∈ ds <->
  view d = HeaderView /\
  exists file i n,
    file ∈ HttpProtocol.files p /\ node d = below file [0; i] /\
    statement_at proj file i n /\
    kindName n = "TypeAliasDeclaration" /\ hasTag n "header" = true.
Proof.
  unfold HttpProtocol.headers. intros (os & Hscan & ->)%fmap_Ok_inv.
  change (map ?f os) with (f <$> os). rewrite list_elem_of_fmap.
  setoid_rewrite (elem_of_scan_kind _ _ _ _ _ _ Hscan). unfold isHeader. split.
  - intros (o & -> & file & i & n & ? & ? & ? & ? & Htag). split; [done|].
    exists file, i, n. by destruct (hasTag n "header").
  - destruct d as [o v]. simpl. intros (-> & file & i & n & ? & ? & ? & ? & Htag).
    exists o. split; [done|]. exists file, i, n. by rewrite Htag.
Qed.

(** C30 The results list the type aliases of all the files before the
    interfaces of any file: a result interface of the first file comes after
    the result aliases of the last. *)
Theorem results_aliases_first proj p ds :
  HttpProtocol.results proj p = Ok ds ->
  exists aliases interfaces,
    ds = aliases ++ interfaces /\
    Forall (fun d => exists n, the_node proj (node d) = Ok n /\
                               kindName n = "TypeAliasDeclaration") aliases /\
    Forall (fun d => exists n, the_node proj (node d) = Ok n /\
                               kindName n = "InterfaceDeclaration") interfaces.
Proof.
  unfold HttpProtocol.results.
  intros (as_ & Has & (is_ & His & [= <-])%bind_Ok_inv)%bind_Ok_inv.
  eexists _, _. split; [done|].
  split; apply Forall_forall; intros d (o & -> & Ho)%list_elem_of_fmap;
    [apply (elem_of_scan_kind _ _ _ _ _ _ Has) in Ho
    |apply (elem_of_scan_kind _ _ _ _ _ _ His) in Ho];
    destruct Ho as (file & i & n & _ & -> & Hat%statement_at_resolve & Hk & _);
    exists n; eauto with adl.
Qed.

(** C27 (the getters are well typed).  Every declaration a getter
    returns carries the view of the getter, and its node is a live type
    declaration in the sense of [IsTypeDeclaration], of a kind the view is
    made from: a type alias, or for a result an interface as well. *)
Theorem getters_well_typed v proj p ds :
  declarations_of v proj p = Ok ds ->
  Forall (fun d => view d = v /\ well_typed proj d /\
                   IsTypeDeclaration (resolve_obj proj (node d)) = true) ds.
Proof.
  intros Hds.
  enough (Forall (fun d => view d = v /\ well_typed proj d) ds) as Htyped.
  { eapply Forall_impl; [exact Htyped|]. intros d (? & k & Hk & n & Hn & Hkind).
    split_and!; [done|exists k; split; [done|by exists n]|].
    rewrite Hn. simpl. by rewrite Hkind. }
  destruct v; simpl in Hds;
    try (apply fmap_Ok_inv in Hds as (os & Hscan & ->);
         apply (wrap_well_typed _ _ TypeAliasDeclaration); [set_solver|];
         apply (scan_declared_as _ _ _ _ _ _ declaration_kind_alias Hscan)).
  apply bind_Ok_inv in Hds as (as_ & Has & (is_ & His & [= <-])%bind_Ok_inv).
  apply Forall_app. split.
  - apply (wrap_well_typed _ _ TypeAliasDeclaration); [set_solver|].
    apply (scan_declared_as _ _ _ _ _ _ declaration_kind_alias Has).
  - apply (wrap_well_typed _ _ InterfaceDeclaration); [set_solver|].
    apply (scan_declared_as _ _ _ _ _ _ declaration_kind_interface His).
Qed.

(** No declaration is a parameter: the test for parameters is never
    true, and the parameters of a protocol are the empty list, unless the
    scan throws on a forgotten file. *)
Theorem parameters_empty proj p :
  HttpProtocol.parameters proj p = Ok [] \/
  HttpProtocol.parameters proj p = Err forgotten_error.
Proof.
  unfold HttpProtocol.parameters.
  destruct (scan getTypeAliases isParameterTypeAlias proj _) as [os|e] eqn:Hscan.
  - left. destruct os as [|o os]; [done|].
    assert (Ho : o ∈ o :: os) by (apply elem_of_cons; by left).
    by apply (elem_of_scan_kind _ _ _ _ _ _ Hscan) in Ho as (? & ? & ? & _ & _ & _ & _ & ?).
  - right. by rewrite (scan_Err _ _ _ _ _ Hscan).
Qed.

(** A protocol made without source files registers [isHeader] under
    [header] in the api model and changes no other entry; one made with
    source files, even with none in the array, leaves the api model as it
    is. *)
Theorem new_registers_header base_files api :
  let api' := (HttpProtocol.new base_files api None).1 in
  KnownAliasTypes api' !! "header" = Some isHeader /\
  (forall key, key <> "header" -> KnownAliasTypes api' !! key = KnownAliasTypes api !! key) /\
  forall sourceFiles,
    HttpProtocol.new base_files api (Some sourceFiles) =
    (api, HttpProtocol.mk sourceFiles [] [] []).
Proof.
  simpl. split; [apply lookup_insert_eq|]. split; [|done].
  intros key Hkey. by apply lookup_insert_ne.
Qed.


(** Every object a scan returns is a node of the current tree. *)
Theorem scan_live kind test proj files os :
  scan (statements_of_kind kind) test proj files = Ok os -> Forall (live proj) os.
Proof.
  intros Hscan. apply Forall_forall. intros o Ho.
  apply (elem_of_scan_kind _ _ _ _ _ _ Hscan) in Ho as (file & i & n & _ & -> & Hat & _).
  exists n. by apply statement_at_resolve.
Qed.

(** C31 A protocol that holds a source file object that was forgotten
    cannot be scanned: every scan throws what ts-morph throws on a forgotten
    node. *)
Theorem scan_forgotten kind test proj files file :
  file ∈ files -> wasForgotten proj file = true ->
  scan (statements_of_kind kind) test proj files = Err forgotten_error.
Proof.
  intros Hin Hf. induction files as [|f files IH]; [by apply elem_of_nil in Hin|].
  rewrite scan_cons. destruct (statements_of_kind kind proj f) as [found|e] eqn:Hfound.
  - apply elem_of_cons in Hin as [->| Hin].
    + by rewrite statements_of_kind_forgotten in Hfound.
    + simpl. by rewrite IH.
  - by rewrite (statements_of_kind_Err _ _ _ _ Hfound).
Qed.

End protocol_theorems.

(** ** The theorems at the two documents *)

Example http_protocol_headers :
  HttpProtocol.headers protocol_project http_protocol =
  Ok [mkDeclaration (below operations_file [0; 1]) HeaderView;
      mkDeclaration (below aliases_file [0; 1]) HeaderView].
Proof. reflexivity. Qed.

(** The operation groups of the two documents are those of the first, the
    only one that declares any. *)
Example http_protocol_operationGroups :
  HttpProtocol.operationGroups (shapes := shapes_by_tag) protocol_project http_protocol =
  Ok [mkOperationGroup (below operations_file [0; 0])].
Proof. reflexivity. Qed.

(** The result alias of the second file comes before the result interface
    of the first. *)
Example http_protocol_results :
  HttpProtocol.results (shapes := shapes_by_tag) protocol_project http_protocol =
  Ok [mkDeclaration (below aliases_file [0; 0]) ResultView;
      mkDeclaration (below operations_file [0; 2]) ResultView].
Proof. reflexivity. Qed.

Lemma headers_spec_witness :
  mkDeclaration (below aliases_file [0; 1]) HeaderView ∈
  [mkDeclaration (below operations_file [0; 1]) HeaderView;
   mkDeclaration (below aliases_file [0; 1]) HeaderView].
Proof.
  apply (headers_spec protocol_project http_protocol); [reflexivity|].
  split; [done|].
  exists aliases_file, 1,
    (typeAliasDeclaration "ETag" [("header", EmptyString)] (token "StringKeyword")).
  repeat split; [apply elem_of_cons; right; apply elem_of_cons; by left|].
  by eexists aliases_ts, _.
Defined.

Lemma results_aliases_first_witness :
  exists aliases interfaces,
    [mkDeclaration (below aliases_file [0; 0]) ResultView;
     mkDeclaration (below operations_file [0; 2]) ResultView] = aliases ++ interfaces /\
    Forall (fun d => exists n, the_node protocol_project (node d) = Ok n /\
                               kindName n = "TypeAliasDeclaration") aliases /\
    Forall (fun d => exists n, the_node protocol_project (node d) = Ok n /\
                               kindName n = "InterfaceDeclaration") interfaces.
Proof.
  exact (results_aliases_first (shapes := shapes_by_tag) protocol_project http_protocol _ eq_refl).
Defined.


Lemma scan_live_witness :
  Forall (live protocol_project) [below operations_file [0; 1]; below aliases_file [0; 1]].
Proof.
  by apply (scan_live "TypeAliasDeclaration" isHeader protocol_project
              [operations_file; aliases_file]).
Defined.

Lemma scan_forgotten_witness :
  scan getTypeAliases isHeader protocol_project_reparsed [operations_file; aliases_file]
  = Err forgotten_error.
Proof.
  apply (scan_forgotten _ _ _ _ aliases_file); [|reflexivity].
  apply elem_of_cons; right; apply elem_of_cons; by left.
Defined.

(** The results of the two documents: an alias and an interface, both
    declarations of the type of a result. *)
Lemma getters_well_typed_witness :
  Forall (fun d => view d = ResultView /\ well_typed protocol_project d /\
                   IsTypeDeclaration (resolve_obj protocol_project (node d)) = true)
    [mkDeclaration (mkObj aliases_path 1 [0; 0]) ResultView;
     mkDeclaration (mkObj operations_path 0 [0; 2]) ResultView].
Proof.
  by apply (getters_well_typed (shapes := shapes_by_tag) ResultView protocol_project
              http_protocol).
Defined.
