(* ===== verification/Declarations.v ===== *)
(** * Declarations: a scanned declaration kept through edits

    The getters of [HttpProtocol] wrap each node they find in a
    [Declaration] of [model/typescript/reference], which is not among the
    sources.  The specification describes it: a declaration stores the
    address of its node and the constructor of its view, its [value] is the
    view on the node the address resolves to now, found the way a reference
    finds it, and two declarations are equal when their addresses are.

    This file composes the components: a declaration of a scan
    ([Protocol]) is wrapped with [referenceTo] ([Reference]), which keeps
    the path of [getPath] ([NodePath]).  The theorems say what the value of
    a declaration is after its file was parsed again and along
    the histories of [Tracking] ([declaration_tracks_statement]), which
    declarations are equal and that equal declarations have their values
    at the same node, also when they were wrapped by scans of different
    trees ([same_declaration_same_node]): among declarations that their
    identifiers address, a collection de-duplicated by address loses no
    node; and that the addresses a scan wraps
    ([scanned_addresses]) are the same whenever the trees are. *)

From Stdlib Require Import Ascii String ZArith.
From stdpp Require Import base option strings list gmap.
From S2P Require Import Prelude JsString Ast Scenarios Sandbox NodePath Reference Healing.
From S2P Require Import Content Edits Tracking HttpModel Protocol.

(** ** Declaration<T> *)

(** The state of a declaration: the reference to its node and the class of
    its view. *)
Record Wrapped : Type := mkWrapped {
  reference : Ref;
  ctor : View
}.

Section declarations.
Context `{SB : Sandbox}.

(** [new Declaration(node, View)]. *)
Definition wrap (proj : Project) (d : Declaration) : res Wrapped :=
  r ← referenceTo proj (node d);
  Ok (mkWrapped r (view d)).

(** [declaration.value]: the constructor on the node the reference yields
    now; the reference may have looked its node up. *)
Definition value (proj : Project) (w : Wrapped) : res (option Declaration) * Wrapped :=
  let (target, r') := current_target proj (reference w) in
  (option_map (fun o => mkDeclaration o (ctor w)) <$> target, mkWrapped r' (ctor w)).

End declarations.

(** The address a declaration stores. *)
Definition address (w : Wrapped) : Path := path (reference w).

(** The addresses of the declarations a getter returns, each wrapped as it
    is found: what two scans are compared by. *)
Definition scanned_addresses `{SB : Sandbox} `{shapes : ApiShapes} (v : View)
    (proj : Project) (p : HttpProtocol.t) : res (list Path) :=
  ds ← declarations_of v proj p;
  mapM_res (fun d => address <$> wrap proj d) ds.

(** Equality of declarations: equality of their addresses. *)
Definition same_declaration (w1 w2 : Wrapped) : bool :=
  bool_decide (address w1 = address w2).

(** ** What the theorems speak of *)

(** The files of the protocol are source file objects. *)
Definition source_files (p : HttpProtocol.t) : Prop :=
  Forall (fun file => oPos file = []) (HttpProtocol.files p).

(** The object is a statement of its file that its identifier addresses. *)
Definition addressed (proj : Project) (o : NodeObj) : bool :=
  match top_level proj o with
  | Some (stmts, i, n) => addressable (oFile o) stmts i n
  | None => false
  end.

(** ** The documents of [Protocol], edited *)

(** [aliases.ts] with [ETag] documented as a result and no longer as a
    header. *)
Definition aliases_retagged_ts : Node :=
  sourceFile
    [typeAliasDeclaration "Created" [("result", EmptyString)] (typeReference "Response" []);
     typeAliasDeclaration "ETag" [("result", EmptyString)] (token "StringKeyword")].

Definition protocol_project_retagged : Project :=
  parseFile aliases_path aliases_retagged_ts protocol_project.

(** The protocol over the files as they are after [aliases.ts] was parsed
    again. *)
Definition http_protocol_reparsed : HttpProtocol.t :=
  (HttpProtocol.new [] (mkApiModel ∅)
     (Some [operations_file; mkObj aliases_path 2 []])).2.

(** The header [ETag] of [aliases.ts], before and after. *)
Definition ETag_declaration : Declaration :=
  mkDeclaration (mkObj aliases_path 1 [0; 1]) HeaderView.

Definition ETag_reparsed : Declaration :=
  mkDeclaration (mkObj aliases_path 2 [0; 1]) HeaderView.

Definition ETag_wrapped : Wrapped :=
  mkWrapped (mkRef (Some (mkObj aliases_path 1 [0; 1])) [IStr aliases_path; IStr "ETag"])
            HeaderView.

(** ** Lemmas *)

Section declaration_lemmas.
Context `{SB : Sandbox} `{!SandboxLaws SB} `{shapes : ApiShapes}.
Implicit Types (proj : Project) (p : HttpProtocol.t) (d : Declaration) (w : Wrapped)
  (o file : NodeObj) (n : Node) (v : View).

(** A statement of a source file object, as [top_level] sees it. *)
Lemma statement_at_top_level proj file i n :
  oPos file = [] -> statement_at proj file i n ->
  exists stmts, top_level proj (below file [0; i]) = Some (stmts, i, n).
Proof.
  intros Hpos (root & stmts & Hroot%the_node_Ok & Hstmts & Hi). exists stmts.
  apply top_level_Some. exists root. unfold below. rewrite Hpos. simpl.
  split_and!; try done. by destruct file; simpl in *; subst.
Qed.

(** What a getter returns: statements of the files of the protocol, type
    aliases or interfaces, with the view of the getter. *)
Lemma elem_of_declarations_of v proj p ds d :
  declarations_of v proj p = Ok ds -> d ∈ ds ->
  view d = v /\
  exists file i n, file ∈ HttpProtocol.files p /\ node d = below file [0; i] /\
                   statement_at proj file i n /\
                   (kindName n = "TypeAliasDeclaration" \/ kindName n = "InterfaceDeclaration").
Proof.
  assert (forall kind test os, scan (statements_of_kind kind) test proj (HttpProtocol.files p)
            = Ok os -> d ∈ map (fun each => mkDeclaration each v) os ->
          view d = v /\ exists file i n, file ∈ HttpProtocol.files p /\
            node d = below file [0; i] /\ statement_at proj file i n /\ kindName n = kind)
    as Hscan.
  { intros kind test os Hos (o & -> & Ho)%list_elem_of_fmap. split; [done|].
    apply (elem_of_scan_kind _ _ _ _ _ _ Hos) in Ho as (file & i & n & ? & ? & ? & ? & _).
    eauto 10. }
  intros Hds Hd. destruct v; simpl in Hds;
    try (apply fmap_Ok_inv in Hds as (os & Hos & ->);
         destruct (Hscan _ _ _ Hos Hd) as (? & file & i & n & ? & ? & ? & ?);
         by eauto 10).
  apply bind_Ok_inv in Hds as (as_ & Has & (is_ & His & [= <-])%bind_Ok_inv).
  apply elem_of_app in Hd as [Hd|Hd];
    [destruct (Hscan _ _ _ Has Hd) as (? & file & i & n & ? & ? & ? & ?)
    |destruct (Hscan _ _ _ His Hd) as (? & file & i & n & ? & ? & ? & ?)];
    eauto 10.
Qed.

(** The declarations of a protocol over source file objects are statements
    with a name, a value or an index to be addressed by. *)
Lemma scanned_top_level v proj p ds d :
  source_files p -> declarations_of v proj p = Ok ds -> d ∈ ds ->
  view d = v /\
  exists stmts i n, top_level proj (node d) = Some (stmts, i, n) /\
                    is_ok (identify (oFile (node d)) n (Ok i)) = true.
Proof.
  intros Hfiles Hds Hd.
  destruct (elem_of_declarations_of _ _ _ _ _ Hds Hd)
    as (Hview & file & i & n & Hfile & Hnode & Hat & Hkind).
  split; [done|]. rewrite Hnode.
  destruct (statement_at_top_level proj file i n) as [stmts Htop]; [|done|].
  { by apply (proj1 (Forall_forall _ _) Hfiles). }
  exists stmts, i, n. split; [done|]. unfold identify, plain_identifier.
  rewrite !decide_False by (destruct Hkind as [-> | ->]; done).
  by destruct (nodeName n), (nodeValue n).
Qed.

(** Wrapping a statement: the reference holds the node, the address is the
    file and the identifier of the statement. *)
Lemma wrap_statement proj d stmts i n id :
  top_level proj (node d) = Some (stmts, i, n) ->
  identify (oFile (node d)) n (Ok i) = Ok id ->
  wrap proj d = Ok (mkWrapped (mkRef (Some (node d)) [IStr (oFile (node d)); id]) (view d)).
Proof.
  intros Htop Hid. unfold wrap, referenceTo.
  by rewrite (getPath_statement _ _ _ _ _ _ Htop), Hid.
Qed.

Lemma wrap_Ok proj d w stmts i n :
  top_level proj (node d) = Some (stmts, i, n) -> wrap proj d = Ok w ->
  ctor w = view d /\ current (reference w) = Some (node d) /\
  exists id, identify (oFile (node d)) n (Ok i) = Ok id /\
             address w = [IStr (oFile (node d)); id].
Proof.
  intros Htop. unfold wrap.
  intros (r & (Hc & id & Hid & Hpath)%(referenceTo_statement _ _ _ _ _ _ Htop) & [= <-])%bind_Ok_inv.
  eauto 10.
Qed.

(** The address of a declaration of a scan is a function of the tree of
    its file. *)
Lemma wrap_address_content v proj proj' p ds d :
  same_documents proj proj' (HttpProtocol.files p) ->
  declarations_of v proj p = Ok ds -> d ∈ ds ->
  address <$> wrap proj' (transport_declaration proj' d) = address <$> wrap proj d.
Proof.
  intros Hsame Hds Hd.
  destruct (elem_of_declarations_of _ _ _ _ _ Hds Hd)
    as (_ & file & i & n & Hfile & Hnode & Hat%statement_at_resolve & _).
  unfold wrap, referenceTo. cbn [transport_declaration node].
  rewrite (getPath_content proj).
  - by destruct (getPath proj (node d) []).
  - apply (same_documents_elem_of _ _ (HttpProtocol.files p) file); [done..|by rewrite Hnode].
  - rewrite Hnode. by exists n.
Qed.

(** The value of a declaration whose node is forgotten is the view on the
    node its address is resolved to. *)
Lemma value_forgotten proj w cur :
  current (reference w) = Some cur -> wasForgotten proj cur = true ->
  (value proj w).1
  = option_map (fun o => mkDeclaration o (ctor w)) <$> getNode proj (address w) FromProject.
Proof.
  intros Hc Hf. unfold value, current_target, getNode, address. rewrite Hc, Hf.
  by destruct (getNode_st proj (path (reference w)) FromProject) as [[target|e] rest].
Qed.

(** A statement with a plain name that the lookup of its address returns
    is the one its identifier addresses. *)
Lemma looked_up_addressable proj o stmts i n id (c : View) :
  top_level proj o = Some (stmts, i, n) -> by_name n = true ->
  identify (oFile o) n (Ok i) = Ok id ->
  option_map (fun o => mkDeclaration o c) <$> getNode proj [IStr (oFile o); id] FromProject
  = Ok (Some (mkDeclaration o c)) ->
  addressable (oFile o) stmts i n = true.
Proof.
  intros Htop Hname Hid Hfound. pose proof (top_level_eta _ _ _ _ _ Htop) as Ho.
  pose proof Htop as (_ & _ & _ & _ & Hi%list_elem_of_lookup_2)%top_level_Some.
  destruct (list_find_elem_of (fun m => found_as n m = true) stmts n Hi)
    as [[j m] Hfind]; [by apply found_as_refl|].
  pose proof (getNode_getPath_first_found _ _ _ _ _ _ _ Htop Hname Hfind) as Hfirst.
  rewrite (getPath_statement _ _ _ _ _ _ Htop), Hid in Hfirst. cbn in Hfirst.
  rewrite Hfirst in Hfound. injection Hfound as Hj. rewrite Ho in Hj at 2. injection Hj as ->.
  by rewrite addressable_by_name, bool_decide_eq_true, Hfind.
Qed.


(** The node of the value of a declaration is what a use of its reference
    returns. *)
Lemma value_node proj w :
  option_map node <$> (value proj w).1 = (current_target proj (reference w)).1.
Proof.
  unfold value. by destruct (current_target proj (reference w)) as [[[o|]|e] r'].
Qed.

(** A declaration wrapped for a statement that its identifier addresses:
    while its reference holds a node, a use returns what its address
    resolves to. *)
Lemma wrapped_resolves proj0 d w proj r :
  wf_project proj0 -> wrap proj0 d = Ok w -> addressed proj0 (node d) = true ->
  reachable (proj0, reference w) (proj, r) -> is_Some (current r) ->
  (current_target proj r).1 = resolve_address proj (address w).
Proof.
  unfold wrap, addressed. intros Hwf (r0 & Href & [= <-])%bind_Ok_inv Haddr Hreach Hc.
  destruct (top_level proj0 (node d)) as [[[stmts i] n]|] eqn:Htop; [|done].
  pose proof (referenceTo_resolves _ _ _ _ _ _ Htop Haddr Href) as Hres.
  destruct (reachable_coherent proj0 r0 proj r Hwf (referenceTo_ref_ok _ _ _ Hwf Href)
              (referenceTo_coherent _ _ _ Href Hres) Hreach) as (Hco & Hpath).
  unfold address. cbn [reference]. rewrite <- Hpath. by apply coherent_refines.
Qed.

End declaration_lemmas.

(** ** Theorems *)

Section declaration_theorems.
Context `{SB : Sandbox} `{!SandboxLaws SB} `{shapes : ApiShapes}.
Implicit Types (proj : Project) (p : HttpProtocol.t) (d : Declaration) (w : Wrapped)
  (o file : NodeObj) (n : Node) (v : View).

(** C28 (the value of a declaration after an edit).  Wrap a declaration
    that a getter returned, and let its node be forgotten.  Take a
    declaration of the current scan, of whatever getter, in the file of the
    same path, with the same identifier and a plain name.  The value of
    the wrapped declaration is that declaration, with the view it was
    wrapped for, and the wrapped declaration holds its node from then on,
    if and only if the identifier addresses it: it is the first statement
    of its file that answers to the name.  Of the two declarations of a
    merged interface the value is the first, whichever was wrapped. *)
Theorem value_after_edit v proj p ds d w v' proj' p' ds' d' n' :
  source_files p -> declarations_of v proj p = Ok ds -> d ∈ ds ->
  wrap proj d = Ok w ->
  wasForgotten proj' (node d) = true ->
  source_files p' -> declarations_of v' proj' p' = Ok ds' -> d' ∈ ds' ->
  oFile (node d') = oFile (node d) ->
  getNodeIdentifier proj' (node d') = getNodeIdentifier proj (node d) ->
  resolve_obj proj' (node d') = Some n' -> by_name n' = true ->
  value proj' w = (Ok (Some (mkDeclaration (node d') v)),
                   mkWrapped (mkRef (Some (node d')) (address w)) v)
  <-> addressed proj' (node d') = true.
Proof.
  intros Hp Hds Hd Hw Hforgotten Hp' Hds' Hd' Hfile Hid Hn' Hname.
  destruct (scanned_top_level _ _ _ _ _ Hp Hds Hd) as (Hv & stmts & i & n & Htop & _).
  destruct (scanned_top_level _ _ _ _ _ Hp' Hds' Hd') as (_ & stmts' & i' & n'' & Htop' & _).
  rewrite (top_level_resolve _ _ _ _ _ Htop') in Hn'. injection Hn' as ->.
  destruct (wrap_Ok _ _ _ _ _ _ Htop Hw) as (Hctor & Hc & id & Hidn & Hpath).
  rewrite (getNodeIdentifier_statement _ _ _ _ _ Htop),
    (getNodeIdentifier_statement _ _ _ _ _ Htop'), Hidn in Hid.
  unfold addressed. rewrite Htop'. rewrite <- Hfile in Hpath. split.
  - intros Hvalue%(f_equal fst). cbn [fst] in Hvalue.
    rewrite (value_forgotten _ _ _ Hc Hforgotten), Hpath, Hctor, Hv in Hvalue.
    by apply (looked_up_addressable _ _ _ _ _ _ v Htop' Hname Hid).
  - intros Haddr. unfold value, address.
    rewrite (current_target_statement _ _ _ _ _ _ _ id Hc Hforgotten Htop' Haddr Hid Hpath).
    by rewrite Hctor, Hv.
Qed.

(** (equality of declarations).  Two declarations of statements are
    equal exactly when the statements are of files of the same path and
    have the same identifier: neither the nodes, nor the views, nor the
    projects the declarations were made in play a part. *)
Theorem same_declaration_spec proj1 d1 w1 stmts1 i1 n1 proj2 d2 w2 stmts2 i2 n2 :
  top_level proj1 (node d1) = Some (stmts1, i1, n1) -> wrap proj1 d1 = Ok w1 ->
  top_level proj2 (node d2) = Some (stmts2, i2, n2) -> wrap proj2 d2 = Ok w2 ->
  same_declaration w1 w2 = true <->
  oFile (node d1) = oFile (node d2) /\
  identify (oFile (node d1)) n1 (Ok i1) = identify (oFile (node d2)) n2 (Ok i2).
Proof.
  intros Htop1 Hw1 Htop2 Hw2.
  destruct (wrap_Ok _ _ _ _ _ _ Htop1 Hw1) as (_ & _ & id1 & Hid1 & Hpath1).
  destruct (wrap_Ok _ _ _ _ _ _ Htop2 Hw2) as (_ & _ & id2 & Hid2 & Hpath2).
  unfold same_declaration. rewrite bool_decide_eq_true, Hpath1, Hpath2, Hid1, Hid2.
  split; [by intros [= -> ->]|by intros [-> [= ->]]].
Qed.

(** (scans of the same trees).  When the files of a protocol are parsed
    again and hold the trees they held, a getter on the files as they are now
    returns the declarations at the same places, in the same order and with
    the same views, and the addresses they are wrapped with are the
    addresses of before: compared by address, the two scans are the same
    declarations. *)
Theorem rescan_same_declarations v proj proj' p :
  same_documents proj proj' (HttpProtocol.files p) ->
  declarations_of v proj' (current_files proj' p)
    = fmap (M:=list) (transport_declaration proj') <$> declarations_of v proj p /\
  scanned_addresses v proj' (current_files proj' p) = scanned_addresses v proj p.
Proof.
  intros Hsame. split; [by apply declarations_of_content|].
  unfold scanned_addresses. rewrite (declarations_of_content _ proj) by done.
  destruct (declarations_of v proj p) as [ds|] eqn:Hds; [|done].
  cbn [fmap res_fmap mbind res_bind]. rewrite mapM_res_fmap.
  apply mapM_res_ext. intros d Hd. by apply (wrap_address_content v _ _ p ds).
Qed.


(** C29 (equal declarations are declarations of one node).  Wrap two
    declarations of statements that their identifiers address, in whatever
    projects, and let files be parsed and removed and the declarations be
    used, in any order.  When the two are equal, of the same address, and
    both hold a node, their values are views of the same node. *)
Theorem same_declaration_same_node proj1 d1 w1 r1 proj2 d2 w2 r2 proj :
  wf_project proj1 -> wrap proj1 d1 = Ok w1 -> addressed proj1 (node d1) = true ->
  reachable (proj1, reference w1) (proj, r1) -> is_Some (current r1) ->
  wf_project proj2 -> wrap proj2 d2 = Ok w2 -> addressed proj2 (node d2) = true ->
  reachable (proj2, reference w2) (proj, r2) -> is_Some (current r2) ->
  same_declaration w1 w2 = true ->
  option_map node <$> (value proj (mkWrapped r1 (ctor w1))).1
  = option_map node <$> (value proj (mkWrapped r2 (ctor w2))).1.
Proof.
  intros Hwf1 Hw1 Ha1 Hreach1 Hc1 Hwf2 Hw2 Ha2 Hreach2 Hc2 Hsame%bool_decide_eq_true.
  rewrite !value_node. cbn [reference].
  rewrite (wrapped_resolves _ _ _ _ _ Hwf1 Hw1 Ha1 Hreach1 Hc1),
    (wrapped_resolves _ _ _ _ _ Hwf2 Hw2 Ha2 Hreach2 Hc2).
  by rewrite Hsame.
Qed.

End declaration_theorems.

(** ** The theorems at the documents of [Protocol] *)

(** The header [ETag] wrapped before [aliases.ts] is parsed again has, as
    its value, the header [ETag] of the new tree. *)
Lemma value_after_edit_witness :
  @value tsEvaluate protocol_project_reparsed ETag_wrapped =
  (Ok (Some (mkDeclaration (node ETag_reparsed) HeaderView)),
   mkWrapped (mkRef (Some (node ETag_reparsed)) (address ETag_wrapped)) HeaderView)
  <-> addressed protocol_project_reparsed (node ETag_reparsed) = true.
Proof.
  apply (value_after_edit (SB:=tsEvaluate) (shapes:=shapes_by_tag) HeaderView
           protocol_project http_protocol
           [mkDeclaration (below operations_file [0; 1]) HeaderView; ETag_declaration]
           ETag_declaration ETag_wrapped
           HeaderView protocol_project_reparsed http_protocol_reparsed
           [mkDeclaration (below operations_file [0; 1]) HeaderView; ETag_reparsed]
           ETag_reparsed
           (typeAliasDeclaration "ETag" [("header", EmptyString)] (token "StringKeyword")));
    try reflexivity; try (by repeat constructor);
    apply elem_of_cons; right; apply elem_of_cons; by left.
Defined.

(** The second declaration of the interface [Vaults], wrapped: after the
    file is parsed again its value is the first declaration. *)
Example value_merged :
  (@value tsEvaluate (parseFile merged_path merged_ts merged_project)
     (mkWrapped (mkRef (Some merged_Vaults_second_obj) [IStr merged_path; IStr "Vaults"])
        ResultView)).1
  = Ok (Some (mkDeclaration (mkObj merged_path 1 [0; 0]) ResultView)).
Proof. reflexivity. Qed.

(** After [ETag] is documented as a result, the declaration made for the
    header yields it as a header still. *)
Example value_stale_view :
  (@value tsEvaluate protocol_project_retagged ETag_wrapped).1 = Ok (Some ETag_reparsed) /\
  HttpProtocol.headers protocol_project_retagged http_protocol_reparsed =
    Ok [mkDeclaration (below operations_file [0; 1]) HeaderView].
Proof. split; reflexivity. Qed.

(** The two declarations of the interface [Vaults] are equal declarations
    of different nodes. *)
Lemma same_declaration_spec_witness :
  same_declaration
    (mkWrapped (mkRef (Some merged_Vaults_first_obj) [IStr merged_path; IStr "Vaults"])
               ResultView)
    (mkWrapped (mkRef (Some merged_Vaults_second_obj) [IStr merged_path; IStr "Vaults"])
               ResultView) = true.
Proof.
  apply (same_declaration_spec merged_project
           (mkDeclaration merged_Vaults_first_obj ResultView) _
           [merged_Vaults_first; merged_Vaults_second] 0 merged_Vaults_first
           merged_project (mkDeclaration merged_Vaults_second_obj ResultView) _
           [merged_Vaults_first; merged_Vaults_second] 1 merged_Vaults_second);
    try reflexivity. by split.
Defined.

(** [aliases.ts] parsed again unchanged: the headers of the two files are
    found with the addresses they had. *)
Lemma rescan_same_declarations_witness :
  @declarations_of shapes_by_tag HeaderView protocol_project_reparsed
     (current_files protocol_project_reparsed http_protocol)
    = fmap (M:=list) (transport_declaration protocol_project_reparsed)
        <$> @declarations_of shapes_by_tag HeaderView protocol_project http_protocol /\
  @scanned_addresses tsEvaluate shapes_by_tag HeaderView protocol_project_reparsed
     (current_files protocol_project_reparsed http_protocol)
    = @scanned_addresses tsEvaluate shapes_by_tag HeaderView protocol_project http_protocol.
Proof.
  apply (rescan_same_declarations (SB:=tsEvaluate) (shapes:=shapes_by_tag) HeaderView
           protocol_project protocol_project_reparsed http_protocol).
  repeat constructor; by vm_compute; eauto.
Defined.

Example rescan_headers :
  @scanned_addresses tsEvaluate shapes_by_tag HeaderView protocol_project_reparsed
     (current_files protocol_project_reparsed http_protocol)
  = Ok [[IStr operations_path; IStr "ContentType"]; [IStr aliases_path; IStr "ETag"]].
Proof. reflexivity. Qed.


(** The header [ETag] wrapped before [aliases.ts] is parsed again and the
    header [ETag] wrapped after are equal declarations, and both have the
    node of the new tree as their value. *)
Lemma same_declaration_same_node_witness :
  option_map node <$> (@value tsEvaluate protocol_project_reparsed ETag_wrapped).1
  = option_map node <$>
      (@value tsEvaluate protocol_project_reparsed
         (mkWrapped (mkRef (Some (node ETag_reparsed)) (address ETag_wrapped)) HeaderView)).1.
Proof.
  apply (same_declaration_same_node (SB:=tsEvaluate)
           protocol_project ETag_declaration ETag_wrapped (reference ETag_wrapped)
           protocol_project_reparsed ETag_reparsed
           (mkWrapped (mkRef (Some (node ETag_reparsed)) (address ETag_wrapped)) HeaderView)
           (mkRef (Some (node ETag_reparsed)) (address ETag_wrapped))
           protocol_project_reparsed);
    try reflexivity; try (by eexists);
    try (repeat apply wf_parseFile; apply wf_emptyProject).
  - apply (reach_step _ (protocol_project, reference ETag_wrapped)
             (EvParse aliases_path aliases_ts)), reach_init.
  - apply reach_init.
Defined.
