(* ===== verification/Sharing.v ===== *)
(** * Sharing: two references to one statement

    Every call of [referenceTo] makes a proxy with a variable [current] of
    its own, and nothing tells one proxy that another has reacquired its
    node.  The holders of two references to the same statement share the
    statement all the same: the node object a use returns is a function of
    the project and of the path, not of what the reference holds.

    [shared_step] is a step of the project and two references: a step of
    [Tracking] taken by one of them, the other left as it is.  Along every
    history of such steps each reference keeps the invariant [tracks]
    ([tracks_shared]), so uses of the two return the same node object,
    which is the statement, and a property written through one is read
    through the other, whichever of the two was used, or not, since the
    last edit ([references_agree]).

    The same holds of declarations, whatever the history
    ([same_declaration_same_node] of [Declarations]).

    The histories keep the statement in its file, and they have to: of two
    references to a node, the one that is used while the node is gone is
    lost for good, and the one that is not used heals when the node is
    back ([references_diverge] of [Reference]).  A read through a
    reference changes what later reads return. *)

From Stdlib Require Import Ascii String ZArith.
From stdpp Require Import base option strings list gmap relations.
From S2P Require Import Prelude JsString Ast Scenarios Sandbox NodePath Reference Healing.
From S2P Require Import Content Edits Tracking Writes HttpModel Protocol Declarations.

(** ** Histories of two references *)

(** A step of a project and two references to the statement [n] of
    [file]: an edit, a parse or a removal of another file, or a use of one
    of the references. *)
Inductive shared_step `{SB : Sandbox} (file : string) (n : Node)
    : relation (Project * Ref * Ref) :=
| step_first proj r1 r2 proj' r1' :
    edit_step file n (proj, r1) (proj', r1') ->
    shared_step file n (proj, r1, r2) (proj', r1', r2)
| step_second proj r1 r2 proj' r2' :
    edit_step file n (proj, r2) (proj', r2') ->
    shared_step file n (proj, r1, r2) (proj', r1, r2').

(** The history of the key-vault models with a second reference to the
    interface: another interface is written before the interface, the
    first reference is used, the import is deleted, the second reference
    is used.  At the end the first holds the node of the tree before the
    deletion and the second the node of the tree after it. *)
Definition shared_history_end : Project * Ref * Ref :=
  (keyvault_history_3.1, keyvault_history_3.2,
   mkRef (Some (mkObj DeletedVaultListResult_path 3 [0; 1])) (path DeletedVaultListResult_ref)).

(** ** Lemmas *)

Section sharing_lemmas.
Context `{SB : Sandbox} `{!SandboxLaws SB}.
Context (file : string) (n : Node) (id : jsid).
Context (Hname : by_name n = true) (Hid : identify file n (Ok 0) = Ok id).
Implicit Types (proj : Project) (r : Ref) (o : NodeObj) (s : Project * Ref * Ref).

(** A step of one reference keeps the invariant of any other. *)
Lemma tracks_step_other proj r1 proj' r1' r2 :
  edit_step file n (proj, r1) (proj', r1') ->
  tracks file n id (proj, r2) -> tracks file n id (proj', r2).
Proof.
  intros Hstep Htracks. inversion Hstep; subst; [..|done];
    apply (tracks_step file n id Hname Hid (proj, r2)); try done.
  - by eapply step_edit.
  - by apply step_parse_other.
  - by apply step_remove_other.
Qed.

(** Both references keep the invariant along a history. *)
Lemma tracks_shared s s' :
  rtc (shared_step file n) s s' ->
  tracks file n id (s.1.1, s.1.2) -> tracks file n id (s.1.1, s.2) ->
  tracks file n id (s'.1.1, s'.1.2) /\ tracks file n id (s'.1.1, s'.2).
Proof.
  induction 1 as [|s s1 s' Hstep _ IH]; [done|]. intros H1 H2. apply IH.
  - destruct Hstep as [proj r1 r2 proj' r1' Hstep|proj r1 r2 proj' r2' Hstep]; simpl in *.
    + by apply (tracks_step file n id Hname Hid _ _ Hstep).
    + by apply (tracks_step_other _ _ _ _ _ Hstep).
  - destruct Hstep as [proj r1 r2 proj' r1' Hstep|proj r1 r2 proj' r2' Hstep]; simpl in *.
    + by apply (tracks_step_other _ _ _ _ _ Hstep).
    + by apply (tracks_step file n id Hname Hid _ _ Hstep).
Qed.

(** Two references under the invariant in the same project yield the same
    node object, the statement. *)
Lemma tracks_agree proj r1 r2 :
  tracks file n id (proj, r1) -> tracks file n id (proj, r2) ->
  exists o, (current_target proj r1).1 = Ok (Some o) /\
            (current_target proj r2).1 = Ok (Some o) /\ resolve_obj proj o = Some n.
Proof.
  intros (_ & Hp1 & sf & stmts & i & c1 & Hf & Hstmts & Hfind & Hc1 & _ & _ & Hcur1)
         (_ & Hp2 & sf' & stmts' & i' & c2 & Hf' & Hstmts' & Hfind' & Hc2 & _ & _ & Hcur2).
  cbn [fst snd] in *. simplify_eq.
  destruct (current_target_tracked file n id Hname Hid _ _ _ _ _ _ Hp1 Hf Hstmts Hfind Hc1 Hcur1)
    as [-> Hres].
  destruct (current_target_tracked file n id Hname Hid _ _ _ _ _ _ Hp2 Hf Hstmts Hfind Hc2 Hcur2)
    as [-> _].
  eauto.
Qed.

End sharing_lemmas.

(** ** Theorems *)

Section sharing_theorems.
Context `{SB : Sandbox} `{!SandboxLaws SB}.
Context {S V : Type} `{RF : Reflect S V}.
Implicit Types (proj : Project) (o : NodeObj) (n : Node) (stmts : list Node) (r : Ref)
  (i : nat) (st : S) (property : string) (value : V).

(** C14 (two references share their statement).  Make two references to a
    statement found by its name that its path leads to.  After any history
    of edits that leave the statement the first to answer to its name, of
    parses and removals of other files and of uses of either reference,
    uses of the two return the same node object of the current tree, which
    is the statement; and a property the [set] trap of one has written is
    what the [get] trap of the other reads, although each proxy keeps a
    node of its own and they may hold objects of different trees. *)
Theorem references_agree proj0 o stmts i n r0 proj r1 r2 :
  ReflectLaws RF -> wf_project proj0 ->
  top_level proj0 o = Some (stmts, i, n) -> by_name n = true ->
  addressable (oFile o) stmts i n = true ->
  referenceTo proj0 o = Ok r0 ->
  rtc (shared_step (oFile o) n) (proj0, r0, r0) (proj, r1, r2) ->
  exists o',
    (current_target proj r1).1 = Ok (Some o') /\
    (current_target proj r2).1 = Ok (Some o') /\
    resolve_obj proj o' = Some n /\
    forall st property value st',
      (proxy_set st proj r1 property value).1 = Ok (st', true) ->
      (proxy_get st' proj r2 property).1 = Ok value.
Proof.
  intros Hlaws Hwf Htop Hname Haddr Href Hhistory.
  destruct (referenceTo_tracks _ _ _ _ _ _ Hwf Htop Hname Haddr Href) as (id & Hid & Htracks).
  destruct (tracks_shared (oFile o) n id Hname Hid _ _ Hhistory Htracks Htracks) as [H1 H2].
  destruct (tracks_agree (oFile o) n id Hname Hid _ _ _ H1 H2) as (o' & Hc1 & Hc2 & Hres).
  exists o'. split_and!; [done..|]. intros st property value st' Hset.
  destruct (traps_on_target st proj r1 o' property value Hc1) as (_ & _ & _ & Hs).
  destruct (traps_on_target st' proj r2 o' property value Hc2) as (-> & _).
  rewrite Hs in Hset. by apply (get_set _ _ _ _ _ _ Hset).
Qed.

End sharing_theorems.

(** ** The theorem at the key-vault models *)

(** The steps of the two references are a history. *)
Lemma shared_history :
  rtc (shared_step (SB:=tsEvaluate) DeletedVaultListResult_path DeletedVaultListResult_interface)
      (keyvault_project, DeletedVaultListResult_ref, DeletedVaultListResult_ref)
      shared_history_end.
Proof.
  apply (rtc_l _ _ (keyvault_history_1, DeletedVaultListResult_ref)).
  { apply step_first.
    apply (insertion_is_step _ _ _ _ [importDeclaration; DeletedVaultListResult_interface] 1);
      [reflexivity..|done]. }
  apply (rtc_l _ _ (keyvault_history_2, DeletedVaultListResult_ref)).
  { apply step_first, (step_use (SB:=tsEvaluate)). }
  apply (rtc_l _ _ (keyvault_history_3, DeletedVaultListResult_ref)).
  { apply step_first.
    apply (removal_is_step _ _ _ _
             [importDeclaration; PrivateLinkResourceListResult_interface;
              DeletedVaultListResult_interface] 2); [reflexivity..|done]. }
  apply rtc_once. apply step_second, (step_use (SB:=tsEvaluate)).
Defined.

Lemma references_agree_witness :
  exists o',
    (@current_target tsEvaluate shared_history_end.1.1 shared_history_end.1.2).1 = Ok (Some o') /\
    (@current_target tsEvaluate shared_history_end.1.1 shared_history_end.2).1 = Ok (Some o') /\
    resolve_obj shared_history_end.1.1 o' = Some DeletedVaultListResult_interface /\
    forall st property value st',
      (@proxy_set tsEvaluate _ _ own_properties st shared_history_end.1.1
         shared_history_end.1.2 property value).1 = Ok (st', true) ->
      (@proxy_get tsEvaluate _ _ own_properties st' shared_history_end.1.1
         shared_history_end.2 property).1 = Ok value.
Proof.
  apply (references_agree (SB:=tsEvaluate) (RF:=own_properties) keyvault_project
           DeletedVaultListResult_obj [importDeclaration; DeletedVaultListResult_interface]
           1 DeletedVaultListResult_interface DeletedVaultListResult_ref);
    [apply own_properties_laws|apply wf_parseFile, wf_parseFile, wf_emptyProject|reflexivity..|].
  exact shared_history.
Defined.

(** The same, computed: the first reference holds the node of the tree
    before the deletion, which is forgotten; [brand] written through it
    lands on the node of the current tree and is read through the
    second. *)
Example brand_shared :
  current shared_history_end.1.2 = Some (mkObj DeletedVaultListResult_path 2 [0; 2]) /\
  (st ← fst <$> (@proxy_set tsEvaluate _ _ own_properties ∅ shared_history_end.1.1
                   shared_history_end.1.2 "brand" (Some "portal")).1;
   (@proxy_get tsEvaluate _ _ own_properties st shared_history_end.1.1
      shared_history_end.2 "brand").1)
  = Ok (Some "portal").
Proof. split; reflexivity. Qed.
