(* ===== verification/Rescan.v ===== *)
(** * Rescan: what a scan returns, as a function of the statements

    A getter of [HttpProtocol] scans the statements of its files on every
    call and wraps what it finds; a declaration is known by its address.
    This file says what the addresses of a scan are in terms of the
    statements alone: [addresses_of] reads them off the [documents] of the
    protocol, the path and the statements of each file, with no node object
    and no project in sight.  [scanned_addresses_spec] shows that the chain
    of the code (the getter, [new Declaration], [referenceTo], [getPath])
    computes it.

    The scan after an edit follows: it is [addresses_of] on the documents
    with the edit applied ([rescan_after_edit]); a removal takes addresses
    away and neither adds nor reorders any, and the removal of a statement
    that no getter selects leaves the scan as it was
    ([rescan_after_removal]); an insertion adds addresses and neither
    takes away nor reorders any ([rescan_after_insertion]).  The three are
    one lemma on edits ([addresses_of_edit]) at three relations between the
    addresses of before and after. *)

From Stdlib Require Import Ascii String ZArith.
From stdpp Require Import base option strings list gmap relations.
From S2P Require Import Prelude JsString Ast Scenarios Sandbox NodePath Reference Healing.
From S2P Require Import Content Edits Tracking HttpModel Protocol Declarations.

(** ** The scans of a getter *)

Section view_scans.
Context `{shapes : ApiShapes}.

(** The scans a getter is made of, in the order it concatenates them: the
    kind of statement it asks the file for and the test it filters with. *)
Definition view_scans (v : View) : list (string * (Node -> bool)) :=
  match v with
  | ResponseCollectionView => [("TypeAliasDeclaration", isResponseCollectionTypeAlias)]
  | ResponseView => [("TypeAliasDeclaration", isResponseTypeAlias)]
  | ResultView => [("TypeAliasDeclaration", isResultTypeAlias);
                   ("InterfaceDeclaration", isResultInterfaceType)]
  | ParameterView => [("TypeAliasDeclaration", isParameterTypeAlias)]
  | HeaderView => [("TypeAliasDeclaration", isHeader)]
  end.

End view_scans.

(** ** Documents and their addresses *)

(** The statements of the kind that pass the test, each with its index. *)
Definition selected (kind : string) (test : Node -> bool) (stmts : list Node)
    : list (nat * Node) :=
  filter (fun s => kindName s.2 = kind /\ test s.2 = true) (imap pair stmts).

(** The identifier of a statement that is a type alias or an interface: its
    name, or its value, or its index. *)
Definition statement_identifier (i : nat) (n : Node) : jsid :=
  match nodeName n with
  | Some v => name_id v
  | None => default (INum (Z.of_nat i)) (nodeValue n)
  end.

(** The addresses of the statements of a file that one scan selects. *)
Definition addresses_in (kind : string) (test : Node -> bool) (file : string)
    (stmts : list Node) : list Path :=
  (fun s => [IStr file; statement_identifier s.1 s.2]) <$> selected kind test stmts.

(** A document: the path of a file and its statements. *)
Definition Document : Type := string * list Node.

(** The documents of the files of a protocol; a forgotten file object
    throws. *)
Definition documents (proj : Project) (files : list NodeObj) : res (list Document) :=
  mapM_res (fun file => root ← the_node proj file;
                        Ok (oFile file, default [] (statements_of root))) files.

(** The addresses of the declarations of a view: scan after scan, file
    after file, statement after statement. *)
Definition addresses_of `{shapes : ApiShapes} (v : View) (docs : list Document) : list Path :=
  s ← view_scans v; d ← docs; addresses_in s.1 s.2 d.1 d.2.

(** The documents after the statements of the file [path] are edited. *)
Definition edit_document (path : string) (f : list Node -> list Node) (d : Document)
    : Document :=
  if decide (d.1 = path) then (d.1, f d.2) else d.

(** Every type alias and interface among the statements has a name, as in
    every tree a parser returns. *)
Definition declarations_named (stmts : list Node) : Prop :=
  Forall (fun n => is_Some (declaration_kind n) -> is_Some (nodeName n)) stmts.

(** A scan of the getter selects the statement. *)
Definition selects `{shapes : ApiShapes} (v : View) (n : Node) : bool :=
  existsb (fun s => bool_decide (kindName n = s.1) && s.2 n) (view_scans v).

(** ** Lemmas on one scan *)

Section scan_lemmas.
Context `{SB : Sandbox}.
Implicit Types (proj : Project) (file o : NodeObj) (root n : Node) (stmts : list Node)
  (kind : string) (test : Node -> bool) (i : nat).

(** The address a declaration is wrapped with is the path of its node. *)
Lemma address_wrap proj d : address <$> wrap proj d = path <$> referenceTo proj (node d).
Proof. unfold wrap. by destruct (referenceTo proj (node d)). Qed.

(** What a file is searched for, as the statements selected. *)
Lemma matching_selected kind test file (l : list (nat * Node)) :
  matching test
    (omap (fun s => if decide (kindName s.2 = kind) then Some (below file [0; s.1], s.2)
                    else None) l)
  = (fun s => below file [0; s.1])
      <$> filter (fun s => kindName s.2 = kind /\ test s.2 = true) l.
Proof.
  unfold matching. induction l as [|s l IH]; [done|]. csimpl. rewrite (filter_cons _ s).
  destruct (decide (kindName s.2 = kind)) as [Hk|Hk]; [rewrite filter_cons; simpl|];
    repeat case_decide; try tauto; csimpl; by rewrite ?IH.
Qed.

(** The identifier of a type alias or an interface. *)
Lemma identify_declaration filePath n i :
  kindName n = "TypeAliasDeclaration" \/ kindName n = "InterfaceDeclaration" ->
  identify filePath n (Ok i) = Ok (statement_identifier i n).
Proof.
  unfold identify, plain_identifier, statement_identifier.
  intros Hk. rewrite !decide_False by (destruct Hk as [-> | ->]; done).
  by destruct (nodeName n), (nodeValue n).
Qed.

(** The path of a statement of a source file object that is a type alias
    or an interface. *)
Lemma path_of_declaration proj file root stmts i n :
  oPos file = [] -> the_node proj file = Ok root -> statements_of root = Some stmts ->
  stmts !! i = Some n ->
  kindName n = "TypeAliasDeclaration" \/ kindName n = "InterfaceDeclaration" ->
  path <$> referenceTo proj (below file [0; i])
  = Ok [IStr (oFile file); statement_identifier i n].
Proof.
  intros Hpos Hroot Hstmts Hi Hk.
  destruct (statement_at_top_level proj file i n Hpos) as [stmts' Htop]; [by exists root, stmts|].
  unfold referenceTo. rewrite (getPath_statement _ _ _ _ _ _ Htop).
  by rewrite (identify_declaration _ _ _ Hk).
Qed.

(** The addresses of what one scan finds in one file. *)
Lemma addresses_of_file kind test proj file root :
  kind = "TypeAliasDeclaration" \/ kind = "InterfaceDeclaration" ->
  oPos file = [] -> the_node proj file = Ok root ->
  (found ← statements_of_kind kind proj file;
   mapM_res (fun o => path <$> referenceTo proj o) (matching test found))
  = Ok (addresses_in kind test (oFile file) (default [] (statements_of root))).
Proof.
  intros Hkind Hpos Hroot. unfold statements_of_kind, addresses_in, selected.
  rewrite Hroot. cbn [mbind res_bind]. rewrite matching_selected, mapM_res_fmap.
  rewrite <- mapM_res_pure. apply mapM_res_ext.
  intros [i n] [[Hk _] Hin]%list_elem_of_filter. simpl in *.
  apply elem_of_lookup_imap in Hin as (i' & n' & [= <- <-] & Hi).
  destruct (statements_of root) as [stmts|] eqn:Hstmts; [|done].
  apply (path_of_declaration _ _ root stmts); try done. by rewrite Hk.
Qed.

(** The addresses of what one scan finds in the files of a protocol. *)
Lemma addresses_of_scan kind test proj files :
  kind = "TypeAliasDeclaration" \/ kind = "InterfaceDeclaration" ->
  Forall (fun file => oPos file = []) files ->
  (os ← scan (statements_of_kind kind) test proj files;
   mapM_res (fun o => path <$> referenceTo proj o) os)
  = (fun docs => docs ≫= fun d => addresses_in kind test d.1 d.2) <$> documents proj files.
Proof.
  intros Hkind. induction 1 as [|file files Hpos _ IH]; [done|].
  rewrite scan_cons. unfold documents in *. cbn [mapM_res].
  pose proof (addresses_of_file kind test proj file) as Hfile.
  destruct (the_node proj file) as [root|e] eqn:Hroot.
  - specialize (Hfile root Hkind Hpos eq_refl).
    destruct (statements_of_kind kind proj file) as [found|]; [|done].
    destruct (scan _ test proj files) as [rest|], (mapM_res _ files) as [docs|];
      cbn [mbind res_bind fmap res_fmap] in *; try done; by rewrite mapM_res_app, Hfile, IH.
  - unfold statements_of_kind. by rewrite Hroot.
Qed.

End scan_lemmas.

(** ** The addresses of a getter *)

Section getter_lemmas.
Context `{SB : Sandbox} `{shapes : ApiShapes}.
Implicit Types (proj : Project) (p : HttpProtocol.t) (v : View) (docs : list Document).

(** The addresses of the objects of a scan, wrapped for a view. *)
Lemma addresses_of_wrapped proj v os :
  mapM_res (fun d => address <$> wrap proj d) (map (fun each => mkDeclaration each v) os)
  = mapM_res (fun o => path <$> referenceTo proj o) os.
Proof.
  rewrite map_fmap, mapM_res_fmap. apply mapM_res_ext. intros o _. apply address_wrap.
Qed.

(** A getter made of one scan. *)
Lemma addresses_of_one_scan proj v kind test files :
  kind = "TypeAliasDeclaration" \/ kind = "InterfaceDeclaration" ->
  Forall (fun file => oPos file = []) files ->
  (ds ← map (fun each => mkDeclaration each v) <$> scan (statements_of_kind kind) test proj files;
   mapM_res (fun d => address <$> wrap proj d) ds)
  = (fun docs => docs ≫= fun d => addresses_in kind test d.1 d.2) <$> documents proj files.
Proof.
  intros Hkind Hfiles. etrans; [|exact (addresses_of_scan kind test proj files Hkind Hfiles)].
  destruct (scan _ test proj files) as [os|]; [|done]. apply addresses_of_wrapped.
Qed.

(** A getter made of two scans, one after the other. *)
Lemma addresses_of_two_scans proj v kind1 test1 kind2 test2 files :
  kind1 = "TypeAliasDeclaration" \/ kind1 = "InterfaceDeclaration" ->
  kind2 = "TypeAliasDeclaration" \/ kind2 = "InterfaceDeclaration" ->
  Forall (fun file => oPos file = []) files ->
  (ds ← (os1 ← scan (statements_of_kind kind1) test1 proj files;
         os2 ← scan (statements_of_kind kind2) test2 proj files;
         Ok (map (fun each => mkDeclaration each v) os1
             ++ map (fun each => mkDeclaration each v) os2));
   mapM_res (fun d => address <$> wrap proj d) ds)
  = (fun docs => (docs ≫= fun d => addresses_in kind1 test1 d.1 d.2)
                 ++ (docs ≫= fun d => addresses_in kind2 test2 d.1 d.2))
      <$> documents proj files.
Proof.
  intros Hkind1 Hkind2 Hfiles.
  etrans; [|exact (bind_both _ _ _ _ _ _ _ app
                     (addresses_of_scan kind1 test1 proj files Hkind1 Hfiles)
                     (addresses_of_scan kind2 test2 proj files Hkind2 Hfiles))].
  destruct (scan _ test1 proj files) as [os1|]; [|done].
  destruct (scan _ test2 proj files) as [os2|]; [|done].
  cbn [mbind res_bind]. by rewrite mapM_res_app, !addresses_of_wrapped.
Qed.

(** The addresses of a getter, read off the documents. *)
Lemma scanned_addresses_documents proj v p :
  source_files p ->
  scanned_addresses v proj p = addresses_of v <$> documents proj (HttpProtocol.files p).
Proof.
  intros Hp. unfold scanned_addresses, addresses_of.
  destruct v; cbn [declarations_of view_scans];
    unfold HttpProtocol.responseCollections, HttpProtocol.responses, HttpProtocol.results,
      HttpProtocol.parameters, HttpProtocol.headers, getTypeAliases, getInterfaces;
    rewrite ?addresses_of_one_scan, ?addresses_of_two_scans by auto;
    destruct (documents proj _); cbn [fmap res_fmap]; f_equal; csimpl;
    by rewrite ?app_nil_r.
Qed.

(** The documents are read when every file object is live. *)
Lemma documents_Ok proj files :
  is_ok (documents proj files) = true <-> Forall (live proj) files.
Proof.
  unfold documents. induction files as [|file files IH]; [done|].
  rewrite Forall_cons, <- IH. cbn [mapM_res]. destruct (the_node proj file) as [root|] eqn:Hroot.
  - cbn [mbind res_bind]. destruct (mapM_res _ files); simpl; split; try done; try tauto.
    intros _. split; [by eapply the_node_live|done].
  - split; [done|]. intros [[n Hn%resolve_the_node] _]. congruence.
Qed.

End getter_lemmas.

(** ** The documents after an edit *)

Section document_lemmas.
Implicit Types (proj : Project) (file : NodeObj) (root : Node) (stmts : list Node)
  (f : list Node -> list Node) (filePath : string) (docs : list Document).

(** The document of a file object after an edit of the file [filePath],
    read through the object the project holds for the file now. *)
Lemma document_edit_file proj file root filePath f stmts :
  oPos file = [] -> the_node proj file = Ok root ->
  statements_in proj filePath = Some stmts ->
  (root' ← the_node (edit_file filePath f proj) (transport (edit_file filePath f proj) file);
   Ok (oFile (transport (edit_file filePath f proj) file), default [] (statements_of root')))
  = Ok (edit_document filePath f (oFile file, default [] (statements_of root))).
Proof.
  intros Hpos Hroot (sf & Hsf & Hstmts)%bind_Some. unfold edit_file, edit_document.
  rewrite Hsf, transport_file. cbn [fst snd]. case_decide as Hfile.
  - pose proof Hroot as (sf' & Hsf' & _ & Hnode)%the_node_Ok%resolve_obj_Some.
    rewrite Hfile, Hsf, Hpos in *. simplify_eq/=.
    rewrite (transport_regen _ _ (mkSourceFile (nextGen proj) (with_statements f (sfRoot sf'))))
      by apply lookup_insert_eq.
    unfold the_node, regen. rewrite Hpos, parseFile_fresh. simpl.
    by rewrite Hstmts, (statements_of_with_statements f _ stmts).
  - rewrite (the_node_transport proj), Hroot; [done| |by eapply the_node_live].
    symmetry. apply agree_on_same_tree, parseFile_agree. congruence.
Qed.

Lemma documents_edit_file proj files docs filePath f stmts :
  Forall (fun file => oPos file = []) files ->
  statements_in proj filePath = Some stmts ->
  documents proj files = Ok docs ->
  documents (edit_file filePath f proj) (transport (edit_file filePath f proj) <$> files)
  = Ok (edit_document filePath f <$> docs).
Proof.
  intros Hfiles Hstmts. revert docs. unfold documents.
  induction Hfiles as [|file files Hpos _ IH]; intros docs; [by intros [= <-]|].
  rewrite fmap_cons. cbn [mapM_res].
  intros (d & (root & Hroot & [= <-])%bind_Ok_inv & (rest & Hrest & [= <-])%bind_Ok_inv)%bind_Ok_inv.
  by rewrite (document_edit_file _ _ root _ _ stmts), (IH rest).
Qed.

(** The documents of a file hold its statements. *)
Lemma documents_same_file proj files docs filePath stmts :
  Forall (fun file => oPos file = []) files -> statements_in proj filePath = Some stmts ->
  documents proj files = Ok docs ->
  Forall (fun d => d.1 = filePath -> d.2 = stmts) docs.
Proof.
  intros Hfiles Hstmts. revert docs. unfold documents.
  induction Hfiles as [|file files Hpos _ IH]; intros docs; [by intros [= <-]|].
  cbn [mapM_res].
  intros (d' & (root & Hroot & [= <-])%bind_Ok_inv
             & (rest & Hrest & [= <-])%bind_Ok_inv)%bind_Ok_inv.
  constructor; [|by apply IH]. cbn [fst snd]. intros Hfile.
  apply the_node_Ok, resolve_obj_Some in Hroot as (sf & Hsf & _ & Hnode).
  rewrite Hpos in Hnode. unfold statements_in in Hstmts. rewrite <- Hfile, Hsf in Hstmts.
  simplify_eq/=. by rewrite Hstmts.
Qed.

(** ** The addresses after an edit *)

(** The addresses of named declarations do not depend on where the
    declarations are. *)
Lemma addresses_in_named kind test filePath stmts :
  kind = "TypeAliasDeclaration" \/ kind = "InterfaceDeclaration" ->
  declarations_named stmts ->
  addresses_in kind test filePath stmts
  = (fun n => [IStr filePath; statement_identifier 0 n])
      <$> filter (fun n => kindName n = kind /\ test n = true) stmts.
Proof.
  intros Hkind Hnamed. unfold addresses_in, selected.
  rewrite <- (filter_indexed (fun n => kindName n = kind /\ test n = true) _ stmts id).
  apply Forall_fmap_ext, Forall_forall. intros [i n] [[Hk _] Hin]%list_elem_of_filter.
  apply elem_of_lookup_imap in Hin as (? & ? & [= <- <-] & Hin%list_elem_of_lookup_2).
  unfold statement_identifier. simpl in *. apply (proj1 (Forall_forall _ _) Hnamed) in Hin.
  - by destruct Hin as [name ->].
  - unfold declaration_kind. destruct Hkind; subst kind; rewrite Hk; by eexists.
Qed.

(** Fewer statements, fewer addresses, in the order they had. *)
Lemma addresses_in_sublist kind test filePath stmts stmts' :
  kind = "TypeAliasDeclaration" \/ kind = "InterfaceDeclaration" ->
  declarations_named stmts -> sublist stmts' stmts ->
  sublist (addresses_in kind test filePath stmts') (addresses_in kind test filePath stmts).
Proof.
  intros Hkind Hnamed Hsub.
  pose proof (Forall_sublist_of _ _ _ Hnamed Hsub) as Hnamed'.
  rewrite !addresses_in_named by done. by do 2 f_equiv.
Qed.

(** The same statements selected, the same addresses. *)
Lemma addresses_in_same kind test filePath stmts stmts' :
  kind = "TypeAliasDeclaration" \/ kind = "InterfaceDeclaration" ->
  declarations_named stmts -> declarations_named stmts' ->
  filter (fun n => kindName n = kind /\ test n = true) stmts'
  = filter (fun n => kindName n = kind /\ test n = true) stmts ->
  addresses_in kind test filePath stmts' = addresses_in kind test filePath stmts.
Proof. intros Hkind Hnamed Hnamed' Hsame. by rewrite !addresses_in_named, Hsame. Qed.

(** One document after an edit of the file, for one scan and a relation
    between the addresses of before and after. *)
Lemma addresses_in_edit_document (R : relation (list Path)) `{!Reflexive R}
    kind test d filePath f stmts :
  (d.1 = filePath -> d.2 = stmts) ->
  R (addresses_in kind test filePath (f stmts)) (addresses_in kind test filePath stmts) ->
  R (addresses_in kind test (edit_document filePath f d).1 (edit_document filePath f d).2)
    (addresses_in kind test d.1 d.2).
Proof.
  intros Hd HR. unfold edit_document. case_decide as Hfile; [|done].
  cbn [fst snd]. by rewrite (Hd Hfile), Hfile.
Qed.

End document_lemmas.

Section removal_lemmas.
Context `{shapes : ApiShapes}.
Implicit Types (v : View) (docs : list Document) (stmts : list Node) (n : Node).

Lemma view_scans_kinds v :
  Forall (fun s => s.1 = "TypeAliasDeclaration" \/ s.1 = "InterfaceDeclaration")
         (view_scans v).
Proof. destruct v; repeat first [apply Forall_nil_2 | apply Forall_cons_2]; simpl; auto. Qed.

Lemma selects_false v n :
  selects v n = false ->
  Forall (fun s => ~ (kindName n = s.1 /\ s.2 n = true)) (view_scans v).
Proof.
  unfold selects. induction (view_scans v) as [|s ss IH]; [done|]. simpl.
  intros [Hs Hss]%orb_false_iff. constructor; [|by apply IH].
  intros [Hk Ht]. by rewrite bool_decide_eq_true_2, Ht in Hs.
Qed.

(** The addresses of a view after an edit of the file, for a relation
    between the addresses of before and after that holds scan by scan. *)
Lemma addresses_of_edit (R : relation (list Path)) `{!Reflexive R}
    `{!Proper (R ==> R ==> R) app} v docs filePath f stmts :
  Forall (fun d => d.1 = filePath -> d.2 = stmts) docs ->
  Forall (fun s => R (addresses_in s.1 s.2 filePath (f stmts))
                     (addresses_in s.1 s.2 filePath stmts)) (view_scans v) ->
  R (addresses_of v (edit_document filePath f <$> docs)) (addresses_of v docs).
Proof.
  intros Hdocs Hscans. unfold addresses_of. apply (bind_pointwise R).
  eapply Forall_impl; [exact Hscans|]. intros s Hs. rewrite list_fmap_bind.
  apply (bind_pointwise R). eapply Forall_impl; [exact Hdocs|]. intros d Hd.
  by apply (addresses_in_edit_document R _ _ _ _ _ stmts).
Qed.

(** An edit that takes statements away takes addresses away. *)
Lemma addresses_of_fewer v docs filePath f stmts :
  Forall (fun d => d.1 = filePath -> d.2 = stmts) docs -> declarations_named stmts ->
  sublist (f stmts) stmts ->
  sublist (addresses_of v (edit_document filePath f <$> docs)) (addresses_of v docs).
Proof.
  intros Hdocs Hnamed Hsub. apply (addresses_of_edit sublist _ _ _ _ stmts Hdocs).
  eapply Forall_impl; [apply view_scans_kinds|]. intros s Hkind.
  by apply addresses_in_sublist.
Qed.

(** An edit that adds statements adds addresses. *)
Lemma addresses_of_more v docs filePath f stmts :
  Forall (fun d => d.1 = filePath -> d.2 = stmts) docs -> declarations_named (f stmts) ->
  sublist stmts (f stmts) ->
  sublist (addresses_of v docs) (addresses_of v (edit_document filePath f <$> docs)).
Proof.
  intros Hdocs Hnamed Hsub.
  apply (addresses_of_edit (flip sublist) _ _ _ _ stmts Hdocs).
  eapply Forall_impl; [apply view_scans_kinds|]. intros s Hkind.
  by apply addresses_in_sublist.
Qed.

(** An edit of statements that no scan of the getter selects. *)
Lemma addresses_of_same v docs filePath f stmts :
  Forall (fun d => d.1 = filePath -> d.2 = stmts) docs ->
  declarations_named stmts -> declarations_named (f stmts) ->
  Forall (fun s => filter (fun n => kindName n = s.1 /\ s.2 n = true) (f stmts)
                   = filter (fun n => kindName n = s.1 /\ s.2 n = true) stmts)
         (view_scans v) ->
  addresses_of v (edit_document filePath f <$> docs) = addresses_of v docs.
Proof.
  intros Hdocs Hnamed Hnamed' Hsame. apply (addresses_of_edit eq _ _ _ _ stmts Hdocs).
  apply Forall_forall. intros s Hs.
  apply addresses_in_same; [|done..|by apply (proj1 (Forall_forall _ _) Hsame)].
  by apply (proj1 (Forall_forall _ _) (view_scans_kinds v)).
Qed.

End removal_lemmas.

(** ** Theorems *)

Section rescan_theorems.
Context `{SB : Sandbox} `{!SandboxLaws SB} `{shapes : ApiShapes}.
Implicit Types (proj : Project) (p : HttpProtocol.t) (v : View) (docs : list Document)
  (stmts : list Node) (f : list Node -> list Node).

(** C24 (a scan as a function of the statements).  The addresses of the
    declarations a getter returns, each wrapped as the getter wraps it, are
    [addresses_of] on the documents of the protocol: the statements its
    scans select, scan after scan, file after file, in the order of the
    statements, each with the path of its file and its name, value or
    index.  The getter returns exactly when every file object is a node of
    the current tree of its file, and throws otherwise. *)
Theorem scanned_addresses_spec v proj p :
  source_files p ->
  scanned_addresses v proj p = addresses_of v <$> documents proj (HttpProtocol.files p) /\
  (is_ok (scanned_addresses v proj p) = true <-> Forall (live proj) (HttpProtocol.files p)).
Proof.
  intros Hp. rewrite scanned_addresses_documents by done. split; [done|].
  rewrite <- documents_Ok. by destruct (documents proj _).
Qed.

(** (a scan after an edit).  After the statements of a file are
    edited, a getter on the files as they are now returns the declarations
    whose addresses are [addresses_of] on the documents with the edit
    applied: nothing of the scan of before is kept, and nothing but the
    statements of now is read. *)
Theorem rescan_after_edit v proj p docs filePath f stmts :
  source_files p -> statements_in proj filePath = Some stmts ->
  documents proj (HttpProtocol.files p) = Ok docs ->
  scanned_addresses v (edit_file filePath f proj) (current_files (edit_file filePath f proj) p)
  = Ok (addresses_of v (edit_document filePath f <$> docs)).
Proof.
  intros Hp Hstmts Hdocs. rewrite scanned_addresses_documents.
  - cbn [current_files HttpProtocol.files].
    by rewrite (documents_edit_file _ _ docs _ _ stmts).
  - apply Forall_fmap. eapply Forall_impl; [exact Hp|]. intros file. simpl.
    by rewrite transport_pos.
Qed.

(** C25 (a scan after a removal).  Remove a statement of a file whose type
    aliases and interfaces have names.  The getter on the files as they
    are now returns declarations whose addresses are a sublist of the
    addresses of before: none is new, none has changed and none has moved.
    When no scan of the getter selects the removed statement, an import
    for one, the addresses are those of before. *)
Theorem rescan_after_removal v proj p filePath k stmts before :
  source_files p -> statements_in proj filePath = Some stmts -> declarations_named stmts ->
  scanned_addresses v proj p = Ok before ->
  exists after,
    scanned_addresses v (remove_statement filePath k proj)
      (current_files (remove_statement filePath k proj) p) = Ok after /\
    sublist after before /\
    forall removed, stmts !! k = Some removed -> selects v removed = false -> after = before.
Proof.
  intros Hp Hstmts Hnamed. rewrite scanned_addresses_documents by done.
  intros (docs & Hdocs & ->)%fmap_Ok_inv. eexists.
  pose proof (documents_same_file _ _ _ _ _ Hp Hstmts Hdocs) as Hfile. split_and!.
  - by apply (rescan_after_edit v proj p docs filePath (delete k) stmts).
  - apply (addresses_of_fewer _ _ _ _ stmts); [done..|apply sublist_delete].
  - intros removed Hk Hrejected%selects_false.
    apply (addresses_of_same _ _ _ _ stmts); [done|done|by apply Forall_delete|].
    eapply Forall_impl; [exact Hrejected|]. intros s Hs.
    by apply (filter_delete_rejected _ _ _ removed).
Qed.

(** (a scan after an insertion).  Insert a statement in a file whose type
    aliases and interfaces have names, the new one included.  The
    addresses of before are a sublist of the addresses the getter returns
    on the files as they are now, and are those addresses when no scan of
    the getter selects the new statement. *)
Theorem rescan_after_insertion v proj p filePath k m stmts before :
  source_files p -> statements_in proj filePath = Some stmts ->
  declarations_named (m :: stmts) ->
  scanned_addresses v proj p = Ok before ->
  exists after,
    scanned_addresses v (insert_statement filePath k m proj)
      (current_files (insert_statement filePath k m proj) p) = Ok after /\
    sublist before after /\
    (selects v m = false -> after = before).
Proof.
  intros Hp Hstmts Hnamed. rewrite scanned_addresses_documents by done.
  intros (docs & Hdocs & ->)%fmap_Ok_inv. eexists.
  pose proof (documents_same_file _ _ _ _ _ Hp Hstmts Hdocs) as Hfile.
  assert (declarations_named (insert_at k m stmts)) as Hnamed'.
  { apply Forall_cons in Hnamed as [Hm Hnamed]. unfold insert_at.
    apply Forall_app. split; [by apply Forall_take|]. constructor; [done|by apply Forall_drop]. }
  apply Forall_cons in Hnamed as [_ Hnamed]. split_and!.
  - by apply (rescan_after_edit v proj p docs filePath (insert_at k m) stmts).
  - apply (addresses_of_more _ _ _ _ stmts); [done..|apply sublist_insert_at].
  - intros Hrejected%selects_false. apply (addresses_of_same _ _ _ _ stmts); [done..|].
    eapply Forall_impl; [exact Hrejected|]. intros s Hs.
    by apply filter_insert_at_rejected.
Qed.

End rescan_theorems.

(** ** The theorems at the two documents of [Protocol] *)

(** The documents of the protocol over [operations.ts] and [aliases.ts]. *)
Example documents_http_protocol :
  documents protocol_project (HttpProtocol.files http_protocol)
  = Ok [(operations_path, default [] (statements_of operations_ts));
        (aliases_path, default [] (statements_of aliases_ts))].
Proof. reflexivity. Qed.

(** The headers of the two documents, by their addresses. *)
Lemma scanned_addresses_spec_witness :
  @scanned_addresses tsEvaluate shapes_by_tag HeaderView protocol_project http_protocol
  = @addresses_of shapes_by_tag HeaderView
      <$> documents protocol_project (HttpProtocol.files http_protocol) /\
  (is_ok (@scanned_addresses tsEvaluate shapes_by_tag HeaderView protocol_project http_protocol)
   = true <-> Forall (live protocol_project) (HttpProtocol.files http_protocol)).
Proof.
  apply (scanned_addresses_spec (SB:=tsEvaluate) (shapes:=shapes_by_tag)).
  by repeat constructor.
Defined.

Example addresses_of_headers :
  @addresses_of shapes_by_tag HeaderView
    [(operations_path, default [] (statements_of operations_ts));
     (aliases_path, default [] (statements_of aliases_ts))]
  = [[IStr operations_path; IStr "ContentType"]; [IStr aliases_path; IStr "ETag"]].
Proof. reflexivity. Qed.

(** The operation group [Vaults] removed from [operations.ts]: the headers
    are those of before, the results as well. *)
Lemma rescan_after_removal_witness :
  exists after,
    @scanned_addresses tsEvaluate shapes_by_tag HeaderView
      (remove_statement operations_path 0 protocol_project)
      (current_files (remove_statement operations_path 0 protocol_project) http_protocol)
    = Ok after /\
    sublist after [[IStr operations_path; IStr "ContentType"]; [IStr aliases_path; IStr "ETag"]] /\
    forall removed,
      default [] (statements_of operations_ts) !! 0 = Some removed ->
      @selects shapes_by_tag HeaderView removed = false ->
      after = [[IStr operations_path; IStr "ContentType"]; [IStr aliases_path; IStr "ETag"]].
Proof.
  apply (rescan_after_removal (SB:=tsEvaluate) (shapes:=shapes_by_tag) HeaderView
           protocol_project http_protocol operations_path 0
           (default [] (statements_of operations_ts))); try reflexivity.
  - by repeat constructor.
  - repeat constructor; intros _; by eexists.
Defined.

(** An import written at the top of [operations.ts]: the results are those
    of before. *)
Lemma rescan_after_insertion_witness :
  exists after,
    @scanned_addresses tsEvaluate shapes_by_tag ResultView
      (insert_statement operations_path 0 importDeclaration protocol_project)
      (current_files (insert_statement operations_path 0 importDeclaration protocol_project)
         http_protocol)
    = Ok after /\
    sublist [[IStr aliases_path; IStr "Created"]; [IStr operations_path; IStr "Found"]] after /\
    (@selects shapes_by_tag ResultView importDeclaration = false ->
     after = [[IStr aliases_path; IStr "Created"]; [IStr operations_path; IStr "Found"]]).
Proof.
  apply (rescan_after_insertion (SB:=tsEvaluate) (shapes:=shapes_by_tag) ResultView
           protocol_project http_protocol operations_path 0 importDeclaration
           (default [] (statements_of operations_ts))); try reflexivity.
  - by repeat constructor.
  - repeat first [apply Forall_nil_2 | apply Forall_cons_2];
      intros [kind Hkind]; vm_compute in Hkind; try discriminate; by eexists.
Defined.

(** The header [ContentType] removed: the headers of after are those of
    before without it. *)
Example rescan_header_removed :
  @scanned_addresses tsEvaluate shapes_by_tag HeaderView
    (remove_statement operations_path 1 protocol_project)
    (current_files (remove_statement operations_path 1 protocol_project) http_protocol)
  = Ok [[IStr aliases_path; IStr "ETag"]].
Proof. reflexivity. Qed.
