(* ===== verification/Names.v ===== *)
(** * Names: files whose statements have distinct names

    The address of a statement is the path of its file and its name, or
    its index when it has no name; [getNode] takes the first statement
    that answers to a name.  This file states the condition on a file
    under which that is enough, and shows that it is: [well_named] says
    that no two statements of the file have the same name, that no
    statement has a value, and that no name is read as a locator
    expression.

    In a well-named file every statement is the one its identifier
    addresses, so the round trip of [getPath] and [getNode] holds for all
    of them ([well_named_round_trip]); the addresses of the statements are
    pairwise different, so the addresses a getter wraps are free of
    duplicates ([scanned_addresses_NoDup]); and an edit that leaves the
    file well named is a step of the histories of [Tracking] for every
    named statement it keeps ([well_named_edit_step]).  Deletions, and
    insertions of statements with a new name, leave a file well named. *)

From Stdlib Require Import Ascii String ZArith.
From stdpp Require Import base option strings list gmap relations.
From S2P Require Import Prelude JsString Ast Scenarios Sandbox NodePath Reference Healing.
From S2P Require Import Content Edits Tracking HttpModel Protocol Declarations Rescan.

(** ** Well-named files *)

(** The identifier of the statement is its name, or its index: the
    statement has a name that is no locator expression and is no member of
    an enum, or it has no name and [getNodeIdentifier] asks it for none. *)
Definition plain (m : Node) : bool :=
  match nodeName m with
  | Some _ => by_name m
  | None =>
    bool_decide (kindName m <> "SourceFile" /\ kindName m <> "EnumMember" /\
                 kindName m <> "EnumDeclaration")
  end.

(** No two statements have the same name, none has a value, and the
    identifier of each is its name or its index. *)
Definition well_named (stmts : list Node) : Prop :=
  NoDup (omap nodeName stmts) /\
  Forall (fun m => nodeValue m = None /\ plain m = true) stmts.

#[export] Instance well_named_dec stmts : Decision (well_named stmts).
Proof. unfold well_named. apply _. Defined.

(** ** Lemmas *)

Section name_lemmas.
Implicit Types (n m : Node) (stmts : list Node) (i j k : nat) (file : string).

Lemma well_named_lookup stmts i n :
  well_named stmts -> stmts !! i = Some n -> nodeValue n = None /\ plain n = true.
Proof. intros [_ Hall] Hi. exact (proj1 (Forall_lookup _ _) Hall i n Hi). Qed.

(** A statement without a value that answers to the name of [n] has the
    name of [n]. *)
Lemma found_as_same_name n m :
  by_name n = true -> nodeValue m = None -> found_as n m = true -> nodeName m = nodeName n.
Proof.
  unfold by_name, found_as, is_named, matches. intros Hname ->.
  destruct (nodeName n) as [v|]; [|done].
  destruct (decide (kindName n = "EnumDeclaration")).
  - destruct v as [name|]; [|done]. by intros [_ ?%bool_decide_eq_true]%andb_prop.
  - rewrite orb_false_r. destruct (nodeName m) as [v'|]; [|done].
    intros Hv%bool_decide_eq_true. by destruct v, v'; simplify_eq/=.
Qed.

(** In a well-named file a named statement is the first, and the only one,
    to answer to its name. *)
Lemma well_named_found stmts i n :
  well_named stmts -> stmts !! i = Some n -> by_name n = true ->
  list_find (fun m => found_as n m = true) stmts = Some (i, n).
Proof.
  intros Hwn Hi Hname. apply list_find_Some. split_and!; [done|by apply found_as_refl|].
  intros j m Hj Hlt Hfound. destruct (well_named_lookup _ _ _ Hwn Hj) as [Hvalue _].
  pose proof (found_as_same_name _ _ Hname Hvalue Hfound) as Hsame.
  unfold by_name in Hname. destruct (nodeName n) as [v|] eqn:Hv; [|done].
  assert (j = i) by (by apply (NoDup_omap_lookup nodeName stmts j i m n v (proj1 Hwn))). lia.
Qed.

(** No name is a number. *)
Lemma matches_number stmts z :
  Forall (fun m => nodeValue m = None /\ plain m = true) stmts ->
  list_find (fun each => matches (INum z) each = true) stmts = None.
Proof.
  intros Hall. apply list_find_None. eapply Forall_impl; [exact Hall|].
  intros m [Hvalue _]. unfold matches. rewrite Hvalue.
  by destruct (nodeName m) as [[name|]|].
Qed.

(** In a well-named file every statement is the one its identifier
    addresses. *)
Lemma well_named_addressable file stmts i n :
  well_named stmts -> stmts !! i = Some n -> addressable file stmts i n = true.
Proof.
  intros Hwn Hi. destruct (well_named_lookup _ _ _ Hwn Hi) as [Hvalue Hplain].
  unfold plain in Hplain. destruct (nodeName n) as [v|] eqn:Hv.
  - rewrite addressable_by_name, (well_named_found _ i n) by done. by apply bool_decide_eq_true.
  - apply bool_decide_eq_true in Hplain as (? & ? & ?).
    unfold addressable, identify, plain_identifier. rewrite Hv, Hvalue.
    rewrite !decide_False by tauto. cbn [mbind res_bind is_expression andb].
    rewrite (matches_number _ _ (proj2 Hwn)), !decide_False by tauto.
    by rewrite !bool_decide_eq_true_2.
Qed.

(** The identifiers of the statements of a well-named file are pairwise
    different. *)
Lemma statement_identifier_inj stmts i j n m :
  well_named stmts -> stmts !! i = Some n -> stmts !! j = Some m ->
  statement_identifier i n = statement_identifier j m -> i = j.
Proof.
  intros Hwn Hi Hj. unfold statement_identifier.
  rewrite (proj1 (well_named_lookup _ _ _ Hwn Hi)), (proj1 (well_named_lookup _ _ _ Hwn Hj)).
  destruct (nodeName n) as [v|] eqn:Hn, (nodeName m) as [v'|] eqn:Hm; simpl.
  - intros Hv. apply (NoDup_omap_lookup nodeName stmts i j n m v (proj1 Hwn)); try done.
    rewrite Hm. by destruct v, v'; simplify_eq/=.
  - by destruct v.
  - by destruct v'.
  - intros [= H]. lia.
Qed.

(** ** Edits that keep a file well named *)

Lemma well_named_sublist stmts stmts' :
  well_named stmts -> sublist stmts' stmts -> well_named stmts'.
Proof.
  intros [Hnames Hall] Hsub. split; [|by apply (Forall_sublist_of _ stmts)].
  apply (sublist_NoDup _ (omap nodeName stmts)); [done|by f_equiv].
Qed.

Lemma well_named_delete stmts k : well_named stmts -> well_named (delete k stmts).
Proof. intros Hwn. apply (well_named_sublist stmts); [done|apply sublist_delete]. Qed.

(** The insertion of a statement without a name, or with a name no
    statement has. *)
Lemma well_named_insert_at stmts k m :
  well_named stmts -> nodeValue m = None -> plain m = true ->
  (forall v, nodeName m = Some v -> v ∉ omap nodeName stmts) ->
  well_named (insert_at k m stmts).
Proof.
  intros [Hnames Hall] Hvalue Hplain Hnew.
  assert (insert_at k m stmts ≡ₚ m :: stmts) as Hperm.
  { unfold insert_at. by rewrite <- Permutation_middle, take_drop. }
  split; [|by rewrite Hperm; constructor]. rewrite Hperm. csimpl.
  destruct (nodeName m) as [v|]; [|done]. apply NoDup_cons. auto.
Qed.

End name_lemmas.

(** ** The addresses of a well-named file *)

Section address_lemmas.
Context `{shapes : ApiShapes}.
Implicit Types (stmts : list Node) (docs : list Document) (v : View) (filePath : string).

(** The addresses of the statements one scan selects in a well-named file
    are pairwise different. *)
Lemma addresses_in_NoDup kind test filePath stmts :
  well_named stmts -> NoDup (addresses_in kind test filePath stmts).
Proof.
  intros Hwn. unfold addresses_in, selected.
  apply NoDup_fmap_2_strong; [|apply NoDup_filter, NoDup_imap_pair].
  intros [i n] [j m] [_ Hn]%list_elem_of_filter [_ Hm]%list_elem_of_filter [= Hid].
  apply elem_of_lookup_imap in Hn as (? & ? & [= <- <-] & Hi).
  apply elem_of_lookup_imap in Hm as (? & ? & [= <- <-] & Hj).
  assert (i = j) as -> by (by apply (statement_identifier_inj stmts i j n m)). congruence.
Qed.

(** An address of a scan: the document, the place and the statement it is
    the address of. *)
Lemma elem_of_addresses_in kind test filePath stmts a :
  a ∈ addresses_in kind test filePath stmts <->
  exists i n, stmts !! i = Some n /\ kindName n = kind /\ test n = true /\
              a = [IStr filePath; statement_identifier i n].
Proof.
  unfold addresses_in, selected. rewrite list_elem_of_fmap. split.
  - intros ([i n] & -> & [[Hk Ht] Hin]%list_elem_of_filter).
    apply elem_of_lookup_imap in Hin as (? & ? & [= <- <-] & Hi). eauto 10.
  - intros (i & n & Hi & Hk & Ht & ->). exists (i, n). split; [done|].
    apply list_elem_of_filter. split; [done|]. apply elem_of_lookup_imap. eauto.
Qed.

(** The kinds of the scans of a getter are pairwise different. *)
Lemma view_scans_NoDup v : NoDup (view_scans v).*1.
Proof. destruct v; by apply (bool_decide_unpack _). Qed.

(** The addresses of a view over well-named documents of different paths
    are pairwise different. *)
Lemma addresses_of_NoDup v docs :
  NoDup docs.*1 -> Forall (fun d => well_named d.2) docs -> NoDup (addresses_of v docs).
Proof.
  intros Hpaths Hwn. pose proof (proj1 (Forall_forall _ _) Hwn) as Hdoc.
  assert (forall s1 s2 d1 d2 a, d1 ∈ docs -> d2 ∈ docs ->
            a ∈ addresses_in s1.1 s1.2 d1.1 d1.2 -> a ∈ addresses_in s2.1 s2.2 d2.1 d2.2 ->
            d1 = d2 /\ s1.1 = s2.1) as Hsame.
  { intros s1 s2 d1 d2 a Hd1 Hd2 (i & n & Hi & Hk & _ & ->)%elem_of_addresses_in
      (j & m & Hj & Hk' & _ & [= Hfile Hid])%elem_of_addresses_in.
    assert (d1 = d2) as <- by (by apply (NoDup_fmap_inj_on fst docs)). split; [done|].
    assert (i = j) as <- by (by apply (statement_identifier_inj d1.2 i j n m); auto).
    congruence. }
  unfold addresses_of. apply NoDup_bind.
  - intros s1 s2 a Hs1 Hs2 (d1 & Ha1 & Hd1)%list_elem_of_bind (d2 & Ha2 & Hd2)%list_elem_of_bind.
    apply (NoDup_fmap_inj_on fst (view_scans v)); [apply view_scans_NoDup|done..|].
    by destruct (Hsame s1 s2 d1 d2 a).
  - intros s _. apply NoDup_bind; [|by auto using addresses_in_NoDup|by eapply NoDup_fmap_1].
    intros d1 d2 a Hd1 Hd2 Ha1 Ha2. by destruct (Hsame s s d1 d2 a).
  - eapply NoDup_fmap_1, view_scans_NoDup.
Qed.

(** The paths of the documents are the paths of the files. *)
Lemma documents_paths proj files docs :
  documents proj files = Ok docs -> docs.*1 = oFile <$> files.
Proof.
  revert docs. unfold documents. induction files as [|file files IH]; intros docs.
  - by intros [= <-].
  - cbn [mapM_res].
    intros (d & (root & _ & [= <-])%bind_Ok_inv & (rest & Hrest & [= <-])%bind_Ok_inv)%bind_Ok_inv.
    csimpl. by rewrite (IH rest).
Qed.

End address_lemmas.

(** ** Theorems *)

Section name_theorems.
Context `{SB : Sandbox} `{!SandboxLaws SB} `{shapes : ApiShapes}.
Implicit Types (proj : Project) (o : NodeObj) (n : Node) (stmts : list Node) (i : nat)
  (p : HttpProtocol.t) (v : View) (docs : list Document) (r : Ref).

(** C11 (the round trip in a well-named file).  In a file whose statements
    have pairwise different names, no values, and no name that is read as
    a locator expression, the path [getPath] computes for a statement,
    whichever it is, named or not, is resolved by [getNode] to that
    statement. *)
Theorem well_named_round_trip proj o stmts i n :
  top_level proj o = Some (stmts, i, n) -> well_named stmts ->
  (path ← getPath proj o []; getNode proj path FromProject) = Ok (Some o).
Proof.
  intros Htop Hwn. pose proof Htop as (_ & _ & _ & _ & Hi)%top_level_Some.
  pose proof (well_named_addressable (oFile o) _ _ _ Hwn Hi) as Haddr.
  rewrite (getPath_statement _ _ _ _ _ _ Htop).
  destruct (identify (oFile o) n (Ok i)) as [id|] eqn:Hid; simpl.
  - unfold getNode. by rewrite (getNode_statement _ _ _ _ _ _ Htop Haddr Hid).
  - unfold addressable in Haddr. by rewrite Hid in Haddr.
Qed.

(** An edit that leaves the file well named is a step of the history of
    every named statement it keeps. *)
Lemma well_named_edit_step proj r filePath f stmts i n :
  statements_in proj filePath = Some stmts -> well_named (f stmts) ->
  f stmts !! i = Some n -> by_name n = true ->
  edit_step filePath n (proj, r) (edit_file filePath f proj, r).
Proof.
  intros Hin Hwn Hi Hname. apply (step_edit _ _ _ _ _ stmts i); [done|].
  by apply well_named_found.
Qed.

(** C26 (addresses without duplicates).  Over files of different paths that
    are well named, the addresses of the declarations a getter returns are
    pairwise different: no two declarations of a scan are equal as
    declarations, and a collection de-duplicated by address loses none. *)
Theorem scanned_addresses_NoDup v proj p docs :
  source_files p -> documents proj (HttpProtocol.files p) = Ok docs ->
  NoDup (oFile <$> HttpProtocol.files p) -> Forall (fun d => well_named d.2) docs ->
  exists addresses, scanned_addresses v proj p = Ok addresses /\ NoDup addresses.
Proof.
  intros Hp Hdocs Hpaths Hwn. rewrite scanned_addresses_documents, Hdocs by done.
  eexists. split; [done|]. apply addresses_of_NoDup; [|done].
  by rewrite (documents_paths _ _ _ Hdocs).
Qed.

End name_theorems.

(** ** The theorems at the documents of the scenarios *)

(** [DeletedVaultListResult.ts], an import and an interface, is well
    named; the interface declared twice is not. *)
Example keyvault_well_named :
  well_named [importDeclaration; DeletedVaultListResult_interface] /\
  ~ well_named [merged_Vaults_first; merged_Vaults_second].
Proof.
  split; [by apply (bool_decide_unpack _)|by apply (proj1 (bool_decide_eq_false _))].
Qed.

(** The import of [DeletedVaultListResult.ts], which has no name, and the
    interface: the path of each leads back to it. *)
Lemma well_named_round_trip_witness :
  (path ← getPath keyvault_project DeletedVault_import_obj [];
   @getNode tsEvaluate keyvault_project path FromProject) = Ok (Some DeletedVault_import_obj).
Proof.
  apply (well_named_round_trip (SB:=tsEvaluate) keyvault_project DeletedVault_import_obj
           [importDeclaration; DeletedVaultListResult_interface] 0 importDeclaration);
    [reflexivity|by apply (bool_decide_unpack _)].
Defined.

(** The results of [operations.ts] and [aliases.ts] have different
    addresses. *)
Lemma scanned_addresses_NoDup_witness :
  exists addresses,
    @scanned_addresses tsEvaluate shapes_by_tag ResultView protocol_project http_protocol
    = Ok addresses /\ NoDup addresses.
Proof.
  apply (scanned_addresses_NoDup (SB:=tsEvaluate) (shapes:=shapes_by_tag) ResultView
           protocol_project http_protocol
           [(operations_path, default [] (statements_of operations_ts));
            (aliases_path, default [] (statements_of aliases_ts))]);
    [by repeat constructor|reflexivity|by apply (bool_decide_unpack _)|].
  repeat constructor; by apply (bool_decide_unpack _).
Defined.
