(* ===== verification/Rules.v ===== *)
(** * Rules: the Azure rule on properties that are read-only and required

    [plugins/azure/rules/require-read-only-properties.ts].  The rule is a
    record of its activation, its identifier, its description and the
    handler [onProperty].  The handler returns nothing or a message with two
    suggestions; the [fix] of a suggestion ([apply_fix]) is a closure over the property
    that assigns one of its flags, written here as a function from the
    property to the property after the assignment.  A flag of a property may
    be undefined, which a condition reads as false. *)

From Stdlib Require Import Ascii String.
From stdpp Require Import base option strings list.
From S2P Require Import Prelude.

(** ** Properties of a model *)

(** What the rule reads and writes of a property. *)
Record Property : Type := mkProperty {
  name : string;
  readOnly : option bool;
  required : option bool
}.

(** A flag in a condition: undefined counts as false. *)
Definition truthy (flag : option bool) : bool := default false flag.

(** ** What a rule returns *)

(** A suggestion on a subject [T] of the model, a property or an
    operation: [apply_fix] is its [fix], the subject after the assignments. *)
Record Suggestion (T : Type) : Type := mkSuggestion {
  description : string;
  apply_fix : T -> T
}.
Arguments mkSuggestion {T} description apply_fix.
Arguments description {T} s.
Arguments apply_fix {T} s subject.

Record RuleResult (T : Type) : Type := mkRuleResult {
  message : string;
  suggestions : list (Suggestion T)
}.
Arguments mkRuleResult {T} message suggestions.
Arguments message {T} r.
Arguments suggestions {T} r.

Record Meta : Type := mkMeta {
  severity : string;
  meta_description : string;
  documentationUrl : string
}.

Record Rule : Type := mkRule {
  activation : string;
  id : string;
  meta : Meta;
  onProperty : Property -> option (RuleResult Property)
}.

(** ** The rule *)

(** [property.readOnly = false]. *)
Definition remove_readonly (property : Property) : Property :=
  mkProperty (name property) (Some false) (required property).

(** [property.required = false]. *)
Definition mark_optional (property : Property) : Property :=
  mkProperty (name property) (readOnly property) (Some false).

(** The handler [onProperty] of the rule. *)
Definition require_read_only_properties_onProperty (property : Property)
    : option (RuleResult Property) :=
  if truthy (readOnly property) && truthy (required property) then
    Some (mkRuleResult
      ("A property '" +:+ name property +:+ "' cannot be marked both as readOnly and required.")
      [mkSuggestion "Remove readonly keyword." remove_readonly;
       mkSuggestion "Mark this property as optional." mark_optional])
  else None.

Definition require_read_only_properties : Rule :=
  mkRule "edit" "require-read-only-properties"
    (mkMeta "error"
       "A model property cannot be both readOnly and required. A readOnly property is something that the server sets when returning the model object while required is a property to be set when sending it as a part of the request body."
       "https://github.com/Azure/azure-rest-api-specs/blob/master/documentation/openapi-authoring-automated-guidelines.md#r2056-requiredreadonlyproperties")
    require_read_only_properties_onProperty.

(** ** What the theorems speak of *)

(** The property breaks the rule. *)
Definition violates (property : Property) : Prop :=
  readOnly property = Some true /\ required property = Some true.

(** A property of a model that is read-only and required. *)
Definition provisioningState : Property := mkProperty "provisioningState" (Some true) (Some true).

(** ** Lemmas *)

Section rule_lemmas.
Implicit Types (property : Property) (s : Suggestion Property) (r : RuleResult Property).

Lemma truthy_true flag : truthy flag = true <-> flag = Some true.
Proof. destruct flag as [[|]|]; simpl; split; congruence. Qed.

Lemma onProperty_None property :
  require_read_only_properties_onProperty property = None <-> ~ violates property.
Proof.
  unfold require_read_only_properties_onProperty, violates.
  destruct (truthy (readOnly property)) eqn:Hr, (truthy (required property)) eqn:Hq; simpl;
    rewrite ?truthy_true in *; split; try done; try tauto.
  - intros H [? ?]. apply not_true_iff_false in Hq. by apply Hq, truthy_true.
  - intros H [? ?]. apply not_true_iff_false in Hr. by apply Hr, truthy_true.
  - intros H [? ?]. apply not_true_iff_false in Hr. by apply Hr, truthy_true.
Qed.

Lemma onProperty_Some property r :
  require_read_only_properties_onProperty property = Some r ->
  violates property /\
  apply_fix <$> suggestions r = [remove_readonly; mark_optional].
Proof.
  unfold require_read_only_properties_onProperty, violates.
  destruct (truthy (readOnly property)) eqn:Hr, (truthy (required property)) eqn:Hq;
    simpl; try done.
  intros [= <-]. by rewrite <- !truthy_true.
Qed.

End rule_lemmas.

(** ** Theorems *)

Section rule_theorems.
Implicit Types (property : Property) (s : Suggestion Property) (r : RuleResult Property).

(** The rule reports a property exactly when the property is read-only
    and required, and the message names the property. *)
Theorem onProperty_reports property :
  match onProperty require_read_only_properties property with
  | Some r =>
      violates property /\
      message r = "A property '" +:+ name property +:+
                  "' cannot be marked both as readOnly and required."
  | None => ~ violates property
  end.
Proof.
  simpl. destruct (require_read_only_properties_onProperty property) as [r|] eqn:H.
  - split; [by apply onProperty_Some in H as [? _]|].
    unfold require_read_only_properties_onProperty in H.
    destruct (_ && _); [|done]. by injection H as <-.
  - by apply onProperty_None.
Qed.

(** Each suggestion of a report repairs the property: after its fix the
    rule reports nothing, the name is the same, and the flag the fix does not
    assign is the same. *)
Theorem fix_repairs property r s :
  onProperty require_read_only_properties property = Some r ->
  s ∈ suggestions r ->
  onProperty require_read_only_properties (apply_fix s property) = None /\
  name (apply_fix s property) = name property /\
  (readOnly (apply_fix s property) = readOnly property \/
   required (apply_fix s property) = required property).
Proof.
  simpl. intros [_ Hfix]%onProperty_Some Hs.
  apply (list_elem_of_fmap_2 apply_fix) in Hs. rewrite Hfix in Hs.
  apply elem_of_cons in Hs as [->| Hs]; [|apply list_elem_of_singleton in Hs as ->].
  - split; [|by auto]. apply onProperty_None. by intros [[=] _].
  - split; [|by auto]. apply onProperty_None. by intros [_ [=]].
Qed.

End rule_theorems.

Lemma fix_repairs_witness :
  onProperty require_read_only_properties (remove_readonly provisioningState) = None /\
  name (remove_readonly provisioningState) = name provisioningState /\
  (readOnly (remove_readonly provisioningState) = readOnly provisioningState \/
   required (remove_readonly provisioningState) = required provisioningState).
Proof.
  apply (fix_repairs provisioningState
           (mkRuleResult
              "A property 'provisioningState' cannot be marked both as readOnly and required."
              [mkSuggestion "Remove readonly keyword." remove_readonly;
               mkSuggestion "Mark this property as optional." mark_optional])
           (mkSuggestion "Remove readonly keyword." remove_readonly)); [reflexivity|].
  apply elem_of_cons. by left.
Defined.
