(* ===== verification/OpenApiExample.v ===== *)
(** * OpenApiExample: examples of the OpenAPI 3 serializer

    [serialization/openapiv3/example.ts] holds one function,
    [processExamples], which the serializer calls on the examples of a
    document.  It is a stub: whatever the examples, the promise it returns
    resolves to [undefined].  The serializer itself is not among the
    sources. *)

From stdpp Require Import base option.
From S2P Require Import Prelude.

(** [processExamples($)]: the value its promise resolves to. *)
Definition processExamples {DictionaryContext Element : Type} (dollar : DictionaryContext)
    : res (option Element) :=
  Ok None.
