(* ===== verification/Harness.v ===== *)
(** * Harness: the tests of [core/test/load-openapi3.ts]

    The file registers one Mocha test per OpenAPI file of
    [test/scenarios/v3/single/input] and one per folder of
    [test/scenarios/v3/multiple].  A test imports its input into an api
    model, saves the model as TypeScript, serializes it to YAML beside the
    attic (what the importer could not place), and asserts that the YAML
    file is there and that no error was accumulated.

    Everything the tests call is outside [src/]: [fs], [path], [RegExp],
    [@azure-tools/async-io], [ApiModel], [./common], [./serialization].
    They are the fields of the class [Collaborators], over a world [W] that
    holds the file system; what the tests rely on, that a file that was
    written is a file, is the class [AsyncIoLaws].  A promise is a function
    of the world that returns a result and the world after ([IO]); [await]
    is the bind of that monad.  [console.log] and the stopwatch are left
    out: they print.

    [memory] is a world in memory with collaborators that satisfy the laws;
    the witnesses run the tests on it.

    Against the interface: [checkAttic] writes the attic when there is one
    and returns the accumulator of errors as it was given, every check of
    the attic being commented out ([checkAttic_errors]).  Once the calls
    of a test have returned, its two assertions hold
    ([verify_after_emit]): the first by the law of the file system, which
    is assumed of [async-io] here, the second because [checkAttic] is the
    only call that is given the accumulator ([Processes_file_passes],
    [Processes_folder_passes]).  The tests of the single files are those of
    the regular files of the input folder whose names do not start with
    an underscore, as the folder was when the tests were registered
    ([Load_Single_OAI3_files_titles]), those of the folders one per folder
    ([Load_Multiple_OAI3_files_titles]), and a run reports one verdict per
    test, in order ([run_tests_titles]). *)

From Stdlib Require Import Ascii String.
From stdpp Require Import base option strings list gmap.
From S2P Require Import Prelude JsString.

(** ** Promises *)

(** A computation on the world: its result, or the exception it threw, and
    the world it leaves. *)
Definition IO (W A : Type) : Type := W -> res A * W.

#[export] Instance IO_ret {W} : MRet (IO W) := fun A a w => (Ok a, w).

(** [await]: the rest runs in the world the promise leaves; an exception
    ends the computation there. *)
#[export] Instance IO_bind {W} : MBind (IO W) := fun A B f m w =>
  match m w with
  | (Ok a, w') => f a w'
  | (Err e, w') => (Err e, w')
  end.

(** A synchronous call that reads the world. *)
Definition reads {W A} (f : W -> res A) : IO W A := fun w => (f w, w).

(** A call that does not touch the world. *)
Definition lift {W A} (r : res A) : IO W A := fun _w => (r, _w).

(** ** What the tests call *)

(** [fs.Stats], as far as the tests ask. *)
Record Stats : Type := mkStats {
  Stats_isFile : bool;
  Stats_isDirectory : bool
}.

(** [./errors]: the accumulator of failed checks. *)
Record Errors : Type := mkErrors {
  count : nat;
  summary : string
}.

(** [new AccumulateErrors()]: nothing accumulated. *)
Definition new_Errors : Errors := mkErrors 0 "".

(** The modules the file imports. *)
Class Collaborators (W Api Model RegExp : Type) : Type := {
  (* fs *)
  readdirSync : string -> W -> res (list string);
  statSync : string -> W -> res Stats;
  (* path *)
  path_resolve : list string -> string;
  extname : string -> string;
  basename : string -> string -> string;
  (* RegExp and String.prototype.replace *)
  new_RegExp : string -> string -> res RegExp;
  replace : string -> RegExp -> string -> string;
  (* @azure-tools/async-io *)
  isFile : string -> IO W bool;
  writeFile : string -> string -> IO W unit;
  (* model/api-model on support/file-system: new ApiModel(new UrlFileSystem(root)) *)
  new_ApiModel : string -> Api;
  importModel : Api -> string -> list string -> IO W Api;
  saveADL : Api -> bool -> IO W (Api * nat);
  attic : Api -> option Model;
  (* ./common *)
  subscribeToMessages : Api -> Api;
  clean : string -> string -> IO W unit;
  (* ./serialization *)
  serialize : Api -> res string;
  serialize_attic : Model -> res string
}.

(** What the tests rely on: a path that was written is a file, and asking
    does not change the world. *)
Class AsyncIoLaws `(C : Collaborators W Api Model RegExp) : Prop := {
  writeFile_isFile path content w w' :
    writeFile path content w = (Ok tt, w') -> isFile path w' = (Ok true, w')
}.

(** The line feed of the messages. *)
Definition newline : string := String "010" EmptyString.

(** [assert.equal] on booleans and [assert.fail]. *)
Definition equal (actual expected : bool) (message : string) : res unit :=
  if bool_decide (actual = expected) then Ok tt else throw (AssertionError message).

Definition fail {A} (message : string) : res A := throw (AssertionError message).

(** [linq.values(array).where(test).toArray()] with a test that may throw. *)
Fixpoint where_toArray {A} (test : A -> res bool) (array : list A) : res (list A) :=
  match array with
  | [] => Ok []
  | each :: rest =>
    keep ← test each;
    others ← where_toArray test rest;
    Ok (if keep : bool then each :: others else others)
  end.

(** A test of Mocha: what [it] registers. *)
Record Test (W : Type) : Type := mkTest {
  title : string;
  body : IO W unit
}.
Arguments mkTest {W} title body.
Arguments title {W} t.
Arguments body {W} t.

(** Mocha runs the tests in the order they were registered; a test that
    throws has failed, and the next one runs in the world it left. *)
Fixpoint run_tests {W} (tests : list (Test W)) (w : W) : list (string * res unit) * W :=
  match tests with
  | [] => ([], w)
  | t :: rest =>
    let '(verdict, w') := body t w in
    let '(verdicts, w'') := run_tests rest w' in
    ((title t, verdict) :: verdicts, w'')
  end.

(** ** The tests *)

Section harness.
Context `{C : Collaborators W Api Model RegExp}.
Implicit Types (w : W) (api : Api) (errors : Errors).

Definition scenarios (dirname : string) : string :=
  dirname +:+ "/../../../test/scenarios/v3".

(** The accumulator is an object the caller reads afterwards: its state
    after the call is returned.  Every [errors.check] of the function is
    in a comment, so it is the state before the call. *)
Definition checkAttic api errors (atticOutput : string) : IO W Errors :=
  match attic api with
  | Some a =>
    content ← lift (serialize_attic a);
    writeFile atticOutput content;;
    mret errors
  | None => mret errors
  end.

(** The names in a folder that are regular files. *)
Definition files_in (folder : string) w : res (list string) :=
  names ← readdirSync folder w;
  where_toArray (fun each => Stats_isFile <$> statSync (folder +:+ "/" +:+ each) w) names.

(** The names in a folder that are folders. *)
Definition folders_in (folder : string) w : res (list string) :=
  names ← readdirSync folder w;
  where_toArray (fun each => Stats_isDirectory <$> statSync (folder +:+ "/" +:+ each) w) names.

(** The end of both tests, its calls: the outputs are cleaned, the attic
    is written, the model is serialized and written. *)
Definition emit api (apiOutput atticOutput : string) : IO W Errors :=
  let errors := new_Errors in
  clean apiOutput atticOutput;;
  errors ← checkAttic api errors atticOutput;
  content ← lift (serialize api);
  writeFile apiOutput content;;
  mret errors.

(** The end of both tests, its assertions. *)
Definition verify (apiOutput : string) errors : IO W unit :=
  written ← isFile apiOutput;
  lift (equal written true ("Should write file " +:+ apiOutput +:+ " "));;
  if bool_decide (0 < count errors)
  then lift (fail ("Should not report errors: " +:+ newline +:+ "      " +:+ summary errors
                   +:+ newline))
  else mret tt.

(** The test of one file, its calls. *)
Definition Processes_file_calls (inputRoot outputRoot file : string) : IO W (string * Errors) :=
  let ext := extname file in
  let name := basename file ext in
  let adlOutput := path_resolve [outputRoot +:+ "/" +:+ name] in
  let api := subscribeToMessages (new_ApiModel adlOutput) in
  api ← importModel api inputRoot [file];
  '(api, n) ← saveADL api true;
  extRegex ← lift (new_RegExp (ext +:+ "$") "ig");
  let apiOutput := path_resolve [adlOutput +:+ "/" +:+ replace file extRegex ".api.yaml"] in
  let atticOutput := path_resolve [adlOutput +:+ "/" +:+ replace file extRegex ".attic.yaml"] in
  errors ← emit api apiOutput atticOutput;
  mret (apiOutput, errors).

(** The test of one file. *)
Definition Processes_file (inputRoot outputRoot file : string) : IO W unit :=
  '(apiOutput, errors) ← Processes_file_calls inputRoot outputRoot file;
  verify apiOutput errors.

Definition Load_Single_OAI3_files (dirname : string) w : res (list (Test W)) :=
  let inputRoot := scenarios dirname +:+ "/single/input" in
  let outputRoot := scenarios dirname +:+ "/single/output" in
  files ← files_in inputRoot w;
  Ok (omap (M:=list) (fun file =>
              if startsWith file "_" then None
              else Some (mkTest ("Processes '" +:+ file +:+ "'")
                                (Processes_file inputRoot outputRoot file)))
           files).

(** The test of one folder, its calls. *)
Definition Processes_folder_calls (inputRoot adlOutput folder : string)
    : IO W (string * Errors) :=
  let api := subscribeToMessages (new_ApiModel adlOutput) in
  files ← reads (files_in inputRoot);
  api ← importModel api inputRoot files;
  '(api, n) ← saveADL api true;
  let apiOutput := path_resolve [adlOutput +:+ "/" +:+ folder +:+ ".api.yaml"] in
  let atticOutput := path_resolve [adlOutput +:+ "/" +:+ folder +:+ ".attic.yaml"] in
  errors ← emit api apiOutput atticOutput;
  mret (apiOutput, errors).

(** The test of one folder. *)
Definition Processes_folder (inputRoot adlOutput folder : string) : IO W unit :=
  '(apiOutput, errors) ← Processes_folder_calls inputRoot adlOutput folder;
  verify apiOutput errors.

Definition Load_Multiple_OAI3_files (dirname : string) w : res (list (Test W)) :=
  let root := scenarios dirname +:+ "/multiple" in
  folders ← folders_in root w;
  Ok (fmap (M:=list) (fun folder =>
         let inputRoot := path_resolve [root; folder; "input"] in
         let adlOutput := path_resolve [inputRoot +:+ "/../output/"] in
         mkTest ("Processes '" +:+ folder +:+ "'") (Processes_folder inputRoot adlOutput folder))
      folders).

(** The file as Mocha loads and runs it: both suites are collected in the
    world as it is, then the tests run. *)
Definition load_openapi3 (dirname : string) w : res (list (string * res unit) * W) :=
  single ← Load_Single_OAI3_files dirname w;
  multiple ← Load_Multiple_OAI3_files dirname w;
  Ok (run_tests (single ++ multiple) w).

End harness.

(** ** A world in memory *)

(** What a path holds. *)
Inductive Entry : Type :=
| File (content : string)
| Directory (names : list string).

(** The file system: what each path holds. *)
Definition Memory : Type := gmap string Entry.

(** The api model of the world in memory: the folder it saves to, the
    documents it has imported by name, and what it could not place. *)
Record MemoryApi : Type := mkMemoryApi {
  api_root : string;
  api_documents : list (string * string);
  api_attic : option string
}.

Definition ENOENT (path : string) : error :=
  LibError ("ENOENT: no such file or directory '" +:+ path +:+ "'").

(** The segments of a path between its separators. *)
Fixpoint split_on (separator : ascii) (path : string) : list string :=
  match path with
  | EmptyString => [EmptyString]
  | String c rest =>
    if decide (c = separator) then EmptyString :: split_on separator rest
    else match split_on separator rest with
         | segment :: segments => String c segment :: segments
         | [] => [String c EmptyString]
         end
  end.

(** An absolute path without empty segments, [.] or [..]. *)
Definition normalize (path : string) : string :=
  "/" +:+ String.concat "/"
    (foldl (fun done segment =>
              if decide (segment = "" \/ segment = ".") then done
              else if decide (segment = "..") then removelast done
              else done ++ [segment])
           [] (split_on "/" path)).

(** What the world holds at a path. *)
Definition at_path (w : Memory) (path : string) : option Entry := w !! normalize path.

(** The suffix of a name from its last full stop. *)
Fixpoint from_last_dot (name : string) : option string :=
  match name with
  | EmptyString => None
  | String c rest =>
    match from_last_dot rest with
    | Some ext => Some ext
    | None => if decide (c = "."%char) then Some name else None
    end
  end.

(** The name with its first suffix that is [ext] replaced. *)
Fixpoint replace_suffix (name ext replacement : string) : string :=
  if decide (name = ext) then replacement
  else match name with
       | EmptyString => EmptyString
       | String c rest => String c (replace_suffix rest ext replacement)
       end.

(** The text before the final dollar of the source of an expression. *)
Fixpoint anchored (source : string) : string :=
  match source with
  | EmptyString => EmptyString
  | String c rest => if decide (rest = "$") then String c EmptyString
                     else String c (anchored rest)
  end.

(** An import places what is empty and leaves the text of the other
    documents in the attic. *)
Definition memory_importModel (api : MemoryApi) (inputRoot : string) (files : list string)
    : IO Memory MemoryApi := fun w =>
  match mapM_res (fun file =>
                    match at_path w (inputRoot +:+ "/" +:+ file) with
                    | Some (File content) => Ok (file, content)
                    | _ => throw (ENOENT (inputRoot +:+ "/" +:+ file))
                    end) files with
  | Ok documents =>
    let left := String.concat "" (documents.*2) in
    (Ok (mkMemoryApi (api_root api) (api_documents api ++ documents)
           (if decide (left = "") then api_attic api else Some left)), w)
  | Err e => (Err e, w)
  end.

(** Collaborators over the world in memory, for absolute paths, names of
    files without folders and extensions of letters. *)
#[export] Instance memory : Collaborators Memory MemoryApi string string := {|
  readdirSync path w :=
    match at_path w path with
    | Some (Directory names) => Ok names
    | _ => throw (ENOENT path)
    end;
  statSync path w :=
    match at_path w path with
    | Some (File _) => Ok (mkStats true false)
    | Some (Directory _) => Ok (mkStats false true)
    | None => throw (ENOENT path)
    end;
  path_resolve segments := normalize (String.concat "/" segments);
  extname file := default "" (from_last_dot file);
  basename file ext := replace_suffix file ext "";
  new_RegExp source flags := Ok source;
  replace text source replacement :=
    if decide (source = "$") then text +:+ replacement
    else replace_suffix text (anchored source) replacement;
  isFile path w := (Ok (if at_path w path is Some (File _) then true else false), w);
  writeFile path content w :=
    match at_path w path with
    | Some (Directory _) => (throw (LibError ("EISDIR: illegal operation on a directory")), w)
    | _ => (Ok tt, <[normalize path := File content]> w)
    end;
  new_ApiModel root := mkMemoryApi root [] None;
  importModel := memory_importModel;
  saveADL api _ w := (Ok (api, 0), w);
  attic := api_attic;
  subscribeToMessages api := api;
  clean apiOutput atticOutput w := (Ok tt, delete (normalize atticOutput) (delete (normalize apiOutput) w));
  serialize api := Ok (String.concat newline (api_documents api).*1);
  serialize_attic text := Ok text
|}.

(** A folder of inputs: an OpenAPI file with text, one without, a file
    that is skipped. *)
Definition single_inputs : Memory :=
  {[ "/adl/test/scenarios/v3/single/input" :=
       Directory ["petstore.yaml"; "_draft.yaml"; "empty.json"; "shared"];
     "/adl/test/scenarios/v3/single/input/petstore.yaml" := File "openapi: 3.0.0";
     "/adl/test/scenarios/v3/single/input/_draft.yaml" := File "openapi: 3.0.1";
     "/adl/test/scenarios/v3/single/input/empty.json" := File "";
     "/adl/test/scenarios/v3/single/input/shared" := Directory [];
     "/adl/test/scenarios/v3/multiple" := Directory [] ]}.

(** A folder of folders: one with two OpenAPI files, and a file that is no
    folder. *)
Definition multiple_inputs : Memory :=
  {[ "/adl/test/scenarios/v3/single/input" := Directory [];
     "/adl/test/scenarios/v3/multiple" := Directory ["readme.md"; "keyvault"];
     "/adl/test/scenarios/v3/multiple/readme.md" := File "scenarios";
     "/adl/test/scenarios/v3/multiple/keyvault" := Directory ["input"];
     "/adl/test/scenarios/v3/multiple/keyvault/input" :=
       Directory ["keyvault.json"; "common.json"];
     "/adl/test/scenarios/v3/multiple/keyvault/input/keyvault.json" := File "";
     "/adl/test/scenarios/v3/multiple/keyvault/input/common.json" := File "" ]}.

(** ** Lemmas *)

Section io_lemmas.
Context {W : Type}.
Implicit Types (w : W).

Lemma IO_bind_inv {A B} (m : IO W A) (f : A -> IO W B) w b w'' :
  (m ≫= f) w = (Ok b, w'') -> exists a w', m w = (Ok a, w') /\ f a w' = (Ok b, w'').
Proof.
  unfold mbind, IO_bind. destruct (m w) as [[a|e] w']; [|done]. by exists a, w'.
Qed.

Lemma lift_inv {A} (r : res A) w a w' : lift r w = (Ok a, w') -> r = Ok a /\ w' = w.
Proof. by intros [= -> ->]. Qed.

Lemma IO_ret_inv {A} (a b : A) w w' : mret (M:=IO W) a w = (Ok b, w') -> b = a /\ w' = w.
Proof. by intros [= -> ->]. Qed.

(** A continuation that returns, and leaves the world alone, after every
    result of a computation can be left out. *)
Lemma IO_bind_skip {A} (m : IO W A) (f : A -> IO W unit) w :
  (forall a w', m w = (Ok a, w') -> f a w' = (Ok tt, w')) ->
  (m ≫= f) w = (m ≫= fun _ => mret tt) w.
Proof.
  intros Hf. unfold mbind, IO_bind. destruct (m w) as [[a|e] w'] eqn:Hm; [|done].
  by apply Hf.
Qed.

Lemma run_tests_app (tests tests' : list (Test W)) w :
  run_tests (tests ++ tests') w
  = let '(verdicts, w') := run_tests tests w in
    let '(verdicts', w'') := run_tests tests' w' in
    (verdicts ++ verdicts', w'').
Proof.
  revert w. induction tests as [|t tests IH]; intros w; simpl.
  - by destruct (run_tests tests' w).
  - destruct (body t w) as [verdict w1]. rewrite IH.
    destruct (run_tests tests w1) as [verdicts w2]. by destruct (run_tests tests' w2).
Qed.

(** A run reports one verdict per test, under its title, in order. *)
Lemma run_tests_titles (tests : list (Test W)) w :
  (run_tests tests w).1.*1 = title <$> tests.
Proof.
  revert w. induction tests as [|t tests IH]; intros w; simpl; [done|].
  destruct (body t w) as [verdict w1]. specialize (IH w1).
  destruct (run_tests tests w1) as [verdicts w2]. simpl in *. by f_equal.
Qed.

(** Tests with the same titles and bodies that agree have the same run. *)
Lemma run_tests_ext (tests tests' : list (Test W)) w :
  Forall2 (fun t t' => title t = title t' /\ forall w, body t w = body t' w) tests tests' ->
  run_tests tests w = run_tests tests' w.
Proof.
  intros H. revert w. induction H as [|t t' tests tests' [Ht Hb] _ IH]; intros w; simpl; [done|].
  rewrite Ht, Hb. destruct (body t' w) as [verdict w1]. by rewrite IH.
Qed.

End io_lemmas.

(** Unfolds the binds of a computation that returned. *)
Ltac io_inv :=
  repeat match goal with
  | H : mbind _ _ _ = (Ok _, _) |- _ => apply IO_bind_inv in H as (? & ? & ? & H)
  | H : mret _ _ = (Ok _, _) |- _ => apply IO_ret_inv in H as [H ->]; simplify_eq
  | H : lift _ _ = (Ok _, _) |- _ => apply lift_inv in H as [H ->]
  | H : context [let '(_, _) := ?p in _] |- _ => destruct p
  | u : unit |- _ => destruct u
  end.

Section harness_lemmas.
Context `{C : Collaborators W Api Model RegExp}.
Implicit Types (w : W) (api : Api) (errors : Errors).

(** [checkAttic] leaves the world alone when the model has no attic. *)
Lemma checkAttic_no_attic api errors atticOutput w :
  attic api = None -> checkAttic api errors atticOutput w = (Ok errors, w).
Proof. unfold checkAttic. by intros ->. Qed.

(** [checkAttic] gives the accumulator nothing. *)
Lemma checkAttic_errors api errors atticOutput w errors' w' :
  checkAttic api errors atticOutput w = (Ok errors', w') -> errors' = errors.
Proof. unfold checkAttic. destruct (attic api); intros H; io_inv; done. Qed.

(** The calls at the end of a test return the accumulator as it was
    created, and the last of them wrote the output. *)
Lemma emit_inv api apiOutput atticOutput w errors w' :
  emit api apiOutput atticOutput w = (Ok errors, w') ->
  errors = new_Errors /\ exists content w0, writeFile apiOutput content w0 = (Ok tt, w').
Proof.
  unfold emit. intros H. io_inv.
  match goal with Hc : checkAttic _ _ _ _ = _ |- _ => apply checkAttic_errors in Hc as -> end.
  eauto.
Qed.

(** Once the calls at the end of a test have returned, its assertions hold
    and leave the world alone. *)
Lemma verify_after_emit api apiOutput atticOutput w errors w' :
  AsyncIoLaws C ->
  emit api apiOutput atticOutput w = (Ok errors, w') ->
  verify apiOutput errors w' = (Ok tt, w').
Proof.
  intros Hlaws (-> & content & w0 & Hwritten)%emit_inv. unfold verify.
  unfold mbind, IO_bind. by rewrite (writeFile_isFile _ _ _ _ Hwritten).
Qed.

Lemma Processes_file_calls_emit inputRoot outputRoot file w apiOutput errors w' :
  Processes_file_calls inputRoot outputRoot file w = (Ok (apiOutput, errors), w') ->
  exists api atticOutput w0, emit api apiOutput atticOutput w0 = (Ok errors, w').
Proof.
  unfold Processes_file_calls. intros H. io_inv. eauto.
Qed.

Lemma Processes_folder_calls_emit inputRoot adlOutput folder w apiOutput errors w' :
  Processes_folder_calls inputRoot adlOutput folder w = (Ok (apiOutput, errors), w') ->
  exists api atticOutput w0, emit api apiOutput atticOutput w0 = (Ok errors, w').
Proof.
  unfold Processes_folder_calls. intros H. io_inv. eauto.
Qed.

(** A loop that skips the elements a test accepts keeps the others. *)
Lemma omap_skip {A B} (skip : A -> bool) (f : A -> B) (l : list A) :
  omap (fun x => if skip x then None else Some (f x)) l
  = f <$> filter (fun x => skip x = false) l.
Proof.
  induction l as [|x l IH]; [done|]. cbn [omap list_omap]. destruct (skip x) eqn:Hskip.
  - by rewrite filter_cons_False by congruence.
  - rewrite filter_cons_True, fmap_cons by done. by f_equal.
Qed.

(** The names [where_toArray] keeps are those the test accepts, in order. *)
Lemma where_toArray_filter {A} (test : A -> res bool) (array kept : list A) :
  where_toArray test array = Ok kept ->
  kept = filter (fun each => test each = Ok true) array.
Proof.
  revert kept. induction array as [|each rest IH]; intros kept; simpl; [by intros [= <-]|].
  destruct (test each) as [keep|] eqn:Htest; [|done]. simpl.
  destruct (where_toArray test rest) as [others|]; [|done]. intros [= <-].
  rewrite (IH others eq_refl). destruct keep.
  - by rewrite filter_cons_True by done.
  - by rewrite filter_cons_False by congruence.
Qed.

End harness_lemmas.

(** The world in memory satisfies the laws. *)
#[export] Instance memory_laws : AsyncIoLaws memory.
Proof.
  split. intros path content w w' H.
  assert (at_path w' path = Some (File content)) as Hfile.
  { revert H. simpl. unfold at_path.
    destruct (w !! normalize path) as [[text|names]|]; intros [= <-]; apply lookup_insert_eq. }
  change (isFile path w') with (Ok (if at_path w' path is Some (File _) then true else false), w').
  by rewrite Hfile.
Qed.

(** ** Theorems *)

Section harness_theorems.
Context `{C : Collaborators W Api Model RegExp}.
Implicit Types (w : W) (api : Api) (errors : Errors).

(** (what a test asserts).  The test of a file passes exactly when its
    calls return, and leaves the world they leave: with a file system on
    which a path that was written is a file, neither assertion of the test
    can fail.  The output is asserted to be there after the call that
    wrote it, and the accumulator of errors is asked for its count as it was
    created, every check of the attic being commented out. *)
Theorem Processes_file_passes inputRoot outputRoot file w :
  AsyncIoLaws C ->
  Processes_file inputRoot outputRoot file w
  = (Processes_file_calls inputRoot outputRoot file ≫= fun _ => mret tt) w.
Proof.
  intros Hlaws. unfold Processes_file. apply IO_bind_skip.
  intros [apiOutput errors] w' (api & atticOutput & w0 & Hemit)%Processes_file_calls_emit.
  by apply (verify_after_emit api apiOutput atticOutput w0).
Qed.

(** (what a test of a folder asserts).  The same for the test of a
    folder. *)
Theorem Processes_folder_passes inputRoot adlOutput folder w :
  AsyncIoLaws C ->
  Processes_folder inputRoot adlOutput folder w
  = (Processes_folder_calls inputRoot adlOutput folder ≫= fun _ => mret tt) w.
Proof.
  intros Hlaws. unfold Processes_folder. apply IO_bind_skip.
  intros [apiOutput errors] w' (api & atticOutput & w0 & Hemit)%Processes_folder_calls_emit.
  by apply (verify_after_emit api apiOutput atticOutput w0).
Qed.

(** (the tests that are registered).  The tests of the single files are
    one per regular file of the input folder whose name does not start with
    an underscore, in the order of the folder, as the folder is when the
    suite is collected. *)
Theorem Load_Single_OAI3_files_titles dirname w tests :
  Load_Single_OAI3_files dirname w = Ok tests ->
  exists files, files_in (scenarios dirname +:+ "/single/input") w = Ok files /\
    title <$> tests
    = (fun file => "Processes '" +:+ file +:+ "'")
      <$> filter (fun file => startsWith file "_" = false) files.
Proof.
  unfold Load_Single_OAI3_files.
  destruct (files_in _ w) as [files|]; [|done]. intros [= <-]. exists files. split; [done|].
  by rewrite omap_skip, <- list_fmap_compose.
Qed.

(** (the tests of the folders).  The tests of the folders are one per
    folder of [multiple], in the order of the folder. *)
Theorem Load_Multiple_OAI3_files_titles dirname w tests :
  Load_Multiple_OAI3_files dirname w = Ok tests ->
  exists folders, folders_in (scenarios dirname +:+ "/multiple") w = Ok folders /\
    title <$> tests = (fun folder => "Processes '" +:+ folder +:+ "'") <$> folders.
Proof.
  unfold Load_Multiple_OAI3_files.
  destruct (folders_in _ w) as [folders|]; [|done]. intros [= <-]. exists folders.
  split; [done|]. by rewrite <- list_fmap_compose.
Qed.

End harness_theorems.

(** ** The theorems in the world in memory *)

(** The test of [petstore.yaml] passes when its calls return. *)
Lemma Processes_file_passes_witness :
  Processes_file "/adl/test/scenarios/v3/single/input" "/adl/test/scenarios/v3/single/output"
    "petstore.yaml" single_inputs
  = (Processes_file_calls "/adl/test/scenarios/v3/single/input"
       "/adl/test/scenarios/v3/single/output" "petstore.yaml" ≫= fun _ => mret tt)
      single_inputs.
Proof.
  exact (Processes_file_passes (C:=memory) _ _ _ _ memory_laws).
Defined.

(** The run of the file on the folder of inputs: the draft is skipped,
    both tests pass, the model of [petstore.yaml] is written beside its
    attic and the model of [empty.json] without one. *)
Example load_openapi3_single_inputs :
  let run := load_openapi3 "/adl/core/dist/test" single_inputs in
  let output := "/adl/test/scenarios/v3/single/output" in
  fst <$> run = Ok [("Processes 'petstore.yaml'", Ok tt); ("Processes 'empty.json'", Ok tt)] /\
  (fun r => r.2 !! (output +:+ "/petstore/petstore.api.yaml")) <$> run
  = Ok (Some (File "petstore.yaml")) /\
  (fun r => r.2 !! (output +:+ "/petstore/petstore.attic.yaml")) <$> run
  = Ok (Some (File "openapi: 3.0.0")) /\
  (fun r => r.2 !! (output +:+ "/empty/empty.api.yaml")) <$> run
  = Ok (Some (File "empty.json")) /\
  (fun r => r.2 !! (output +:+ "/empty/empty.attic.yaml")) <$> run = Ok None.
Proof. by vm_compute. Qed.

(** The run of the file on the folder of folders: the test of [keyvault]
    imports both files and writes the model beside [input]. *)
Example load_openapi3_multiple_inputs :
  let run := load_openapi3 "/adl/core/dist/test" multiple_inputs in
  fst <$> run = Ok [("Processes 'keyvault'", Ok tt)] /\
  (fun r => r.2 !! "/adl/test/scenarios/v3/multiple/keyvault/output/keyvault.api.yaml") <$> run
  = Ok (Some (File ("keyvault.json" +:+ newline +:+ "common.json"))).
Proof. by vm_compute. Qed.
